(** * ArrovBackend: the e-invoice credential cache and the IRN handlers

    A shallow embedding of [src/lib/tokenCache.js] (both versions kept in
    the repository), of the IRN error normalisation and of the
    generate-IRN and cancel-IRN handlers, with the properties the
    specification states about them. *)

From Stdlib Require Import ZArith String Ascii List Bool Lia DecimalString.
Import ListNotations.
Local Open Scope string_scope.
Local Open Scope Z_scope.
Set Warnings "-register-all".

(** ** JavaScript values *)

(** The values that flow through the cache and the handlers are parsed
    JSON plus [undefined].  Numbers are integers here: the code only
    compares them with [1] and tests them for truthiness.  Objects keep
    their keys in insertion order. *)
Inductive JsVal : Type :=
| JUndefined
| JNull
| JBool (b : bool)
| JNum (n : Z)
| JStr (s : string)
| JArr (items : list JsVal)
| JObj (fields : list (string * JsVal)).

(** ToBoolean: what [if (v)], [!v], [v && w] and [v || w] look at. *)
Definition truthy (v : JsVal) : bool :=
  match v with
  | JUndefined | JNull => false
  | JBool b => b
  | JNum n => negb (n =? 0)
  | JStr s => negb (s =? "")%string
  | JArr _ | JObj _ => true
  end.

(** [null] and [undefined], the values without properties. *)
Definition nullish (v : JsVal) : bool :=
  match v with
  | JUndefined | JNull => true
  | _ => false
  end.

(** [a || b] and [a && b] on values. *)
Definition js_or (a b : JsVal) : JsVal := if truthy a then a else b.
Definition js_and (a b : JsVal) : JsVal := if truthy a then b else a.

(** Strict equality against a primitive, as in [x !== 1],
    [x !== "NON BILLING"] and [x !== null].  Objects and arrays are equal
    only to themselves, and every comparison in the handlers has a
    literal on one side. *)
Definition js_strict_eq (a b : JsVal) : bool :=
  match a, b with
  | JUndefined, JUndefined => true
  | JNull, JNull => true
  | JBool x, JBool y => Bool.eqb x y
  | JNum x, JNum y => x =? y
  | JStr x, JStr y => (x =? y)%string
  | _, _ => false
  end.

(** SameValueZero, the equality of [Set]: as strict equality on the
    values modelled here; two objects or arrays taken from different
    places of a parsed response are never the same object. *)
Definition sameValueZero (a b : JsVal) : bool := js_strict_eq a b.

(** Own property lookup in an object literal or a parsed object. *)
Fixpoint assoc (k : string) (fields : list (string * JsVal)) : option JsVal :=
  match fields with
  | [] => None
  | (k', v) :: rest => if (k =? k')%string then Some v else assoc k rest
  end.

(** What a computation yields: a value, or a thrown error, represented
    by its [message]. *)
Inductive Res (A : Type) : Type :=
| Ok (a : A)
| Throw (message : JsVal).
Arguments Ok {A} a.
Arguments Throw {A} message.

Definition res_bind {A B : Type} (m : Res A) (f : A -> Res B) : Res B :=
  match m with
  | Ok a => f a
  | Throw e => Throw e
  end.

(** The message of the TypeError that Node raises on [null.k] and
    [undefined.k]. *)
Definition cannot_read (what k : string) : JsVal :=
  JStr ("Cannot read properties of " ++ what ++ " (reading '" ++ k ++ "')")%string.

(** [v.k].  Reading a property of [null] or [undefined] throws; none of
    the property names the handlers read is defined on strings, numbers,
    booleans or arrays, where the access gives [undefined]. *)
Definition prop (v : JsVal) (k : string) : Res JsVal :=
  match v with
  | JUndefined => Throw (cannot_read "undefined" k)
  | JNull => Throw (cannot_read "null" k)
  | JObj fields =>
      Ok (match assoc k fields with Some x => x | None => JUndefined end)
  | _ => Ok JUndefined
  end.

(** [v?.k]: as [v.k], with [undefined] for a nullish [v]. *)
Definition prop_opt (v : JsVal) (k : string) : JsVal :=
  match prop v k with Ok x => x | Throw _ => JUndefined end.

(** Decimal text of an integer. *)
Definition decimal (n : Z) : string := NilEmpty.string_of_int (Z.to_int n).

(** The text of a value, as template literals and [join] give it, for
    the values that have one (see [printable]).  Inside an array, [null]
    and [undefined] print as the empty string. *)
Fixpoint to_string (v : JsVal) : string :=
  match v with
  | JUndefined => "undefined"
  | JNull => "null"
  | JBool true => "true"
  | JBool false => "false"
  | JNum n => decimal n
  | JStr s => s
  | JArr items =>
      String.concat ","
        (map (fun x => match x with
                       | JUndefined | JNull => ""
                       | _ => to_string x
                       end) items)
  | JObj _ => "[object Object]"
  end.

(** The values that ToPrimitive converts.  An object of parsed data gets
    [toString] and [valueOf] from [Object.prototype], and the first gives
    "[object Object]", unless a key [toString] of its own hides it: a
    value of parsed data is never a function, and the [valueOf] that is
    left returns the object itself, so that the conversion ends in a
    TypeError.  An array converts its entries. *)
Fixpoint printable (v : JsVal) : bool :=
  match v with
  | JArr items => forallb printable items
  | JObj fields =>
      match assoc "toString" fields with
      | Some _ => false
      | None => true
      end
  | _ => true
  end.

(** The message of that TypeError. *)
Definition cannot_convert : JsVal := JStr "Cannot convert object to primitive value".

(** ToString: what a template literal does to each value it
    interpolates. *)
Definition ToString (v : JsVal) : Res string :=
  if printable v then Ok (to_string v) else Throw cannot_convert.

(** ToPrimitive, as [Number], [+] and [>=] apply it to an operand, for
    its effect. *)
Definition ToPrimitive (v : JsVal) : Res unit :=
  if printable v then Ok tt else Throw cannot_convert.

(** A template literal evaluated for a log line: the text is dropped,
    the conversion of the interpolated values is not. *)
Definition interpolate (values : list JsVal) : Res unit :=
  if forallb printable values then Ok tt else Throw cannot_convert.

(** The text one entry adds to a [join]. *)
Definition item_text (x : JsVal) : string :=
  match x with
  | JUndefined | JNull => ""
  | _ => to_string x
  end.

(** [items.join(sep)]: every entry is converted, then the texts are put
    together. *)
Definition join (sep : string) (items : list JsVal) : Res string :=
  if forallb printable items then Ok (String.concat sep (map item_text items))
  else Throw cannot_convert.

(** [[...new Set(items)]]: the values in the order in which [Set] first
    took them in. *)
Definition set_add (seen : list JsVal) (x : JsVal) : list JsVal :=
  if existsb (sameValueZero x) seen then seen else seen ++ [x].

Definition unique (items : list JsVal) : list JsVal :=
  fold_left set_add items [].

(** An entry already taken in: some value of [seen] is the same. *)
Definition taken (seen : list JsVal) (x : JsVal) : bool :=
  existsb (sameValueZero x) seen.

(** [s.includes(needle)]. *)
Fixpoint includes (needle s : string) : bool :=
  String.prefix needle s
  || match s with
     | EmptyString => false
     | String _ rest => includes needle rest
     end.

(** ** Time *)

(** [Date.now()]: milliseconds since the epoch.  Every function that
    reads the clock takes the reading as an argument. *)
Definition Time := Z.

(** An expiry slot holds [null] or a number. *)
Definition Expiry := option Time.

(** ToNumber on an expiry slot, as the relational operators apply it:
    [null] counts as [0]. *)
Definition expiry_number (e : Expiry) : Z :=
  match e with Some t => t | None => 0 end.

(** ToBoolean on an expiry slot: [null] and [0] are falsy. *)
Definition expiry_truthy (e : Expiry) : bool :=
  match e with Some t => negb (t =? 0) | None => false end.

(** ** The credential cache, first version (tokenCache.js, lines 1-66) *)

Module TokenCache.

Record Cache : Type := mkCache {
  accessToken : JsVal;
  accessTokenExpiry : Expiry;
  authToken : JsVal;
  sek : JsVal;
  userName : JsVal;
  authTokenExpiry : Expiry
}.

(** The module-level [cache] object as the process starts. *)
Definition cache0 : Cache :=
  mkCache JNull None JNull JNull JNull None.

Definition TOKEN_VALIDITY_MS : Z := 360 * 60 * 1000.
Definition FORCE_REFRESH_WINDOW_MS : Z := 10 * 60 * 1000.
Arguments TOKEN_VALIDITY_MS : simpl never.
Arguments FORCE_REFRESH_WINDOW_MS : simpl never.

Definition getAccessToken (cache : Cache) (now : Time) : JsVal :=
  if truthy (accessToken cache)
     && (expiry_number (accessTokenExpiry cache) >? now)
  then accessToken cache
  else JNull.

Definition setAccessToken (token : JsVal) (now : Time) (cache : Cache) : Cache :=
  mkCache token (Some (now + TOKEN_VALIDITY_MS))
          (authToken cache) (sek cache) (userName cache)
          (authTokenExpiry cache).

Definition shouldForceRefresh (cache : Cache) (now : Time) : bool :=
  if negb (expiry_truthy (accessTokenExpiry cache)) then false
  else
    let timeRemaining := expiry_number (accessTokenExpiry cache) - now in
    (timeRemaining >? 0) && (timeRemaining <=? FORCE_REFRESH_WINDOW_MS).

(** The object literal [getAuthData] returns. *)
Definition authDataObject (a s u : JsVal) : JsVal :=
  JObj [("authToken", a); ("sek", s); ("userName", u)].

Definition getAuthData (cache : Cache) (now : Time) : JsVal :=
  if truthy (authToken cache)
     && expiry_truthy (authTokenExpiry cache)
     && (expiry_number (authTokenExpiry cache) >? now)
  then authDataObject (authToken cache) (sek cache) (userName cache)
  else JNull.

Definition setAuthData (a s u : JsVal) (now : Time) (cache : Cache) : Cache :=
  mkCache (accessToken cache) (accessTokenExpiry cache)
          a s u (Some (now + TOKEN_VALIDITY_MS)).

Definition clearTokenCache (cache : Cache) : Cache := cache0.

(** *** Histories of cache operations *)

(** One call of a mutating export; the pair in a history gives the
    clock reading at the call. *)
Inductive CacheOp : Type :=
| OpSetAccessToken (token : JsVal)
| OpSetAuthData (a s u : JsVal)
| OpClearTokenCache.

Definition apply_op (cache : Cache) (e : Time * CacheOp) : Cache :=
  match snd e with
  | OpSetAccessToken token => setAccessToken token (fst e) cache
  | OpSetAuthData a s u => setAuthData a s u (fst e) cache
  | OpClearTokenCache => clearTokenCache cache
  end.

(** The cache after a history, oldest call first. *)
Definition run (ops : list (Time * CacheOp)) : Cache :=
  fold_left apply_op ops cache0.

(** What the history says about the access token, in the words of the
    specification: the latest [setAccessToken] that no later clear has
    undone, with the time of the call. *)
Definition track_access (last : option (Time * JsVal)) (e : Time * CacheOp)
  : option (Time * JsVal) :=
  match snd e with
  | OpSetAccessToken token => Some (fst e, token)
  | OpSetAuthData _ _ _ => last
  | OpClearTokenCache => None
  end.

Definition last_access_set (ops : list (Time * CacheOp)) : option (Time * JsVal) :=
  fold_left track_access ops None.

(** What [run] leaves in the access-token slots, read off the history. *)
Definition access_slots_agree (last : option (Time * JsVal)) (cache : Cache) : Prop :=
  match last with
  | Some (t, token) =>
      accessToken cache = token
      /\ accessTokenExpiry cache = Some (t + TOKEN_VALIDITY_MS)
  | None => accessToken cache = JNull /\ accessTokenExpiry cache = None
  end.

(** "The token was set strictly less than the validity window ago", as
    the specification words it: the latest [setAccessToken] still
    standing was called fewer than [TOKEN_VALIDITY_MS] milliseconds
    before the query. *)
Definition token_set_within_window (ops : list (Time * CacheOp)) (now : Time) : Prop :=
  exists t token,
    last_access_set ops = Some (t, token)
    /\ now - t < TOKEN_VALIDITY_MS.

(** The same for a call that stored a truthy value, the only kind the
    guard [cache.accessToken && ...] lets through. *)
Definition truthy_token_set_within_window (ops : list (Time * CacheOp)) (now : Time)
  : Prop :=
  exists t token,
    last_access_set ops = Some (t, token)
    /\ truthy token = true
    /\ now - t < TOKEN_VALIDITY_MS.

(** The claim about [shouldForceRefresh] as the specification words it:
    a token was set and the time elapsed since lies in the open interval
    from [TOKEN_VALIDITY_MS - FORCE_REFRESH_WINDOW_MS] to
    [TOKEN_VALIDITY_MS]. *)
Definition elapsed_in_open_window (ops : list (Time * CacheOp)) (now : Time) : Prop :=
  exists t token,
    last_access_set ops = Some (t, token)
    /\ TOKEN_VALIDITY_MS - FORCE_REFRESH_WINDOW_MS < now - t
    /\ now - t < TOKEN_VALIDITY_MS.

(** The same with the lower end included, as the comparison
    [timeRemaining <= FORCE_REFRESH_WINDOW_MS] has it. *)
Definition elapsed_in_refresh_window (ops : list (Time * CacheOp)) (now : Time) : Prop :=
  exists t token,
    last_access_set ops = Some (t, token)
    /\ TOKEN_VALIDITY_MS - FORCE_REFRESH_WINDOW_MS <= now - t
    /\ now - t < TOKEN_VALIDITY_MS.

End TokenCache.

(** ** The credential cache, second version (tokenCache.js, lines 67-129) *)

Module TokenCacheB.

Record Cache : Type := mkCache {
  accessToken : JsVal;
  expiresAt : Expiry;
  authToken : JsVal;
  sek : JsVal;
  userName : JsVal;
  authExpiresAt : Expiry
}.

Definition tokenCache0 : Cache :=
  mkCache JNull None JNull JNull JNull None.

Definition TOKEN_VALIDITY_MS : Z := 60 * 60 * 1000.
Definition FORCE_REFRESH_THRESHOLD_MS : Z := 10 * 60 * 1000.
Arguments TOKEN_VALIDITY_MS : simpl never.
Arguments FORCE_REFRESH_THRESHOLD_MS : simpl never.

Definition getAccessToken (tokenCache : Cache) (now : Time) : JsVal :=
  if truthy (accessToken tokenCache)
     && (expiry_number (expiresAt tokenCache) >? now)
  then accessToken tokenCache
  else JNull.

Definition setAccessToken (token : JsVal) (now : Time) (tokenCache : Cache) : Cache :=
  mkCache token (Some (now + TOKEN_VALIDITY_MS))
          (authToken tokenCache) (sek tokenCache) (userName tokenCache)
          (authExpiresAt tokenCache).

Definition shouldForceRefresh (tokenCache : Cache) (now : Time) : bool :=
  if negb (expiry_truthy (expiresAt tokenCache)) then false
  else
    let timeUntilExpiry := expiry_number (expiresAt tokenCache) - now in
    (timeUntilExpiry >? 0) && (timeUntilExpiry <=? FORCE_REFRESH_THRESHOLD_MS).

Definition getAuthData (tokenCache : Cache) (now : Time) : JsVal :=
  if truthy (authToken tokenCache)
     && expiry_truthy (authExpiresAt tokenCache)
     && (expiry_number (authExpiresAt tokenCache) >? now)
  then JObj [("authToken", authToken tokenCache);
             ("sek", sek tokenCache);
             ("userName", userName tokenCache)]
  else JNull.

Definition setAuthData (a s u : JsVal) (now : Time) (tokenCache : Cache) : Cache :=
  mkCache (accessToken tokenCache) (expiresAt tokenCache)
          a s u (Some (now + TOKEN_VALIDITY_MS)).

Definition clearCache (tokenCache : Cache) : Cache := tokenCache0.

End TokenCacheB.

(** ** The IRN failure message (generateIrnRoute.js, lines 418-471) *)

Module IrnError.
Section Normalisation.

(** [JSON.stringify], used on the entries that carry no message. *)
Variable JSON_stringify : JsVal -> JsVal.

(** The callback of both [map] calls: the message of one entry of
    [ErrorDetails] or [ValidationErrors]. *)
Definition entryMessage (err : JsVal) : Res JsVal :=
  match err with
  | JStr _ => Ok err
  | _ =>
      res_bind (prop err "ErrorMessage") (fun em =>
      if truthy em then Ok em
      else
        res_bind (prop err "message") (fun m =>
        if truthy m then Ok m
        else Ok (JSON_stringify err)))
  end.

(** [items.map(callback)], stopping at the first entry on which the
    callback throws. *)
Fixpoint mapMessages (items : list JsVal) : Res (list JsVal) :=
  match items with
  | [] => Ok []
  | err :: rest =>
      res_bind (entryMessage err) (fun m =>
      res_bind (mapMessages rest) (fun ms => Ok (m :: ms)))
  end.

(** The error code of the first entry: [firstError && firstError.ErrorCode]
    replaces the [null] code when it is truthy. *)
Definition firstErrorCode (items : list JsVal) : JsVal :=
  match items with
  | firstError :: _ =>
      if truthy firstError && truthy (prop_opt firstError "ErrorCode")
      then prop_opt firstError "ErrorCode"
      else JNull
  | [] => JNull
  end.

(** The chain of tests that fills [errorDetails] and [errorCode] from a
    response whose [Irn] is falsy. *)
Definition irnFailure (irnData : JsVal) : Res (JsVal * JsVal) :=
  res_bind (prop irnData "ErrorMessage") (fun rootMessage =>
  if truthy rootMessage then
    res_bind (prop irnData "ErrorCode") (fun code => Ok (rootMessage, code))
  else
    res_bind (prop irnData "ErrorDetails") (fun details =>
    match details with
    | JArr ((_ :: _) as items) =>
        res_bind (mapMessages items) (fun errorMessages =>
        res_bind (join ", " (unique errorMessages)) (fun joined =>
        Ok (JStr joined, firstErrorCode items)))
    | _ =>
        res_bind (prop irnData "errorMessage") (fun lower =>
        if truthy lower then Ok (lower, JNull)
        else
          res_bind (prop irnData "ValidationErrors") (fun validation =>
          match validation with
          | JArr items =>
              res_bind (mapMessages items) (fun validationMessages =>
              res_bind (join ", " (unique validationMessages)) (fun joined =>
              Ok (JStr joined, JNull)))
          | _ =>
              res_bind (prop irnData "message") (fun m =>
              if truthy m then Ok (m, JNull)
              else Ok (JStr "IRN generation was unsuccessful", JNull))
          end))
    end)).

(** *** The same in the words of the specification *)

(** The message extracted from one entry. *)
Definition message_of (entry : JsVal) : JsVal :=
  match entry with
  | JStr _ => entry
  | _ =>
      if truthy (prop_opt entry "ErrorMessage") then prop_opt entry "ErrorMessage"
      else if truthy (prop_opt entry "message") then prop_opt entry "message"
      else JSON_stringify entry
  end.

(** Deduplication: each message once, at the place of its first
    occurrence. *)
Fixpoint dedup (messages : list JsVal) : list JsVal :=
  match messages with
  | [] => []
  | m :: rest =>
      m :: filter (fun x => negb (sameValueZero x m)) (dedup rest)
  end.

(** Messages extracted, deduplicated and joined with ", ". *)
Definition joined_messages (entries : list JsVal) : JsVal :=
  JStr (String.concat ", " (map item_text (dedup (map message_of entries)))).

(** One field path: the message it yields on this response, if any. *)
Definition Path := JsVal -> option JsVal.

Definition flat_path (k : string) : Path := fun irnData =>
  if truthy (prop_opt irnData k) then Some (prop_opt irnData k) else None.

Definition path_ErrorDetails : Path := fun irnData =>
  match prop_opt irnData "ErrorDetails" with
  | JArr ((_ :: _) as entries) => Some (joined_messages entries)
  | _ => None
  end.

Definition path_ValidationErrors : Path := fun irnData =>
  match prop_opt irnData "ValidationErrors" with
  | JArr entries => Some (joined_messages entries)
  | _ => None
  end.

(** The precedence order. *)
Definition precedence : list Path :=
  [ flat_path "ErrorMessage";
    path_ErrorDetails;
    flat_path "errorMessage";
    path_ValidationErrors;
    flat_path "message" ].

Definition fallback_message : JsVal := JStr "IRN generation was unsuccessful".

(** Try the paths in order; the first that yields a message wins. *)
Fixpoint first_message (paths : list Path) (irnData : JsVal) : JsVal :=
  match paths with
  | [] => fallback_message
  | p :: rest =>
      match p irnData with
      | Some m => m
      | None => first_message rest irnData
      end
  end.

Definition normalized_message (irnData : JsVal) : JsVal :=
  first_message precedence irnData.

(** *** The answers the chain gets through *)

(** The entries the chain maps over: those of a non-empty [ErrorDetails]
    when no root [ErrorMessage] comes first, those of [ValidationErrors]
    when neither of the two nor [errorMessage] does. *)
Definition tried_entries (irnData : JsVal) : list JsVal :=
  if truthy (prop_opt irnData "ErrorMessage") then []
  else
    match prop_opt irnData "ErrorDetails" with
    | JArr ((_ :: _) as entries) => entries
    | _ =>
        if truthy (prop_opt irnData "errorMessage") then []
        else
          match prop_opt irnData "ValidationErrors" with
          | JArr entries => entries
          | _ => []
          end
    end.

(** An entry the chain can use: it is not [null] or [undefined], whose
    properties cannot be read, and its message has a string
    conversion. *)
Definition usable_entry (entry : JsVal) : bool :=
  negb (nullish entry) && printable (message_of entry).

(** A failure payload the chain gets through without a TypeError: the
    answer itself is not [null], and every entry it maps over is
    usable.  Arrays of strings and of objects with string messages, the
    shapes the specification lists, are of this kind. *)
Definition failure_payload (irnData : JsVal) : bool :=
  negb (nullish irnData) && forallb usable_entry (tried_entries irnData).

End Normalisation.
End IrnError.

(** ** Objects built by the handlers *)

(** [{...o, k: v}]: an existing key keeps its place and takes the new
    value, a new key goes last. *)
Fixpoint obj_set (k : string) (v : JsVal) (fields : list (string * JsVal))
  : list (string * JsVal) :=
  match fields with
  | [] => [(k, v)]
  | (k', v') :: rest =>
      if (k =? k')%string then (k, v) :: rest
      else (k', v') :: obj_set k v rest
  end.

(** A run of property definitions, left to right. *)
Definition obj_extend (fields more : list (string * JsVal)) : list (string * JsVal) :=
  fold_left (fun acc kv => obj_set (fst kv) (snd kv) acc) more fields.

(** [const { k, ...rest } = o]: the fields of [rest]. *)
Definition obj_without (k : string) (fields : list (string * JsVal))
  : list (string * JsVal) :=
  filter (fun kv => negb (fst kv =? k)%string) fields.

(** The own enumerable properties a spread copies.  The JSON body parser
    hands the handlers an object or an array. *)
Definition own_fields (v : JsVal) : list (string * JsVal) :=
  match v with
  | JObj fields => fields
  | JArr items =>
      combine (map (fun i => decimal (Z.of_nat i)) (seq 0 (length items))) items
  | _ => []
  end.

(** ** The world of a request handler *)

Record Response : Type := mkResponse {
  status_code : Z;
  payload : JsVal
}.

(** What a handler does to the outside: a [fetch] to the e-invoice API or
    a call to the data store. *)
Inductive Event : Type :=
| EvFetch (url : string) (headers : list (string * JsVal)) (body : JsVal)
| EvStore (operation : string) (argument : JsVal).

Record World : Type := mkWorld {
  cache : TokenCache.Cache;
  events : list Event
}.

(** A statement of the handler: it goes on with a value, ends the request
    with [return res...json(...)], or throws. *)
Inductive Step (A : Type) : Type :=
| Next (a : A)
| Respond (r : Response)
| Raise (message : JsVal).
Arguments Next {A} a.
Arguments Respond {A} r.
Arguments Raise {A} message.

Definition M (A : Type) : Type := World -> Step A * World.

Definition ret {A : Type} (a : A) : M A := fun w => (Next a, w).

Definition bind {A B : Type} (m : M A) (f : A -> M B) : M B :=
  fun w =>
    match m w with
    | (Next a, w') => f a w'
    | (Respond r, w') => (Respond r, w')
    | (Raise e, w') => (Raise e, w')
    end.

Notation "x <- m ;; k" := (bind m (fun x => k))
  (at level 61, m at next level, right associativity).
Notation "m ;;; k" := (bind m (fun _ => k))
  (at level 61, right associativity).

Definition respond {A : Type} (code : Z) (json : JsVal) : M A :=
  fun w => (Respond (mkResponse code json), w).

Definition lift {A : Type} (r : Res A) : M A :=
  fun w => match r with Ok a => (Next a, w) | Throw e => (Raise e, w) end.

Definition emit (e : Event) : M unit :=
  fun w => (Next tt, mkWorld (cache w) (events w ++ [e])).

Definition readCache {A : Type} (f : TokenCache.Cache -> A) : M A :=
  fun w => (Next (f (cache w)), w).

Definition writeCache (f : TokenCache.Cache -> TokenCache.Cache) : M unit :=
  fun w => (Next tt, mkWorld (f (cache w)) (events w)).

(** The [try ... catch] around a handler body: a thrown error becomes the
    given response. *)
Definition handle (m : M Response) (onError : JsVal -> Response) : World -> Response * World :=
  fun w =>
    match m w with
    | (Next r, w') => (r, w')
    | (Respond r, w') => (r, w')
    | (Raise e, w') => (onError e, w')
    end.

(** What the data-store client resolves to. *)
Record DbResult : Type := mkDbResult {
  data : JsVal;
  error : JsVal
}.

(** What [fetch] resolves to.  [json] throws when the body does not
    parse. *)
Record HttpResponse : Type := mkHttpResponse {
  ok : bool;
  status : JsVal;
  statusText : string;
  contentType : option string;
  json : Res JsVal;
  text : string
}.

(** Everything one request meets: its body, the process environment, the
    clock readings of the cache calls, the time stamp put in responses,
    and the answers of the data store and of the e-invoice API.  A
    handler issues each query and each remote call at most once, so one
    answer per call site describes any collaborator. *)
Record Env : Type := mkEnv {
  req_body : JsVal;
  process_env : string -> JsVal;
  timestamp : JsVal;
  now_getAccessToken : Time;
  now_setAccessToken : Time;
  now_getAuthData : Time;
  now_shouldForceRefresh : Time;
  now_setAuthData : Time;
  rpc_generate_invoice_number : DbResult;
  customers_single : DbResult;
  delivery_addresses_single : DbResult;
  units_single : DbResult;
  grades_maybeSingle : DbResult;
  invoices_insert : DbResult;
  invoices_single : DbResult;
  invoices_update : DbResult;
  canceled_invoices_insert : DbResult;
  orders_single : DbResult;
  orders_update : DbResult;
  fetch_authenticate : Res HttpResponse;
  fetch_enhanced_authentication : Res HttpResponse;
  fetch_generate_irn : Res HttpResponse;
  fetch_cancel_irn : Res HttpResponse
}.

Definition AUTHENTICATE_URL : string :=
  "https://staging.fynamics.co.in/api/authenticate".
Definition ENHANCED_AUTHENTICATION_URL : string :=
  "https://staging.fynamics.co.in/api/einvoice/enhanced/authentication".
Definition GENERATE_IRN_URL : string :=
  "https://staging.fynamics.co.in/api/einvoice/enhanced/generate-irn".
Definition CANCEL_IRN_URL : string :=
  "https://staging.fynamics.co.in/api/einvoice/enhanced/cancel-irn".

(** [await fetch(url, {method: "POST", headers, body})]. *)
Definition fetch (url : string) (headers : list (string * JsVal)) (body : JsVal)
  (answer : Res HttpResponse) : M HttpResponse :=
  emit (EvFetch url headers body) ;;; lift answer.

(** A data-store call. *)
Definition store (operation : string) (argument : JsVal) (answer : DbResult)
  : M DbResult :=
  emit (EvStore operation argument) ;;; ret answer.

(** The text of [`Bearer ${accessToken}`], for an access token that has
    a string conversion, as the strings the API hands out. *)
Definition bearer (accessToken : JsVal) : JsVal :=
  JStr ("Bearer " ++ to_string accessToken)%string.

(** The remote calls among the events, by URL. *)
Definition fetched (url : string) (e : Event) : bool :=
  match e with
  | EvFetch u _ _ => (u =? url)%string
  | EvStore _ _ => false
  end.

Definition is_fetch (e : Event) : bool :=
  match e with EvFetch _ _ _ => true | EvStore _ _ => false end.

Definition calls_to (url : string) (evs : list Event) : nat :=
  length (filter (fetched url) evs).

Definition remote_calls (evs : list Event) : list Event := filter is_fetch evs.
Arguments calls_to : simpl never.
Arguments remote_calls : simpl never.

(** ** The generate-IRN handler (generateIrnRoute.js, lines 18-618) *)

Module GenerateIrn.
Section Handler.

(** Built-ins whose results the handler only passes on. *)
Variable JSON_stringify : JsVal -> JsVal.
Variable Number : JsVal -> JsVal.
Variable newDate : JsVal -> JsVal.
Variable js_add : JsVal -> JsVal -> JsVal.
Variable js_ge : JsVal -> JsVal -> bool.

(** Lines 140-184: product description, state codes and
    [generateInvoiceJSONB], a field mapping over the request body, the
    invoice number and the rows read so far (customer, delivery address
    when one was looked up, unit, grade).  It can throw, for one on a
    customer without [gstin]. *)
Variable buildInvoiceData :
  JsVal -> JsVal -> JsVal -> option DbResult -> JsVal -> JsVal -> Res JsVal.

Variable env : Env.

Definition requiredEnvVars : list string :=
  [ "EINVOICE_CLIENT_ID"; "EINVOICE_CLIENT_SECRET"; "EINVOICE_USERNAME";
    "EINVOICE_PASSWORD"; "GSTIN" ].

Definition missingEnvVars : list string :=
  filter (fun envVar => negb (truthy (process_env env envVar))) requiredEnvVars.

(** [o.k1 || o.k2 || ... || fallback]. *)
Fixpoint first_truthy (o : JsVal) (keys : list string) (fallback : JsVal) : Res JsVal :=
  match keys with
  | [] => Ok fallback
  | k :: rest =>
      res_bind (prop o k) (fun v =>
      if truthy v then Ok v else first_truthy o rest fallback)
  end.

Arguments first_truthy : simpl never.

(** The [if (!response.ok)] block that follows each of the three remote
    calls; the calls differ in the title and in the fields searched for a
    message. *)
Definition transportFailure {A : Type} (title : string) (keys : list string)
  (r : HttpResponse) : M A :=
  let fallback := JStr ("HTTP " ++ to_string (status r) ++ ": " ++ statusText r)%string in
  errorMessage <-
    (if match contentType r with
        | Some ct => includes "application/json" ct
        | None => false
        end
     then
       errorData <- lift (json r) ;;
       lift (first_truthy errorData keys fallback)
     else ret (js_or (JStr (text r)) fallback)) ;;
  respond 400
    (JObj [ ("error", JStr title);
            ("details", errorMessage);
            ("apiResponse",
             JObj [ ("status", status r);
                    ("statusText", JStr (statusText r));
                    ("timestamp", timestamp env) ]) ]).

Arguments transportFailure : simpl never.

(** The headers of the authenticate call. *)
Definition authenticateHeaders : list (string * JsVal) :=
  [ ("accept", JStr "application/json");
    ("clientId", process_env env "EINVOICE_CLIENT_ID");
    ("clientSecret", process_env env "EINVOICE_CLIENT_SECRET") ].

(** Step 1, lines 195-269. *)
Definition ensureAccessToken : M JsVal :=
  cached <- readCache (fun c => TokenCache.getAccessToken c (now_getAccessToken env)) ;;
  if truthy cached then ret cached
  else
    authResponse <-
      fetch AUTHENTICATE_URL authenticateHeaders JUndefined (fetch_authenticate env) ;;
    if negb (ok authResponse) then
      transportFailure "IRN Generation Failed - Authentication API Error"
        ["errorMessage"; "message"] authResponse
    else
      authApiData <- lift (json authResponse) ;;
      authStatus <- lift (prop authApiData "status") ;;
      if negb (js_strict_eq authStatus (JNum 1)) then
        details <- lift (first_truthy authApiData ["errorMessage"; "message"]
                           (JStr "Failed to get access token")) ;;
        respond 400
          (JObj [ ("error", JStr "IRN Generation Failed - Authentication Error");
                  ("details", details);
                  ("apiResponse",
                   JObj [ ("status", authStatus);
                          ("errorCode", prop_opt authApiData "errorCode");
                          ("timestamp", timestamp env) ]) ])
      else
        payloadData <- lift (prop authApiData "data") ;;
        accessToken <- lift (prop payloadData "accessToken") ;;
        writeCache (TokenCache.setAccessToken accessToken (now_setAccessToken env)) ;;;
        ret accessToken.

(** Step 2, lines 271-355. *)
Definition ensureAuthData (accessToken : JsVal) : M JsVal :=
  cached <- readCache (fun c => TokenCache.getAuthData c (now_getAuthData env)) ;;
  if truthy cached then ret cached
  else
    forceRefresh <-
      readCache (fun c => TokenCache.shouldForceRefresh c (now_shouldForceRefresh env)) ;;
    enhancedAuthResponse <-
      fetch ENHANCED_AUTHENTICATION_URL
        [ ("accept", JStr "application/json");
          ("gstin", process_env env "GSTIN");
          ("Authorization", bearer accessToken);
          ("Content-Type", JStr "application/json") ]
        (JObj [ ("Username", process_env env "EINVOICE_USERNAME");
                ("Password", process_env env "EINVOICE_PASSWORD");
                ("ForceRefreshAccessToken", JBool forceRefresh) ])
        (fetch_enhanced_authentication env) ;;
    if negb (ok enhancedAuthResponse) then
      transportFailure "IRN Generation Failed - Enhanced Authentication API Error"
        ["ErrorMessage"; "Message"; "message"] enhancedAuthResponse
    else
      enhancedAuthData <- lift (json enhancedAuthResponse) ;;
      enhancedStatus <- lift (prop enhancedAuthData "Status") ;;
      if negb (js_strict_eq enhancedStatus (JNum 1)) then
        details <- lift (first_truthy enhancedAuthData ["ErrorMessage"; "Message"]
                           (JStr "Enhanced authentication failed")) ;;
        respond 400
          (JObj [ ("error", JStr "IRN Generation Failed - Enhanced Authentication Error");
                  ("details", details);
                  ("apiResponse",
                   JObj [ ("status", enhancedStatus);
                          ("errorCode", prop_opt enhancedAuthData "ErrorCode");
                          ("timestamp", timestamp env) ]) ])
      else
        sessionData <- lift (prop enhancedAuthData "Data") ;;
        sessionToken <- lift (prop sessionData "AuthToken") ;;
        writeCache (TokenCache.setAuthData sessionToken (prop_opt sessionData "Sek")
                      (prop_opt sessionData "UserName") (now_setAuthData env)) ;;;
        ret (TokenCache.authDataObject sessionToken (prop_opt sessionData "Sek")
               (prop_opt sessionData "UserName")).

(** Step 3, lines 357-485: the call, and the reading of its answer. *)
Definition generateIrn (accessToken authData invoiceData : JsVal) : M JsVal :=
  irnResponse <-
    fetch GENERATE_IRN_URL
      [ ("accept", JStr "application/json");
        ("gstin", process_env env "GSTIN");
        ("AuthToken", prop_opt authData "authToken");
        ("user_name", prop_opt authData "userName");
        ("sek", prop_opt authData "sek");
        ("Authorization", bearer accessToken);
        ("Content-Type", JStr "application/json") ]
      invoiceData (fetch_generate_irn env) ;;
  if negb (ok irnResponse) then
    transportFailure "IRN Generation Failed - API Error"
      ["ErrorMessage"; "message"] irnResponse
  else
    irnData <- lift (json irnResponse) ;;
    irn <- lift (prop irnData "Irn") ;;
    if negb (truthy irn) then
      failure <- lift (IrnError.irnFailure JSON_stringify irnData) ;;
      respond 400
        (JObj [ ("error", JStr "IRN Generation Failed");
                ("details", fst failure);
                ("errorCode", snd failure);
                ("apiResponse",
                 JObj [ ("status", prop_opt irnData "Status");
                        ("errorCode", snd failure);
                        ("timestamp", timestamp env) ]) ])
    else ret irnData.

(** Lines 186-491: the three remote steps, skipped for NON BILLING. *)
Definition obtainIrn (body invoiceData : JsVal) : M JsVal :=
  if negb (js_strict_eq (prop_opt body "invoice_type") (JStr "NON BILLING")) then
    accessToken <- ensureAccessToken ;;
    authData <- ensureAuthData accessToken ;;
    generateIrn accessToken authData invoiceData
  else ret JNull.

(** The fields [...(irnData && {...})] adds to the row. *)
Definition irnFields (irnData : JsVal) : list (string * JsVal) :=
  if truthy irnData then
    [ ("irn", prop_opt irnData "Irn");
      ("qrcode", prop_opt irnData "SignedQRCode");
      ("ack_no", prop_opt irnData "AckNo");
      ("ack_dt", if truthy (prop_opt irnData "AckDt")
                 then newDate (prop_opt irnData "AckDt") else JNull);
      ("signed_invoice", prop_opt irnData "SignedInvoice");
      ("einvoice_status", JStr "GENERATED") ]
  else [].

(** Lines 494-511: [invoiceInsertData]. *)
Definition invoiceInsertData (body unitId invoice_no invoiceData irnData : JsVal) : JsVal :=
  JObj (obj_extend (obj_without "delivery_address_id" (own_fields body))
          ([ ("unit_id", unitId);
             ("invoice_no", invoice_no);
             ("discount", Number (js_or (prop_opt body "discount") (JNum 0)));
             ("gst_percentage", Number (js_or (prop_opt body "gst_percentage") (JNum 18)));
             ("invoice_data", invoiceData) ]
           ++ irnFields irnData)).

(** Lines 532-593: the delivered quantity and the status of the order.
    [Number(body.quantity)] is first evaluated for a log line; [+]
    converts the delivered quantity of the row to a primitive value,
    [>=] its ordered quantity. *)
Definition syncOrder (body customerId : JsVal) : M unit :=
  if truthy (prop_opt body "po_number") then
    lift (ToPrimitive (prop_opt body "quantity")) ;;;
    currentOrder <-
      store "orders.select"
        (JObj [ ("po_number", prop_opt body "po_number"); ("customer_id", customerId) ])
        (orders_single env) ;;
    if negb (truthy (error currentOrder)) && truthy (data currentOrder) then
      let delivered :=
        js_or (prop_opt (data currentOrder) "delivered_quantity") (JNum 0) in
      lift (ToPrimitive delivered) ;;;
      let newDeliveredQty := js_add delivered (Number (prop_opt body "quantity")) in
      let started :=
        if js_strict_eq (prop_opt (data currentOrder) "status") (JStr "pending")
        then JStr "in_progress"
        else prop_opt (data currentOrder) "status" in
      lift (ToPrimitive (prop_opt (data currentOrder) "order_quantity")) ;;;
      let newStatus :=
        if js_ge newDeliveredQty (prop_opt (data currentOrder) "order_quantity")
        then JStr "delivered" else started in
      store "orders.update"
        (JObj [ ("delivered_quantity", newDeliveredQty);
                ("status", newStatus);
                ("updated_at", timestamp env) ])
        (orders_update env) ;;;
      ret tt
    else ret tt
  else ret tt.

(** Lines 600-610: the body of the success answer. *)
Definition successPayload (invoiceResult irnData : JsVal) : Res JsVal :=
  if truthy irnData then
    res_bind (prop invoiceResult "irn") (fun irn =>
    Ok (JObj [ ("invoice", invoiceResult);
               ("irn", JObj [ ("irn", irn);
                              ("qrcode", prop_opt invoiceResult "qrcode");
                              ("ack_no", prop_opt invoiceResult "ack_no");
                              ("status", JStr "GENERATED") ]) ]))
  else Ok (JObj [ ("invoice", invoiceResult) ]).

(** Lines 493-610: the insert, the order, the answer. *)
Definition persistAndAnswer (body unitId customerId invoice_no invoiceData irnData : JsVal)
  : M Response :=
  inserted <-
    store "invoices.insert"
      (invoiceInsertData body unitId invoice_no invoiceData irnData)
      (invoices_insert env) ;;
  if truthy (error inserted) then
    message <- lift (prop (error inserted) "message") ;;
    respond 500
      (JObj [ ("error", JStr "Invoice creation failed"); ("details", message) ])
  else
    syncOrder body customerId ;;;
    answer <- lift (successPayload (data inserted) irnData) ;;
    ret (mkResponse 200 answer).

(** What lines 27-184 leave for the rest of the handler. *)
Record Prepared : Type := mkPrepared {
  unitId : JsVal;
  customerId : JsVal;
  invoice_no : JsVal;
  invoiceData : JsVal
}.

(** Lines 27-184: the configuration check, the invoice number, the rows
    of the customer, the delivery address, the unit and the grade, and
    the document to register.  [Number] converts its argument to a
    primitive value before anything is looked up. *)
Definition prepare : M Prepared :=
  match missingEnvVars with
  | _ :: _ =>
      respond 500
        (JObj [ ("error", JStr "IRN Generation Failed - Configuration Error");
                ("details",
                 JStr ("Missing environment variables: "
                       ++ String.concat ", " missingEnvVars)%string) ])
  | [] =>
      let body := req_body env in
      unit_id <- lift (prop body "unit_id") ;;
      lift (ToPrimitive unit_id) ;;;
      let unitId := Number unit_id in
      lift (ToPrimitive (prop_opt body "customer_id")) ;;;
      let customerId := Number (prop_opt body "customer_id") in
      lift (if truthy (prop_opt body "delivery_address_id")
            then ToPrimitive (prop_opt body "delivery_address_id") else Ok tt) ;;;
      let deliveryAddressId :=
        if truthy (prop_opt body "delivery_address_id")
        then Number (prop_opt body "delivery_address_id") else JNull in
      numbered <-
        store "rpc.generate_invoice_number" (JObj [ ("p_unit_id", unitId) ])
          (rpc_generate_invoice_number env) ;;
      if truthy (error numbered) then
        message <- lift (prop (error numbered) "message") ;;
        respond 400 (JObj [ ("error", message) ])
      else
        let invoice_no := data numbered in
        customer <- store "customers.select" customerId (customers_single env) ;;
        if truthy (error customer) || negb (truthy (data customer)) then
          respond 404 (JObj [ ("error", JStr "Customer not found") ])
        else
          deliveryAddr <-
            (if truthy deliveryAddressId then
               found <- store "delivery_addresses.select" deliveryAddressId
                          (delivery_addresses_single env) ;;
               ret (Some found)
             else ret None) ;;
          unit <- store "units.select" unitId (units_single env) ;;
          if truthy (error unit) || negb (truthy (data unit)) then
            respond 404 (JObj [ ("error", JStr "Unit not found") ])
          else
            gradeData <-
              store "grades.select" (prop_opt body "grade") (grades_maybeSingle env) ;;
            invoiceData <-
              lift (buildInvoiceData body invoice_no (data customer) deliveryAddr
                      (data unit) (data gradeData)) ;;
            ret (mkPrepared unitId customerId invoice_no invoiceData)
  end.

(** The body of the [try]. *)
Definition handlerBody : M Response :=
  prepared <- prepare ;;
  irnData <- obtainIrn (req_body env) (invoiceData prepared) ;;
  persistAndAnswer (req_body env) (unitId prepared) (customerId prepared)
    (invoice_no prepared) (invoiceData prepared) irnData.

(** The [catch]: status 500 with [error?.message || "Unknown error"]. *)
Definition onError (message : JsVal) : Response :=
  mkResponse 500 (JObj [ ("error", js_or message (JStr "Unknown error")) ]).

(** [router.post("/", ...)]: the answer, and the cache and the events the
    request leaves behind. *)
Definition handler (w : World) : Response * World :=
  handle handlerBody onError w.

End Handler.
End GenerateIrn.

(** ** The cancel-IRN handler (cancelrnRoute.js, lines 246-496) *)

Module CancelIrn.
Section Handler.

Variable env : Env.

(** [res.json(value)]: status 200. *)
Definition answer {A : Type} (value : JsVal) : M A := respond 200 value.

Definition failure {A : Type} (code : Z) (errorMessage : string) : M A :=
  respond code
    (JObj [ ("status", JNum 0); ("errorMessage", JStr errorMessage) ]).

(** Lines 310-343.  A rejection is logged with its [status]
    interpolated, then relayed. *)
Definition ensureAccessToken : M JsVal :=
  cached <- readCache (fun c => TokenCache.getAccessToken c (now_getAccessToken env)) ;;
  if truthy cached then ret cached
  else
    response <-
      fetch AUTHENTICATE_URL
        [ ("accept", JStr "application/json");
          ("clientId", process_env env "EINVOICE_CLIENT_ID");
          ("clientSecret", process_env env "EINVOICE_CLIENT_SECRET") ]
        JUndefined (fetch_authenticate env) ;;
    authenticated <- lift (json response) ;;
    authStatus <- lift (prop authenticated "status") ;;
    if negb (js_strict_eq authStatus (JNum 1)) then
      lift (interpolate [authStatus]) ;;;
      answer authenticated
    else
      payloadData <- lift (prop authenticated "data") ;;
      accessToken <- lift (prop payloadData "accessToken") ;;
      writeCache (TokenCache.setAccessToken accessToken (now_setAccessToken env)) ;;;
      ret accessToken.

(** Lines 345-393.  A rejection is logged with its [Status]
    interpolated, then relayed. *)
Definition ensureAuthData (accessToken : JsVal) : M JsVal :=
  cached <- readCache (fun c => TokenCache.getAuthData c (now_getAuthData env)) ;;
  if truthy cached then ret cached
  else
    forceRefresh <-
      readCache (fun c => TokenCache.shouldForceRefresh c (now_shouldForceRefresh env)) ;;
    authResponse <-
      fetch ENHANCED_AUTHENTICATION_URL
        [ ("accept", JStr "application/json");
          ("gstin", process_env env "GSTIN");
          ("Authorization", bearer accessToken);
          ("Content-Type", JStr "application/json") ]
        (JObj [ ("Username", process_env env "EINVOICE_USERNAME");
                ("Password", process_env env "EINVOICE_PASSWORD");
                ("ForceRefreshAccessToken", JBool forceRefresh) ])
        (fetch_enhanced_authentication env) ;;
    authResponseData <- lift (json authResponse) ;;
    enhancedStatus <- lift (prop authResponseData "Status") ;;
    if negb (js_strict_eq enhancedStatus (JNum 1)) then
      lift (interpolate [enhancedStatus]) ;;;
      answer authResponseData
    else
      sessionData <- lift (prop authResponseData "Data") ;;
      sessionToken <- lift (prop sessionData "AuthToken") ;;
      writeCache (TokenCache.setAuthData sessionToken (prop_opt sessionData "Sek")
                    (prop_opt sessionData "UserName") (now_setAuthData env)) ;;;
      ret (TokenCache.authDataObject sessionToken (prop_opt sessionData "Sek")
             (prop_opt sessionData "UserName")).

(** Lines 395-428: the call. *)
Definition cancelIrn (accessToken authData irn cancel_reason_code cancel_reason : JsVal)
  : M JsVal :=
  cancelResponse <-
    fetch CANCEL_IRN_URL
      [ ("accept", JStr "application/json");
        ("gstin", process_env env "GSTIN");
        ("user_name", prop_opt authData "userName");
        ("AuthToken", prop_opt authData "authToken");
        ("Authorization", bearer accessToken);
        ("sek", prop_opt authData "sek");
        ("Content-Type", JStr "application/json") ]
      (JObj [ ("Irn", irn);
              ("CnlRsn", cancel_reason_code);
              ("CnlRem", js_or cancel_reason (JStr "")) ])
      (fetch_cancel_irn env) ;;
  lift (json cancelResponse).

(** Lines 430-487: the two writes after a cancellation, and the answer. *)
Definition recordCancellation (invoice_no irn cancel_reason_code cancel_reason cancelData : JsVal)
  : M Response :=
  cancelledIrn <- lift (prop cancelData "Irn") ;;
  if negb (js_strict_eq cancelledIrn JNull) then
    recorded <-
      store "canceled_invoices.insert"
        (JObj [ ("invoice_no", invoice_no);
                ("irn", irn);
                ("cancel_reason_code", cancel_reason_code);
                ("cancel_reason", cancel_reason) ])
        (canceled_invoices_insert env) ;;
    if truthy (error recorded) then
      respond 500
        (JObj [ ("status", JNum 0);
                ("errorMessage", JStr "Failed to record cancellation");
                ("details", error recorded) ])
    else
      updated <-
        store "invoices.update"
          (JObj [ ("is_cancelled", JBool true); ("invoice_no", invoice_no) ])
          (invoices_update env) ;;
      if truthy (error updated) then
        respond 500
          (JObj [ ("status", JNum 0);
                  ("errorMessage", JStr "Failed to update invoice status");
                  ("details", error updated) ])
      else ret (mkResponse 200 cancelData)
  else ret (mkResponse 200 cancelData).

(** Lines 253-306: the four required fields, the invoice and its unit.
    The log lines before the checks interpolate the four fields, the
    one before the second query the unit of the invoice. *)
Definition validate : M unit :=
  let body := req_body env in
  invoice_no <- lift (prop body "invoice_no") ;;
  lift (interpolate
          [ invoice_no; prop_opt body "irn"; prop_opt body "cancel_reason_code";
            js_or (prop_opt body "cancel_reason") (JStr "Not provided") ]) ;;;
  if negb (truthy invoice_no) || negb (truthy (prop_opt body "irn"))
     || negb (truthy (prop_opt body "cancel_reason_code"))
     || negb (truthy (prop_opt body "cancel_reason"))
  then
    failure 400 "invoice_no, irn, cancel_reason_code, and cancel_reason are required"
  else
    invoice <- store "invoices.select" invoice_no (invoices_single env) ;;
    if negb (truthy (data invoice)) then failure 404 "Invoice not found"
    else
      lift (interpolate [prop_opt (data invoice) "unit_id"]) ;;;
      unit <- store "units.select" (prop_opt (data invoice) "unit_id") (units_single env) ;;
      if negb (truthy (data unit)) then failure 404 "Unit not found"
      else ret tt.

(** The body of the [try]. *)
Definition handlerBody : M Response :=
  let body := req_body env in
  validate ;;;
  accessToken <- ensureAccessToken ;;
  authData <- ensureAuthData accessToken ;;
  cancelData <-
    cancelIrn accessToken authData (prop_opt body "irn")
      (prop_opt body "cancel_reason_code") (prop_opt body "cancel_reason") ;;
  recordCancellation (prop_opt body "invoice_no") (prop_opt body "irn")
    (prop_opt body "cancel_reason_code") (prop_opt body "cancel_reason") cancelData.

(** The [catch]. *)
Definition onError (message : JsVal) : Response :=
  mkResponse 500
    (JObj [ ("status", JNum 0); ("errorMessage", JStr "Internal server error") ]).

Definition handler (w : World) : Response * World :=
  handle handlerBody onError w.

End Handler.
End CancelIrn.

(** ** Requests and what they leave behind *)

(** The two operations that go through the credential cache. *)
Inductive Operation : Type :=
| GenerateOperation
| CancelOperation.

Definition target_url (op : Operation) : string :=
  match op with
  | GenerateOperation => GENERATE_IRN_URL
  | CancelOperation => CANCEL_IRN_URL
  end.

(** Every request starts with an empty event log and the cache the
    process holds at that moment. *)
Definition request (c : TokenCache.Cache) : World := mkWorld c [].

Section Invocation.

Variable JSON_stringify : JsVal -> JsVal.
Variable Number : JsVal -> JsVal.
Variable newDate : JsVal -> JsVal.
Variable js_add : JsVal -> JsVal -> JsVal.
Variable js_ge : JsVal -> JsVal -> bool.
Variable buildInvoiceData :
  JsVal -> JsVal -> JsVal -> option DbResult -> JsVal -> JsVal -> Res JsVal.

Definition generateHandler (env : Env) : World -> Response * World :=
  GenerateIrn.handler JSON_stringify Number newDate js_add js_ge buildInvoiceData env.

(** One invocation of an operation on the cache [c]. *)
Definition invoke (op : Operation) (env : Env) (c : TokenCache.Cache)
  : Response * World :=
  match op with
  | GenerateOperation => generateHandler env (request c)
  | CancelOperation => CancelIrn.handler env (request c)
  end.


End Invocation.

(** A computation that adds only events accepted by [allowed]. *)
Definition Emits {A : Type} (allowed : Event -> bool) (m : M A) : Prop :=
  forall w, exists evs,
    events (snd (m w)) = (events w ++ evs)%list /\ forallb allowed evs = true.

(** A computation that leaves the cache as it found it. *)
Definition KeepsCache {A : Type} (m : M A) : Prop :=
  forall w, cache (snd (m w)) = cache w.

Definition is_store (e : Event) : bool := negb (is_fetch e).

Definition not_to (url : string) (e : Event) : bool := negb (fetched url e).

(** The six fields the handler adds to the invoice row once an IRN is
    there. *)
Definition irn_field_names : list string :=
  [ "irn"; "qrcode"; "ack_no"; "ack_dt"; "signed_invoice"; "einvoice_status" ].

(** A value that occurs somewhere inside another one. *)
Fixpoint occurs_in (needle : JsVal) (v : JsVal) : bool :=
  js_strict_eq needle v
  || match v with
     | JArr items => existsb (occurs_in needle) items
     | JObj fields => existsb (fun kv => occurs_in needle (snd kv)) fields
     | _ => false
     end.


(** A computation that leaves the world as it found it. *)
Definition Silent {A : Type} (m : M A) : Prop :=
  forall w, snd (m w) = w.

(** Proof steps for computations built from the monad's operations. *)
Ltac split_computation :=
  match goal with
  | |- _ (if ?b then _ else _) => destruct b
  | |- _ (match ?x with _ => _ end) => destruct x
  | |- _ (let _ := _ in _) => cbv zeta
  end.

(** The insert of the invoice row, among the events. *)
Definition is_invoice_insert (e : Event) : bool :=
  match e with
  | EvStore operation _ => (operation =? "invoices.insert")%string
  | EvFetch _ _ _ => false
  end.

Definition not_invoice_insert (e : Event) : bool := negb (is_invoice_insert e).

(** The insert of the cancellation record, among the events. *)
Definition is_cancellation_insert (e : Event) : bool :=
  match e with
  | EvStore operation _ => (operation =? "canceled_invoices.insert")%string
  | EvFetch _ _ _ => false
  end.

Definition not_cancellation_insert (e : Event) : bool :=
  negb (is_cancellation_insert e).

(** The response of Scenario C: a rejection that repeats its message. *)
Definition duplicate_irn_response : JsVal :=
  JObj [ ("Irn", JNull);
         ("ErrorDetails",
          JArr [ JObj [ ("ErrorMessage", JStr "Duplicate IRN") ];
                 JObj [ ("ErrorMessage", JStr "Duplicate IRN") ] ]) ].

(** A data-store event other than the insert of the invoice row. *)
Definition other_store (e : Event) : bool := is_store e && not_invoice_insert e.

(** A computation whose early answers, if any, all satisfy [accepted]. *)
Definition Answers {A : Type} (accepted : Response -> bool) (m : M A) : Prop :=
  forall w r w', m w = (Respond r, w') -> accepted r = true.

Definition is_failure (r : Response) : bool := negb (status_code r =? 200).

(** ** Sample requests *)

(** Stand-ins for the built-ins and for the document builder, used to run
    the handlers on concrete requests.  The sample requests below carry
    numbers where the handler applies [Number], on which [Number] is the
    identity; they have no [po_number] and no [AckDt], so that the
    addition, the comparison and [new Date] are never reached, and every
    entry of their error arrays has a message, so that neither is
    [JSON.stringify]. *)
Definition sample_stringify (v : JsVal) : JsVal := JStr "{}".
Definition sample_Number (v : JsVal) : JsVal := v.
Definition sample_newDate (v : JsVal) : JsVal := v.
Definition sample_add (a b : JsVal) : JsVal := a.
Definition sample_ge (a b : JsVal) : bool := false.
Definition sample_build (body invoice_no customer : JsVal) (delivery : option DbResult)
  (unit grade : JsVal) : Res JsVal :=
  Ok (JObj [ ("Version", JStr "1.1"); ("DocDtls", JObj [ ("No", invoice_no) ]) ]).

Definition sample_process_env (name : string) : JsVal := JStr "configured".

(** An answer with status 200 and a JSON body. *)
Definition json_answer (v : JsVal) : Res HttpResponse :=
  Ok (mkHttpResponse true (JNum 200) "OK" (Some "application/json") (Ok v) "").

Definition found (v : JsVal) : DbResult := mkDbResult v JNull.

Definition store_failure (message : string) : DbResult :=
  mkDbResult JNull (JObj [ ("message", JStr message) ]).

(** A request at clock reading 1000 that finds its customer, unit and
    invoice, with the given body and the given answers of the e-invoice
    API and of the two inserts. *)
Definition sample_env (body : JsVal)
  (authenticate enhanced generate cancel : Res HttpResponse)
  (invoiceInsert cancellationInsert : DbResult) : Env :=
  mkEnv body sample_process_env (JStr "2024-01-01T00:00:00.000Z")
    1000 1000 1000 1000 1000
    (found (JStr "INV-001"))
    (found (JObj [ ("name", JStr "Acme"); ("gstin", JStr "33ABCDE1234F1Z5") ]))
    (found JNull)
    (found (JObj [ ("address", JStr "1 Plant Road"); ("gstin", JStr "33AAAAA0000A1Z5") ]))
    (found JNull)
    invoiceInsert
    (found (JObj [ ("id", JNum 1); ("unit_id", JNum 1) ]))
    (found JNull)
    cancellationInsert
    (found JNull)
    (found JNull)
    authenticate enhanced generate cancel.

Definition billing_body : JsVal :=
  JObj [ ("unit_id", JNum 1); ("customer_id", JNum 7); ("grade", JStr "M20");
         ("invoice_type", JStr "BILLING"); ("quantity", JNum 10) ].

Definition non_billing_body : JsVal :=
  JObj [ ("unit_id", JNum 1); ("customer_id", JNum 7); ("grade", JStr "M20");
         ("invoice_type", JStr "NON BILLING"); ("quantity", JNum 10) ].

(** A NON BILLING request whose body brings an [irn] field of its own. *)
Definition non_billing_body_with_irn : JsVal :=
  JObj [ ("unit_id", JNum 1); ("customer_id", JNum 7); ("grade", JStr "M20");
         ("invoice_type", JStr "NON BILLING"); ("irn", JStr "IRN-FROM-CLIENT") ].

Definition cancel_body : JsVal :=
  JObj [ ("invoice_no", JStr "INV-001"); ("irn", JStr "IRN123");
         ("cancel_reason_code", JStr "1"); ("cancel_reason", JStr "Duplicate") ].

Definition authenticated : Res HttpResponse :=
  json_answer (JObj [ ("status", JNum 1);
                      ("data", JObj [ ("accessToken", JStr "tok1") ]) ]).

Definition authenticate_rejected : Res HttpResponse :=
  json_answer (JObj [ ("status", JNum 0); ("errorMessage", JStr "Invalid client") ]).

Definition enhanced_authenticated : Res HttpResponse :=
  json_answer (JObj [ ("Status", JNum 1);
                      ("Data", JObj [ ("AuthToken", JStr "at1"); ("Sek", JStr "s1");
                                      ("UserName", JStr "u1") ]) ]).

Definition irn_generated : Res HttpResponse :=
  json_answer (JObj [ ("Irn", JStr "IRN123"); ("AckNo", JStr "A1");
                      ("SignedQRCode", JStr "qr") ]).

Definition irn_cancelled : Res HttpResponse :=
  json_answer (JObj [ ("Irn", JStr "IRN123"); ("CancelDate", JStr "2024-01-01") ]).

Definition inserted_invoice : DbResult :=
  found (JObj [ ("id", JNum 42); ("invoice_no", JStr "INV-001") ]).

(** Scenario A: every call succeeds. *)
Definition scenario_A : Env :=
  sample_env billing_body authenticated enhanced_authenticated irn_generated
    irn_cancelled
    (found (JObj [ ("id", JNum 42); ("invoice_no", JStr "INV-001");
                   ("irn", JStr "IRN123"); ("qrcode", JStr "qr");
                   ("ack_no", JStr "A1") ]))
    (found JNull).

(** Scenario B: an empty cache and a rejected authenticate call. *)
Definition scenario_B : Env :=
  sample_env billing_body authenticate_rejected enhanced_authenticated irn_generated
    irn_cancelled inserted_invoice (found JNull).


(** A rejection with several entries: objects with [ErrorMessage] or
    [message], a string, a message that comes twice, and the fields of
    lower precedence filled in as well. *)
Definition rejected_irn_response : JsVal :=
  JObj [ ("Irn", JNull);
         ("Status", JNum 0);
         ("ErrorDetails",
          JArr [ JObj [ ("ErrorCode", JStr "2150");
                        ("ErrorMessage", JStr "Duplicate IRN") ];
                 JStr "Invalid GSTIN";
                 JObj [ ("message", JStr "Duplicate IRN") ];
                 JObj [ ("ErrorMessage", JStr "Invalid date") ] ]);
         ("errorMessage", JStr "Rejected");
         ("ValidationErrors", JArr [ JStr "Invalid HSN" ]);
         ("message", JStr "Request failed") ].

Definition scenario_rejected : Env :=
  sample_env billing_body authenticated enhanced_authenticated
    (json_answer rejected_irn_response) irn_cancelled inserted_invoice (found JNull).

(** The generate-IRN call answered with status 400 and a JSON body
    without [Irn]. *)
Definition failed_transport_response : JsVal :=
  JObj [ ("Irn", JNull);
         ("ErrorDetails", JArr [ JObj [ ("ErrorMessage", JStr "Duplicate IRN") ] ]);
         ("message", JStr "Request failed") ].

Definition scenario_transport_failure : Env :=
  sample_env billing_body authenticated enhanced_authenticated
    (Ok (mkHttpResponse false (JNum 400) "Bad Request" (Some "application/json")
           (Ok failed_transport_response) ""))
    irn_cancelled inserted_invoice (found JNull).

(** An IRN is issued and the insert of the invoice row fails. *)
Definition scenario_insert_fails : Env :=
  sample_env billing_body authenticated enhanced_authenticated irn_generated
    irn_cancelled (store_failure "insert failed") (found JNull).

(** Scenario D: the IRN is cancelled and the insert of the cancellation
    record fails. *)
Definition scenario_D : Env :=
  sample_env cancel_body authenticated enhanced_authenticated irn_generated
    irn_cancelled inserted_invoice (store_failure "insert failed").

(** NON BILLING requests, without and with an [irn] field in the body. *)
Definition scenario_non_billing : Env :=
  sample_env non_billing_body authenticated enhanced_authenticated irn_generated
    irn_cancelled inserted_invoice (found JNull).

Definition scenario_non_billing_with_irn : Env :=
  sample_env non_billing_body_with_irn authenticated enhanced_authenticated irn_generated
    irn_cancelled inserted_invoice (found JNull).

(** A cache holding both credentials, stored at clock reading 0. *)
Definition warm_cache : TokenCache.Cache :=
  TokenCache.setAuthData (JStr "at1") (JStr "s1") (JStr "u1") 0
    (TokenCache.setAccessToken (JStr "tok1") 0 TokenCache.cache0).

Definition sample_generate (env : Env) (c : TokenCache.Cache) : Response * World :=
  generateHandler sample_stringify sample_Number sample_newDate sample_add sample_ge
    sample_build env (request c).

Definition sample_invoke (op : Operation) (env : Env) (c : TokenCache.Cache)
  : Response * World :=
  invoke sample_stringify sample_Number sample_newDate sample_add sample_ge
    sample_build op env c.

(** ** Persistence after an upstream success *)

(** The write that records the outcome of an operation. *)
Definition persistence_insert (op : Operation) (e : Event) : bool :=
  match op with
  | GenerateOperation => is_invoice_insert e
  | CancelOperation => is_cancellation_insert e
  end.

(** What the data store answers to that write. *)
Definition persistence_result (op : Operation) (env : Env) : DbResult :=
  match op with
  | GenerateOperation => invoices_insert env
  | CancelOperation => canceled_invoices_insert env
  end.

(** The answer of each handler to a failed write: lines 519-525 of
    generateIrnRoute.js and lines 443-453 of cancelrnRoute.js. *)
Definition persistence_failure_response (op : Operation) (env : Env) : Response :=
  match op with
  | GenerateOperation =>
      mkResponse 500
        (JObj [ ("error", JStr "Invoice creation failed");
                ("details", prop_opt (error (invoices_insert env)) "message") ])
  | CancelOperation =>
      mkResponse 500
        (JObj [ ("status", JNum 0);
                ("errorMessage", JStr "Failed to record cancellation");
                ("details", error (canceled_invoices_insert env)) ])
  end.

(** ** Histories of the session slots *)

(** What a history says about the session: the latest [setAuthData] that
    no later clear has undone, with the time of the call. *)
Definition track_auth (last : option (Time * (JsVal * JsVal * JsVal)))
  (e : Time * TokenCache.CacheOp) : option (Time * (JsVal * JsVal * JsVal)) :=
  match snd e with
  | TokenCache.OpSetAccessToken _ => last
  | TokenCache.OpSetAuthData a s u => Some (fst e, (a, s, u))
  | TokenCache.OpClearTokenCache => None
  end.

Definition last_auth_set (ops : list (Time * TokenCache.CacheOp))
  : option (Time * (JsVal * JsVal * JsVal)) :=
  fold_left track_auth ops None.

(** What [run] leaves in the session slots, read off the history. *)
Definition auth_slots_agree (last : option (Time * (JsVal * JsVal * JsVal)))
  (cache : TokenCache.Cache) : Prop :=
  match last with
  | Some (t, (a, s, u)) =>
      TokenCache.authToken cache = a /\ TokenCache.sek cache = s
      /\ TokenCache.userName cache = u
      /\ TokenCache.authTokenExpiry cache = Some (t + TokenCache.TOKEN_VALIDITY_MS)
  | None =>
      TokenCache.authToken cache = JNull /\ TokenCache.sek cache = JNull
      /\ TokenCache.userName cache = JNull
      /\ TokenCache.authTokenExpiry cache = None
  end.

(** The calls of a history that touch the access token, and those that
    touch the session. *)
Definition touches_access (e : Time * TokenCache.CacheOp) : bool :=
  match snd e with
  | TokenCache.OpSetAuthData _ _ _ => false
  | _ => true
  end.

Definition touches_auth (e : Time * TokenCache.CacheOp) : bool :=
  match snd e with
  | TokenCache.OpSetAccessToken _ => false
  | _ => true
  end.

(** The second version of the cache run on a history of the same calls. *)
Definition apply_op_B (tokenCache : TokenCacheB.Cache) (e : Time * TokenCache.CacheOp)
  : TokenCacheB.Cache :=
  match snd e with
  | TokenCache.OpSetAccessToken token => TokenCacheB.setAccessToken token (fst e) tokenCache
  | TokenCache.OpSetAuthData a s u => TokenCacheB.setAuthData a s u (fst e) tokenCache
  | TokenCache.OpClearTokenCache => TokenCacheB.clearCache tokenCache
  end.

Definition run_B (ops : list (Time * TokenCache.CacheOp)) : TokenCacheB.Cache :=
  fold_left apply_op_B ops TokenCacheB.tokenCache0.

(** How the slots of the two versions stand to each other after the same
    history: an expiry is unset in both, or it was set in both at the
    same clock reading, each with its own validity. *)
Definition expiries_related (expiryA expiryB : Expiry) : Prop :=
  match expiryA, expiryB with
  | None, None => True
  | Some a, Some b =>
      exists t, 0 <= t /\ a = t + TokenCache.TOKEN_VALIDITY_MS
                /\ b = t + TokenCacheB.TOKEN_VALIDITY_MS
  | _, _ => False
  end.

Definition versions_related (cache : TokenCache.Cache) (tokenCache : TokenCacheB.Cache)
  : Prop :=
  TokenCache.accessToken cache = TokenCacheB.accessToken tokenCache
  /\ TokenCache.authToken cache = TokenCacheB.authToken tokenCache
  /\ TokenCache.sek cache = TokenCacheB.sek tokenCache
  /\ TokenCache.userName cache = TokenCacheB.userName tokenCache
  /\ expiries_related (TokenCache.accessTokenExpiry cache)
       (TokenCacheB.expiresAt tokenCache)
  /\ expiries_related (TokenCache.authTokenExpiry cache)
       (TokenCacheB.authExpiresAt tokenCache).

(** ** The invoice library (kept in tokenCache.js, lines 130-781) *)

(** *** Strings *)

(** A [string] stands for the sequence of the UTF-16 code units of a
    JavaScript string, each of them below 256; [length], [substring] and
    [trim] count and test code units. *)

Definition LF : ascii := "010"%char.

(** The white space and line terminators below 256, which [trim]
    removes: tab, line feed, vertical tab, form feed, carriage return,
    space and no-break space. *)
Definition is_space (c : ascii) : bool :=
  existsb (N.eqb (N_of_ascii c)) [9; 10; 11; 12; 13; 32; 160]%N.

Fixpoint trimStart (s : string) : string :=
  match s with
  | EmptyString => EmptyString
  | String c rest => if is_space c then trimStart rest else s
  end.

Fixpoint trimEnd (s : string) : string :=
  match s with
  | EmptyString => EmptyString
  | String c rest =>
      match trimEnd rest with
      | EmptyString => if is_space c then EmptyString else String c EmptyString
      | kept => String c kept
      end
  end.

(** [s.trim()]. *)
Definition trim (s : string) : string := trimEnd (trimStart s).

(** [s.split(sep)] for a separator of one code unit. *)
Fixpoint split (sep : ascii) (s : string) : list string :=
  match s with
  | EmptyString => [EmptyString]
  | String c rest =>
      if Ascii.eqb c sep then EmptyString :: split sep rest
      else
        match split sep rest with
        | part :: parts => String c part :: parts
        | [] => [String c EmptyString]
        end
  end.

(** [s.padStart(targetLength, pad)] for a pad of one code unit. *)
Definition padStart (targetLength : nat) (pad : ascii) (s : string) : string :=
  string_of_list_ascii (repeat pad (targetLength - String.length s)) ++ s.

(** [v.length]: defined on strings and arrays, an own property or
    nothing on a parsed object, nothing on the other values. *)
Definition js_length (v : JsVal) : JsVal :=
  match v with
  | JStr s => JNum (Z.of_nat (String.length s))
  | JArr items => JNum (Z.of_nat (length items))
  | JObj fields => match assoc "length" fields with Some x => x | None => JUndefined end
  | _ => JUndefined
  end.

Module Invoice.
Section Library.

(** The relational operators on operands that are not both numbers (the
    [length] entry of a parsed object is the one place where such an
    operand can come up). *)
Variable js_lt : JsVal -> JsVal -> bool.
Variable js_le : JsVal -> JsVal -> bool.

(** [a < n] and [a <= n] for a number [n]: [undefined] converts to NaN,
    and every comparison with NaN is false. *)
Definition lt_num (a : JsVal) (n : Z) : bool :=
  match a with
  | JNum k => k <? n
  | JUndefined => false
  | _ => js_lt a (JNum n)
  end.

Definition le_num (a : JsVal) (n : Z) : bool :=
  match a with
  | JNum k => k <=? n
  | JUndefined => false
  | _ => js_le a (JNum n)
  end.

(** *** numberToWords (lines 203-269), on integers *)

Definition ones : list string :=
  [ ""; "One"; "Two"; "Three"; "Four"; "Five"; "Six"; "Seven"; "Eight"; "Nine";
    "Ten"; "Eleven"; "Twelve"; "Thirteen"; "Fourteen"; "Fifteen"; "Sixteen";
    "Seventeen"; "Eighteen"; "Nineteen" ].

Definition tens : list string :=
  [ ""; ""; "Twenty"; "Thirty"; "Forty"; "Fifty"; "Sixty"; "Seventy"; "Eighty";
    "Ninety" ].

(** [words[i]] inside a concatenation: outside the array the element is
    [undefined], which prints as such. *)
Definition word_at (words : list string) (i : Z) : string :=
  if i <? 0 then "undefined" else nth (Z.to_nat i) words "undefined".

(** [convertHundreds]: [Math.floor(n / d)] is [n / d] and [n %= d] is
    [Z.rem n d]. *)
Definition convertHundreds (n : Z) : string :=
  let result := "" in
  let '(result, n) :=
    if n >=? 100
    then (result ++ word_at ones (n / 100) ++ " Hundred ", Z.rem n 100)
    else (result, n) in
  let '(result, n) :=
    if n >=? 20
    then (result ++ word_at tens (n / 10) ++ " ", Z.rem n 10)
    else (result, n) in
  if n >? 0 then result ++ word_at ones n ++ " " else result.

Definition numberToWords (num : Z) : string :=
  if num =? 0 then "Zero"
  else
    let crores := num / 10000000 in
    let lakhs := Z.rem num 10000000 / 100000 in
    let thousands := Z.rem num 100000 / 1000 in
    let hundreds := Z.rem num 1000 in
    let result := "" in
    let result := if crores >? 0 then result ++ convertHundreds crores ++ "Crore " else result in
    let result := if lakhs >? 0 then result ++ convertHundreds lakhs ++ "Lakh " else result in
    let result :=
      if thousands >? 0 then result ++ convertHundreds thousands ++ "Thousand "
      else result in
    let result := if hundreds >? 0 then result ++ convertHundreds hundreds else result in
    trim result.

(** *** getStateCodeFromGSTIN and isInterStateTransaction (lines 277-291) *)

Definition getStateCodeFromGSTIN (gstin : JsVal) : Res JsVal :=
  if negb (truthy gstin) || lt_num (js_length gstin) 2 then Ok (JStr "33")
  else
    match gstin with
    | JStr s => Ok (JStr (substring 0 2 s))
    | _ => Throw (JStr "gstin.substring is not a function")
    end.

(** The second parameter defaults to "33" when it is [undefined]. *)
Definition isInterStateTransaction (customerGstin unitStateCode : JsVal) : Res bool :=
  let unitStateCode :=
    match unitStateCode with JUndefined => JStr "33" | _ => unitStateCode end in
  res_bind (getStateCodeFromGSTIN customerGstin) (fun customerStateCode =>
  Ok (negb (js_strict_eq customerStateCode unitStateCode))).

(** *** splitAddress (lines 300-381) *)

(** The object [{ line1, line2 }]. *)
Definition lines (line1 line2 : JsVal) : JsVal :=
  JObj [ ("line1", line1); ("line2", line2) ].

(** The state of the loop that fills [line1Parts] and [line2Parts]. *)
Record Placement : Type := mkPlacement {
  line1Parts : list string;
  line2Parts : list string;
  currentLength : nat
}.

(** One turn of the loop (lines 330-341 with [sep] a comma, lines 357-368
    with a space), on the part at index [i]. *)
Definition place (sep : string) (st : Placement) (turn : nat * string) : Placement :=
  let '(i, part) := turn in
  let partWithSep := if (i =? 0)%nat then part else sep ++ part in
  if (currentLength st + String.length partWithSep <=? 140)%nat
     && (length (line2Parts st) =? 0)%nat
  then mkPlacement (line1Parts st ++ [part]) (line2Parts st)
         (currentLength st + String.length partWithSep)
  else mkPlacement (line1Parts st) (line2Parts st ++ [part]) (currentLength st).

Definition placeAll (sep : string) (parts : list string) : Placement :=
  fold_left (place sep) (combine (seq 0 (length parts)) parts) (mkPlacement [] [] 0).

Definition nonblank (p : string) : bool := negb (trim p =? "")%string.

(** The branches for a string of more than 140 code units. *)
Definition splitLongAddress (address : string) : JsVal :=
  if includes (String LF "") address then
    let parts := filter nonblank (split LF address) in
    lines (JStr (nth 0 parts "")) (JStr (String.concat ", " (tl parts)))
  else if includes "," address then
    let parts :=
      filter (fun p => negb (p =? "")%string) (map trim (split "," address)) in
    let placed := placeAll "," parts in
    lines (JStr (String.concat "," (line1Parts placed)))
          (JStr (String.concat "," (line2Parts placed)))
  else if includes " " address then
    let parts := filter nonblank (split " " address) in
    let placed := placeAll " " parts in
    lines (JStr (String.concat " " (line1Parts placed)))
          (JStr (String.concat " " (line2Parts placed)))
  else
    lines (JStr (substring 0 140 address))
          (JStr (substring 140 (String.length address - 140) address)).

(** [splitAddress].  A truthy value that is not a string has no
    [includes] method, or, for an array, no [split] and no [substring]
    method, and the call throws a TypeError. *)
Definition splitAddress (address : JsVal) : Res JsVal :=
  if negb (truthy address) then Ok (lines (JStr "") (JStr ""))
  else if le_num (js_length address) 140 then Ok (lines address (JStr ""))
  else
    match address with
    | JStr s => Ok (splitLongAddress s)
    | JArr items =>
        if existsb (sameValueZero (JStr (String LF ""))) items
           || existsb (sameValueZero (JStr ",")) items
           || existsb (sameValueZero (JStr " ")) items
        then Throw (JStr "address.split is not a function")
        else Throw (JStr "address.substring is not a function")
    | _ => Throw (JStr "address.includes is not a function")
    end.

(** *** convertInvoiceNumber and convertCreditNoteNumber (lines 399-409, 580-590) *)

Definition is_digit (c : ascii) : bool :=
  (48 <=? N_of_ascii c)%N && (N_of_ascii c <=? 57)%N.

(** The longest run of digits at the head of a string, and what follows
    it. *)
Fixpoint digits_then (s : string) : string * string :=
  match s with
  | String c rest =>
      if is_digit c then let '(ds, after) := digits_then rest in (String c ds, after)
      else (EmptyString, s)
  | EmptyString => (EmptyString, EmptyString)
  end.

(** [s.match(/\/(\d+)\//)]: the capture group of the leftmost match, a
    slash, one or more digits and a slash.  The digits of a match are the
    whole run that follows the slash, since the code unit after them has
    to be a slash. *)
Fixpoint match_sequence (s : string) : option string :=
  match s with
  | EmptyString => None
  | String c rest =>
      if Ascii.eqb c "/" then
        match digits_then rest with
        | (String d ds, String c' _) =>
            if Ascii.eqb c' "/" then Some (String d ds) else match_sequence rest
        | _ => match_sequence rest
        end
      else match_sequence rest
  end.

(** A [Date] object, as seen through [getFullYear], [getMonth] and
    [getDate]: each gives an integer, or NaN ([None]) on an invalid
    date. *)
Record JsDate : Type := mkJsDate {
  getFullYear : option Z;
  getMonth : option Z;
  getDate : option Z
}.

(** [String(x)] and [`${x}`] for such a result. *)
Definition number_text (x : option Z) : string :=
  match x with Some n => decimal n | None => "NaN" end.

(** [x + 1]. *)
Definition succ_number (x : option Z) : option Z := option_map (fun n => n + 1) x.

(** The sequence number both conversions extract ([invoiceNo.match]
    exists on strings only). *)
Definition sequenceNumber (what : string) (no : JsVal) : Res string :=
  match no with
  | JStr s => Ok (match match_sequence s with Some m => m | None => "0001" end)
  | JUndefined => Throw (cannot_read "undefined" "match")
  | JNull => Throw (cannot_read "null" "match")
  | _ => Throw (JStr (what ++ ".match is not a function"))
  end.

Definition convertInvoiceNumber (invoiceNo : JsVal) (invoiceDate : JsDate) : Res string :=
  res_bind (sequenceNumber "invoiceNo" invoiceNo) (fun sequenceNumber =>
  let year := number_text (getFullYear invoiceDate) in
  let month := padStart 2 "0" (number_text (succ_number (getMonth invoiceDate))) in
  Ok ("INV-" ++ year ++ "-" ++ month ++ "-" ++ sequenceNumber)).

Definition convertCreditNoteNumber (creditNoteNo : JsVal) (creditNoteDate : JsDate)
  : Res string :=
  res_bind (sequenceNumber "creditNoteNo" creditNoteNo) (fun sequenceNumber =>
  let year := number_text (getFullYear creditNoteDate) in
  let month := padStart 2 "0" (number_text (succ_number (getMonth creditNoteDate))) in
  Ok ("CRN-" ++ year ++ "-" ++ month ++ "-" ++ sequenceNumber)).

End Library.
End Invoice.
(** What the loop keeps true, with [done] the parts placed so far. *)
Definition placed_so_far (sep : string) (done : list string) (st : Invoice.Placement) : Prop :=
  (Invoice.line1Parts st ++ Invoice.line2Parts st)%list = done
  /\ Invoice.currentLength st = String.length (String.concat sep (Invoice.line1Parts st))
  /\ (Invoice.currentLength st <= 140)%nat
  /\ (forall p rest, Invoice.line2Parts st = p :: rest ->
        (140 < String.length (String.concat sep (Invoice.line1Parts st ++ [p])))%nat).


(** The words of one group of digits with the name of its unit, as a
    list: nothing for a group that is zero. *)
Definition group_in_words (value : Z) (unit : string) : list string :=
  if value >? 0 then [Invoice.numberToWords value ++ unit] else [].

(** A string that [trim] leaves alone and that is not empty. *)
Definition tight (s : string) : Prop :=
  s <> "" /\ trimStart s = s /\ trimEnd s = s.

Definition tightb (s : string) : bool :=
  negb (s =? "")%string && (trimStart s =? s)%string && (trimEnd s =? s)%string.

(** Sample addresses of more than 140 characters: one with commas, one
    without any separator. *)
Definition sample_long_address : string :=
  "Plot No 42, Second Floor, Sri Venkateswara Industrial Estate, "
  ++ "Old Mahabalipuram Road, Near Government Higher Secondary School, "
  ++ "Sholinganallur Village, Kancheepuram District, Chennai".

Definition sample_undelimited_address : string :=
  string_of_list_ascii (repeat "A"%char 150).

(** Every code unit of a string passes a test. *)
Fixpoint all_chars (test : ascii -> bool) (s : string) : bool :=
  match s with
  | EmptyString => true
  | String c rest => test c && all_chars test rest
  end.

Definition not_slash (c : ascii) : bool := negb (Ascii.eqb c "/").

(** ** Further vocabulary for requests *)

(** The status code of a response is one of a list. *)
Definition status_among (codes : list Z) (r : Response) : bool :=
  existsb (Z.eqb (status_code r)) codes.

(** A computation whose answers, early or final, all satisfy
    [accepted]. *)
Definition Finishes (accepted : Response -> bool) (m : M Response) : Prop :=
  forall w r w', m w = (Next r, w') \/ m w = (Respond r, w') -> accepted r = true.

(** The remote calls follow a list of URLs: each URL of the list is
    called at most once, in the order of the list, and no other URL is
    called. *)
Fixpoint in_order (urls : list string) (calls : list Event) : bool :=
  match calls, urls with
  | [], _ => true
  | _ :: _, [] => false
  | e :: rest, u :: us => if fetched u e then in_order us rest else in_order us calls
  end.

(** A computation whose remote calls follow [urls]. *)
Definition Calls {A : Type} (urls : list string) (m : M A) : Prop :=
  forall w, exists evs,
    events (snd (m w)) = (events w ++ evs)%list
    /\ in_order urls (remote_calls evs) = true.

(** The URL of a remote call (nothing for a data-store event). *)
Definition url_of (e : Event) : string :=
  match e with EvFetch url _ _ => url | EvStore _ _ => "" end.

(** Two cache states with the same access-token slots, and with the same
    session slots. *)
Definition same_access (c c' : TokenCache.Cache) : Prop :=
  TokenCache.accessToken c = TokenCache.accessToken c'
  /\ TokenCache.accessTokenExpiry c = TokenCache.accessTokenExpiry c'.

Definition same_session (c c' : TokenCache.Cache) : Prop :=
  TokenCache.authToken c = TokenCache.authToken c'
  /\ TokenCache.sek c = TokenCache.sek c'
  /\ TokenCache.userName c = TokenCache.userName c'
  /\ TokenCache.authTokenExpiry c = TokenCache.authTokenExpiry c'.

(** The credentials a call carries in its headers are those the cache
    holds. *)
Definition carries_cached_credentials (headers : list (string * JsVal))
  (c : TokenCache.Cache) : Prop :=
  assoc "Authorization" headers = Some (bearer (TokenCache.accessToken c))
  /\ assoc "AuthToken" headers = Some (TokenCache.authToken c)
  /\ assoc "sek" headers = Some (TokenCache.sek c)
  /\ assoc "user_name" headers = Some (TokenCache.userName c).

(** A world whose events hold no call to [url], and a world in which
    every call to [url] carried the credentials its cache holds. *)
Definition no_call_to (url : string) (w : World) : Prop :=
  forall headers body, ~ In (EvFetch url headers body) (events w).

Definition calls_carry_cache (url : string) (w : World) : Prop :=
  forall headers body,
    In (EvFetch url headers body) (events w) ->
    carries_cached_credentials headers (cache w).

(** ** The first cancel-IRN handler (cancelrnRoute.js, lines 9-228) *)

(** The production host of the e-invoice API. *)
Definition PRODUCTION_AUTHENTICATE_URL : string :=
  "https://www.fynamics.co.in/api/authenticate".
Definition PRODUCTION_ENHANCED_AUTHENTICATION_URL : string :=
  "https://www.fynamics.co.in/api/einvoice/enhanced/authentication".
Definition PRODUCTION_GENERATE_IRN_URL : string :=
  "https://www.fynamics.co.in/api/einvoice/enhanced/generate-irn".
Definition PRODUCTION_CANCEL_IRN_URL : string :=
  "https://www.fynamics.co.in/api/einvoice/enhanced/cancel-irn".

(** The handler the file starts with authenticates on every request: it
    does not import the cache.  Lines 16-69 are the statements of lines
    253-306 and lines 143-214 those of lines 414-487, so [validate] and
    [recordCancellation] are shared with the second handler. *)
Module CancelIrnUncached.
Section Handler.

Variable env : Env.

(** Lines 71-225: the three calls, each nested in the success branch of
    the one before; a rejection is logged with its status interpolated,
    then relayed. *)
Definition handlerBody : M Response :=
  let body := req_body env in
  CancelIrn.validate env ;;;
  response <-
    fetch PRODUCTION_AUTHENTICATE_URL
      [ ("accept", JStr "application/json");
        ("clientId", process_env env "EINVOICE_CLIENT_ID");
        ("clientSecret", process_env env "EINVOICE_CLIENT_SECRET") ]
      JUndefined (fetch_authenticate env) ;;
  authenticated <- lift (json response) ;;
  authStatus <- lift (prop authenticated "status") ;;
  if js_strict_eq authStatus (JNum 1) then
    payloadData <- lift (prop authenticated "data") ;;
    accessToken <- lift (prop payloadData "accessToken") ;;
    authResponse <-
      fetch PRODUCTION_ENHANCED_AUTHENTICATION_URL
        [ ("accept", JStr "application/json");
          ("gstin", process_env env "GSTIN");
          ("Authorization", bearer accessToken);
          ("Content-Type", JStr "application/json") ]
        (JObj [ ("Username", process_env env "EINVOICE_USERNAME");
                ("Password", process_env env "EINVOICE_PASSWORD");
                ("ForceRefreshAccessToken", JBool false) ])
        (fetch_enhanced_authentication env) ;;
    authData <- lift (json authResponse) ;;
    enhancedStatus <- lift (prop authData "Status") ;;
    if js_strict_eq enhancedStatus (JNum 1) then
      sessionData <- lift (prop authData "Data") ;;
      sessionToken <- lift (prop sessionData "AuthToken") ;;
      cancelResponse <-
        fetch PRODUCTION_CANCEL_IRN_URL
          [ ("accept", JStr "application/json");
            ("gstin", process_env env "GSTIN");
            ("user_name", process_env env "EINVOICE_USERNAME");
            ("AuthToken", sessionToken);
            ("Authorization", bearer accessToken);
            ("sek", prop_opt sessionData "Sek");
            ("Content-Type", JStr "application/json") ]
          (JObj [ ("Irn", prop_opt body "irn");
                  ("CnlRsn", prop_opt body "cancel_reason_code");
                  ("CnlRem", js_or (prop_opt body "cancel_reason") (JStr "")) ])
          (fetch_cancel_irn env) ;;
      cancelData <- lift (json cancelResponse) ;;
      CancelIrn.recordCancellation env (prop_opt body "invoice_no") (prop_opt body "irn")
        (prop_opt body "cancel_reason_code") (prop_opt body "cancel_reason") cancelData
    else
      lift (interpolate [enhancedStatus]) ;;;
      CancelIrn.answer authData
  else
    lift (interpolate [authStatus]) ;;;
    CancelIrn.answer authenticated.

Definition handler (w : World) : Response * World :=
  handle handlerBody CancelIrn.onError w.

End Handler.
End CancelIrnUncached.

(** The data-store events of a request, and the number of its remote
    calls. *)
Definition store_events (w : World) : list Event := filter is_store (events w).

Definition remote_call_count (w : World) : nat := List.length (filter is_fetch (events w)).

(** A computation that does the same whatever the world it starts in:
    the same outcome and the same events added, the cache left alone. *)
Definition Oblivious {A : Type} (m : M A) : Prop :=
  exists s evs, forall w, m w = (s, mkWorld (cache w) (events w ++ evs)).

(** ** The three remote steps, as the other handlers repeat them *)

(** The regenerate handlers and the credit-note handler repeat steps 1
    to 3 of the generate-IRN handler statement by statement; only the
    title of the failure answers and the host of the API differ. *)
Module IrnSteps.
Section Steps.

Variable JSON_stringify : JsVal -> JsVal.
Variable env : Env.
Variable title : string.
Variable authenticate_url enhanced_authentication_url generate_irn_url : string.

(** Step 1. *)
Definition ensureAccessToken : M JsVal :=
  cached <- readCache (fun c => TokenCache.getAccessToken c (now_getAccessToken env)) ;;
  if truthy cached then ret cached
  else
    authResponse <-
      fetch authenticate_url (GenerateIrn.authenticateHeaders env) JUndefined
        (fetch_authenticate env) ;;
    if negb (ok authResponse) then
      GenerateIrn.transportFailure env (title ++ " - Authentication API Error")
        ["errorMessage"; "message"] authResponse
    else
      authApiData <- lift (json authResponse) ;;
      authStatus <- lift (prop authApiData "status") ;;
      if negb (js_strict_eq authStatus (JNum 1)) then
        details <- lift (GenerateIrn.first_truthy authApiData ["errorMessage"; "message"]
                           (JStr "Failed to get access token")) ;;
        respond 400
          (JObj [ ("error", JStr (title ++ " - Authentication Error"));
                  ("details", details);
                  ("apiResponse",
                   JObj [ ("status", authStatus);
                          ("errorCode", prop_opt authApiData "errorCode");
                          ("timestamp", timestamp env) ]) ])
      else
        payloadData <- lift (prop authApiData "data") ;;
        accessToken <- lift (prop payloadData "accessToken") ;;
        writeCache (TokenCache.setAccessToken accessToken (now_setAccessToken env)) ;;;
        ret accessToken.

(** Step 2. *)
Definition ensureAuthData (accessToken : JsVal) : M JsVal :=
  cached <- readCache (fun c => TokenCache.getAuthData c (now_getAuthData env)) ;;
  if truthy cached then ret cached
  else
    forceRefresh <-
      readCache (fun c => TokenCache.shouldForceRefresh c (now_shouldForceRefresh env)) ;;
    enhancedAuthResponse <-
      fetch enhanced_authentication_url
        [ ("accept", JStr "application/json");
          ("gstin", process_env env "GSTIN");
          ("Authorization", bearer accessToken);
          ("Content-Type", JStr "application/json") ]
        (JObj [ ("Username", process_env env "EINVOICE_USERNAME");
                ("Password", process_env env "EINVOICE_PASSWORD");
                ("ForceRefreshAccessToken", JBool forceRefresh) ])
        (fetch_enhanced_authentication env) ;;
    if negb (ok enhancedAuthResponse) then
      GenerateIrn.transportFailure env (title ++ " - Enhanced Authentication API Error")
        ["ErrorMessage"; "Message"; "message"] enhancedAuthResponse
    else
      enhancedAuthData <- lift (json enhancedAuthResponse) ;;
      enhancedStatus <- lift (prop enhancedAuthData "Status") ;;
      if negb (js_strict_eq enhancedStatus (JNum 1)) then
        details <- lift (GenerateIrn.first_truthy enhancedAuthData
                           ["ErrorMessage"; "Message"]
                           (JStr "Enhanced authentication failed")) ;;
        respond 400
          (JObj [ ("error", JStr (title ++ " - Enhanced Authentication Error"));
                  ("details", details);
                  ("apiResponse",
                   JObj [ ("status", enhancedStatus);
                          ("errorCode", prop_opt enhancedAuthData "ErrorCode");
                          ("timestamp", timestamp env) ]) ])
      else
        sessionData <- lift (prop enhancedAuthData "Data") ;;
        sessionToken <- lift (prop sessionData "AuthToken") ;;
        writeCache (TokenCache.setAuthData sessionToken (prop_opt sessionData "Sek")
                      (prop_opt sessionData "UserName") (now_setAuthData env)) ;;;
        ret (TokenCache.authDataObject sessionToken (prop_opt sessionData "Sek")
               (prop_opt sessionData "UserName")).

(** Step 3: the call, up to the parsed answer. *)
Definition callGenerateIrn (accessToken authData document : JsVal) : M JsVal :=
  irnResponse <-
    fetch generate_irn_url
      [ ("accept", JStr "application/json");
        ("gstin", process_env env "GSTIN");
        ("AuthToken", prop_opt authData "authToken");
        ("user_name", prop_opt authData "userName");
        ("sek", prop_opt authData "sek");
        ("Authorization", bearer accessToken);
        ("Content-Type", JStr "application/json") ]
      document (fetch_generate_irn env) ;;
  if negb (ok irnResponse) then
    GenerateIrn.transportFailure env (title ++ " - API Error")
      ["ErrorMessage"; "message"] irnResponse
  else lift (json irnResponse).

(** What is reported for an answer without [Irn]. *)
Definition rejection (irnData : JsVal) : Res JsVal :=
  res_bind (IrnError.irnFailure JSON_stringify irnData) (fun failure =>
  Ok (JObj [ ("error", JStr title);
             ("details", fst failure);
             ("errorCode", snd failure);
             ("apiResponse",
              JObj [ ("status", prop_opt irnData "Status");
                     ("errorCode", snd failure);
                     ("timestamp", timestamp env) ]) ])).

(** Step 3 where an answer without [Irn] ends the request. *)
Definition generateIrn (accessToken authData document : JsVal) : M JsVal :=
  irnData <- callGenerateIrn accessToken authData document ;;
  irn <- lift (prop irnData "Irn") ;;
  if negb (truthy irn) then
    failure <- lift (rejection irnData) ;;
    respond 400 failure
  else ret irnData.

End Steps.
End IrnSteps.

(** ** The regenerate handlers (regenerateCreditNoteIrnRoute.js and its
    twin for invoices) *)

(** [const { k } = v]: destructuring [null] or [undefined] throws a
    TypeError whose message names the pattern and the source text. *)
Definition destructure (v : JsVal) (k source : string) : Res JsVal :=
  match v with
  | JUndefined | JNull =>
      Throw (JStr ("Cannot destructure property '" ++ k ++ "' of '" ++ source
                   ++ "' as it is " ++ to_string v ++ "."))
  | _ => prop v k
  end.

(** The two files are the same statements over another table: one
    handler, with the document as a parameter. *)
Module Regenerate.

Inductive Document : Type :=
| CreditNote
| Invoice.

Section Handler.

Variable JSON_stringify : JsVal -> JsVal.
Variable newDate : JsVal -> JsVal.
Variable doc : Document.
Variable env : Env.

(** The answers of the two queries on the document's table. *)
Variable document_single : DbResult.
Variable document_update : DbResult.

Definition title : string :=
  match doc with
  | CreditNote => "Credit Note IRN Regeneration Failed"
  | Invoice => "IRN Regeneration Failed"
  end.

Definition id_field : string :=
  match doc with CreditNote => "credit_note_id" | Invoice => "invoice_id" end.

Definition table : string :=
  match doc with CreditNote => "credit_notes" | Invoice => "invoices" end.

Definition data_field : string :=
  match doc with CreditNote => "credit_note_data" | Invoice => "invoice_data" end.

Definition result_field : string :=
  match doc with CreditNote => "credit_note" | Invoice => "invoice" end.

Definition not_found : string :=
  match doc with CreditNote => "Credit note not found" | Invoice => "Invoice not found" end.

Definition no_such_document : string :=
  match doc with
  | CreditNote => "No credit note with this ID"
  | Invoice => "No invoice with this ID"
  end.

Definition already_registered : string :=
  match doc with
  | CreditNote =>
      "This credit note already has an IRN. Use cancel IRN first if you need to regenerate."
  | Invoice =>
      "This invoice already has an IRN. Use cancel IRN first if you need to regenerate."
  end.

Definition invalid_document : string :=
  match doc with CreditNote => "Invalid Credit Note" | Invoice => "Invalid Invoice" end.

Definition data_missing : string :=
  match doc with
  | CreditNote => "Credit note data is missing. Cannot regenerate IRN."
  | Invoice => "Invoice data is missing. Cannot regenerate IRN."
  end.

Definition regenerated : string :=
  match doc with
  | CreditNote => "Credit note IRN regenerated successfully"
  | Invoice => "IRN regenerated successfully"
  end.

(** Lines 25-97: the configuration, the id, the stored document.  Hands
    over the id and the document to register. *)
Definition check : M (JsVal * JsVal) :=
  match GenerateIrn.missingEnvVars env with
  | _ :: _ =>
      respond 500
        (JObj [ ("error", JStr (title ++ " - Configuration Error"));
                ("details",
                 JStr ("Missing environment variables: "
                       ++ String.concat ", " (GenerateIrn.missingEnvVars env))%string) ])
  | [] =>
      id <- lift (destructure (req_body env) id_field "req.body") ;;
      if negb (truthy id) then
        respond 400
          (JObj [ ("error", JStr "Validation Error");
                  ("details", JStr (id_field ++ " is required")) ])
      else
        found <- store (table ++ ".select") id document_single ;;
        if truthy (error found) || negb (truthy (data found)) then
          respond 404
            (JObj [ ("error", JStr not_found);
                    ("details", js_or (prop_opt (error found) "message")
                                  (JStr no_such_document)) ])
        else if truthy (prop_opt (data found) "irn") then
          respond 400
            (JObj [ ("error", JStr "IRN Already Exists");
                    ("details", JStr already_registered);
                    ("existingIrn", prop_opt (data found) "irn") ])
        else if negb (truthy (prop_opt (data found) data_field)) then
          respond 400
            (JObj [ ("error", JStr invalid_document);
                    ("details", JStr data_missing) ])
        else ret (id, prop_opt (data found) data_field)
  end.

(** Lines 104-389: the three steps, against the production host. *)
Definition obtainIrn (document : JsVal) : M JsVal :=
  accessToken <-
    IrnSteps.ensureAccessToken env title PRODUCTION_AUTHENTICATE_URL ;;
  authData <-
    IrnSteps.ensureAuthData env title PRODUCTION_ENHANCED_AUTHENTICATION_URL
      accessToken ;;
  IrnSteps.generateIrn JSON_stringify env title PRODUCTION_GENERATE_IRN_URL
    accessToken authData document.

(** Lines 393-405: the row written back. *)
Definition updateRow (id irnData : JsVal) : JsVal :=
  JObj [ ("irn", prop_opt irnData "Irn");
         ("qrcode", prop_opt irnData "SignedQRCode");
         ("ack_no", prop_opt irnData "AckNo");
         ("ack_dt", if truthy (prop_opt irnData "AckDt")
                    then newDate (prop_opt irnData "AckDt") else JNull);
         ("signed_invoice", prop_opt irnData "SignedInvoice");
         ("einvoice_status", JStr "GENERATED");
         ("id", id) ].

(** Lines 393-437: the update and the answer. *)
Definition persistAndAnswer (id irnData : JsVal) : M Response :=
  updated <- store (table ++ ".update") (updateRow id irnData) document_update ;;
  if truthy (error updated) then
    message <- lift (prop (error updated) "message") ;;
    respond 500
      (JObj [ ("error", JStr "Database Update Failed");
              ("details", message);
              ("irnGenerated", prop_opt irnData "Irn");
              ("warning", JStr "IRN was generated but failed to save to database") ])
  else
    irn <- lift (prop (data updated) "irn") ;;
    ret (mkResponse 200
           (JObj [ ("success", JBool true);
                   ("message", JStr regenerated);
                   (result_field, data updated);
                   ("Irn", irn);
                   ("SignedQRCode", prop_opt (data updated) "qrcode");
                   ("AckNo", prop_opt (data updated) "ack_no");
                   ("AckDt", prop_opt (data updated) "ack_dt");
                   ("SignedInvoice", prop_opt (data updated) "signed_invoice");
                   ("irn", JObj [ ("irn", irn);
                                  ("qrcode", prop_opt (data updated) "qrcode");
                                  ("ack_no", prop_opt (data updated) "ack_no");
                                  ("status", JStr "GENERATED") ]) ])).

(** The body of the [try]. *)
Definition handlerBody : M Response :=
  checked <- check ;;
  irnData <- obtainIrn (snd checked) ;;
  persistAndAnswer (fst checked) irnData.

(** [router.post("/", ...)], with the [catch] of the generate handler:
    status 500 and [error?.message || "Unknown error"]. *)
Definition handler (w : World) : Response * World :=
  handle handlerBody GenerateIrn.onError w.

End Handler.
End Regenerate.

(** Any remote call, and the write of a regenerate handler. *)
Definition is_update (doc : Regenerate.Document) (e : Event) : bool :=
  match e with
  | EvStore operation _ => (operation =? Regenerate.table doc ++ ".update")%string
  | EvFetch _ _ _ => false
  end.

(** Neither a remote call nor the write. *)
Definition quiet (doc : Regenerate.Document) (e : Event) : bool :=
  negb (is_fetch e || is_update doc e).

(** A regenerate request for the stored credit note 5, which has its
    data and no IRN. *)
Definition regenerate_body : JsVal := JObj [ ("credit_note_id", JNum 5) ].

Definition stored_credit_note : DbResult :=
  found (JObj [ ("id", JNum 5); ("credit_note_no", JStr "CN-15/0009/2025-26");
                ("credit_note_data", JObj [ ("Version", JStr "1.1") ]) ]).

Definition registered_credit_note : DbResult :=
  found (JObj [ ("id", JNum 5); ("irn", JStr "IRN-OLD");
                ("credit_note_data", JObj [ ("Version", JStr "1.1") ]) ]).

Definition sample_regenerate (single update : DbResult) : Response * World :=
  Regenerate.handler sample_stringify sample_newDate Regenerate.CreditNote
    (sample_env regenerate_body authenticated enhanced_authenticated irn_generated
       irn_cancelled inserted_invoice (found JNull))
    single update (request TokenCache.cache0).

(** ** The document of the generate-IRN handler (generateIrnRoute.js,
    lines 103-184) *)

Module InvoiceDocument.
Section Builder.

(** [<] on the [length] entry of an object, as in the library. *)
Variable js_lt : JsVal -> JsVal -> bool.

(** [Number(v)] and [new Date(v)] on a value that has a primitive
    value. *)
Variable Number : JsVal -> JsVal.
Variable newDate : JsVal -> JsVal.

(** The template string of line 141 on the text of the grade; it holds
    a dash outside the character range of the strings here. *)
Variable productDescription : string -> JsVal.

(** The library function the handler hands its arguments to. *)
Variable generateInvoiceJSONB : JsVal -> Res JsVal.

(** [Number(v)] and [new Date(v)]: the argument is converted to a
    primitive value first. *)
Definition converted (convert : JsVal -> JsVal) (v : JsVal) : Res JsVal :=
  if printable v then Ok (convert v) else Throw cannot_convert.

(** Lines 140-141: the description of the grade row, or else the
    template string, which converts [body.grade]. *)
Definition productDesc (body gradeData : JsVal) : Res JsVal :=
  if truthy (prop_opt gradeData "product_description")
  then Ok (prop_opt gradeData "product_description")
  else
    res_bind (ToString (prop_opt body "grade")) (fun grade =>
    Ok (productDescription grade)).

(** Line 146: [customer.gstin.substring(0, 2)]. *)
Definition firstTwo (gstin : JsVal) : Res JsVal :=
  match gstin with
  | JStr s => Ok (JStr (substring 0 2 s))
  | JUndefined => Throw (cannot_read "undefined" "substring")
  | JNull => Throw (cannot_read "null" "substring")
  | _ => Throw (JStr "customer.gstin.substring is not a function")
  end.

(** Lines 145-147: [customerStateCode], [unitStateCode], [isInterState]. *)
Definition stateCodes (customer : JsVal) : Res (JsVal * JsVal * bool) :=
  res_bind (Invoice.getStateCodeFromGSTIN js_lt
              (js_or (prop_opt customer "gstin") (JStr ""))) (fun customerStateCode =>
  res_bind (firstTwo (prop_opt customer "gstin")) (fun unitStateCode =>
  Ok (customerStateCode, unitStateCode,
      negb (js_strict_eq customerStateCode unitStateCode)))).

(** Lines 104-119: [deliveryAddress], [deliveryLoc], [deliveryPin]. *)
Definition deliveryOf (body : JsVal) (delivery : option DbResult) : JsVal * JsVal * JsVal :=
  match delivery with
  | Some found =>
      if negb (truthy (error found)) && truthy (data found) then
        (prop_opt (data found) "address", prop_opt (data found) "loc",
         prop_opt (data found) "pin")
      else (prop_opt body "delivery_address", JNull, JNull)
  | None => (prop_opt body "delivery_address", JNull, JNull)
  end.

(** Lines 140-184, in the order of evaluation: the product description,
    the state codes, then the arguments of the library function, with
    the conversions among them. *)
Definition buildInvoiceData (body invoice_no customer : JsVal)
  (delivery : option DbResult) (unit gradeData : JsVal) : Res JsVal :=
  res_bind (productDesc body gradeData) (fun productDesc =>
  let isServc := js_or (prop_opt gradeData "is_service") (JStr "N") in
  res_bind (stateCodes customer) (fun codes =>
  let '(customerStateCode, unitStateCode, isInterState) := codes in
  let '(deliveryAddress, deliveryLoc, deliveryPin) := deliveryOf body delivery in
  res_bind (converted newDate (prop_opt body "invoice_date")) (fun invoiceDate =>
  res_bind (converted Number (prop_opt body "quantity")) (fun quantity =>
  res_bind (converted Number (prop_opt body "rate")) (fun rate =>
  res_bind (converted Number (prop_opt body "gross_amount")) (fun grossAmount =>
  res_bind (converted Number (js_or (prop_opt body "discount") (JNum 0)))
    (fun discount =>
  res_bind (converted Number (prop_opt body "taxable_amount")) (fun taxableAmount =>
  res_bind (converted Number (prop_opt body "cgst")) (fun cgst =>
  res_bind (converted Number (prop_opt body "sgst")) (fun sgst =>
  res_bind (converted Number (js_or (prop_opt body "igst") (JNum 0))) (fun igst =>
  res_bind (converted Number (prop_opt body "round_off")) (fun roundOff =>
  res_bind (converted Number (prop_opt body "total")) (fun total =>
  res_bind (converted Number (js_or (prop_opt body "gst_percentage") (JNum 18)))
    (fun gstPercentage =>
  generateInvoiceJSONB
    (JObj [ ("invoiceNo", invoice_no);
            ("invoiceDate", invoiceDate);
            ("customerGstin", js_or (prop_opt customer "gstin") (JStr ""));
            ("customerName", prop_opt customer "name");
            ("customerTradeName", prop_opt customer "trade_name");
            ("customerType", js_or (prop_opt customer "type") (JStr "B2B"));
            ("billingAddress", prop_opt body "billing_address");
            ("customerLoc", prop_opt customer "loc");
            ("customerPin", prop_opt customer "pin");
            ("customerStateCode", customerStateCode);
            ("deliveryAddress", deliveryAddress);
            ("deliveryLoc", deliveryLoc);
            ("deliveryPin", deliveryPin);
            ("unitAddress", prop_opt unit "address");
            ("unitLoc", prop_opt unit "loc");
            ("unitPincode", prop_opt unit "pincode");
            ("unitStateCode", unitStateCode);
            ("grade", prop_opt body "grade");
            ("productDesc", productDesc);
            ("isServc", isServc);
            ("hsnCode", prop_opt body "hsn_code");
            ("quantity", quantity);
            ("rate", rate);
            ("grossAmount", grossAmount);
            ("discount", discount);
            ("taxableAmount", taxableAmount);
            ("cgst", cgst);
            ("sgst", sgst);
            ("igst", igst);
            ("roundOff", roundOff);
            ("total", total);
            ("isInterState", JBool isInterState);
            ("gstPercentage", gstPercentage) ]))))))))))))))).

End Builder.
End InvoiceDocument.

(** The data-store calls of the generate-IRN handler before its
    document is built. *)
Definition is_lookup (e : Event) : bool :=
  match e with
  | EvStore operation _ =>
      existsb (String.eqb operation)
        [ "rpc.generate_invoice_number"; "customers.select";
          "delivery_addresses.select"; "units.select"; "grades.select" ]
  | EvFetch _ _ _ => false
  end.

(** A stand-in for the library function, and a customer row without
    GSTIN. *)
Definition sample_document (arguments : JsVal) : Res JsVal :=
  Ok (JObj [ ("Version", JStr "1.1"); ("source", arguments) ]).

Definition sample_lt (a b : JsVal) : bool := false.

Definition customer_without_gstin : Env :=
  mkEnv billing_body sample_process_env (JStr "2024-01-01T00:00:00.000Z")
    1000 1000 1000 1000 1000
    (found (JStr "INV-001"))
    (found (JObj [ ("name", JStr "Acme"); ("gstin", JNull) ]))
    (found JNull)
    (found (JObj [ ("address", JStr "1 Plant Road") ]))
    (found JNull)
    inserted_invoice
    (found JNull) (found JNull) (found JNull) (found JNull) (found JNull)
    authenticated enhanced_authenticated irn_generated irn_cancelled.

(** ** The credit-note handler (generateCreditNote route, lines 17-589) *)

Module GenerateCreditNote.
Section Handler.

Variable JSON_stringify : JsVal -> JsVal.
Variable Number : JsVal -> JsVal.
Variable newDate : JsVal -> JsVal.

(** Lines 134-182: the document to register, built by the library from
    the request body, the credit-note number and the rows of the
    original invoice, the customer, the unit and the grade. *)
Variable buildCreditNoteData :
  JsVal -> JsVal -> JsVal -> JsVal -> JsVal -> JsVal -> Res JsVal.

Variable env : Env.

(** The answers of the two calls the other handlers do not make. *)
Variable rpc_generate_credit_note_number : DbResult.
Variable credit_notes_insert : DbResult.

Definition title : string := "Credit Note IRN Generation Failed".

Record Prepared : Type := mkPrepared {
  unitId : JsVal;
  customerId : JsVal;
  credit_note_no : JsVal;
  original_invoice : JsVal;
  creditNoteData : JsVal
}.

(** Lines 25-182. *)
Definition prepare : M Prepared :=
  match GenerateIrn.missingEnvVars env with
  | _ :: _ =>
      respond 500
        (JObj [ ("error", JStr (title ++ " - Configuration Error"));
                ("details",
                 JStr ("Missing environment variables: "
                       ++ String.concat ", " (GenerateIrn.missingEnvVars env))%string) ])
  | [] =>
      let body := req_body env in
      unit_id <- lift (prop body "unit_id") ;;
      lift (ToPrimitive unit_id) ;;;
      let unitId := Number unit_id in
      lift (ToPrimitive (prop_opt body "customer_id")) ;;;
      let customerId := Number (prop_opt body "customer_id") in
      let invoiceNo := prop_opt body "invoice_no" in
      numbered <-
        store "rpc.generate_credit_note_number" (JObj [ ("p_unit_id", unitId) ])
          rpc_generate_credit_note_number ;;
      if truthy (error numbered) then
        message <- lift (prop (error numbered) "message") ;;
        respond 400 (JObj [ ("error", message) ])
      else
        invoice <- store "invoices.select" invoiceNo (invoices_single env) ;;
        if truthy (error invoice) || negb (truthy (data invoice)) then
          respond 404 (JObj [ ("error", JStr "Original invoice not found") ])
        else
          customer <- store "customers.select" customerId (customers_single env) ;;
          if truthy (error customer) || negb (truthy (data customer)) then
            respond 404 (JObj [ ("error", JStr "Customer not found") ])
          else
            unit <- store "units.select" unitId (units_single env) ;;
            if truthy (error unit) || negb (truthy (data unit)) then
              respond 404 (JObj [ ("error", JStr "Unit not found") ])
            else
              gradeData <-
                store "grades.select" (prop_opt body "grade") (grades_maybeSingle env) ;;
              document <-
                lift (buildCreditNoteData body (data numbered) (data invoice)
                        (data customer) (data unit) (data gradeData)) ;;
              ret (mkPrepared unitId customerId (data numbered) (data invoice) document)
  end.

(** Lines 413-488: an answer without [Irn] is kept as [irnError], and
    the request goes on with [irnData = null]. *)
Definition settle (irnData : JsVal) : M (JsVal * JsVal) :=
  irn <- lift (prop irnData "Irn") ;;
  if negb (truthy irn) then
    irnError <- lift (IrnSteps.rejection JSON_stringify env title irnData) ;;
    ret (JNull, irnError)
  else ret (irnData, JNull).

(** Lines 185-488: the three steps, against the staging host. *)
Definition obtainIrn (document : JsVal) : M (JsVal * JsVal) :=
  accessToken <- IrnSteps.ensureAccessToken env title AUTHENTICATE_URL ;;
  authData <-
    IrnSteps.ensureAuthData env title ENHANCED_AUTHENTICATION_URL accessToken ;;
  irnData <-
    IrnSteps.callGenerateIrn env title GENERATE_IRN_URL accessToken authData document ;;
  settle irnData.

(** Lines 525-533: [...(irnData && irnData.Irn && {...})]. *)
Definition irnFields (irnData : JsVal) : list (string * JsVal) :=
  if truthy (js_and irnData (prop_opt irnData "Irn")) then
    [ ("irn", prop_opt irnData "Irn");
      ("qrcode", prop_opt irnData "SignedQRCode");
      ("ack_no", prop_opt irnData "AckNo");
      ("ack_dt", if truthy (prop_opt irnData "AckDt")
                 then newDate (prop_opt irnData "AckDt") else JNull);
      ("signed_invoice", prop_opt irnData "SignedInvoice");
      ("einvoice_status", JStr "GENERATED") ]
  else [].

(** Lines 491-534: [creditNoteInsertData]. *)
Definition creditNoteInsertData (p : Prepared) (irnData : JsVal) : JsVal :=
  let body := req_body env in
  JObj ([ ("unit_id", unitId p);
          ("credit_note_no", credit_note_no p);
          ("credit_note_date", prop_opt body "credit_note_date");
          ("invoice_no", prop_opt body "invoice_no");
          ("original_invoice_date", prop_opt (original_invoice p) "invoice_date");
          ("customer_id", customerId p);
          ("billing_address", prop_opt body "billing_address");
          ("delivery_address", prop_opt body "delivery_address");
          ("po_number", js_or (prop_opt body "po_number") JNull);
          ("grade", prop_opt body "grade");
          ("hsn_code", prop_opt body "hsn_code");
          ("original_quantity", Number (prop_opt body "original_quantity"));
          ("original_rate", Number (prop_opt body "original_rate"));
          ("original_gross_amount", Number (prop_opt body "original_gross_amount"));
          ("original_taxable_amount", Number (prop_opt body "original_taxable_amount"));
          ("adjusted_quantity", Number (prop_opt body "adjusted_quantity"));
          ("adjusted_rate", Number (prop_opt body "adjusted_rate"));
          ("adjusted_gross_amount", Number (prop_opt body "adjusted_gross_amount"));
          ("adjusted_discount",
           Number (js_or (prop_opt body "adjusted_discount") (JNum 0)));
          ("adjusted_taxable_amount", Number (prop_opt body "adjusted_taxable_amount"));
          ("cgst", Number (prop_opt body "cgst"));
          ("sgst", Number (prop_opt body "sgst"));
          ("igst", Number (js_or (prop_opt body "igst") (JNum 0)));
          ("gst_percentage",
           Number (js_or (prop_opt body "gst_percentage") (JNum 18)));
          ("round_off", Number (prop_opt body "round_off"));
          ("total", Number (prop_opt body "total"));
          ("difference_quantity", Number (prop_opt body "difference_quantity"));
          ("difference_amount", Number (prop_opt body "difference_amount"));
          ("vehicle_no", js_or (prop_opt body "vehicle_no") JNull);
          ("dc_no", js_or (prop_opt body "dc_no") JNull);
          ("mode_of_transport",
           js_or (prop_opt body "mode_of_transport") (JStr "Road"));
          ("reason_for_credit_note",
           js_or (prop_opt body "reason_for_credit_note")
             (JStr "Price/Quantity Adjustment"));
          ("remarks", js_or (prop_opt body "remarks") JNull);
          ("credit_note_data", creditNoteData p);
          ("related_invoices", js_or (prop_opt body "related_invoices") (JArr [])) ]
        ++ irnFields irnData).

(** Lines 563-577: the body of the success answer. *)
Definition successPayload (creditNoteResult irnData irnError : JsVal) : Res JsVal :=
  res_bind
    (if truthy irnData then
       res_bind (prop creditNoteResult "irn") (fun irn =>
       Ok [ ("irn", JObj [ ("irn", irn);
                           ("qrcode", prop_opt creditNoteResult "qrcode");
                           ("ack_no", prop_opt creditNoteResult "ack_no");
                           ("status", JStr "GENERATED") ]) ])
     else Ok []) (fun issued =>
  Ok (JObj ([ ("credit_note", creditNoteResult) ]
            ++ issued
            ++ (if truthy irnError then
                  [ ("irnError", irnError);
                    ("warning",
                     JStr "Credit note saved successfully but IRN generation failed") ]
                else [])))).

(** Lines 490-577: the insert and the answer. *)
Definition persistAndAnswer (p : Prepared) (irnData irnError : JsVal) : M Response :=
  inserted <-
    store "credit_notes.insert" (creditNoteInsertData p irnData) credit_notes_insert ;;
  if truthy (error inserted) then
    message <- lift (prop (error inserted) "message") ;;
    respond 500
      (JObj [ ("error", JStr "Credit note creation failed"); ("details", message) ])
  else
    answer <- lift (successPayload (data inserted) irnData irnError) ;;
    ret (mkResponse 200 answer).

(** The body of the [try]. *)
Definition handlerBody : M Response :=
  prepared <- prepare ;;
  outcome <- obtainIrn (creditNoteData prepared) ;;
  persistAndAnswer prepared (fst outcome) (snd outcome).

Definition handler (w : World) : Response * World :=
  handle handlerBody GenerateIrn.onError w.

End Handler.
End GenerateCreditNote.




Definition is_credit_note_insert (e : Event) : bool :=
  match e with
  | EvStore operation _ => (operation =? "credit_notes.insert")%string
  | EvFetch _ _ _ => false
  end.

(** ** The cancel handler for credit notes (cancelCreditNoteIrnRoute.js,
    lines 16-273) *)

(** The statements of the cached cancel-IRN handler, over the tables of
    the credit notes and against the production host. *)
Module CancelCreditNoteIrn.
Section Handler.

Variable env : Env.

(** The answers of the queries on the tables of the credit notes. *)
Variable credit_notes_single : DbResult.
Variable canceled_credit_notes_insert : DbResult.
Variable credit_notes_update : DbResult.

(** Lines 23-76: the four required fields, the credit note and its
    unit, with the log lines that interpolate them. *)
Definition validate : M unit :=
  let body := req_body env in
  credit_note_no <- lift (prop body "credit_note_no") ;;
  lift (interpolate
          [ credit_note_no; prop_opt body "irn"; prop_opt body "cancel_reason_code";
            js_or (prop_opt body "cancel_reason") (JStr "Not provided") ]) ;;;
  if negb (truthy credit_note_no) || negb (truthy (prop_opt body "irn"))
     || negb (truthy (prop_opt body "cancel_reason_code"))
     || negb (truthy (prop_opt body "cancel_reason"))
  then
    CancelIrn.failure 400
      "credit_note_no, irn, cancel_reason_code, and cancel_reason are required"
  else
    creditNote <- store "credit_notes.select" credit_note_no credit_notes_single ;;
    if negb (truthy (data creditNote)) then CancelIrn.failure 404 "Credit note not found"
    else
      lift (interpolate [prop_opt (data creditNote) "unit_id"]) ;;;
      unit <-
        store "units.select" (prop_opt (data creditNote) "unit_id") (units_single env) ;;
      if negb (truthy (data unit)) then CancelIrn.failure 404 "Unit not found"
      else ret tt.

(** Lines 80-116. *)
Definition ensureAccessToken : M JsVal :=
  cached <- readCache (fun c => TokenCache.getAccessToken c (now_getAccessToken env)) ;;
  if truthy cached then ret cached
  else
    response <-
      fetch PRODUCTION_AUTHENTICATE_URL
        [ ("accept", JStr "application/json");
          ("clientId", process_env env "EINVOICE_CLIENT_ID");
          ("clientSecret", process_env env "EINVOICE_CLIENT_SECRET") ]
        JUndefined (fetch_authenticate env) ;;
    authenticated <- lift (json response) ;;
    authStatus <- lift (prop authenticated "status") ;;
    if negb (js_strict_eq authStatus (JNum 1)) then
      lift (interpolate [authStatus]) ;;;
      CancelIrn.answer authenticated
    else
      payloadData <- lift (prop authenticated "data") ;;
      accessToken <- lift (prop payloadData "accessToken") ;;
      writeCache (TokenCache.setAccessToken accessToken (now_setAccessToken env)) ;;;
      ret accessToken.

(** Lines 118-170. *)
Definition ensureAuthData (accessToken : JsVal) : M JsVal :=
  cached <- readCache (fun c => TokenCache.getAuthData c (now_getAuthData env)) ;;
  if truthy cached then ret cached
  else
    forceRefresh <-
      readCache (fun c => TokenCache.shouldForceRefresh c (now_shouldForceRefresh env)) ;;
    authResponse <-
      fetch PRODUCTION_ENHANCED_AUTHENTICATION_URL
        [ ("accept", JStr "application/json");
          ("gstin", process_env env "GSTIN");
          ("Authorization", bearer accessToken);
          ("Content-Type", JStr "application/json") ]
        (JObj [ ("Username", process_env env "EINVOICE_USERNAME");
                ("Password", process_env env "EINVOICE_PASSWORD");
                ("ForceRefreshAccessToken", JBool forceRefresh) ])
        (fetch_enhanced_authentication env) ;;
    authResponseData <- lift (json authResponse) ;;
    enhancedStatus <- lift (prop authResponseData "Status") ;;
    if negb (js_strict_eq enhancedStatus (JNum 1)) then
      lift (interpolate [enhancedStatus]) ;;;
      CancelIrn.answer authResponseData
    else
      sessionData <- lift (prop authResponseData "Data") ;;
      sessionToken <- lift (prop sessionData "AuthToken") ;;
      writeCache (TokenCache.setAuthData sessionToken (prop_opt sessionData "Sek")
                    (prop_opt sessionData "UserName") (now_setAuthData env)) ;;;
      ret (TokenCache.authDataObject sessionToken (prop_opt sessionData "Sek")
             (prop_opt sessionData "UserName")).

(** Lines 172-205: the call. *)
Definition cancelIrn (accessToken authData irn cancel_reason_code cancel_reason : JsVal)
  : M JsVal :=
  cancelResponse <-
    fetch PRODUCTION_CANCEL_IRN_URL
      [ ("accept", JStr "application/json");
        ("gstin", process_env env "GSTIN");
        ("user_name", prop_opt authData "userName");
        ("AuthToken", prop_opt authData "authToken");
        ("Authorization", bearer accessToken);
        ("sek", prop_opt authData "sek");
        ("Content-Type", JStr "application/json") ]
      (JObj [ ("Irn", irn);
              ("CnlRsn", cancel_reason_code);
              ("CnlRem", js_or cancel_reason (JStr "")) ])
      (fetch_cancel_irn env) ;;
  lift (json cancelResponse).

(** The record of a cancellation, and the mark on the credit note. *)
Definition cancellationRecord (credit_note_no irn cancel_reason_code cancel_reason : JsVal)
  : JsVal :=
  JObj [ ("credit_note_no", credit_note_no);
         ("irn", irn);
         ("cancel_reason_code", cancel_reason_code);
         ("cancel_reason", cancel_reason) ].

Definition cancelledMark (credit_note_no : JsVal) : JsVal :=
  JObj [ ("is_cancelled", JBool true); ("credit_note_no", credit_note_no) ].

(** Lines 207-264: the two writes after a cancellation, and the answer. *)
Definition recordCancellation
  (credit_note_no irn cancel_reason_code cancel_reason cancelData : JsVal)
  : M Response :=
  cancelledIrn <- lift (prop cancelData "Irn") ;;
  if negb (js_strict_eq cancelledIrn JNull) then
    recorded <-
      store "canceled_credit_notes.insert"
        (cancellationRecord credit_note_no irn cancel_reason_code cancel_reason)
        canceled_credit_notes_insert ;;
    if truthy (error recorded) then
      respond 500
        (JObj [ ("status", JNum 0);
                ("errorMessage", JStr "Failed to record cancellation");
                ("details", error recorded) ])
    else
      updated <-
        store "credit_notes.update" (cancelledMark credit_note_no) credit_notes_update ;;
      if truthy (error updated) then
        respond 500
          (JObj [ ("status", JNum 0);
                  ("errorMessage", JStr "Failed to update credit note status");
                  ("details", error updated) ])
      else ret (mkResponse 200 cancelData)
  else ret (mkResponse 200 cancelData).

(** The body of the [try]. *)
Definition handlerBody : M Response :=
  let body := req_body env in
  validate ;;;
  accessToken <- ensureAccessToken ;;
  authData <- ensureAuthData accessToken ;;
  cancelData <-
    cancelIrn accessToken authData (prop_opt body "irn")
      (prop_opt body "cancel_reason_code") (prop_opt body "cancel_reason") ;;
  recordCancellation (prop_opt body "credit_note_no") (prop_opt body "irn")
    (prop_opt body "cancel_reason_code") (prop_opt body "cancel_reason") cancelData.

Definition handler (w : World) : Response * World :=
  handle handlerBody CancelIrn.onError w.

End Handler.
End CancelCreditNoteIrn.

(** The mark on a credit note, among the events. *)
Definition is_cancelled_mark (e : Event) : bool :=
  match e with
  | EvStore operation _ => (operation =? "credit_notes.update")%string
  | EvFetch _ _ _ => false
  end.

Definition no_mark (e : Event) : bool := negb (is_cancelled_mark e).

(** A request to cancel the credit note CN-1. *)
Definition cancel_credit_note_body : JsVal :=
  JObj [ ("credit_note_no", JStr "CN-1"); ("irn", JStr "IRN123");
         ("cancel_reason_code", JStr "1"); ("cancel_reason", JStr "Duplicate") ].

Definition sample_cancel_credit_note : Response * World :=
  CancelCreditNoteIrn.handler
    (sample_env cancel_credit_note_body authenticated enhanced_authenticated
       irn_generated irn_cancelled inserted_invoice (found JNull))
    (found (JObj [ ("id", JNum 3); ("unit_id", JNum 1) ])) (found JNull) (found JNull)
    (request TokenCache.cache0).

(** ** Requests that differ in the answers of the [orders] table *)

(** The same request, with other answers to the two queries on the
    [orders] table. *)
Definition with_orders (single update : DbResult) (env : Env) : Env :=
  mkEnv (req_body env) (process_env env) (timestamp env)
    (now_getAccessToken env) (now_setAccessToken env) (now_getAuthData env)
    (now_shouldForceRefresh env) (now_setAuthData env)
    (rpc_generate_invoice_number env) (customers_single env)
    (delivery_addresses_single env) (units_single env) (grades_maybeSingle env)
    (invoices_insert env) (invoices_single env) (invoices_update env)
    (canceled_invoices_insert env)
    single update
    (fetch_authenticate env) (fetch_enhanced_authentication env)
    (fetch_generate_irn env) (fetch_cancel_irn env).

(** An answer to the lookup of the order on which the bookkeeping does
    not throw: no row to work on, or a row whose delivered and ordered
    quantities have primitive values. *)
Definition order_quantities_primitive (order : DbResult) : bool :=
  if negb (truthy (error order)) && truthy (data order) then
    printable (js_or (prop_opt (data order) "delivered_quantity") (JNum 0))
    && printable (prop_opt (data order) "order_quantity")
  else true.

(** [+] and [>=] on numbers, which is all the order on record below
    holds. *)
Definition number_add (a b : JsVal) : JsVal :=
  match a, b with
  | JNum x, JNum y => JNum (x + y)
  | _, _ => JUndefined
  end.

Definition number_ge (a b : JsVal) : bool :=
  match a, b with
  | JNum x, JNum y => x >=? y
  | _, _ => false
  end.

(** A billing request against a purchase order, and an order on
    record. *)
Definition ordered_body : JsVal :=
  JObj [ ("unit_id", JNum 1); ("customer_id", JNum 7); ("grade", JStr "M20");
         ("invoice_type", JStr "BILLING"); ("quantity", JNum 10);
         ("po_number", JStr "PO-1") ].

Definition order_on_record : DbResult :=
  found (JObj [ ("delivered_quantity", JNum 5); ("order_quantity", JNum 100);
                ("status", JStr "pending") ]).

Definition scenario_ordered : Env :=
  sample_env ordered_body authenticated enhanced_authenticated irn_generated
    irn_cancelled
    (found (JObj [ ("id", JNum 42); ("invoice_no", JStr "INV-001");
                   ("irn", JStr "IRN123"); ("qrcode", JStr "qr");
                   ("ack_no", JStr "A1") ]))
    (found JNull).

Definition is_order_event (e : Event) : bool :=
  match e with
  | EvStore operation _ =>
      (operation =? "orders.select")%string || (operation =? "orders.update")%string
  | EvFetch _ _ _ => false
  end.

Definition beside_orders (evs : list Event) : list Event :=
  filter (fun e => negb (is_order_event e)) evs.

(** ** The first generate-IRN handler (generateIrnRoute.js, lines
    630-792) *)

(** The handler the file ends with: the document comes with the request,
    every request authenticates, and the invoice row exists already. *)
Module GenerateIrnUncached.
Section Handler.

Variable env : Env.

(** Lines 756-763: the row written back. *)
Definition issuedIrn (irnData invoice_no : JsVal) : JsVal :=
  JObj [ ("irn", prop_opt irnData "Irn");
         ("qrcode", prop_opt irnData "SignedQRCode");
         ("ack_no", prop_opt irnData "AckNo");
         ("invoice_no", invoice_no) ].

(** Lines 750-770: the update of the invoice, for an answer with
    [Irn], and the log line that names the invoice and the IRN. *)
Definition saveIrn (irnData invoice_no : JsVal) : M unit :=
  if truthy (prop_opt irnData "Irn") then
    updated <- store "invoices.update" (issuedIrn irnData invoice_no)
                 (invoices_update env) ;;
    if truthy (error updated) then
      respond 500
        (JObj [ ("status", JNum 0);
                ("errorMessage", JStr "Failed to update invoice with IRN data");
                ("details", error updated) ])
    else lift (interpolate [invoice_no; prop_opt irnData "Irn"])
  else ret tt.

(** The body of the [try], lines 636-784.  The log lines that
    interpolate a value of the request or of an answer are kept, as
    [interpolate]; so is the text of the [Authorization] header. *)
Definition handlerBody : M Response :=
  let body := req_body env in
  invoiceData <- lift (prop body "invoiceData") ;;
  let invoice_no := prop_opt body "invoice_no" in
  lift (interpolate [invoice_no]) ;;;
  if negb (truthy invoice_no) then CancelIrn.failure 400 "invoice_no is required"
  else
    response <-
      fetch AUTHENTICATE_URL
        [ ("accept", JStr "application/json");
          ("clientId", process_env env "EINVOICE_CLIENT_ID");
          ("clientSecret", process_env env "EINVOICE_CLIENT_SECRET") ]
        JUndefined (fetch_authenticate env) ;;
    authenticated <- lift (json response) ;;
    authStatus <- lift (prop authenticated "status") ;;
    if js_strict_eq authStatus (JNum 1) then
      payloadData <- lift (prop authenticated "data") ;;
      accessToken <- lift (prop payloadData "accessToken") ;;
      lift (interpolate [accessToken]) ;;;
      authResponse <-
        fetch ENHANCED_AUTHENTICATION_URL
          [ ("accept", JStr "application/json");
            ("gstin", process_env env "GSTIN");
            ("Authorization", bearer accessToken);
            ("Content-Type", JStr "application/json") ]
          (JObj [ ("Username", process_env env "EINVOICE_USERNAME");
                  ("Password", process_env env "EINVOICE_PASSWORD");
                  ("ForceRefreshAccessToken", JBool false) ])
          (fetch_enhanced_authentication env) ;;
      authData <- lift (json authResponse) ;;
      enhancedStatus <- lift (prop authData "Status") ;;
      if js_strict_eq enhancedStatus (JNum 1) then
        sessionData <- lift (prop authData "Data") ;;
        sessionToken <- lift (prop sessionData "AuthToken") ;;
        irnResponse <-
          fetch GENERATE_IRN_URL
            [ ("accept", JStr "application/json");
              ("gstin", process_env env "GSTIN");
              ("AuthToken", sessionToken);
              ("user_name", prop_opt sessionData "UserName");
              ("sek", prop_opt sessionData "Sek");
              ("Authorization", bearer accessToken);
              ("Content-Type", JStr "application/json") ]
            invoiceData (fetch_generate_irn env) ;;
        irnData <- lift (json irnResponse) ;;
        lift (prop irnData "Irn") ;;;
        saveIrn irnData invoice_no ;;;
        ret (mkResponse 200 irnData)
      else
        lift (interpolate [enhancedStatus]) ;;;
        CancelIrn.answer authData
    else
      lift (interpolate [authStatus]) ;;;
      CancelIrn.answer authenticated.

Definition handler (w : World) : Response * World :=
  handle handlerBody CancelIrn.onError w.

End Handler.
End GenerateIrnUncached.

(** The body some remote call of the request was answered with. *)
Definition relayed (env : Env) (v : JsVal) : Prop :=
  exists r,
    (fetch_authenticate env = Ok r \/ fetch_enhanced_authentication env = Ok r
     \/ fetch_generate_irn env = Ok r)
    /\ json r = Ok v.

(** A request that brings its document, for an invoice on record. *)
Definition first_generate_body : JsVal :=
  JObj [ ("invoice_no", JStr "INV-001");
         ("invoiceData", JObj [ ("Version", JStr "1.1") ]) ].

(* ================================================================== *)
(** * Properties *)
(* ================================================================== *)

(** ** Truthiness *)

Lemma truthy_not_null (v : JsVal) : truthy v = true -> v <> JNull.
Proof. intros H E; subst v; discriminate H. Qed.

(** ** The credential cache *)

Section CacheHistories.
Import TokenCache.

Lemma apply_op_agrees last cache e :
  access_slots_agree last cache ->
  access_slots_agree (track_access last e) (apply_op cache e).
Proof.
  destruct e as [t op]; unfold track_access, apply_op; simpl.
  destruct op; simpl; intros H.
  - split; reflexivity.
  - destruct last as [[t0 tok]|]; simpl in *; exact H.
  - split; reflexivity.
Qed.

Lemma fold_agrees ops : forall last cache,
  access_slots_agree last cache ->
  access_slots_agree (fold_left track_access ops last) (fold_left apply_op ops cache).
Proof.
  induction ops as [|e ops IH]; intros last cache H; simpl.
  - exact H.
  - apply IH, apply_op_agrees, H.
Qed.

Lemma run_agrees ops : access_slots_agree (last_access_set ops) (run ops).
Proof. apply fold_agrees; split; reflexivity. Qed.

(** The value [getAccessToken] returns after a history, in closed form. *)
Lemma getAccessToken_run ops now :
  getAccessToken (run ops) now =
  match last_access_set ops with
  | Some (t, token) =>
      if truthy token && (now - t <? TOKEN_VALIDITY_MS) then token else JNull
  | None => JNull
  end.
Proof.
  pose proof (run_agrees ops) as H. unfold getAccessToken.
  destruct (last_access_set ops) as [[t token]|]; simpl in H;
    destruct H as [Ht He]; rewrite Ht, He; simpl.
  - replace (t + TOKEN_VALIDITY_MS >? now) with (now - t <? TOKEN_VALIDITY_MS);
      [reflexivity|].
    rewrite Z.gtb_ltb.
    destruct (Z.ltb_spec (now - t) TOKEN_VALIDITY_MS);
      destruct (Z.ltb_spec now (t + TOKEN_VALIDITY_MS)); try reflexivity; lia.
  - reflexivity.
Qed.

(** The value [shouldForceRefresh] returns after a history of calls made
    at non-negative clock readings. *)
Lemma shouldForceRefresh_run ops now :
  Forall (fun e => 0 <= fst e) ops ->
  shouldForceRefresh (run ops) now =
  match last_access_set ops with
  | Some (t, _) =>
      (TOKEN_VALIDITY_MS - FORCE_REFRESH_WINDOW_MS <=? now - t)
      && (now - t <? TOKEN_VALIDITY_MS)
  | None => false
  end.
Proof.
  intros Hpos.
  assert (Ht : forall t token, last_access_set ops = Some (t, token) -> 0 <= t).
  { unfold last_access_set. clear now.
    assert (G : forall l (o : option (Time * JsVal)),
               Forall (fun e : Time * CacheOp => 0 <= fst e) l ->
               (forall t token, o = Some (t, token) -> 0 <= t) ->
               forall t token, fold_left track_access l o = Some (t, token) -> 0 <= t).
    { induction l as [|e l IH]; intros o Hl Ho t token; simpl.
      - apply Ho.
      - inversion Hl as [|? ? He Hl']; subst. apply IH; [exact Hl'|].
        intros t' token'. destruct e as [te op]; unfold track_access; simpl in *.
        destruct op; intros E; try discriminate.
        + inversion E; subst; exact He.
        + eapply Ho; exact E. }
    apply G; [exact Hpos|]. intros t token E; discriminate E. }
  pose proof (run_agrees ops) as H. unfold shouldForceRefresh.
  destruct (last_access_set ops) as [[t token]|]; simpl in H;
    destruct H as [_ He]; rewrite He; unfold expiry_truthy, expiry_number;
    [|reflexivity].
  specialize (Ht t token eq_refl).
  assert (Hv : 0 < TOKEN_VALIDITY_MS) by (unfold TOKEN_VALIDITY_MS; lia).
  destruct (Z.eqb_spec (t + TOKEN_VALIDITY_MS) 0); [lia|]. cbv [negb].
  rewrite Z.gtb_ltb.
  destruct (Z.ltb_spec 0 (t + TOKEN_VALIDITY_MS - now));
    destruct (Z.leb_spec (t + TOKEN_VALIDITY_MS - now) FORCE_REFRESH_WINDOW_MS);
    destruct (Z.leb_spec (TOKEN_VALIDITY_MS - FORCE_REFRESH_WINDOW_MS) (now - t));
    destruct (Z.ltb_spec (now - t) TOKEN_VALIDITY_MS);
    cbv [andb]; try reflexivity; lia.
Qed.

End CacheHistories.

Section CacheClaims.
Import TokenCache.

(** The claim on [getAccessToken] as stated fails for a falsy token: an
    empty string stored at time 0 was set strictly less than
    [TOKEN_VALIDITY_MS] before a query at time 0, and [getAccessToken]
    returns [null]. *)
Lemma getAccessToken_empty_token_reads_null :
  token_set_within_window [(0, OpSetAccessToken (JStr ""))] 0
  /\ getAccessToken (run [(0, OpSetAccessToken (JStr ""))]) 0 = JNull.
Proof.
  split; [|reflexivity].
  exists 0, (JStr ""). split; [reflexivity|]. unfold TOKEN_VALIDITY_MS. lia.
Qed.

(** C1, amended.  After any history of [setAccessToken] and
    [clearTokenCache] calls (and [setAuthData] calls, which do not touch
    the access token), and at any query time, [getAccessToken] returns a
    non-null value exactly when a truthy token was set strictly less than
    [TOKEN_VALIDITY_MS] ago; it then returns that token, and otherwise
    it returns [null]. *)
Theorem getAccessToken_iff_set_within_window :
  forall (ops : list (Time * CacheOp)) (now : Time),
    (getAccessToken (run ops) now <> JNull
     <-> truthy_token_set_within_window ops now)
    /\ (~ truthy_token_set_within_window ops now
        -> getAccessToken (run ops) now = JNull)
    /\ (forall t token,
           last_access_set ops = Some (t, token) ->
           truthy token = true ->
           now - t < TOKEN_VALIDITY_MS ->
           getAccessToken (run ops) now = token).
Proof.
  intros ops now. rewrite getAccessToken_run.
  unfold truthy_token_set_within_window.
  destruct (last_access_set ops) as [[t token]|].
  - destruct (truthy token) eqn:Htr; simpl.
    + destruct (Z.ltb_spec (now - t) TOKEN_VALIDITY_MS) as [Hlt|Hge].
      * repeat split.
        -- intros _. exists t, token. auto.
        -- intros _. apply truthy_not_null, Htr.
        -- intros Hn. exfalso. apply Hn. exists t, token. auto.
        -- intros t' token' E _ _. inversion E; reflexivity.
      * repeat split.
        -- intros Hn. exfalso. apply Hn. reflexivity.
        -- intros (t' & token' & E & _ & Hlt). inversion E; subst. lia.
        -- intros t' token' E _ Hlt. inversion E; subst. lia.
    + repeat split.
      * intros Hn. exfalso. apply Hn. reflexivity.
      * intros (t' & token' & E & Htr' & _). inversion E; subst. congruence.
      * intros t' token' E Htr' _. inversion E; subst. congruence.
  - repeat split.
    + intros Hn. exfalso. apply Hn. reflexivity.
    + intros (t' & token' & E & _). discriminate E.
    + intros t' token' E. discriminate E.
Qed.

(** The claim on [shouldForceRefresh] as stated fails at the lower end of
    the window: a token set at time 0 and queried exactly
    [TOKEN_VALIDITY_MS - FORCE_REFRESH_WINDOW_MS] later (350 minutes)
    makes [shouldForceRefresh] answer [true], while the elapsed time is
    not inside the open interval. *)
Lemma shouldForceRefresh_open_window_fails :
  shouldForceRefresh (run [(0, OpSetAccessToken (JStr "tok1"))]) 21000000 = true
  /\ ~ elapsed_in_open_window [(0, OpSetAccessToken (JStr "tok1"))] 21000000.
Proof.
  split; [reflexivity|].
  intros (t & token & E & Hlo & _). inversion E; subst.
  unfold TOKEN_VALIDITY_MS, FORCE_REFRESH_WINDOW_MS in Hlo. lia.
Qed.

(** C2, amended.  After any history of cache calls made at non-negative
    clock readings, and at any query time, [shouldForceRefresh] answers
    [true] exactly when an access token was set and the time elapsed
    since lies in the interval from
    [TOKEN_VALIDITY_MS - FORCE_REFRESH_WINDOW_MS] included to
    [TOKEN_VALIDITY_MS] excluded. *)
Theorem shouldForceRefresh_iff_in_refresh_window :
  forall (ops : list (Time * CacheOp)) (now : Time),
    Forall (fun e => 0 <= fst e) ops ->
    (shouldForceRefresh (run ops) now = true <-> elapsed_in_refresh_window ops now).
Proof.
  intros ops now Hpos. rewrite (shouldForceRefresh_run ops now Hpos).
  unfold elapsed_in_refresh_window.
  destruct (last_access_set ops) as [[t token]|].
  - rewrite andb_true_iff, Z.leb_le, Z.ltb_lt. split.
    + intros [Hlo Hhi]. exists t, token. auto.
    + intros (t' & token' & E & Hlo & Hhi). inversion E; subst. auto.
  - split; [discriminate|]. intros (t' & token' & E & _). discriminate E.
Qed.

Lemma shouldForceRefresh_iff_in_refresh_window_witness :
  Forall (fun e : Time * CacheOp => 0 <= fst e) [(0, OpSetAccessToken (JStr "tok1"))]
  /\ (shouldForceRefresh (run [(0, OpSetAccessToken (JStr "tok1"))]) 21300000 = true
      <-> elapsed_in_refresh_window [(0, OpSetAccessToken (JStr "tok1"))] 21300000).
Proof.
  assert (H : Forall (fun e : Time * CacheOp => 0 <= fst e)
                     [(0, OpSetAccessToken (JStr "tok1"))]).
  { constructor; [simpl; lia | constructor]. }
  split; [exact H|].
  exact (shouldForceRefresh_iff_in_refresh_window _ 21300000 H).
Defined.

(** The guard of [getAuthData], spelled out. *)
Lemma auth_guard_spec (cache : Cache) (now : Time) :
  truthy (authToken cache) && expiry_truthy (authTokenExpiry cache)
  && (expiry_number (authTokenExpiry cache) >? now) = true
  <-> truthy (authToken cache) = true
      /\ exists t, authTokenExpiry cache = Some t /\ t <> 0 /\ now < t.
Proof.
  rewrite !andb_true_iff, Z.gtb_ltb, Z.ltb_lt.
  destruct (authTokenExpiry cache) as [t|]; simpl.
  - rewrite negb_true_iff, Z.eqb_neq. split.
    + intros [[Ha Hn] Hlt]. split; [exact Ha|]. exists t; auto.
    + intros (Ha & t' & E & Hn & Hlt). inversion E; subst. auto.
  - split.
    + intros [[_ F] _]. discriminate F.
    + intros (_ & t' & E & _). discriminate E.
Qed.

(** The claim on [getAuthData] as stated fails: a session stored with a
    token but with [sek] and [userName] left [null] is returned, not
    withheld. *)
Lemma getAuthData_ignores_sek_and_userName :
  nullish (sek (setAuthData (JStr "at1") JNull JNull 0 cache0)) = true
  /\ getAuthData (setAuthData (JStr "at1") JNull JNull 0 cache0) 1000
     = authDataObject (JStr "at1") JNull JNull
  /\ getAuthData (setAuthData (JStr "at1") JNull JNull 0 cache0) 1000 <> JNull.
Proof. repeat split; try reflexivity. discriminate. Qed.

(** C7, amended.  In every cache state and at every query time,
    [getAuthData] returns a non-null value exactly when [authToken] is
    set to a truthy value and the session expiry is set and later than
    the query time; the value is then the three stored fields, [sek] and
    [userName] as they are, unchecked.  In particular an unset
    [authToken] gives [null]. *)
Theorem getAuthData_checks_authToken_and_expiry :
  forall (cache : Cache) (now : Time),
    (getAuthData cache now <> JNull <->
       truthy (authToken cache) = true
       /\ exists t, authTokenExpiry cache = Some t /\ t <> 0 /\ now < t)
    /\ (getAuthData cache now = JNull
        \/ getAuthData cache now
           = authDataObject (authToken cache) (sek cache) (userName cache))
    /\ (nullish (authToken cache) = true -> getAuthData cache now = JNull).
Proof.
  intros cache now. unfold getAuthData.
  pose proof (auth_guard_spec cache now) as G.
  destruct (truthy (authToken cache) && expiry_truthy (authTokenExpiry cache)
            && (expiry_number (authTokenExpiry cache) >? now)) eqn:Hg.
  - split; [|split].
    + split; [intros _; apply G; reflexivity | intros _; discriminate].
    + right; reflexivity.
    + intros Hu. apply proj1 in G. destruct (G eq_refl) as [Htr _].
      destruct (authToken cache); simpl in *; congruence.
  - split; [|split].
    + split; [intros H; exfalso; apply H; reflexivity|].
      intros H. apply G in H. discriminate H.
    + left; reflexivity.
    + intros _; reflexivity.
Qed.

(** The round trip as stated fails for a falsy first argument: an empty
    [authToken] stored together with a key and a user name reads back as
    [null] at once. *)
Lemma setAuthData_empty_token_reads_null :
  getAuthData (setAuthData (JStr "") (JStr "s1") (JStr "u1") 0 cache0) 0 = JNull
  /\ getAuthData (setAuthData (JStr "") (JStr "s1") (JStr "u1") 0 cache0) 0
     <> authDataObject (JStr "") (JStr "s1") (JStr "u1").
Proof. split; [reflexivity | discriminate]. Qed.

(** C8, amended.  For every truthy value [a] and all values [s], [u]:
    storing them with [setAuthData] at a non-negative clock reading and
    reading with [getAuthData] before [TOKEN_VALIDITY_MS] has elapsed
    returns exactly the object with [authToken] [a], [sek] [s] and
    [userName] [u], whatever the cache held before. *)
Theorem setAuthData_getAuthData_roundtrip :
  forall (a s u : JsVal) (t now : Time) (cache : Cache),
    truthy a = true ->
    0 <= t ->
    now - t < TOKEN_VALIDITY_MS ->
    getAuthData (setAuthData a s u t cache) now = authDataObject a s u.
Proof.
  intros a s u t now cache Ha Ht Hlt.
  pose proof (auth_guard_spec (setAuthData a s u t cache) now) as G.
  unfold getAuthData.
  destruct (truthy (authToken (setAuthData a s u t cache))
            && expiry_truthy (authTokenExpiry (setAuthData a s u t cache))
            && (expiry_number (authTokenExpiry (setAuthData a s u t cache)) >? now))
    eqn:Hg; [reflexivity|].
  exfalso. assert (Hv : 0 < TOKEN_VALIDITY_MS) by (unfold TOKEN_VALIDITY_MS; lia).
  assert (F : false = true); [|discriminate F].
  apply G. split; [exact Ha|].
  exists (t + TOKEN_VALIDITY_MS). simpl. repeat split; lia.
Qed.

Lemma setAuthData_getAuthData_roundtrip_witness :
  getAuthData (setAuthData (JStr "at1") (JStr "s1") (JStr "u1") 1000 cache0) 1000
  = authDataObject (JStr "at1") (JStr "s1") (JStr "u1").
Proof.
  apply (setAuthData_getAuthData_roundtrip
           (JStr "at1") (JStr "s1") (JStr "u1") 1000 1000 cache0);
    [reflexivity | lia | unfold TOKEN_VALIDITY_MS; lia].
Defined.

End CacheClaims.

(** ** The two versions of the cache *)

(** The disagreement as stated fails for a falsy token: with an empty
    string stored at time 0 both versions return [null] 60 minutes
    later. *)
Lemma cache_versions_agree_on_empty_token :
  60 * 60 * 1000 <= 3600000 - 0 < 360 * 60 * 1000
  /\ TokenCache.getAccessToken
       (TokenCache.setAccessToken (JStr "") 0 TokenCache.cache0) 3600000
     = TokenCacheB.getAccessToken
         (TokenCacheB.setAccessToken (JStr "") 0 TokenCacheB.tokenCache0) 3600000.
Proof. split; [lia | reflexivity]. Qed.

(** C9, amended.  The first version fixes [TOKEN_VALIDITY_MS] at 360
    minutes and the second at 60 minutes, so for any truthy token set at
    time [t] in both, the two [getAccessToken] disagree at every query
    time whose distance
    from [t] is at least 60 minutes and less than 360 minutes: the first
    still returns the token, the second returns [null]. *)
Theorem cache_versions_disagree :
  forall (token : JsVal) (t now : Time)
         (cacheA : TokenCache.Cache) (cacheB : TokenCacheB.Cache),
    truthy token = true ->
    60 * 60 * 1000 <= now - t ->
    now - t < 360 * 60 * 1000 ->
    TokenCache.TOKEN_VALIDITY_MS = 360 * 60 * 1000
    /\ TokenCacheB.TOKEN_VALIDITY_MS = 60 * 60 * 1000
    /\ TokenCache.getAccessToken (TokenCache.setAccessToken token t cacheA) now = token
    /\ TokenCacheB.getAccessToken (TokenCacheB.setAccessToken token t cacheB) now = JNull
    /\ TokenCache.getAccessToken (TokenCache.setAccessToken token t cacheA) now
       <> TokenCacheB.getAccessToken (TokenCacheB.setAccessToken token t cacheB) now.
Proof.
  intros token t now cacheA cacheB Htr Hlo Hhi.
  assert (HA : TokenCache.getAccessToken (TokenCache.setAccessToken token t cacheA) now
               = token).
  { unfold TokenCache.getAccessToken, TokenCache.setAccessToken; simpl.
    rewrite Htr, Z.gtb_ltb. unfold TokenCache.TOKEN_VALIDITY_MS.
    destruct (Z.ltb_spec now (t + 360 * 60 * 1000)); [reflexivity | lia]. }
  assert (HB : TokenCacheB.getAccessToken (TokenCacheB.setAccessToken token t cacheB) now
               = JNull).
  { unfold TokenCacheB.getAccessToken, TokenCacheB.setAccessToken; simpl.
    rewrite Htr, Z.gtb_ltb. unfold TokenCacheB.TOKEN_VALIDITY_MS.
    destruct (Z.ltb_spec now (t + 60 * 60 * 1000)); [lia | reflexivity]. }
  repeat split; try assumption.
  rewrite HA, HB. apply truthy_not_null, Htr.
Qed.

Lemma cache_versions_disagree_witness :
  TokenCache.getAccessToken
    (TokenCache.setAccessToken (JStr "tok1") 0 TokenCache.cache0) 3600000
  <> TokenCacheB.getAccessToken
       (TokenCacheB.setAccessToken (JStr "tok1") 0 TokenCacheB.tokenCache0) 3600000.
Proof.
  apply (cache_versions_disagree (JStr "tok1") 0 3600000
           TokenCache.cache0 TokenCacheB.tokenCache0);
    [reflexivity | lia | lia].
Defined.

(** ** The IRN failure message *)

Section IrnFailureMessage.
Import IrnError.

Variable JSON_stringify : JsVal -> JsVal.

Lemma sameValueZero_eq (a b : JsVal) : sameValueZero a b = true -> a = b.
Proof.
  unfold sameValueZero.
  destruct a, b; simpl; intros H; try discriminate; try reflexivity.
  - apply Bool.eqb_prop in H; congruence.
  - apply Z.eqb_eq in H; congruence.
  - apply String.eqb_eq in H; congruence.
Qed.

Lemma sameValueZero_sym (a b : JsVal) : sameValueZero a b = sameValueZero b a.
Proof.
  unfold sameValueZero.
  destruct a, b; simpl; try reflexivity.
  - destruct b0, b; reflexivity.
  - apply Z.eqb_sym.
  - apply String.eqb_sym.
Qed.

Lemma taken_app (seen more : list JsVal) (x : JsVal) :
  taken (seen ++ more) x = taken seen x || taken more x.
Proof. unfold taken. apply existsb_app. Qed.

Lemma filter_twice {A : Type} (p q : A -> bool) (l : list A) :
  filter p (filter q l) = filter (fun x => q x && p x) l.
Proof.
  induction l as [|x l IH]; simpl; [reflexivity|].
  destruct (q x); simpl; [destruct (p x)|]; rewrite IH; reflexivity.
Qed.

Lemma filter_agree {A : Type} (p q : A -> bool) (l : list A) :
  (forall x, p x = q x) -> filter p l = filter q l.
Proof.
  intros H. induction l as [|x l IH]; simpl; [reflexivity|].
  rewrite H, IH. reflexivity.
Qed.

(** The loop of [Set] insertions against the recursive description. *)
Lemma fold_set_add (items : list JsVal) : forall seen : list JsVal,
  fold_left set_add items seen
  = (seen ++ filter (fun x => negb (taken seen x)) (dedup items))%list.
Proof.
  induction items as [|x items IH]; intros seen; simpl.
  - rewrite app_nil_r; reflexivity.
  - rewrite IH. unfold set_add. fold (taken seen x).
    destruct (taken seen x) eqn:Hx; simpl.
    + f_equal. rewrite filter_twice. apply filter_agree. intros y.
      destruct (sameValueZero y x) eqn:Hyx; simpl; [|reflexivity].
      apply sameValueZero_eq in Hyx; subst y. rewrite Hx; reflexivity.
    + rewrite <- app_assoc. simpl. f_equal. f_equal.
      rewrite filter_twice. apply filter_agree. intros y.
      rewrite taken_app. unfold taken at 2; simpl.
      rewrite orb_false_r, negb_orb. apply andb_comm.
Qed.

Lemma unique_dedup (items : list JsVal) : unique items = dedup items.
Proof.
  unfold unique. rewrite fold_set_add. simpl.
  induction (dedup items) as [|x l IH]; simpl; [reflexivity|].
  f_equal; exact IH.
Qed.

(** No value occurs twice in the deduplicated list, as far as [Set] can
    tell values apart. *)
Lemma dedup_no_repeat (items : list JsVal) (x : JsVal) :
  sameValueZero x x = true ->
  (length (filter (sameValueZero x) (dedup items)) <= 1)%nat.
Proof.
  intros Hx. induction items as [|y items IH]; simpl; [lia|].
  destruct (sameValueZero x y) eqn:Hxy; simpl.
  - apply sameValueZero_eq in Hxy; subst y.
    rewrite filter_twice.
    rewrite (filter_agree _ (fun _ => false)).
    + clear. induction (dedup items); simpl; auto.
    + intros z. destruct (sameValueZero z x) eqn:Hz; simpl; [reflexivity|].
      rewrite sameValueZero_sym; exact Hz.
  - rewrite filter_twice.
    assert (H : forall l : list JsVal,
               (length (filter (fun z => negb (sameValueZero z y) && sameValueZero x z) l)
                <= length (filter (sameValueZero x) l))%nat).
    { induction l as [|z l IHl]; simpl; [lia|].
      destruct (sameValueZero x z); simpl.
      - destruct (negb (sameValueZero z y)); simpl; lia.
      - rewrite andb_false_r; exact IHl. }
    specialize (H (dedup items)). lia.
Qed.

(** Reading a property of a value that is not [null] or [undefined]
    succeeds. *)
Lemma prop_readable (v : JsVal) (k : string) :
  nullish v = false -> prop v k = Ok (prop_opt v k).
Proof.
  unfold prop_opt. destruct v; simpl; intros H; try discriminate; reflexivity.
Qed.

(** On such an entry the callback of [map] does not throw, and gives the
    message of the entry. *)
Lemma entryMessage_total (err : JsVal) :
  nullish err = false ->
  entryMessage JSON_stringify err = Ok (message_of JSON_stringify err).
Proof.
  intros H. unfold entryMessage, message_of.
  destruct err; try discriminate H; try reflexivity;
    try (simpl; reflexivity).
  rewrite !(prop_readable (JObj fields)) by reflexivity. simpl.
  destruct (truthy _); [reflexivity|].
  destruct (truthy _); reflexivity.
Qed.

Lemma mapMessages_total (items : list JsVal) :
  forallb (fun entry => negb (nullish entry)) items = true ->
  mapMessages JSON_stringify items = Ok (map (message_of JSON_stringify) items).
Proof.
  induction items as [|err items IH]; simpl; [reflexivity|].
  rewrite andb_true_iff, negb_true_iff. intros [H1 H2].
  rewrite (entryMessage_total err H1); simpl.
  rewrite (IH H2); reflexivity.
Qed.

(** Usable entries can be read, and their messages converted. *)
Lemma usable_entries (items : list JsVal) :
  forallb (usable_entry JSON_stringify) items = true ->
  forallb (fun entry => negb (nullish entry)) items = true
  /\ forallb printable (map (message_of JSON_stringify) items) = true.
Proof.
  induction items as [|err items IH]; simpl; [split; reflexivity|].
  unfold usable_entry at 1. rewrite !andb_true_iff.
  intros [[H1 H2] H3]. destruct (IH H3) as [H4 H5]. repeat split; assumption.
Qed.

Lemma forallb_filter {A : Type} (p q : A -> bool) (l : list A) :
  forallb p l = true -> forallb p (filter q l) = true.
Proof.
  induction l as [|x l IH]; simpl; [reflexivity|].
  rewrite andb_true_iff. intros [H1 H2].
  destruct (q x); simpl; [rewrite H1|]; exact (IH H2).
Qed.

Lemma dedup_printable (messages : list JsVal) :
  forallb printable messages = true -> forallb printable (dedup messages) = true.
Proof.
  induction messages as [|m messages IH]; simpl; [reflexivity|].
  rewrite !andb_true_iff. intros [H1 H2]. split; [exact H1|].
  apply forallb_filter, IH, H2.
Qed.

(** Mapping, deduplicating and joining usable entries gives the text of
    the specification: the messages, each once, with ", " between
    them. *)
Lemma joined_usable_entries (items : list JsVal) (code : JsVal) :
  forallb (usable_entry JSON_stringify) items = true ->
  res_bind (mapMessages JSON_stringify items) (fun messages =>
  res_bind (join ", " (unique messages)) (fun joined => Ok (JStr joined, code)))
  = Ok (joined_messages JSON_stringify items, code).
Proof.
  intros H. destruct (usable_entries items H) as [Hr Hp].
  rewrite (mapMessages_total items Hr). cbn [res_bind].
  rewrite unique_dedup. unfold join.
  rewrite (dedup_printable _ Hp). reflexivity.
Qed.

(** The chain of tests computes the first message of the precedence
    order, on every payload it gets through. *)
Lemma irnFailure_first_message (irnData : JsVal) :
  failure_payload JSON_stringify irnData = true ->
  exists code,
    irnFailure JSON_stringify irnData
    = Ok (normalized_message JSON_stringify irnData, code).
Proof.
  unfold failure_payload, tried_entries. rewrite andb_true_iff, negb_true_iff.
  intros [Hn Hu].
  unfold irnFailure, normalized_message, precedence.
  rewrite !(prop_readable irnData) by exact Hn.
  cbn [first_message res_bind].
  unfold flat_path, path_ErrorDetails, path_ValidationErrors, fallback_message.
  destruct (truthy (prop_opt irnData "ErrorMessage")); [eexists; reflexivity|].
  assert (Hrest :
    match prop_opt irnData "ErrorDetails" with
    | JArr (_ :: _) => True
    | _ =>
        forallb (usable_entry JSON_stringify)
          (if truthy (prop_opt irnData "errorMessage") then []
           else match prop_opt irnData "ValidationErrors" with
                | JArr entries => entries
                | _ => []
                end) = true ->
        exists code,
          (if truthy (prop_opt irnData "errorMessage")
           then Ok (prop_opt irnData "errorMessage", JNull)
           else
             match prop_opt irnData "ValidationErrors" with
             | JArr items =>
                 res_bind (mapMessages JSON_stringify items)
                   (fun validationMessages =>
                      res_bind (join ", " (unique validationMessages))
                        (fun joined => Ok (JStr joined, JNull)))
             | _ =>
                 if truthy (prop_opt irnData "message")
                 then Ok (prop_opt irnData "message", JNull)
                 else Ok (JStr "IRN generation was unsuccessful", JNull)
             end)
          = Ok (match
                  (if truthy (prop_opt irnData "errorMessage")
                   then Some (prop_opt irnData "errorMessage") else None)
                with
                | Some m => m
                | None =>
                    match
                      match prop_opt irnData "ValidationErrors" with
                      | JArr entries => Some (joined_messages JSON_stringify entries)
                      | _ => None
                      end
                    with
                    | Some m => m
                    | None =>
                        match
                          (if truthy (prop_opt irnData "message")
                           then Some (prop_opt irnData "message") else None)
                        with
                        | Some m => m
                        | None => JStr "IRN generation was unsuccessful"
                        end
                    end
                end, code)
    end).
  { assert (Hgoal :
      forallb (usable_entry JSON_stringify)
        (if truthy (prop_opt irnData "errorMessage") then []
         else match prop_opt irnData "ValidationErrors" with
              | JArr entries => entries
              | _ => []
              end) = true ->
      exists code,
        (if truthy (prop_opt irnData "errorMessage")
         then Ok (prop_opt irnData "errorMessage", JNull)
         else
           match prop_opt irnData "ValidationErrors" with
           | JArr items =>
               res_bind (mapMessages JSON_stringify items)
                 (fun validationMessages =>
                    res_bind (join ", " (unique validationMessages))
                      (fun joined => Ok (JStr joined, JNull)))
           | _ =>
               if truthy (prop_opt irnData "message")
               then Ok (prop_opt irnData "message", JNull)
               else Ok (JStr "IRN generation was unsuccessful", JNull)
           end)
        = Ok (match
                (if truthy (prop_opt irnData "errorMessage")
                 then Some (prop_opt irnData "errorMessage") else None)
              with
              | Some m => m
              | None =>
                  match
                    match prop_opt irnData "ValidationErrors" with
                    | JArr entries => Some (joined_messages JSON_stringify entries)
                    | _ => None
                    end
                  with
                  | Some m => m
                  | None =>
                      match
                        (if truthy (prop_opt irnData "message")
                         then Some (prop_opt irnData "message") else None)
                      with
                      | Some m => m
                      | None => JStr "IRN generation was unsuccessful"
                      end
                  end
              end, code)).
    { destruct (truthy (prop_opt irnData "errorMessage")); [eexists; reflexivity|].
      destruct (prop_opt irnData "ValidationErrors") as [| | | | |entries|];
        try (intros _; destruct (truthy (prop_opt irnData "message"));
             eexists; reflexivity).
      intros Hv. rewrite (joined_usable_entries entries JNull Hv).
      eexists; reflexivity. }
    destruct (prop_opt irnData "ErrorDetails") as [| | | | |[|e items]|];
      try exact Hgoal; exact I. }
  destruct (prop_opt irnData "ErrorDetails") as [| | | | |[|e items]|];
    try exact (Hrest Hu).
  rewrite (joined_usable_entries (e :: items) _ Hu). eexists; reflexivity.
Qed.

(** Outside those payloads the chain ends in a TypeError, and the
    request in the [catch] of the handler: a [null] entry makes the
    callback of [map] throw, a message without string conversion makes
    [join] throw. *)
Lemma mapMessages_null_entry (items : list JsVal) :
  forallb (fun entry => negb (nullish entry)) items = false ->
  exists e, mapMessages JSON_stringify items = Throw e.
Proof.
  induction items as [|err items IH]; simpl; [discriminate|].
  destruct (nullish err) eqn:Hn; simpl.
  - intros _. destruct err; try discriminate Hn; eexists; reflexivity.
  - intros H. rewrite (entryMessage_total err Hn). cbn [res_bind].
    destruct (IH H) as [e He]. rewrite He. eexists; reflexivity.
Qed.

Lemma dedup_keeps (x : JsVal) (messages : list JsVal) :
  In x messages -> In x (dedup messages).
Proof.
  induction messages as [|m messages IH]; simpl; [intros []|].
  intros [H|H]; [left; exact H|].
  destruct (sameValueZero x m) eqn:Hx.
  - left. symmetry. exact (sameValueZero_eq _ _ Hx).
  - right. apply filter_In. split; [exact (IH H)|]. rewrite Hx. reflexivity.
Qed.

Lemma dedup_unprintable (messages : list JsVal) :
  forallb printable messages = false -> forallb printable (dedup messages) = false.
Proof.
  intros H. destruct (forallb printable (dedup messages)) eqn:Hd; [|reflexivity].
  rewrite <- H. symmetry. apply forallb_forall. intros x Hx.
  exact (proj1 (forallb_forall _ _) Hd x (dedup_keeps x messages Hx)).
Qed.

Lemma unusable_entries_throw (items : list JsVal) (code : JsVal) :
  forallb (usable_entry JSON_stringify) items = false ->
  exists e,
    res_bind (mapMessages JSON_stringify items) (fun messages =>
    res_bind (join ", " (unique messages)) (fun joined => Ok (JStr joined, code)))
    = Throw e.
Proof.
  intros H.
  destruct (forallb (fun entry => negb (nullish entry)) items) eqn:Hr.
  - rewrite (mapMessages_total items Hr). cbn [res_bind].
    rewrite unique_dedup. unfold join.
    rewrite dedup_unprintable; [eexists; reflexivity|].
    destruct (forallb printable (map (message_of JSON_stringify) items)) eqn:Hp;
      [|reflexivity].
    rewrite <- H. symmetry. apply forallb_forall. intros x Hx.
    unfold usable_entry.
    rewrite (proj1 (forallb_forall _ _) Hr x Hx).
    rewrite forallb_forall in Hp. apply Hp, in_map, Hx.
  - destruct (mapMessages_null_entry items Hr) as [e He]. rewrite He.
    eexists; reflexivity.
Qed.

Lemma irnFailure_throws_outside (irnData : JsVal) :
  failure_payload JSON_stringify irnData = false ->
  exists e, irnFailure JSON_stringify irnData = Throw e.
Proof.
  unfold failure_payload, tried_entries, irnFailure.
  destruct (nullish irnData) eqn:Hn.
  { intros _. destruct irnData; try discriminate Hn; eexists; reflexivity. }
  cbn [negb andb]. rewrite !(prop_readable irnData) by exact Hn. cbn [res_bind].
  destruct (truthy (prop_opt irnData "ErrorMessage")); [discriminate|].
  assert (Hrest :
    forallb (usable_entry JSON_stringify)
      (if truthy (prop_opt irnData "errorMessage") then []
       else match prop_opt irnData "ValidationErrors" with
            | JArr entries => entries
            | _ => []
            end) = false ->
    exists e,
      (if truthy (prop_opt irnData "errorMessage")
       then Ok (prop_opt irnData "errorMessage", JNull)
       else
         match prop_opt irnData "ValidationErrors" with
         | JArr items =>
             res_bind (mapMessages JSON_stringify items)
               (fun validationMessages =>
                  res_bind (join ", " (unique validationMessages))
                    (fun joined => Ok (JStr joined, JNull)))
         | _ =>
             if truthy (prop_opt irnData "message")
             then Ok (prop_opt irnData "message", JNull)
             else Ok (JStr "IRN generation was unsuccessful", JNull)
         end) = Throw e).
  { destruct (truthy (prop_opt irnData "errorMessage")); [discriminate|].
    destruct (prop_opt irnData "ValidationErrors") as [| | | | |entries|];
      try discriminate.
    apply unusable_entries_throw. }
  destruct (prop_opt irnData "ErrorDetails") as [| | | | |[|e items]|];
    try exact Hrest.
  apply unusable_entries_throw.
Qed.

Lemma irnFailure_null_entry_throws :
  irnFailure JSON_stringify (JObj [ ("Irn", JNull); ("ErrorDetails", JArr [JNull]) ])
  = Throw (cannot_read "null" "ErrorMessage").
Proof. reflexivity. Qed.

Lemma irnFailure_unprintable_message_throws :
  irnFailure JSON_stringify
    (JObj [ ("Irn", JNull);
            ("ErrorDetails",
             JArr [ JObj [ ("ErrorMessage", JObj [ ("toString", JNum 1) ]) ] ]) ])
  = Throw cannot_convert.
Proof. reflexivity. Qed.

End IrnFailureMessage.

(** ** Computations of the handlers *)

Section Computations.

Context {A B : Type}.

Lemma bind_next (m : M A) (f : A -> M B) (w w' : World) (a : A) :
  m w = (Next a, w') -> bind m f w = f a w'.
Proof. intros H. unfold bind. rewrite H. reflexivity. Qed.

Lemma bind_respond (m : M A) (f : A -> M B) (w w' : World) (r : Response) :
  m w = (Respond r, w') -> bind m f w = (Respond r, w').
Proof. intros H. unfold bind. rewrite H. reflexivity. Qed.

Lemma bind_raise (m : M A) (f : A -> M B) (w w' : World) (e : JsVal) :
  m w = (Raise e, w') -> bind m f w = (Raise e, w').
Proof. intros H. unfold bind. rewrite H. reflexivity. Qed.

Lemma bind_assoc {C : Type} (m : M A) (f : A -> M B) (k : B -> M C) (w : World) :
  bind (bind m f) k w = bind m (fun a => bind (f a) k) w.
Proof. unfold bind. destruct (m w) as [[a|r|e] w']; reflexivity. Qed.

Lemma Silent_ret (a : A) : Silent (ret a).
Proof. intros w; reflexivity. Qed.

Lemma Silent_respond (code : Z) (v : JsVal) : Silent (@respond A code v).
Proof. intros w; reflexivity. Qed.

Lemma Silent_lift (r : Res A) : Silent (lift r).
Proof. intros w; unfold lift; destruct r; reflexivity. Qed.

Lemma Silent_readCache (f : TokenCache.Cache -> A) : Silent (readCache f).
Proof. intros w; reflexivity. Qed.

Lemma Silent_bind (m : M A) (f : A -> M B) :
  Silent m -> (forall a, Silent (f a)) -> Silent (bind m f).
Proof.
  intros Hm Hf w. unfold bind. specialize (Hm w).
  destruct (m w) as [[a|r|e] w']; simpl in *; subst w'; try reflexivity.
  apply Hf.
Qed.

Lemma Silent_Emits (allowed : Event -> bool) (m : M A) :
  Silent m -> Emits allowed m.
Proof.
  intros H w. exists []. rewrite H, app_nil_r. split; reflexivity.
Qed.

Lemma Silent_KeepsCache (m : M A) : Silent m -> KeepsCache m.
Proof. intros H w. rewrite H. reflexivity. Qed.

Lemma Emits_bind (allowed : Event -> bool) (m : M A) (f : A -> M B) :
  Emits allowed m -> (forall a, Emits allowed (f a)) -> Emits allowed (bind m f).
Proof.
  intros Hm Hf w. unfold bind. destruct (Hm w) as (evs & He & Ha).
  destruct (m w) as [[a|r|e] w']; simpl in *; try (exists evs; split; assumption).
  destruct (Hf a w') as (evs' & He' & Ha').
  exists (evs ++ evs')%list. split.
  - rewrite He', He, app_assoc. reflexivity.
  - rewrite forallb_app, Ha, Ha'. reflexivity.
Qed.

Lemma KeepsCache_bind (m : M A) (f : A -> M B) :
  KeepsCache m -> (forall a, KeepsCache (f a)) -> KeepsCache (bind m f).
Proof.
  intros Hm Hf w. unfold bind. specialize (Hm w).
  destruct (m w) as [[a|r|e] w']; simpl in *; try assumption.
  rewrite Hf. exact Hm.
Qed.

End Computations.

Lemma Emits_emit (allowed : Event -> bool) (e : Event) :
  allowed e = true -> Emits allowed (emit e).
Proof.
  intros H w. exists [e]. simpl. rewrite H. split; reflexivity.
Qed.

Lemma KeepsCache_emit (e : Event) : KeepsCache (emit e).
Proof. intros w; reflexivity. Qed.

Lemma Emits_store (allowed : Event -> bool) (operation : string) (argument : JsVal)
  (result : DbResult) :
  allowed (EvStore operation argument) = true ->
  Emits allowed (store operation argument result).
Proof.
  intros H. unfold store. apply Emits_bind; [apply Emits_emit, H|].
  intros _. apply Silent_Emits, Silent_ret.
Qed.

Lemma KeepsCache_store (operation : string) (argument : JsVal) (result : DbResult) :
  KeepsCache (store operation argument result).
Proof.
  unfold store. apply KeepsCache_bind; [apply KeepsCache_emit|].
  intros _. apply Silent_KeepsCache, Silent_ret.
Qed.

Lemma Emits_fetch (allowed : Event -> bool) (url : string)
  (headers : list (string * JsVal)) (body : JsVal) (result : Res HttpResponse) :
  allowed (EvFetch url headers body) = true ->
  Emits allowed (fetch url headers body result).
Proof.
  intros H. unfold fetch. apply Emits_bind; [apply Emits_emit, H|].
  intros _. apply Silent_Emits, Silent_lift.
Qed.

Lemma KeepsCache_fetch (url : string) (headers : list (string * JsVal)) (body : JsVal)
  (result : Res HttpResponse) :
  KeepsCache (fetch url headers body result).
Proof.
  unfold fetch. apply KeepsCache_bind; [apply KeepsCache_emit|].
  intros _. apply Silent_KeepsCache, Silent_lift.
Qed.

Lemma Emits_writeCache (allowed : Event -> bool)
  (f : TokenCache.Cache -> TokenCache.Cache) :
  Emits allowed (writeCache f).
Proof. intros w. exists []. simpl. rewrite app_nil_r. split; reflexivity. Qed.

Lemma Emits_weaken {A : Type} (allowed allowed' : Event -> bool) (m : M A) :
  (forall e, allowed e = true -> allowed' e = true) ->
  Emits allowed m -> Emits allowed' m.
Proof.
  intros Hw Hm w. destruct (Hm w) as (evs & He & Ha). exists evs. split; [exact He|].
  rewrite forallb_forall in *. intros e Hin. apply Hw, Ha, Hin.
Qed.

Lemma is_store_not_to (url : string) (e : Event) :
  is_store e = true -> not_to url e = true.
Proof. destruct e; simpl; [discriminate | reflexivity]. Qed.

(** A composite computation is silent when its parts are. *)
Ltac silent :=
  repeat first
    [ apply Silent_ret | apply Silent_respond | apply Silent_lift
    | apply Silent_readCache
    | apply Silent_bind; [|intros ?]
    | split_computation ].

(** It emits only allowed events when its parts do; [tac] settles the
    calls to the outside. *)
Ltac emits_with tac :=
  repeat first
    [ apply Silent_Emits; solve [silent]
    | apply Emits_writeCache
    | apply Emits_store; solve [tac]
    | apply Emits_fetch; solve [tac]
    | apply Emits_bind; [|intros ?]
    | split_computation ].

(** It keeps the cache when no part writes it. *)
Ltac keeps_cache :=
  repeat first
    [ apply Silent_KeepsCache; solve [silent]
    | apply KeepsCache_store | apply KeepsCache_fetch
    | apply KeepsCache_bind; [|intros ?]
    | split_computation ].

(** ** Values *)

Lemma js_strict_eq_num_false (v : JsVal) (n : Z) :
  v <> JNum n -> js_strict_eq v (JNum n) = false.
Proof.
  intros H. destruct v; simpl; try reflexivity.
  destruct (Z.eqb_spec n0 n); [subst; congruence | reflexivity].
Qed.

(** A value whose property could be read is neither [null] nor
    [undefined], so any other property can be read too. *)
Lemma prop_total (v : JsVal) (k k' : string) (x : JsVal) :
  prop v k = Ok x -> prop v k' = Ok (prop_opt v k').
Proof.
  unfold prop_opt. destruct v; simpl; intros H; try discriminate; reflexivity.
Qed.

Lemma truthy_prop_total (v : JsVal) (k : string) :
  truthy v = true -> prop v k = Ok (prop_opt v k).
Proof.
  unfold prop_opt. destruct v; simpl; intros H; try discriminate; reflexivity.
Qed.

Lemma forallb_In (allowed : Event -> bool) (evs : list Event) (e : Event) :
  forallb allowed evs = true -> In e evs -> allowed e = true.
Proof. intros H Hin. rewrite forallb_forall in H. apply H, Hin. Qed.

Lemma remote_calls_app (evs evs' : list Event) :
  remote_calls (evs ++ evs') = (remote_calls evs ++ remote_calls evs')%list.
Proof. unfold remote_calls. apply filter_app. Qed.

Lemma remote_calls_stores (evs : list Event) :
  forallb is_store evs = true -> remote_calls evs = [].
Proof.
  unfold remote_calls, is_store. induction evs as [|e evs IH]; simpl; [reflexivity|].
  rewrite andb_true_iff. intros [He Hes].
  destruct (is_fetch e); [discriminate|]. apply IH, Hes.
Qed.

Lemma calls_to_app (url : string) (evs evs' : list Event) :
  calls_to url (evs ++ evs') = (calls_to url evs + calls_to url evs')%nat.
Proof. unfold calls_to. rewrite filter_app, length_app. reflexivity. Qed.

Lemma calls_to_none (url : string) (evs : list Event) :
  forallb (not_to url) evs = true -> calls_to url evs = 0%nat.
Proof.
  unfold calls_to, not_to. induction evs as [|e evs IH]; simpl; [reflexivity|].
  rewrite andb_true_iff. intros [He Hes].
  destruct (fetched url e); [discriminate|]. apply IH, Hes.
Qed.

Lemma stores_not_to (url : string) (evs : list Event) :
  forallb is_store evs = true -> forallb (not_to url) evs = true.
Proof.
  unfold is_store, not_to. induction evs as [|e evs IH]; simpl; [reflexivity|].
  rewrite !andb_true_iff. intros [He Hes]. split; [|apply IH, Hes].
  destruct e; simpl in *; [discriminate | reflexivity].
Qed.

(** ** The generate-IRN handler, step by step *)

Section GenerateSteps.
Import GenerateIrn.

Variable JSON_stringify : JsVal -> JsVal.
Variable Number : JsVal -> JsVal.
Variable newDate : JsVal -> JsVal.
Variable js_add : JsVal -> JsVal -> JsVal.
Variable js_ge : JsVal -> JsVal -> bool.
Variable buildInvoiceData :
  JsVal -> JsVal -> JsVal -> option DbResult -> JsVal -> JsVal -> Res JsVal.
Variable env : Env.

Lemma first_truthy_total (o : JsVal) (k : string) (x : JsVal)
  (keys : list string) (fallback : JsVal) :
  prop o k = Ok x -> exists v, first_truthy o keys fallback = Ok v.
Proof.
  intros H. induction keys as [|k' keys IH]; simpl; [eexists; reflexivity|].
  rewrite (prop_total o k k' x H); simpl.
  destruct (truthy _); [eexists; reflexivity | exact IH].
Qed.

Lemma Silent_transportFailure {A : Type} (title : string) (keys : list string)
  (r : HttpResponse) :
  Silent (@transportFailure env A title keys r).
Proof. unfold transportFailure. silent. Qed.

(** A failed transport whose body parses to a value with fields ends the
    request with status 400. *)
Lemma transportFailure_responds {A : Type} (title : string) (keys : list string)
  (r : HttpResponse) (j x : JsVal) (k : string) (w : World) :
  json r = Ok j -> prop j k = Ok x ->
  exists details api,
    @transportFailure env A title keys r w
    = (Respond (mkResponse 400
                  (JObj [ ("error", JStr title); ("details", details);
                          ("apiResponse", api) ])), w).
Proof.
  intros Hj Hk. unfold transportFailure.
  destruct (match contentType r with
            | Some ct => includes "application/json" ct
            | None => false
            end).
  - rewrite Hj.
    destruct (first_truthy_total j k x keys
                (JStr ("HTTP " ++ to_string (status r) ++ ": " ++ statusText r)%string) Hk)
      as [v Hv].
    unfold bind, lift, respond. rewrite Hv. eexists; eexists; reflexivity.
  - unfold bind, ret, respond. eexists; eexists; reflexivity.
Qed.

Lemma ensureAccessToken_cached (w : World) :
  truthy (TokenCache.getAccessToken (cache w) (now_getAccessToken env)) = true ->
  ensureAccessToken env w
  = (Next (TokenCache.getAccessToken (cache w) (now_getAccessToken env)), w).
Proof.
  intros H. unfold ensureAccessToken, bind, readCache. rewrite H. reflexivity.
Qed.

(** Without a cached token the authenticate call goes out, and an answer
    whose [status] is not 1 ends the request with status 400, the cache
    as it was. *)
Lemma ensureAccessToken_rejected (w : World) (r : HttpResponse) (j st : JsVal) :
  truthy (TokenCache.getAccessToken (cache w) (now_getAccessToken env)) = false ->
  fetch_authenticate env = Ok r ->
  json r = Ok j ->
  prop j "status" = Ok st ->
  st <> JNum 1 ->
  exists title details api,
    ensureAccessToken env w
    = (Respond (mkResponse 400
                  (JObj [ ("error", JStr title); ("details", details);
                          ("apiResponse", api) ])),
       mkWorld (cache w)
         (events w ++ [EvFetch AUTHENTICATE_URL (authenticateHeaders env) JUndefined])).
Proof.
  intros Hc Hf Hj Hs Hne.
  unfold ensureAccessToken, fetch, bind, readCache, emit, lift.
  rewrite Hc, Hf. cbn [cache events].
  destruct (ok r); cbn [negb].
  - rewrite Hj, Hs. rewrite (js_strict_eq_num_false st 1 Hne). cbn [negb].
    destruct (first_truthy_total j "status" st ["errorMessage"; "message"]
                (JStr "Failed to get access token") Hs) as [v Hv].
    rewrite Hv. unfold respond. do 3 eexists; reflexivity.
  - destruct (transportFailure_responds (A:=JsVal)
                "IRN Generation Failed - Authentication API Error"
                ["errorMessage"; "message"] r j st "status"
                (mkWorld (cache w)
                   (events w ++ [EvFetch AUTHENTICATE_URL (authenticateHeaders env) JUndefined]))
                Hj Hs) as (details & api & Hb).
    rewrite Hb. do 3 eexists; reflexivity.
Qed.

(** The steps before and after the remote calls talk to the data store
    only, and leave the cache alone. *)
Lemma prepare_stores : Emits is_store (prepare Number buildInvoiceData env).
Proof. unfold prepare. emits_with reflexivity. Qed.

Lemma prepare_keeps_cache : KeepsCache (prepare Number buildInvoiceData env).
Proof. unfold prepare. keeps_cache. Qed.

Lemma persistAndAnswer_stores (body u c n d irnData : JsVal) :
  Emits is_store (persistAndAnswer Number newDate js_add js_ge env body u c n d irnData).
Proof. unfold persistAndAnswer, syncOrder. emits_with reflexivity. Qed.

Lemma persistAndAnswer_keeps_cache (body u c n d irnData : JsVal) :
  KeepsCache (persistAndAnswer Number newDate js_add js_ge env body u c n d irnData).
Proof. unfold persistAndAnswer, syncOrder. keeps_cache. Qed.

(** Steps 2 and 3 never call the authenticate endpoint. *)
Lemma ensureAuthData_not_authenticate (accessToken : JsVal) :
  Emits (not_to AUTHENTICATE_URL) (ensureAuthData env accessToken).
Proof.
  unfold ensureAuthData.
  emits_with reflexivity; apply Silent_Emits, Silent_transportFailure.
Qed.

Lemma generateIrn_not_authenticate (accessToken authData document : JsVal) :
  Emits (not_to AUTHENTICATE_URL)
    (generateIrn JSON_stringify env accessToken authData document).
Proof.
  unfold generateIrn.
  emits_with reflexivity; apply Silent_Emits, Silent_transportFailure.
Qed.



(** What follows step 1 when the token came from the cache: steps 2 and
    3 and the persistence, none of which calls the authenticate
    endpoint. *)
Lemma after_cached_token_not_authenticate (p : Prepared) (accessToken : JsVal) :
  Emits (not_to AUTHENTICATE_URL)
    (bind (bind (ensureAuthData env accessToken)
             (fun authData =>
                generateIrn JSON_stringify env accessToken authData (invoiceData p)))
       (fun irnData =>
          persistAndAnswer Number newDate js_add js_ge env (req_body env)
            (unitId p) (customerId p) (invoice_no p) (invoiceData p) irnData)).
Proof.
  apply Emits_bind; [apply Emits_bind|].
  - apply ensureAuthData_not_authenticate.
  - intros authData. apply generateIrn_not_authenticate.
  - intros irnData. eapply Emits_weaken; [|apply persistAndAnswer_stores].
    intros e. apply is_store_not_to.
Qed.

End GenerateSteps.

(** ** A rejected authenticate call *)

(** The shape of a request in which the authenticate call went out and
    was rejected: data-store events, then that one call, and the answer
    400. *)
Lemma rejected_request_shape
  (JSON_stringify Number newDate : JsVal -> JsVal)
  (js_add : JsVal -> JsVal -> JsVal) (js_ge : JsVal -> JsVal -> bool)
  (buildInvoiceData :
     JsVal -> JsVal -> JsVal -> option DbResult -> JsVal -> JsVal -> Res JsVal)
  (env : Env) (c : TokenCache.Cache)
  (headers : list (string * JsVal)) (body : JsVal)
  (r : HttpResponse) (j st : JsVal) :
  In (EvFetch AUTHENTICATE_URL headers body)
     (events (snd (generateHandler JSON_stringify Number newDate js_add js_ge
                     buildInvoiceData env (request c)))) ->
  fetch_authenticate env = Ok r ->
  json r = Ok j ->
  prop j "status" = Ok st ->
  st <> JNum 1 ->
  exists title details api evs0,
    forallb is_store evs0 = true
    /\ generateHandler JSON_stringify Number newDate js_add js_ge buildInvoiceData
         env (request c)
       = (mkResponse 400
            (JObj [ ("error", JStr title); ("details", details);
                    ("apiResponse", api) ]),
          mkWorld c (evs0 ++ [EvFetch AUTHENTICATE_URL
                                (GenerateIrn.authenticateHeaders env) JUndefined])).
Proof.
  intros Hin Hf Hj Hs Hne.
  unfold generateHandler, GenerateIrn.handler, handle, GenerateIrn.handlerBody in *.
  destruct (prepare_stores Number buildInvoiceData env (request c))
    as (evs0 & He0 & Hs0).
  pose proof (prepare_keeps_cache Number buildInvoiceData env (request c)) as Hk0.
  unfold bind at 1 in Hin. unfold bind at 1.
  destruct (GenerateIrn.prepare Number buildInvoiceData env (request c))
    as [[p|r0|e0] w1]; simpl in He0, Hk0.
  - unfold GenerateIrn.obtainIrn in *.
    destruct (js_strict_eq (prop_opt (req_body env) "invoice_type") (JStr "NON BILLING"));
      cbn [negb] in *.
    + (* NON BILLING: nothing but the data store *)
      exfalso.
      destruct (persistAndAnswer_stores Number newDate js_add js_ge env
                  (req_body env) (GenerateIrn.unitId p) (GenerateIrn.customerId p)
                  (GenerateIrn.invoice_no p) (GenerateIrn.invoiceData p) JNull w1)
        as (evs1 & He1 & Hs1).
      unfold bind at 1 in Hin. unfold ret at 1 in Hin.
      destruct (GenerateIrn.persistAndAnswer _ _ _ _ _ _ _ _ _ _ _ w1) as [[?|?|?] w2];
        simpl in *; rewrite He1, He0 in Hin; simpl in Hin;
        apply in_app_or in Hin; destruct Hin as [Hin|Hin];
        [ apply (forallb_In _ _ _ Hs0) in Hin | apply (forallb_In _ _ _ Hs1) in Hin
        | apply (forallb_In _ _ _ Hs0) in Hin | apply (forallb_In _ _ _ Hs1) in Hin
        | apply (forallb_In _ _ _ Hs0) in Hin | apply (forallb_In _ _ _ Hs1) in Hin ];
        discriminate Hin.
    + destruct (truthy (TokenCache.getAccessToken (cache w1) (now_getAccessToken env)))
        eqn:Hc.
      * (* the token came from the cache: no authenticate call at all *)
        exfalso.
        pose proof (ensureAccessToken_cached env w1 Hc) as Hat.
        destruct (after_cached_token_not_authenticate JSON_stringify Number newDate
                    js_add js_ge env p
                    (TokenCache.getAccessToken (cache w1) (now_getAccessToken env)) w1)
          as (evs1 & He1 & Hs1).
        unfold bind at 1 in Hin. unfold bind at 1 in Hin. rewrite Hat in Hin.
        change (In (EvFetch AUTHENTICATE_URL headers body)
                  (events (snd
                     (let (s, w') :=
                        bind (bind (GenerateIrn.ensureAuthData env
                                      (TokenCache.getAccessToken (cache w1)
                                         (now_getAccessToken env)))
                                (fun authData =>
                                   GenerateIrn.generateIrn JSON_stringify env
                                     (TokenCache.getAccessToken (cache w1)
                                        (now_getAccessToken env))
                                     authData (GenerateIrn.invoiceData p)))
                          (fun irnData =>
                             GenerateIrn.persistAndAnswer Number newDate js_add js_ge env
                               (req_body env) (GenerateIrn.unitId p)
                               (GenerateIrn.customerId p) (GenerateIrn.invoice_no p)
                               (GenerateIrn.invoiceData p) irnData) w1 in
                      match s with
                      | Next r1 => (r1, w')
                      | Respond r1 => (r1, w')
                      | Raise e => (GenerateIrn.onError e, w')
                      end)))) in Hin.
        destruct (bind _ _ w1) as [[?|?|?] w2]; simpl in *;
          rewrite He1, He0 in Hin; simpl in Hin;
          apply in_app_or in Hin; destruct Hin as [Hin|Hin];
          [ apply (forallb_In _ _ _ Hs0) in Hin | apply (forallb_In _ _ _ Hs1) in Hin
          | apply (forallb_In _ _ _ Hs0) in Hin | apply (forallb_In _ _ _ Hs1) in Hin
          | apply (forallb_In _ _ _ Hs0) in Hin | apply (forallb_In _ _ _ Hs1) in Hin ];
          discriminate Hin.
      * (* the call goes out and is rejected *)
        destruct (ensureAccessToken_rejected env w1 r j st Hc Hf Hj Hs Hne)
          as (title & details & api & Hat).
        unfold bind at 1. unfold bind at 1. rewrite Hat.
        exists title, details, api, evs0. split; [exact Hs0|].
        rewrite He0, Hk0. reflexivity.
  - exfalso. simpl in *. rewrite He0 in Hin. simpl in Hin.
    apply (forallb_In _ _ _ Hs0) in Hin. discriminate Hin.
  - exfalso. simpl in *. rewrite He0 in Hin. simpl in Hin.
    apply (forallb_In _ _ _ Hs0) in Hin. discriminate Hin.
Qed.

(** C3.  In every invocation of the generate-IRN handler in which the
    authenticate call is issued and answered with a parsed body whose
    [status] field is not 1, the handler answers at once with a
    structured error of status 400, no other remote call is issued (no
    enhanced-authentication call, no generate-IRN call), and the
    credential cache is left as it was. *)
Theorem authenticate_rejection_is_terminal :
  forall (JSON_stringify Number newDate : JsVal -> JsVal)
         (js_add : JsVal -> JsVal -> JsVal) (js_ge : JsVal -> JsVal -> bool)
         (buildInvoiceData :
            JsVal -> JsVal -> JsVal -> option DbResult -> JsVal -> JsVal -> Res JsVal)
         (env : Env) (c : TokenCache.Cache)
         (headers : list (string * JsVal)) (body : JsVal)
         (r : HttpResponse) (j st : JsVal),
    let result :=
      generateHandler JSON_stringify Number newDate js_add js_ge buildInvoiceData
        env (request c) in
    In (EvFetch AUTHENTICATE_URL headers body) (events (snd result)) ->
    fetch_authenticate env = Ok r ->
    json r = Ok j ->
    prop j "status" = Ok st ->
    st <> JNum 1 ->
    status_code (fst result) = 400
    /\ (exists title details api,
          payload (fst result)
          = JObj [ ("error", JStr title); ("details", details);
                   ("apiResponse", api) ])
    /\ remote_calls (events (snd result)) = [EvFetch AUTHENTICATE_URL headers body]
    /\ calls_to ENHANCED_AUTHENTICATION_URL (events (snd result)) = 0%nat
    /\ calls_to GENERATE_IRN_URL (events (snd result)) = 0%nat
    /\ cache (snd result) = c.
Proof.
  intros JSON_stringify Number newDate js_add js_ge buildInvoiceData env c
         headers body r j st result Hin Hf Hj Hs Hne.
  destruct (rejected_request_shape JSON_stringify Number newDate js_add js_ge
              buildInvoiceData env c headers body r j st Hin Hf Hj Hs Hne)
    as (title & details & api & evs0 & Hs0 & Hres).
  subst result. rewrite Hres in *. cbn [fst snd status_code payload events cache] in *.
  apply in_app_or in Hin. destruct Hin as [Hin|Hin].
  { apply (forallb_In _ _ _ Hs0) in Hin. discriminate Hin. }
  destruct Hin as [Hin|[]]. inversion Hin; subst headers body.
  rewrite remote_calls_app, !calls_to_app.
  rewrite (remote_calls_stores _ Hs0).
  rewrite !(calls_to_none _ _ (stores_not_to _ _ Hs0)).
  repeat split; try reflexivity.
  exists title, details, api. reflexivity.
Qed.

(** ** The cancel-IRN handler, step by step *)

Section CancelSteps.
Import CancelIrn.

Variable env : Env.

Lemma validate_stores : Emits is_store (validate env).
Proof. unfold validate, failure. emits_with reflexivity. Qed.

Lemma validate_keeps_cache : KeepsCache (validate env).
Proof. unfold validate, failure. keeps_cache. Qed.

Lemma recordCancellation_stores (n i code reason cancelData : JsVal) :
  Emits is_store (recordCancellation env n i code reason cancelData).
Proof. unfold recordCancellation. emits_with reflexivity. Qed.

Lemma recordCancellation_keeps_cache (n i code reason cancelData : JsVal) :
  KeepsCache (recordCancellation env n i code reason cancelData).
Proof. unfold recordCancellation. keeps_cache. Qed.

Lemma cancel_ensureAccessToken_cached (w : World) :
  truthy (TokenCache.getAccessToken (cache w) (now_getAccessToken env)) = true ->
  ensureAccessToken env w
  = (Next (TokenCache.getAccessToken (cache w) (now_getAccessToken env)), w).
Proof.
  intros H. unfold ensureAccessToken, bind, readCache. rewrite H. reflexivity.
Qed.



End CancelSteps.

(** ** Requests served from the cache *)

Lemma handle_eq (m : M Response) (onError : JsVal -> Response) (w w' : World)
  (s : Step Response) :
  m w = (s, w') ->
  handle m onError w
  = (match s with Next r => r | Respond r => r | Raise e => onError e end, w').
Proof. intros H. unfold handle. rewrite H. destruct s; reflexivity. Qed.

(** What a computation that keeps the cache leaves, as a world. *)
Lemma emits_world {A : Type} (allowed : Event -> bool) (m : M A) (w : World) :
  Emits allowed m -> KeepsCache m ->
  exists s evs,
    m w = (s, mkWorld (cache w) (events w ++ evs)) /\ forallb allowed evs = true.
Proof.
  intros He Hk. destruct (He w) as (evs & Hev & Hs). specialize (Hk w).
  destruct (m w) as [s [c' e']]. simpl in *. subst c' e'.
  exists s, evs. split; [reflexivity | exact Hs].
Qed.



Section ServedFromCache.

Variable JSON_stringify : JsVal -> JsVal.
Variable Number : JsVal -> JsVal.
Variable newDate : JsVal -> JsVal.
Variable js_add : JsVal -> JsVal -> JsVal.
Variable js_ge : JsVal -> JsVal -> bool.
Variable buildInvoiceData :
  JsVal -> JsVal -> JsVal -> option DbResult -> JsVal -> JsVal -> Res JsVal.
Variable env : Env.
Variable c : TokenCache.Cache.

Hypothesis access_cached :
  truthy (TokenCache.getAccessToken c (now_getAccessToken env)) = true.
Hypothesis session_cached :
  truthy (TokenCache.getAuthData c (now_getAuthData env)) = true.




End ServedFromCache.




(** ** Idempotence on cached credentials *)


(** ** Objects *)

Lemma assoc_obj_set (k k' : string) (v : JsVal) (fields : list (string * JsVal)) :
  assoc k (obj_set k' v fields)
  = if (k =? k')%string then Some v else assoc k fields.
Proof.
  induction fields as [|[k0 v0] fields IH]; simpl.
  - reflexivity.
  - destruct (String.eqb_spec k' k0) as [E|N]; simpl.
    + subst k0. destruct (k =? k')%string; reflexivity.
    + destruct (String.eqb_spec k k0) as [E0|N0].
      * subst k0. destruct (String.eqb_spec k k'); [congruence | reflexivity].
      * exact IH.
Qed.

Lemma assoc_obj_extend (k : string) (more fields : list (string * JsVal)) :
  forallb (fun kv => negb (k =? fst kv)%string) more = true ->
  assoc k (obj_extend fields more) = assoc k fields.
Proof.
  unfold obj_extend. revert fields.
  induction more as [|[k' v] more IH]; intros fields; simpl; [reflexivity|].
  rewrite andb_true_iff, negb_true_iff. intros [Hk Hm].
  rewrite (IH _ Hm), assoc_obj_set, Hk. reflexivity.
Qed.

Lemma assoc_obj_without (k d : string) (fields : list (string * JsVal)) :
  (k =? d)%string = false ->
  assoc k (obj_without d fields) = assoc k fields.
Proof.
  intros Hk. unfold obj_without.
  induction fields as [|[k0 v0] fields IH]; simpl; [reflexivity|].
  destruct (String.eqb_spec k0 d) as [E|N]; simpl.
  - subst k0. rewrite Hk. exact IH.
  - rewrite IH. reflexivity.
Qed.

(** ** The persistence step of the generate-IRN handler *)

Lemma store_run (operation : string) (argument : JsVal) (result : DbResult) (w : World) :
  store operation argument result w
  = (Next result, mkWorld (cache w) (events w ++ [EvStore operation argument])).
Proof. reflexivity. Qed.

Lemma lift_ok {A : Type} (a : A) (w : World) : lift (Ok a) w = (Next a, w).
Proof. reflexivity. Qed.

Section Persistence.
Import GenerateIrn.

Variable JSON_stringify : JsVal -> JsVal.
Variable Number : JsVal -> JsVal.
Variable newDate : JsVal -> JsVal.
Variable js_add : JsVal -> JsVal -> JsVal.
Variable js_ge : JsVal -> JsVal -> bool.
Variable buildInvoiceData :
  JsVal -> JsVal -> JsVal -> option DbResult -> JsVal -> JsVal -> Res JsVal.
Variable env : Env.

(** The order bookkeeping touches the [orders] table only; it goes on to
    the answer, or ends in a TypeError on a quantity that has no
    primitive value. *)
Lemma syncOrder_next (body customer : JsVal) (w : World) :
  exists s evs,
    syncOrder Number js_add js_ge env body customer w
    = (s, mkWorld (cache w) (events w ++ evs))
    /\ (s = Next tt \/ s = Raise cannot_convert)
    /\ forallb is_store evs = true
    /\ forallb not_invoice_insert evs = true.
Proof.
  unfold syncOrder, ToPrimitive.
  destruct (truthy (prop_opt body "po_number")).
  - destruct (printable (prop_opt body "quantity")).
    2:{ exists (Raise cannot_convert), []. rewrite app_nil_r. destruct w.
        repeat split. right; reflexivity. }
    rewrite (bind_next _ _ _ _ _ (lift_ok _ _)).
    rewrite (bind_next _ _ _ _ _ (store_run _ _ _ _)).
    destruct (negb (truthy (error (orders_single env)))
              && truthy (data (orders_single env))).
    + cbv zeta.
      destruct (printable (js_or (prop_opt (data (orders_single env))
                                    "delivered_quantity") (JNum 0))).
      2:{ eexists (Raise cannot_convert), _. split; [reflexivity|].
          repeat split. right; reflexivity. }
      rewrite (bind_next _ _ _ _ _ (lift_ok _ _)).
      destruct (printable (prop_opt (data (orders_single env)) "order_quantity")).
      2:{ eexists (Raise cannot_convert), _. split; [reflexivity|].
          repeat split. right; reflexivity. }
      rewrite (bind_next _ _ _ _ _ (lift_ok _ _)).
      rewrite (bind_next _ _ _ _ _ (store_run _ _ _ _)).
      unfold ret. cbn [cache events]. rewrite <- app_assoc.
      eexists (Next tt), _. split; [reflexivity|].
      repeat split. left; reflexivity.
    + unfold ret. cbn [cache events]. eexists (Next tt), _. split; [reflexivity|].
      repeat split. left; reflexivity.
  - unfold ret. exists (Next tt), []. rewrite app_nil_r. destruct w.
    repeat split. left; reflexivity.
Qed.

(** The insert goes out first, with the row built from the request; a
    failed insert answers 500 with the message of the data-store error;
    without IRN data a success answers with the inserted row alone. *)
Lemma persistAndAnswer_shape (body u c n d irnData : JsVal) (w : World) :
  exists s evs,
    persistAndAnswer Number newDate js_add js_ge env body u c n d irnData w
    = (s, mkWorld (cache w)
            ((events w
              ++ [EvStore "invoices.insert"
                    (invoiceInsertData Number newDate body u n d irnData)])
             ++ evs))
    /\ forallb is_store evs = true
    /\ forallb not_invoice_insert evs = true
    /\ (truthy (error (invoices_insert env)) = true ->
        s = Respond
              (mkResponse 500
                 (JObj [ ("error", JStr "Invoice creation failed");
                         ("details", prop_opt (error (invoices_insert env)) "message") ])))
    /\ (truthy irnData = false ->
        forall r, s = Next r \/ s = Respond r ->
                  status_code r = 200 ->
                  payload r = JObj [ ("invoice", data (invoices_insert env)) ]).
Proof.
  unfold persistAndAnswer.
  rewrite (bind_next _ _ _ _ _ (store_run _ _ _ _)).
  destruct (truthy (error (invoices_insert env))) eqn:Herr.
  - rewrite (truthy_prop_total _ "message" Herr).
    rewrite (bind_next _ _ _ _ _ (lift_ok _ _)).
    unfold respond. exists (Respond
              (mkResponse 500
                 (JObj [ ("error", JStr "Invoice creation failed");
                         ("details", prop_opt (error (invoices_insert env)) "message") ]))), [].
    rewrite app_nil_r. cbn [cache events].
    repeat split; try reflexivity.
    intros _ r [H|H] Hc; inversion H; subst r; simpl in Hc; discriminate Hc.
  - destruct (syncOrder_next body c
                (mkWorld (cache w)
                   (events w
                    ++ [EvStore "invoices.insert"
                          (invoiceInsertData Number newDate body u n d irnData)])))
      as (s0 & evs & Hsync & [Hs0|Hs0] & Hs & Hn); subst s0.
    2:{ rewrite (bind_raise _ _ _ _ _ Hsync). cbn [cache events].
        eexists; exists evs. split; [reflexivity|].
        repeat split; try assumption; try (intros H; discriminate H).
        intros _ r [H|H]; discriminate H. }
    rewrite (bind_next _ _ _ _ _ Hsync). cbn [cache events].
    unfold successPayload.
    destruct (truthy irnData) eqn:Hirn.
    + destruct (prop (data (invoices_insert env)) "irn") as [v|e]; simpl;
        eexists; exists evs; (split; [reflexivity|]);
        repeat split; try assumption; intros H; discriminate H.
    + simpl. eexists; exists evs. split; [reflexivity|].
      repeat split; try assumption; [intros H; discriminate H|].
      intros _ r [H|H] _; inversion H; reflexivity.
Qed.

End Persistence.

(** ** Early answers *)

Lemma Answers_ret {A : Type} (accepted : Response -> bool) (a : A) :
  Answers accepted (ret a).
Proof. intros w r w' H. discriminate H. Qed.

Lemma Answers_lift {A : Type} (accepted : Response -> bool) (x : Res A) :
  Answers accepted (lift x).
Proof. intros w r w' H. unfold lift in H. destruct x; discriminate H. Qed.

Lemma Answers_store (accepted : Response -> bool) (operation : string)
  (argument : JsVal) (result : DbResult) :
  Answers accepted (store operation argument result).
Proof. intros w r w' H. rewrite store_run in H. discriminate H. Qed.

Lemma Answers_respond {A : Type} (accepted : Response -> bool) (code : Z) (v : JsVal) :
  accepted (mkResponse code v) = true -> Answers accepted (@respond A code v).
Proof. intros Ha w r w' H. unfold respond in H. inversion H; subst. exact Ha. Qed.

Lemma Answers_bind {A B : Type} (accepted : Response -> bool) (m : M A) (f : A -> M B) :
  Answers accepted m -> (forall a, Answers accepted (f a)) ->
  Answers accepted (bind m f).
Proof.
  intros Hm Hf w r w' H. unfold bind in H.
  destruct (m w) as [[a|r0|e] w0] eqn:E.
  - eapply Hf; exact H.
  - inversion H; subst. eapply Hm; exact E.
  - discriminate H.
Qed.

Ltac answers :=
  repeat first
    [ apply Answers_ret | apply Answers_lift | apply Answers_store
    | apply Answers_respond; reflexivity
    | apply Answers_bind; [|intros ?]
    | split_computation ].

Lemma prepare_answers_failure (Number : JsVal -> JsVal)
  (buildInvoiceData :
     JsVal -> JsVal -> JsVal -> option DbResult -> JsVal -> JsVal -> Res JsVal)
  (env : Env) :
  Answers is_failure (GenerateIrn.prepare Number buildInvoiceData env).
Proof. unfold GenerateIrn.prepare. answers. Qed.

(** ** NON BILLING invoices *)

Lemma other_store_split (evs : list Event) :
  forallb other_store evs = true ->
  forallb is_store evs = true /\ forallb not_invoice_insert evs = true.
Proof.
  unfold other_store. induction evs as [|e evs IH]; simpl; [auto|].
  rewrite !andb_true_iff. intros [[H1 H2] H]. destruct (IH H). auto.
Qed.

Lemma prepare_other_stores (Number : JsVal -> JsVal)
  (buildInvoiceData :
     JsVal -> JsVal -> JsVal -> option DbResult -> JsVal -> JsVal -> Res JsVal)
  (env : Env) :
  Emits other_store (GenerateIrn.prepare Number buildInvoiceData env).
Proof. unfold GenerateIrn.prepare. emits_with reflexivity. Qed.

(** The row keeps, under each of the six IRN field names, what the
    request body had there: the handler adds none of them. *)
Lemma insert_row_without_irn (Number newDate : JsVal -> JsVal)
  (body u n d : JsVal) (k : string) :
  In k irn_field_names ->
  exists fields,
    GenerateIrn.invoiceInsertData Number newDate body u n d JNull = JObj fields
    /\ assoc k fields = assoc k (own_fields body).
Proof.
  intros Hk. unfold GenerateIrn.invoiceInsertData, GenerateIrn.irnFields.
  cbn [truthy]. rewrite app_nil_r. eexists. split; [reflexivity|].
  simpl in Hk.
  repeat (destruct Hk as [Hk|Hk]; [subst k|]); try contradiction;
    (rewrite assoc_obj_extend by reflexivity;
     apply assoc_obj_without; reflexivity).
Qed.

(** The claim on NON BILLING requests as stated fails when the request
    body itself brings an IRN field: the spread [...invoiceBody] copies
    it into the row. *)
Lemma non_billing_row_keeps_body_irn :
  prop_opt (req_body scenario_non_billing_with_irn) "invoice_type" = JStr "NON BILLING"
  /\ exists fields,
       In (EvStore "invoices.insert" (JObj fields))
          (events (snd (sample_generate scenario_non_billing_with_irn
                          TokenCache.cache0)))
       /\ assoc "irn" fields = Some (JStr "IRN-FROM-CLIENT").
Proof.
  split; [reflexivity|]. eexists. split.
  - vm_compute. do 4 right. left. reflexivity.
  - reflexivity.
Qed.

(** C10, amended.  For every generate-IRN request whose body has
    [invoice_type] equal to "NON BILLING": the handler issues none of the
    three remote calls and leaves the cache alone; to the invoice row it
    inserts it adds none of the IRN fields, so that under [irn],
    [qrcode], [ack_no], [ack_dt], [signed_invoice] and [einvoice_status]
    the row has exactly what the request body itself carries, and nothing
    when the body has no such field; and the success response is the
    inserted invoice alone, without an [irn] object. *)
Theorem non_billing_skips_irn :
  forall (JSON_stringify Number newDate : JsVal -> JsVal)
         (js_add : JsVal -> JsVal -> JsVal) (js_ge : JsVal -> JsVal -> bool)
         (buildInvoiceData :
            JsVal -> JsVal -> JsVal -> option DbResult -> JsVal -> JsVal -> Res JsVal)
         (env : Env) (c : TokenCache.Cache),
    prop_opt (req_body env) "invoice_type" = JStr "NON BILLING" ->
    let result :=
      generateHandler JSON_stringify Number newDate js_add js_ge buildInvoiceData
        env (request c) in
    remote_calls (events (snd result)) = []
    /\ cache (snd result) = c
    /\ (forall row,
           In (EvStore "invoices.insert" row) (events (snd result)) ->
           exists fields,
             row = JObj fields
             /\ forall k, In k irn_field_names ->
                          assoc k fields = assoc k (own_fields (req_body env))
                          /\ (assoc k (own_fields (req_body env)) = None ->
                              assoc k fields = None))
    /\ (status_code (fst result) = 200 ->
        payload (fst result) = JObj [ ("invoice", data (invoices_insert env)) ]
        /\ assoc "irn" (own_fields (payload (fst result))) = None
        /\ exists row, In (EvStore "invoices.insert" row) (events (snd result))).
Proof.
  intros JSON_stringify Number newDate js_add js_ge buildInvoiceData env c Hnb result.
  assert (Hshape :
    (exists r evs0,
        result = (r, mkWorld c evs0)
        /\ forallb other_store evs0 = true /\ status_code r <> 200)
    \/ (exists s p evs0 evs1,
          result
          = (match s with Next r => r | Respond r => r
                     | Raise e => GenerateIrn.onError e end,
             mkWorld c ((evs0
                         ++ [EvStore "invoices.insert"
                               (GenerateIrn.invoiceInsertData Number newDate
                                  (req_body env) (GenerateIrn.unitId p)
                                  (GenerateIrn.invoice_no p)
                                  (GenerateIrn.invoiceData p) JNull)])
                        ++ evs1))
          /\ forallb other_store evs0 = true
          /\ forallb is_store evs1 = true
          /\ forallb not_invoice_insert evs1 = true
          /\ (forall r, s = Next r \/ s = Respond r ->
                        status_code r = 200 ->
                        payload r = JObj [ ("invoice", data (invoices_insert env)) ]))).
  { subst result.
    unfold generateHandler, GenerateIrn.handler, GenerateIrn.handlerBody.
    destruct (emits_world other_store
                (GenerateIrn.prepare Number buildInvoiceData env) (request c)
                (prepare_other_stores Number buildInvoiceData env)
                (prepare_keeps_cache Number buildInvoiceData env))
      as (s0 & evs0 & Hp & Hs0).
    simpl in Hp.
    destruct s0 as [p|r|e].
    - right.
      destruct (persistAndAnswer_shape Number newDate js_add js_ge env
                  (req_body env) (GenerateIrn.unitId p) (GenerateIrn.customerId p)
                  (GenerateIrn.invoice_no p) (GenerateIrn.invoiceData p) JNull
                  (mkWorld c evs0))
        as (s & evs1 & Hq & Hs1 & Hn1 & _ & Hok).
      cbn [cache events] in Hq.
      assert (Hbody :
        GenerateIrn.handlerBody JSON_stringify Number newDate js_add js_ge
          buildInvoiceData env (request c)
        = (s, mkWorld c ((evs0
                          ++ [EvStore "invoices.insert"
                                (GenerateIrn.invoiceInsertData Number newDate
                                   (req_body env) (GenerateIrn.unitId p)
                                   (GenerateIrn.invoice_no p)
                                   (GenerateIrn.invoiceData p) JNull)])
                         ++ evs1))).
      { unfold GenerateIrn.handlerBody.
        rewrite (bind_next _ _ _ _ _ Hp).
        unfold GenerateIrn.obtainIrn. rewrite Hnb. cbn [js_strict_eq negb].
        rewrite String.eqb_refl.
        erewrite bind_next by reflexivity. exact Hq. }
      unfold GenerateIrn.handlerBody in Hbody.
      rewrite (handle_eq _ _ _ _ _ Hbody).
      exists s, p, evs0, evs1. repeat split; try assumption.
      apply Hok. reflexivity.
    - left.
      assert (Hbody :
        GenerateIrn.handlerBody JSON_stringify Number newDate js_add js_ge
          buildInvoiceData env (request c) = (Respond r, mkWorld c evs0)).
      { unfold GenerateIrn.handlerBody. apply bind_respond, Hp. }
      unfold GenerateIrn.handlerBody in Hbody.
      rewrite (handle_eq _ _ _ _ _ Hbody).
      exists r, evs0. repeat split; try assumption.
      pose proof (prepare_answers_failure Number buildInvoiceData env _ _ _ Hp) as Hf.
      unfold is_failure in Hf. rewrite negb_true_iff, Z.eqb_neq in Hf. exact Hf.
    - left.
      assert (Hbody :
        GenerateIrn.handlerBody JSON_stringify Number newDate js_add js_ge
          buildInvoiceData env (request c) = (Raise e, mkWorld c evs0)).
      { unfold GenerateIrn.handlerBody. apply bind_raise, Hp. }
      unfold GenerateIrn.handlerBody in Hbody.
      rewrite (handle_eq _ _ _ _ _ Hbody).
      exists (GenerateIrn.onError e), evs0. repeat split; try assumption.
      simpl. discriminate. }
  destruct Hshape as [(r & evs0 & Hr & Hs0 & Hcode)
                     |(s & p & evs0 & evs1 & Hr & Hs0 & Hs1 & Hn1 & Hok)];
    rewrite Hr; cbn [fst snd cache events];
    destruct (other_store_split _ Hs0) as [Hst0 Hni0].
  - split; [apply remote_calls_stores, Hst0|]. split; [reflexivity|]. split.
    + intros row Hin. apply (forallb_In _ _ _ Hni0) in Hin.
      discriminate Hin.
    + intros H200. contradiction.
  - split.
    { rewrite !remote_calls_app, (remote_calls_stores _ Hst0),
        (remote_calls_stores _ Hs1). reflexivity. }
    split; [reflexivity|]. split.
    + intros row Hin.
      assert (Hrow : row = GenerateIrn.invoiceInsertData Number newDate
                             (req_body env) (GenerateIrn.unitId p)
                             (GenerateIrn.invoice_no p)
                             (GenerateIrn.invoiceData p) JNull).
      { apply in_app_or in Hin. destruct Hin as [Hin|Hin].
        - apply in_app_or in Hin. destruct Hin as [Hin|Hin].
          + apply (forallb_In _ _ _ Hni0) in Hin. discriminate Hin.
          + destruct Hin as [Hin|[]]. inversion Hin; reflexivity.
        - apply (forallb_In _ _ _ Hn1) in Hin. discriminate Hin. }
      subst row.
      destruct (insert_row_without_irn Number newDate (req_body env)
                  (GenerateIrn.unitId p) (GenerateIrn.invoice_no p)
                  (GenerateIrn.invoiceData p) "irn") as (fields & Hfields & _);
        [simpl; auto|].
      exists fields. split; [exact Hfields|].
      intros k Hk.
      destruct (insert_row_without_irn Number newDate (req_body env)
                  (GenerateIrn.unitId p) (GenerateIrn.invoice_no p)
                  (GenerateIrn.invoiceData p) k Hk) as (fields' & Hfields' & Hk').
      rewrite Hfields in Hfields'. inversion Hfields'; subst fields'.
      split; [exact Hk' | intros Hnone; rewrite Hk'; exact Hnone].
    + intros H200.
      assert (Hpayload :
                payload (match s with
                         | Next r => r | Respond r => r
                         | Raise e => GenerateIrn.onError e
                         end)
                = JObj [ ("invoice", data (invoices_insert env)) ]).
      { destruct s as [r|r|e]; [apply Hok; auto | apply Hok; auto |].
        simpl in H200. discriminate H200. }
      split; [exact Hpayload|]. split; [rewrite Hpayload; reflexivity|].
      eexists. apply in_or_app. left. apply in_or_app. right. left. reflexivity.
Qed.

(** ** A failed write after an upstream success *)

Section PersistenceFailure.

Variable JSON_stringify : JsVal -> JsVal.
Variable Number : JsVal -> JsVal.
Variable newDate : JsVal -> JsVal.
Variable js_add : JsVal -> JsVal -> JsVal.
Variable js_ge : JsVal -> JsVal -> bool.
Variable buildInvoiceData :
  JsVal -> JsVal -> JsVal -> option DbResult -> JsVal -> JsVal -> Res JsVal.
Variable env : Env.

Lemma obtainIrn_no_insert (body document : JsVal) :
  Emits not_invoice_insert (GenerateIrn.obtainIrn JSON_stringify env body document).
Proof.
  unfold GenerateIrn.obtainIrn, GenerateIrn.ensureAccessToken,
    GenerateIrn.ensureAuthData, GenerateIrn.generateIrn.
  emits_with reflexivity; apply Silent_Emits, Silent_transportFailure.
Qed.

Lemma generate_failed_insert (c : TokenCache.Cache) (e : Event) :
  In e (events (snd (generateHandler JSON_stringify Number newDate js_add js_ge
                       buildInvoiceData env (request c)))) ->
  is_invoice_insert e = true ->
  truthy (error (invoices_insert env)) = true ->
  fst (generateHandler JSON_stringify Number newDate js_add js_ge
         buildInvoiceData env (request c))
  = persistence_failure_response GenerateOperation env.
Proof.
  intros Hin He Herr.
  unfold generateHandler, GenerateIrn.handler, handle, GenerateIrn.handlerBody in *.
  destruct (emits_world other_store
              (GenerateIrn.prepare Number buildInvoiceData env) (request c)
              (prepare_other_stores Number buildInvoiceData env)
              (prepare_keeps_cache Number buildInvoiceData env))
    as (s0 & evs0 & Hp & Hs0).
  simpl in Hp. destruct (other_store_split _ Hs0) as [_ Hn0].
  assert (Hno : forall evs, forallb not_invoice_insert evs = true -> ~ In e evs).
  { intros evs Hf Hi. apply (forallb_In _ _ _ Hf) in Hi.
    unfold not_invoice_insert in Hi. rewrite He in Hi. discriminate Hi. }
  destruct s0 as [p|r|e0].
  2:{ rewrite (bind_respond _ _ _ _ _ Hp) in Hin. simpl in Hin.
      exfalso. exact (Hno _ Hn0 Hin). }
  2:{ rewrite (bind_raise _ _ _ _ _ Hp) in Hin. simpl in Hin.
      exfalso. exact (Hno _ Hn0 Hin). }
  rewrite (bind_next _ _ _ _ _ Hp) in Hin. rewrite (bind_next _ _ _ _ _ Hp).
  destruct (obtainIrn_no_insert (req_body env) (GenerateIrn.invoiceData p)
              (mkWorld c evs0)) as (evs1 & He1 & Hn1).
  destruct (GenerateIrn.obtainIrn JSON_stringify env (req_body env)
              (GenerateIrn.invoiceData p) (mkWorld c evs0))
    as [[irnData|r|e0] w2] eqn:Ho; simpl in He1.
  2:{ rewrite (bind_respond _ _ _ _ _ Ho) in Hin. simpl in Hin. rewrite He1 in Hin.
      exfalso. apply in_app_or in Hin. destruct Hin as [Hin|Hin];
        [exact (Hno _ Hn0 Hin) | exact (Hno _ Hn1 Hin)]. }
  2:{ rewrite (bind_raise _ _ _ _ _ Ho) in Hin. simpl in Hin. rewrite He1 in Hin.
      exfalso. apply in_app_or in Hin. destruct Hin as [Hin|Hin];
        [exact (Hno _ Hn0 Hin) | exact (Hno _ Hn1 Hin)]. }
  rewrite (bind_next _ _ _ _ _ Ho).
  destruct (persistAndAnswer_shape Number newDate js_add js_ge env
              (req_body env) (GenerateIrn.unitId p) (GenerateIrn.customerId p)
              (GenerateIrn.invoice_no p) (GenerateIrn.invoiceData p) irnData w2)
    as (s & evs2 & Hq & _ & _ & Hfail & _).
  rewrite Hq, (Hfail Herr). reflexivity.
Qed.

(** The steps of the cancel handler before the cancellation record. *)
Lemma cancel_steps_no_record (body : JsVal) :
  Emits not_cancellation_insert
    (bind (CancelIrn.validate env) (fun _ =>
     bind (CancelIrn.ensureAccessToken env) (fun accessToken =>
     bind (CancelIrn.ensureAuthData env accessToken) (fun authData =>
     CancelIrn.cancelIrn env accessToken authData (prop_opt body "irn")
       (prop_opt body "cancel_reason_code") (prop_opt body "cancel_reason"))))).
Proof.
  unfold CancelIrn.validate, CancelIrn.ensureAccessToken, CancelIrn.ensureAuthData,
    CancelIrn.cancelIrn, CancelIrn.failure, CancelIrn.answer.
  emits_with reflexivity.
Qed.

(** The cancellation record: it is written only for a non-null [Irn], it
    is the first write, and its failure answers 500 with the data-store
    error. *)
Lemma recordCancellation_cases (n i code reason cancelData : JsVal) (w : World) :
  (exists s, CancelIrn.recordCancellation env n i code reason cancelData w = (s, w))
  \/ (exists s row evs,
        CancelIrn.recordCancellation env n i code reason cancelData w
        = (s, mkWorld (cache w)
                ((events w ++ [EvStore "canceled_invoices.insert" row]) ++ evs))
        /\ (truthy (error (canceled_invoices_insert env)) = true ->
            s = Respond (persistence_failure_response CancelOperation env))).
Proof.
  unfold CancelIrn.recordCancellation.
  destruct (prop cancelData "Irn") as [cancelledIrn|e].
  2:{ left. eexists. reflexivity. }
  rewrite (bind_next _ _ _ _ _ (lift_ok _ _)).
  destruct (js_strict_eq cancelledIrn JNull); cbn [negb].
  { left. destruct w. eexists. reflexivity. }
  right. rewrite (bind_next _ _ _ _ _ (store_run _ _ _ _)).
  destruct (truthy (error (canceled_invoices_insert env))) eqn:Herr.
  - eexists. eexists. exists []. rewrite app_nil_r. split; [reflexivity|].
    intros _. reflexivity.
  - rewrite (bind_next _ _ _ _ _ (store_run _ _ _ _)).
    cbn [cache events].
    destruct (truthy (error (invoices_update env)));
      do 3 eexists; (split; [reflexivity | intros H; discriminate H]).
Qed.

Lemma cancel_body_steps (w : World) :
  CancelIrn.handlerBody env w
  = bind (bind (CancelIrn.validate env) (fun _ =>
          bind (CancelIrn.ensureAccessToken env) (fun accessToken =>
          bind (CancelIrn.ensureAuthData env accessToken) (fun authData =>
          CancelIrn.cancelIrn env accessToken authData
            (prop_opt (req_body env) "irn")
            (prop_opt (req_body env) "cancel_reason_code")
            (prop_opt (req_body env) "cancel_reason")))))
      (fun cancelData =>
         CancelIrn.recordCancellation env (prop_opt (req_body env) "invoice_no")
           (prop_opt (req_body env) "irn")
           (prop_opt (req_body env) "cancel_reason_code")
           (prop_opt (req_body env) "cancel_reason") cancelData) w.
Proof.
  unfold CancelIrn.handlerBody. cbv zeta. unfold bind.
  destruct (CancelIrn.validate env w) as [[[]|r|e] w1]; try reflexivity.
  destruct (CancelIrn.ensureAccessToken env w1) as [[accessToken|r|e] w2];
    try reflexivity.
  destruct (CancelIrn.ensureAuthData env accessToken w2) as [[authData|r|e] w3];
    try reflexivity.
Qed.

Lemma cancel_failed_insert (c : TokenCache.Cache) (e : Event) :
  In e (events (snd (CancelIrn.handler env (request c)))) ->
  is_cancellation_insert e = true ->
  truthy (error (canceled_invoices_insert env)) = true ->
  fst (CancelIrn.handler env (request c))
  = persistence_failure_response CancelOperation env.
Proof.
  intros Hin He Herr.
  unfold CancelIrn.handler, handle in *.
  rewrite cancel_body_steps in *.
  assert (Hno : forall evs, forallb not_cancellation_insert evs = true -> ~ In e evs).
  { intros evs Hf Hi. apply (forallb_In _ _ _ Hf) in Hi.
    unfold not_cancellation_insert in Hi. rewrite He in Hi. discriminate Hi. }
  destruct (cancel_steps_no_record (req_body env) (request c)) as (evs0 & He0 & Hn0).
  simpl in He0.
  match type of He0 with
  | events (snd (?m ?w)) = _ =>
      destruct (m w) as [[cancelData|r|e0] w1] eqn:Hsteps; simpl in He0
  end.
  2:{ rewrite (bind_respond _ _ _ _ _ Hsteps) in Hin. simpl in Hin. rewrite He0 in Hin.
      exfalso. exact (Hno _ Hn0 Hin). }
  2:{ rewrite (bind_raise _ _ _ _ _ Hsteps) in Hin. simpl in Hin. rewrite He0 in Hin.
      exfalso. exact (Hno _ Hn0 Hin). }
  rewrite (bind_next _ _ _ _ _ Hsteps) in Hin. rewrite (bind_next _ _ _ _ _ Hsteps).
  destruct (recordCancellation_cases (prop_opt (req_body env) "invoice_no")
              (prop_opt (req_body env) "irn")
              (prop_opt (req_body env) "cancel_reason_code")
              (prop_opt (req_body env) "cancel_reason") cancelData w1)
    as [(s & Hq)|(s & row & evs & Hq & Hfail)].
  - rewrite Hq in Hin. exfalso. destruct s; simpl in Hin; rewrite He0 in Hin;
      exact (Hno _ Hn0 Hin).
  - rewrite Hq, (Hfail Herr). reflexivity.
Qed.

End PersistenceFailure.

(** A failed write after the upstream operation is answered with the
    persistence error alone, in both handlers: for generate the text
    "Invoice creation failed" with the message of the data-store error,
    for cancel the text "Failed to record cancellation" with the
    data-store error. *)
Lemma failed_insert_answers_error_only :
  forall (JSON_stringify Number newDate : JsVal -> JsVal)
         (js_add : JsVal -> JsVal -> JsVal) (js_ge : JsVal -> JsVal -> bool)
         (buildInvoiceData :
            JsVal -> JsVal -> JsVal -> option DbResult -> JsVal -> JsVal -> Res JsVal)
         (op : Operation) (env : Env) (c : TokenCache.Cache) (e : Event),
    In e (events (snd (invoke JSON_stringify Number newDate js_add js_ge
                         buildInvoiceData op env c))) ->
    persistence_insert op e = true ->
    truthy (error (persistence_result op env)) = true ->
    fst (invoke JSON_stringify Number newDate js_add js_ge buildInvoiceData op env c)
    = persistence_failure_response op env.
Proof.
  intros JSON_stringify Number newDate js_add js_ge buildInvoiceData op env c e.
  destruct op; unfold invoke, persistence_insert, persistence_result.
  - apply generate_failed_insert.
  - apply cancel_failed_insert.
Qed.

(** ** The message of a failed IRN generation *)

Section FailedGeneration.

Variable JSON_stringify : JsVal -> JsVal.
Variable Number : JsVal -> JsVal.
Variable newDate : JsVal -> JsVal.
Variable js_add : JsVal -> JsVal -> JsVal.
Variable js_ge : JsVal -> JsVal -> bool.
Variable buildInvoiceData :
  JsVal -> JsVal -> JsVal -> option DbResult -> JsVal -> JsVal -> Res JsVal.
Variable env : Env.

(** Steps 1 and 2 never call the generate-irn endpoint. *)
Lemma ensureAccessToken_not_generate :
  Emits (not_to GENERATE_IRN_URL) (GenerateIrn.ensureAccessToken env).
Proof.
  unfold GenerateIrn.ensureAccessToken.
  emits_with reflexivity; apply Silent_Emits, Silent_transportFailure.
Qed.

Lemma ensureAuthData_not_generate (accessToken : JsVal) :
  Emits (not_to GENERATE_IRN_URL) (GenerateIrn.ensureAuthData env accessToken).
Proof.
  unfold GenerateIrn.ensureAuthData.
  emits_with reflexivity; apply Silent_Emits, Silent_transportFailure.
Qed.

Lemma not_among_stores (evs : list Event) (headers : list (string * JsVal))
  (body : JsVal) :
  forallb is_store evs = true -> ~ In (EvFetch GENERATE_IRN_URL headers body) evs.
Proof. intros Hs Hin. apply (forallb_In _ _ _ Hs) in Hin. discriminate Hin. Qed.

Lemma not_among_other_calls (evs : list Event) (headers : list (string * JsVal))
  (body : JsVal) :
  forallb (not_to GENERATE_IRN_URL) evs = true ->
  ~ In (EvFetch GENERATE_IRN_URL headers body) evs.
Proof. intros Hs Hin. apply (forallb_In _ _ _ Hs) in Hin. discriminate Hin. Qed.

(** Step 3 on an answer without [Irn]: the call, then status 400 with
    the first message of the precedence order. *)
Lemma generateIrn_rejected (accessToken authData document : JsVal) (w : World)
  (r : HttpResponse) (irnData : JsVal) :
  fetch_generate_irn env = Ok r ->
  ok r = true ->
  json r = Ok irnData ->
  truthy (prop_opt irnData "Irn") = false ->
  IrnError.failure_payload JSON_stringify irnData = true ->
  exists code headers,
    GenerateIrn.generateIrn JSON_stringify env accessToken authData document w
    = (Respond
         (mkResponse 400
            (JObj [ ("error", JStr "IRN Generation Failed");
                    ("details", IrnError.normalized_message JSON_stringify irnData);
                    ("errorCode", code);
                    ("apiResponse",
                     JObj [ ("status", prop_opt irnData "Status");
                            ("errorCode", code);
                            ("timestamp", timestamp env) ]) ])),
       mkWorld (cache w)
         (events w ++ [EvFetch GENERATE_IRN_URL headers document])).
Proof.
  intros Hf Hok Hj Hirn Hshape.
  destruct (irnFailure_first_message JSON_stringify irnData Hshape) as [code Hcode].
  assert (Hprop : prop irnData "Irn" = Ok (prop_opt irnData "Irn")).
  { apply prop_readable. unfold IrnError.failure_payload in Hshape.
    rewrite andb_true_iff, negb_true_iff in Hshape. apply Hshape. }
  exists code.
  unfold GenerateIrn.generateIrn, fetch.
  rewrite Hf. unfold bind at 1. unfold bind at 1. unfold emit at 1.
  cbn iota. rewrite lift_ok. rewrite Hok. cbn [negb].
  rewrite Hj. rewrite (bind_next _ _ _ _ _ (lift_ok _ _)).
  rewrite Hprop. rewrite (bind_next _ _ _ _ _ (lift_ok _ _)).
  rewrite Hirn. cbn [negb].
  rewrite Hcode. rewrite (bind_next _ _ _ _ _ (lift_ok _ _)).
  unfold respond. cbn [fst snd]. eexists. reflexivity.
Qed.

(** A request whose generate-irn call went out and was answered without
    [Irn] ends there. *)
Lemma failed_generation_response (c : TokenCache.Cache)
  (headers : list (string * JsVal)) (body : JsVal)
  (r : HttpResponse) (irnData : JsVal) :
  In (EvFetch GENERATE_IRN_URL headers body)
     (events (snd (generateHandler JSON_stringify Number newDate js_add js_ge
                     buildInvoiceData env (request c)))) ->
  fetch_generate_irn env = Ok r ->
  ok r = true ->
  json r = Ok irnData ->
  truthy (prop_opt irnData "Irn") = false ->
  IrnError.failure_payload JSON_stringify irnData = true ->
  exists code,
    fst (generateHandler JSON_stringify Number newDate js_add js_ge buildInvoiceData
           env (request c))
    = mkResponse 400
        (JObj [ ("error", JStr "IRN Generation Failed");
                ("details", IrnError.normalized_message JSON_stringify irnData);
                ("errorCode", code);
                ("apiResponse",
                 JObj [ ("status", prop_opt irnData "Status");
                        ("errorCode", code);
                        ("timestamp", timestamp env) ]) ]).
Proof.
  intros Hin Hf Hok Hj Hirn Hshape.
  unfold generateHandler, GenerateIrn.handler, handle, GenerateIrn.handlerBody in *.
  destruct (emits_world is_store (GenerateIrn.prepare Number buildInvoiceData env)
              (request c) (prepare_stores Number buildInvoiceData env)
              (prepare_keeps_cache Number buildInvoiceData env))
    as (s0 & evs0 & Hp & Hs0).
  simpl in Hp.
  destruct s0 as [p|r0|e0].
  2:{ exfalso. rewrite (bind_respond _ _ _ _ _ Hp) in Hin.
      exact (not_among_stores _ _ _ Hs0 Hin). }
  2:{ exfalso. rewrite (bind_raise _ _ _ _ _ Hp) in Hin.
      exact (not_among_stores _ _ _ Hs0 Hin). }
  rewrite (bind_next _ _ _ _ _ Hp) in Hin. rewrite (bind_next _ _ _ _ _ Hp).
  unfold GenerateIrn.obtainIrn in *.
  destruct (js_strict_eq (prop_opt (req_body env) "invoice_type") (JStr "NON BILLING"));
    cbn [negb] in *.
  - exfalso.
    rewrite (bind_next _ _ _ _ _ (eq_refl : ret JNull (mkWorld c evs0) = (Next JNull, _)))
      in Hin.
    destruct (persistAndAnswer_stores Number newDate js_add js_ge env
                (req_body env) (GenerateIrn.unitId p) (GenerateIrn.customerId p)
                (GenerateIrn.invoice_no p) (GenerateIrn.invoiceData p) JNull
                (mkWorld c evs0)) as (evs1 & He1 & Hs1).
    destruct (GenerateIrn.persistAndAnswer _ _ _ _ _ _ _ _ _ _ _ _) as [[?|?|?] w2];
      simpl in He1, Hin; rewrite He1 in Hin;
      (apply in_app_or in Hin; destruct Hin as [Hin|Hin];
       [exact (not_among_stores _ _ _ Hs0 Hin) | exact (not_among_stores _ _ _ Hs1 Hin)]).
  - rewrite bind_assoc in Hin. rewrite bind_assoc.
    destruct (ensureAccessToken_not_generate (mkWorld c evs0)) as (evs1 & He1 & Hn1).
    destruct (GenerateIrn.ensureAccessToken env (mkWorld c evs0))
      as [[accessToken|r1|e1] w1] eqn:Ha; simpl in He1.
    2:{ exfalso. rewrite (bind_respond _ _ _ _ _ Ha) in Hin. simpl in Hin.
        rewrite He1 in Hin. apply in_app_or in Hin. destruct Hin as [Hin|Hin];
          [exact (not_among_stores _ _ _ Hs0 Hin)
          |exact (not_among_other_calls _ _ _ Hn1 Hin)]. }
    2:{ exfalso. rewrite (bind_raise _ _ _ _ _ Ha) in Hin. simpl in Hin.
        rewrite He1 in Hin. apply in_app_or in Hin. destruct Hin as [Hin|Hin];
          [exact (not_among_stores _ _ _ Hs0 Hin)
          |exact (not_among_other_calls _ _ _ Hn1 Hin)]. }
    rewrite (bind_next _ _ _ _ _ Ha) in Hin. rewrite (bind_next _ _ _ _ _ Ha).
    rewrite bind_assoc in Hin. rewrite bind_assoc.
    destruct (ensureAuthData_not_generate accessToken w1) as (evs2 & He2 & Hn2).
    destruct (GenerateIrn.ensureAuthData env accessToken w1)
      as [[authData|r2|e2] w2] eqn:Hd; simpl in He2.
    2:{ exfalso. rewrite (bind_respond _ _ _ _ _ Hd) in Hin. simpl in Hin.
        rewrite He2, He1 in Hin.
        apply in_app_or in Hin. destruct Hin as [Hin|Hin];
          [|exact (not_among_other_calls _ _ _ Hn2 Hin)].
        apply in_app_or in Hin. destruct Hin as [Hin|Hin];
          [exact (not_among_stores _ _ _ Hs0 Hin)
          |exact (not_among_other_calls _ _ _ Hn1 Hin)]. }
    2:{ exfalso. rewrite (bind_raise _ _ _ _ _ Hd) in Hin. simpl in Hin.
        rewrite He2, He1 in Hin.
        apply in_app_or in Hin. destruct Hin as [Hin|Hin];
          [|exact (not_among_other_calls _ _ _ Hn2 Hin)].
        apply in_app_or in Hin. destruct Hin as [Hin|Hin];
          [exact (not_among_stores _ _ _ Hs0 Hin)
          |exact (not_among_other_calls _ _ _ Hn1 Hin)]. }
    rewrite (bind_next _ _ _ _ _ Hd).
    destruct (generateIrn_rejected accessToken authData (GenerateIrn.invoiceData p) w2
                r irnData Hf Hok Hj Hirn Hshape) as (code & sent & Hg).
    rewrite (bind_respond _ _ _ _ _ Hg). exists code. reflexivity.
Qed.

End FailedGeneration.

(** The claim as stated fails on an answer that is not a 2xx: the
    generate-irn call of this request is answered with status 400 and a
    JSON body without [Irn], whose [ErrorDetails] say "Duplicate IRN";
    the handler takes the branch for failed transports, which looks at
    [ErrorMessage] and [message] only, and answers with "Request
    failed", where the precedence order gives "Duplicate IRN". *)
Lemma irn_failure_outside_precedence :
  calls_to GENERATE_IRN_URL
    (events (snd (sample_generate scenario_transport_failure TokenCache.cache0)))
  = 1%nat
  /\ fetch_generate_irn scenario_transport_failure
     = Ok (mkHttpResponse false (JNum 400) "Bad Request" (Some "application/json")
             (Ok failed_transport_response) "")
  /\ truthy (prop_opt failed_transport_response "Irn") = false
  /\ fst (sample_generate scenario_transport_failure TokenCache.cache0)
     = mkResponse 400
         (JObj [ ("error", JStr "IRN Generation Failed - API Error");
                 ("details", JStr "Request failed");
                 ("apiResponse",
                  JObj [ ("status", JNum 400);
                         ("statusText", JStr "Bad Request");
                         ("timestamp", JStr "2024-01-01T00:00:00.000Z") ]) ])
  /\ IrnError.normalized_message sample_stringify failed_transport_response
     = JStr "Duplicate IRN".
Proof. vm_compute. repeat split; reflexivity. Qed.

(** C4, amended.  In every generate-IRN request whose generate-irn call
    went out and was answered with a 2xx status and a parsed body that
    is not [null], has a falsy [Irn] (null or absent), and holds, in the
    error array the chain maps over, no [null] entry and no message
    without string conversion, the handler answers 400 "IRN Generation
    Failed" with, as [details], the first message that the field paths
    yield in the order [ErrorMessage], [ErrorDetails] (a non-empty
    array: messages extracted, deduplicated, joined with ", "),
    [errorMessage], [ValidationErrors] (an array: deduplicated, joined),
    [message], and the generic text last.  The answer of Scenario C,
    with "Duplicate IRN" twice in [ErrorDetails], gives exactly
    "Duplicate IRN"; an answer with the entries "Duplicate IRN",
    "Invalid GSTIN", "Duplicate IRN" and "Invalid date" gives
    "Duplicate IRN, Invalid GSTIN, Invalid date", whatever its fields of
    lower precedence hold. *)
Theorem irn_failure_message_precedence :
  forall (JSON_stringify Number newDate : JsVal -> JsVal)
         (js_add : JsVal -> JsVal -> JsVal) (js_ge : JsVal -> JsVal -> bool)
         (buildInvoiceData :
            JsVal -> JsVal -> JsVal -> option DbResult -> JsVal -> JsVal -> Res JsVal)
         (env : Env) (c : TokenCache.Cache)
         (headers : list (string * JsVal)) (body : JsVal)
         (r : HttpResponse) (irnData : JsVal),
    In (EvFetch GENERATE_IRN_URL headers body)
       (events (snd (generateHandler JSON_stringify Number newDate js_add js_ge
                       buildInvoiceData env (request c)))) ->
    fetch_generate_irn env = Ok r ->
    ok r = true ->
    json r = Ok irnData ->
    truthy (prop_opt irnData "Irn") = false ->
    IrnError.failure_payload JSON_stringify irnData = true ->
    (exists code,
        fst (generateHandler JSON_stringify Number newDate js_add js_ge
               buildInvoiceData env (request c))
        = mkResponse 400
            (JObj [ ("error", JStr "IRN Generation Failed");
                    ("details", IrnError.normalized_message JSON_stringify irnData);
                    ("errorCode", code);
                    ("apiResponse",
                     JObj [ ("status", prop_opt irnData "Status");
                            ("errorCode", code);
                            ("timestamp", timestamp env) ]) ]))
    /\ IrnError.normalized_message JSON_stringify irnData
       = IrnError.first_message
           [ IrnError.flat_path "ErrorMessage";
             IrnError.path_ErrorDetails JSON_stringify;
             IrnError.flat_path "errorMessage";
             IrnError.path_ValidationErrors JSON_stringify;
             IrnError.flat_path "message" ] irnData
    /\ IrnError.normalized_message JSON_stringify duplicate_irn_response
       = JStr "Duplicate IRN"
    /\ IrnError.normalized_message JSON_stringify rejected_irn_response
       = JStr "Duplicate IRN, Invalid GSTIN, Invalid date".
Proof.
  intros JSON_stringify Number newDate js_add js_ge buildInvoiceData env c
         headers body r irnData Hin Hf Hok Hj Hirn Hshape.
  split; [|repeat split; reflexivity].
  exact (failed_generation_response JSON_stringify Number newDate js_add js_ge
           buildInvoiceData env c headers body r irnData Hin Hf Hok Hj Hirn Hshape).
Qed.

Lemma irn_failure_message_precedence_witness :
  exists code,
    fst (sample_generate scenario_rejected TokenCache.cache0)
    = mkResponse 400
        (JObj [ ("error", JStr "IRN Generation Failed");
                ("details", JStr "Duplicate IRN, Invalid GSTIN, Invalid date");
                ("errorCode", code);
                ("apiResponse",
                 JObj [ ("status", JNum 0);
                        ("errorCode", code);
                        ("timestamp", JStr "2024-01-01T00:00:00.000Z") ]) ]).
Proof.
  destruct (irn_failure_message_precedence
              sample_stringify sample_Number sample_newDate sample_add sample_ge
              sample_build scenario_rejected TokenCache.cache0
              [ ("accept", JStr "application/json");
                ("gstin", JStr "configured");
                ("AuthToken", JStr "at1");
                ("user_name", JStr "u1");
                ("sek", JStr "s1");
                ("Authorization", JStr "Bearer tok1");
                ("Content-Type", JStr "application/json") ]
              (JObj [ ("Version", JStr "1.1");
                      ("DocDtls", JObj [ ("No", JStr "INV-001") ]) ])
              (mkHttpResponse true (JNum 200) "OK" (Some "application/json")
                 (Ok rejected_irn_response) "")
              rejected_irn_response) as [H _].
  - vm_compute. do 6 right. left. reflexivity.
  - reflexivity.
  - reflexivity.
  - reflexivity.
  - reflexivity.
  - reflexivity.
  - exact H.
Defined.

(** ** The theorems at work on sample requests *)

(** Scenario A: from an empty cache the three calls go out in order, the
    answer carries the IRN, and the cache holds both credentials, each
    with a full validity window from the clock reading 1000. *)
Example scenario_A_succeeds :
  fst (sample_generate scenario_A TokenCache.cache0)
  = mkResponse 200
      (JObj [ ("invoice",
               JObj [ ("id", JNum 42); ("invoice_no", JStr "INV-001");
                      ("irn", JStr "IRN123"); ("qrcode", JStr "qr");
                      ("ack_no", JStr "A1") ]);
              ("irn",
               JObj [ ("irn", JStr "IRN123"); ("qrcode", JStr "qr");
                      ("ack_no", JStr "A1"); ("status", JStr "GENERATED") ]) ])
  /\ cache (snd (sample_generate scenario_A TokenCache.cache0))
     = TokenCache.mkCache (JStr "tok1") (Some 21601000)
         (JStr "at1") (JStr "s1") (JStr "u1") (Some 21601000)
  /\ map (fun e => match e with EvFetch url _ _ => url | EvStore _ _ => "" end)
       (remote_calls (events (snd (sample_generate scenario_A TokenCache.cache0))))
     = [ AUTHENTICATE_URL; ENHANCED_AUTHENTICATION_URL; GENERATE_IRN_URL ].
Proof. vm_compute. repeat split; reflexivity. Qed.

Lemma non_billing_skips_irn_witness :
  remote_calls (events (snd (sample_generate scenario_non_billing TokenCache.cache0)))
  = []
  /\ cache (snd (sample_generate scenario_non_billing TokenCache.cache0))
     = TokenCache.cache0.
Proof.
  destruct (non_billing_skips_irn sample_stringify sample_Number sample_newDate
              sample_add sample_ge sample_build scenario_non_billing
              TokenCache.cache0 eq_refl) as (Hcalls & Hcache & _).
  split; [exact Hcalls | exact Hcache].
Defined.

Lemma authenticate_rejection_is_terminal_witness :
  status_code (fst (sample_generate scenario_B TokenCache.cache0)) = 400
  /\ cache (snd (sample_generate scenario_B TokenCache.cache0)) = TokenCache.cache0.
Proof.
  assert (Hne : JNum 0 <> JNum 1) by discriminate.
  assert (Hin : In (EvFetch AUTHENTICATE_URL
                      (GenerateIrn.authenticateHeaders scenario_B) JUndefined)
                   (events (snd (sample_generate scenario_B TokenCache.cache0)))).
  { vm_compute. do 4 right. left. reflexivity. }
  destruct (authenticate_rejection_is_terminal
              sample_stringify sample_Number sample_newDate sample_add sample_ge
              sample_build scenario_B TokenCache.cache0
              (GenerateIrn.authenticateHeaders scenario_B) JUndefined
              (mkHttpResponse true (JNum 200) "OK" (Some "application/json")
                 (Ok (JObj [ ("status", JNum 0);
                             ("errorMessage", JStr "Invalid client") ])) "")
              (JObj [ ("status", JNum 0); ("errorMessage", JStr "Invalid client") ])
              (JNum 0) Hin eq_refl eq_refl eq_refl Hne)
    as (Hcode & _ & _ & _ & _ & Hcache).
  split; [exact Hcode | exact Hcache].
Defined.


(* ================================================================== *)
(** * Further properties of the code *)
(* ================================================================== *)

(** ** The credential cache over histories *)

Section CacheHistoriesMore.
Import TokenCache.

Lemma apply_op_auth_agrees last cache e :
  auth_slots_agree last cache ->
  auth_slots_agree (track_auth last e) (apply_op cache e).
Proof.
  destruct e as [t op]; unfold track_auth, apply_op; simpl.
  destruct op; simpl; intros H.
  - destruct last as [[t0 [[a0 s0] u0]]|]; simpl in *; exact H.
  - repeat split.
  - repeat split.
Qed.

Lemma fold_auth_agrees ops : forall last cache,
  auth_slots_agree last cache ->
  auth_slots_agree (fold_left track_auth ops last) (fold_left apply_op ops cache).
Proof.
  induction ops as [|e ops IH]; intros last cache H; simpl.
  - exact H.
  - apply IH, apply_op_auth_agrees, H.
Qed.

Lemma run_auth_agrees ops : auth_slots_agree (last_auth_set ops) (run ops).
Proof. apply fold_auth_agrees; repeat split. Qed.

Lemma last_auth_set_time ops :
  Forall (fun e : Time * CacheOp => 0 <= fst e) ops ->
  forall t x, last_auth_set ops = Some (t, x) -> 0 <= t.
Proof.
  unfold last_auth_set.
  assert (G : forall l (o : option (Time * (JsVal * JsVal * JsVal))),
             Forall (fun e : Time * CacheOp => 0 <= fst e) l ->
             (forall t x, o = Some (t, x) -> 0 <= t) ->
             forall t x, fold_left track_auth l o = Some (t, x) -> 0 <= t).
  { induction l as [|e l IH]; intros o Hl Ho t x; simpl.
    - apply Ho.
    - inversion Hl as [|? ? He Hl']; subst. apply IH; [exact Hl'|].
      intros t' x'. destruct e as [te op]; unfold track_auth; simpl in *.
      destruct op; intros E; try discriminate.
      + eapply Ho; exact E.
      + inversion E; subst; exact He. }
  intros Hpos. apply G; [exact Hpos|]. intros t x E; discriminate E.
Qed.

(** X1.  After any history of cache calls made at non-negative clock
    readings, and at any query time, [getAuthData] returns the three
    values of the latest [setAuthData] that no later [clearTokenCache]
    has undone, provided the stored [authToken] is truthy and less than
    [TOKEN_VALIDITY_MS] has elapsed since that call; in every other case
    it returns [null].  Calls of [setAccessToken] in between change
    nothing. *)
Theorem getAuthData_after_history :
  forall (ops : list (Time * CacheOp)) (now : Time),
    Forall (fun e => 0 <= fst e) ops ->
    getAuthData (run ops) now =
    match last_auth_set ops with
    | Some (t, (a, s, u)) =>
        if truthy a && (now - t <? TOKEN_VALIDITY_MS)
        then authDataObject a s u else JNull
    | None => JNull
    end.
Proof.
  intros ops now Hpos.
  pose proof (run_auth_agrees ops) as H.
  pose proof (last_auth_set_time ops Hpos) as Ht.
  unfold getAuthData.
  destruct (last_auth_set ops) as [[t [[a s] u]]|]; simpl in H.
  - destruct H as (Ha & Hs & Hu & He). rewrite Ha, Hs, Hu, He.
    specialize (Ht t _ eq_refl).
    assert (Hv : 0 < TOKEN_VALIDITY_MS) by (unfold TOKEN_VALIDITY_MS; lia).
    unfold expiry_truthy, expiry_number.
    destruct (Z.eqb_spec (t + TOKEN_VALIDITY_MS) 0); [lia|]. cbv [negb].
    rewrite andb_true_r, Z.gtb_ltb.
    destruct (truthy a); cbv [andb]; [|reflexivity].
    destruct (Z.ltb_spec now (t + TOKEN_VALIDITY_MS));
      destruct (Z.ltb_spec (now - t) TOKEN_VALIDITY_MS); try reflexivity; lia.
  - destruct H as (Ha & _). rewrite Ha. reflexivity.
Qed.

Lemma getAuthData_after_history_witness :
  getAuthData
    (run [ (0, OpSetAuthData (JStr "at1") (JStr "s1") (JStr "u1"));
           (5, OpSetAccessToken (JStr "tok1")) ]) 1000
  = authDataObject (JStr "at1") (JStr "s1") (JStr "u1").
Proof.
  assert (H : Forall (fun e : Time * CacheOp => 0 <= fst e)
                [ (0, OpSetAuthData (JStr "at1") (JStr "s1") (JStr "u1"));
                  (5, OpSetAccessToken (JStr "tok1")) ]).
  { repeat constructor; simpl; lia. }
  exact (getAuthData_after_history _ 1000 H).
Defined.

(** The slots of the access token depend on the calls that touch them
    only, and so do the slots of the session. *)
Lemma last_access_set_filter ops : forall last,
  fold_left track_access (filter touches_access ops) last
  = fold_left track_access ops last.
Proof.
  induction ops as [|[t op] ops IH]; intros last; simpl; [reflexivity|].
  destruct op; simpl; apply IH.
Qed.

Lemma last_auth_set_filter ops : forall last,
  fold_left track_auth (filter touches_auth ops) last
  = fold_left track_auth ops last.
Proof.
  induction ops as [|[t op] ops IH]; intros last; simpl; [reflexivity|].
  destruct op; simpl; apply IH.
Qed.

Lemma access_slots_determined last c1 c2 :
  access_slots_agree last c1 -> access_slots_agree last c2 ->
  accessToken c1 = accessToken c2 /\ accessTokenExpiry c1 = accessTokenExpiry c2.
Proof.
  destruct last as [[t token]|]; simpl; intros [H1 H2] [H3 H4];
    rewrite H1, H2, H3, H4; split; reflexivity.
Qed.

Lemma auth_slots_determined last c1 c2 :
  auth_slots_agree last c1 -> auth_slots_agree last c2 ->
  authToken c1 = authToken c2 /\ sek c1 = sek c2 /\ userName c1 = userName c2
  /\ authTokenExpiry c1 = authTokenExpiry c2.
Proof.
  destruct last as [[t [[a s] u]]|]; simpl;
    intros (H1 & H2 & H3 & H4) (H5 & H6 & H7 & H8);
    rewrite H1, H2, H3, H4, H5, H6, H7, H8; repeat split.
Qed.

(** X2.  The two credentials do not interfere.  At any query time and
    after any history of cache calls, [getAccessToken] and
    [shouldForceRefresh] answer as they would had no [setAuthData] call
    been made, and [getAuthData] answers as it would had no
    [setAccessToken] call been made. *)
Theorem cache_slots_do_not_interfere :
  forall (ops : list (Time * CacheOp)) (now : Time),
    getAccessToken (run ops) now = getAccessToken (run (filter touches_access ops)) now
    /\ shouldForceRefresh (run ops) now
       = shouldForceRefresh (run (filter touches_access ops)) now
    /\ getAuthData (run ops) now = getAuthData (run (filter touches_auth ops)) now.
Proof.
  intros ops now.
  pose proof (run_agrees ops) as A1.
  pose proof (run_agrees (filter touches_access ops)) as A2.
  unfold last_access_set in A2. rewrite last_access_set_filter in A2.
  destruct (access_slots_determined _ _ _ A1 A2) as [Ht He].
  pose proof (run_auth_agrees ops) as B1.
  pose proof (run_auth_agrees (filter touches_auth ops)) as B2.
  unfold last_auth_set in B2. rewrite last_auth_set_filter in B2.
  destruct (auth_slots_determined _ _ _ B1 B2) as (Ha & Hs & Hu & Hx).
  unfold getAccessToken, shouldForceRefresh, getAuthData.
  rewrite Ht, He, Ha, Hs, Hu, Hx. repeat split.
Qed.

(** X3.  [clearTokenCache] forgets everything: whatever the calls before
    it, right after it no credential is served at any query time and no
    forced refresh is asked for, and the cache goes on as if the calls
    before the clear had never been made. *)
Theorem clearTokenCache_forgets_history :
  forall (before after : list (Time * CacheOp)) (t now : Time),
    getAccessToken (run (before ++ [(t, OpClearTokenCache)])) now = JNull
    /\ getAuthData (run (before ++ [(t, OpClearTokenCache)])) now = JNull
    /\ shouldForceRefresh (run (before ++ [(t, OpClearTokenCache)])) now = false
    /\ run (before ++ (t, OpClearTokenCache) :: after) = run after.
Proof.
  intros before after t now. unfold run.
  rewrite !fold_left_app. simpl. unfold apply_op at 1 3 5. simpl.
  unfold clearTokenCache. repeat split.
Qed.

(** X4.  Validity only runs out with time.  In every cache state, a
    credential that [getAccessToken] or [getAuthData] serves at some
    time is served unchanged at every earlier time, so that one withheld
    as expired stays withheld later.  Whenever [shouldForceRefresh] asks
    for a refresh the expiry of the access token has not passed, so that
    [getAccessToken] serves the stored token if it is truthy, then and
    at every earlier time; [shouldForceRefresh] itself never looks at
    the token: 355 minutes after [setAccessToken("")] it asks for a
    refresh while [getAccessToken] returns [null]. *)
Theorem cache_validity_runs_out_with_time :
  forall (cache : Cache) (earlier later : Time),
    earlier <= later ->
    (getAccessToken cache later <> JNull ->
     getAccessToken cache earlier = getAccessToken cache later)
    /\ (getAuthData cache later <> JNull ->
        getAuthData cache earlier = getAuthData cache later)
    /\ (shouldForceRefresh cache later = true ->
        getAccessToken cache later
        = (if truthy (accessToken cache) then accessToken cache else JNull)
        /\ getAccessToken cache earlier = getAccessToken cache later)
    /\ (shouldForceRefresh (setAccessToken (JStr "") 0 cache0) (355 * 60 * 1000) = true
        /\ getAccessToken (setAccessToken (JStr "") 0 cache0) (355 * 60 * 1000) = JNull).
Proof.
  intros cache earlier later Hle.
  unfold getAccessToken, getAuthData, shouldForceRefresh.
  split; [|split; [|split; [|split; reflexivity]]].
  - destruct (truthy (accessToken cache)); cbv [andb]; [|congruence].
    rewrite !Z.gtb_ltb.
    destruct (Z.ltb_spec later (expiry_number (accessTokenExpiry cache)));
      [|congruence].
    destruct (Z.ltb_spec earlier (expiry_number (accessTokenExpiry cache)));
      [reflexivity | lia].
  - destruct (truthy (authToken cache)); cbv [andb]; [|congruence].
    destruct (expiry_truthy (authTokenExpiry cache)); [|congruence].
    rewrite !Z.gtb_ltb.
    destruct (Z.ltb_spec later (expiry_number (authTokenExpiry cache)));
      [|congruence].
    destruct (Z.ltb_spec earlier (expiry_number (authTokenExpiry cache)));
      [reflexivity | lia].
  - intros H.
    destruct (expiry_truthy (accessTokenExpiry cache)); cbv [negb] in H;
      [|discriminate H].
    rewrite andb_true_iff, Z.gtb_ltb, Z.ltb_lt in H. destruct H as [H _].
    rewrite !Z.gtb_ltb.
    destruct (truthy (accessToken cache)); cbv [andb]; [|split; reflexivity].
    destruct (Z.ltb_spec later (expiry_number (accessTokenExpiry cache)));
      destruct (Z.ltb_spec earlier (expiry_number (accessTokenExpiry cache)));
      try (split; reflexivity); lia.
Qed.

Lemma cache_validity_runs_out_with_time_witness :
  getAccessToken (setAccessToken (JStr "tok1") 0 cache0) 1000
  = getAccessToken (setAccessToken (JStr "tok1") 0 cache0) 21300000.
Proof.
  assert (Hle : 1000 <= 21300000) by lia.
  destruct (cache_validity_runs_out_with_time
              (setAccessToken (JStr "tok1") 0 cache0) 1000 21300000 Hle)
    as (Haccess & _).
  apply Haccess. vm_compute. discriminate.
Defined.

End CacheHistoriesMore.

(** ** The two versions of the cache on one history *)

Lemma apply_op_related (cache : TokenCache.Cache) (tokenCache : TokenCacheB.Cache)
  (e : Time * TokenCache.CacheOp) :
  0 <= fst e ->
  versions_related cache tokenCache ->
  versions_related (TokenCache.apply_op cache e) (apply_op_B tokenCache e).
Proof.
  destruct e as [t op]. simpl. intros Ht (H1 & H2 & H3 & H4 & H5 & H6).
  unfold TokenCache.apply_op, apply_op_B, versions_related. simpl.
  destruct op; simpl; repeat split; try assumption; exists t; auto.
Qed.

Lemma run_related (ops : list (Time * TokenCache.CacheOp)) :
  Forall (fun e => 0 <= fst e) ops ->
  versions_related (TokenCache.run ops) (run_B ops).
Proof.
  unfold TokenCache.run, run_B.
  assert (G : forall l cA cB,
             Forall (fun e : Time * TokenCache.CacheOp => 0 <= fst e) l ->
             versions_related cA cB ->
             versions_related (fold_left TokenCache.apply_op l cA)
               (fold_left apply_op_B l cB)).
  { induction l as [|e l IH]; intros cA cB Hl H; simpl; [exact H|].
    inversion Hl; subst. apply IH; [assumption|]. apply apply_op_related; assumption. }
  intros H. apply G; [exact H|]. repeat split.
Qed.

(** X5.  After the same history of calls, made at non-negative clock
    readings, the second version of the cache (validity 60 minutes)
    never serves a credential that the first version (validity 360
    minutes) withholds: whenever its [getAccessToken] or [getAuthData]
    returns a value, the first version returns the same value. *)
Theorem second_version_serves_no_more :
  forall (ops : list (Time * TokenCache.CacheOp)) (now : Time),
    Forall (fun e => 0 <= fst e) ops ->
    (TokenCacheB.getAccessToken (run_B ops) now <> JNull ->
     TokenCache.getAccessToken (TokenCache.run ops) now
     = TokenCacheB.getAccessToken (run_B ops) now)
    /\ (TokenCacheB.getAuthData (run_B ops) now <> JNull ->
        TokenCache.getAuthData (TokenCache.run ops) now
        = TokenCacheB.getAuthData (run_B ops) now).
Proof.
  intros ops now Hpos.
  destruct (run_related ops Hpos) as (H1 & H2 & H3 & H4 & H5 & H6).
  unfold TokenCache.getAccessToken, TokenCacheB.getAccessToken,
    TokenCache.getAuthData, TokenCacheB.getAuthData, TokenCache.authDataObject.
  rewrite H1, H2, H3, H4.
  unfold expiries_related in H5, H6.
  unfold TokenCache.TOKEN_VALIDITY_MS, TokenCacheB.TOKEN_VALIDITY_MS in *.
  split.
  - destruct (truthy (TokenCacheB.accessToken (run_B ops))); cbv [andb];
      [|congruence].
    destruct (TokenCache.accessTokenExpiry (TokenCache.run ops)) as [a|],
             (TokenCacheB.expiresAt (run_B ops)) as [b|];
      try contradiction; try (intros _; reflexivity).
    destruct H5 as (t & Ht & Ea & Eb). subst a b. unfold expiry_number.
    rewrite !Z.gtb_ltb.
    destruct (Z.ltb_spec now (t + 60 * 60 * 1000)); [|congruence].
    destruct (Z.ltb_spec now (t + 360 * 60 * 1000)); [reflexivity | lia].
  - destruct (truthy (TokenCacheB.authToken (run_B ops))); cbv [andb];
      [|congruence].
    destruct (TokenCache.authTokenExpiry (TokenCache.run ops)) as [a|],
             (TokenCacheB.authExpiresAt (run_B ops)) as [b|];
      try contradiction; try (intros _; reflexivity).
    destruct H6 as (t & Ht & Ea & Eb). subst a b.
    unfold expiry_truthy, expiry_number.
    destruct (Z.eqb_spec (t + 360 * 60 * 1000) 0); [lia|].
    destruct (Z.eqb_spec (t + 60 * 60 * 1000) 0); [lia|]. cbv [negb andb].
    rewrite !Z.gtb_ltb.
    destruct (Z.ltb_spec now (t + 60 * 60 * 1000)); [|congruence].
    destruct (Z.ltb_spec now (t + 360 * 60 * 1000)); [reflexivity | lia].
Qed.

Lemma second_version_serves_no_more_witness :
  TokenCache.getAccessToken
    (TokenCache.run [(0, TokenCache.OpSetAccessToken (JStr "tok1"))]) 1000
  = TokenCacheB.getAccessToken
      (run_B [(0, TokenCache.OpSetAccessToken (JStr "tok1"))]) 1000.
Proof.
  assert (H : Forall (fun e : Time * TokenCache.CacheOp => 0 <= fst e)
                [(0, TokenCache.OpSetAccessToken (JStr "tok1"))]).
  { repeat constructor; simpl; lia. }
  destruct (second_version_serves_no_more _ 1000 H) as [Haccess _].
  apply Haccess. vm_compute. discriminate.
Defined.

(** ** Strings *)

Lemma substring_0_length (n : nat) (s : string) :
  String.length (substring 0 n s) = Nat.min n (String.length s).
Proof.
  revert s. induction n as [|n IH]; intros [|c s]; simpl; try reflexivity.
  rewrite IH. reflexivity.
Qed.

Lemma substring_0_prefix (n : nat) (s : string) :
  prefix (substring 0 n s) s = true.
Proof.
  revert s. induction n as [|n IH]; intros [|c s]; simpl; try reflexivity.
  destruct (ascii_dec c c); [apply IH | congruence].
Qed.

Lemma substring_0_0 (s : string) : substring 0 0 s = "".
Proof. destruct s; reflexivity. Qed.

Lemma substring_all (s : string) : substring 0 (String.length s) s = s.
Proof. induction s as [|c s IH]; simpl; [reflexivity|]. rewrite IH. reflexivity. Qed.

Lemma substring_cut (n : nat) (s : string) :
  (n <= String.length s)%nat ->
  substring 0 n s ++ substring n (String.length s - n) s = s.
Proof.
  revert s. induction n as [|n IH]; intros s Hn.
  - rewrite Nat.sub_0_r, substring_0_0, substring_all. reflexivity.
  - destruct s as [|c s]; simpl in *; [lia|].
    rewrite IH by lia. reflexivity.
Qed.

Lemma prefix_substring (p s : string) :
  prefix p s = true -> substring 0 (String.length p) s = p.
Proof. apply prefix_correct. Qed.

(** ** getStateCodeFromGSTIN and isInterStateTransaction *)

Section StateCodes.
Import Invoice.

Lemma getStateCodeFromGSTIN_string (js_lt : JsVal -> JsVal -> bool) (s : string) :
  getStateCodeFromGSTIN js_lt (JStr s)
  = Ok (JStr (if (String.length s <? 2)%nat then "33" else substring 0 2 s)).
Proof.
  unfold getStateCodeFromGSTIN, lt_num, js_length, truthy.
  destruct s as [|a [|b r]]; try reflexivity.
  replace (Z.of_nat (String.length (String a (String b r))) <? 2) with false.
  - reflexivity.
  - symmetry. apply Z.ltb_ge. simpl String.length. lia.
Qed.

(** X6.  [getStateCodeFromGSTIN] always produces a code of two
    characters on a string, [null] or [undefined]: the first two
    characters of a GSTIN that has that many, and "33" (Tamil Nadu) for
    a missing, empty or one-character GSTIN. *)
Theorem getStateCodeFromGSTIN_two_characters :
  forall (js_lt : JsVal -> JsVal -> bool) (s : string),
    (exists code,
        getStateCodeFromGSTIN js_lt (JStr s) = Ok (JStr code)
        /\ String.length code = 2%nat
        /\ ((2 <= String.length s)%nat -> prefix code s = true)
        /\ ((String.length s < 2)%nat -> code = "33"))
    /\ getStateCodeFromGSTIN js_lt JNull = Ok (JStr "33")
    /\ getStateCodeFromGSTIN js_lt JUndefined = Ok (JStr "33").
Proof.
  intros js_lt s. split; [|split; reflexivity].
  rewrite getStateCodeFromGSTIN_string.
  destruct (Nat.ltb_spec (String.length s) 2) as [Hs|Hs].
  - exists "33". repeat split; try reflexivity. lia.
  - exists (substring 0 2 s). split; [reflexivity|]. split; [|split].
    + rewrite substring_0_length. lia.
    + intros _. apply substring_0_prefix.
    + lia.
Qed.

(** X7.  [isInterStateTransaction] on a customer GSTIN and a unit state
    code, both strings.  For a GSTIN of two or more characters the
    transaction is intra-state exactly when the unit code has two
    characters and the GSTIN starts with it; a missing, empty or
    one-character GSTIN counts as state "33"; a unit code that is not of
    two characters makes every transaction inter-state; and an omitted
    unit code stands for "33". *)
Theorem isInterStateTransaction_compares_state_codes :
  forall (js_lt : JsVal -> JsVal -> bool) (s u : string),
    ((2 <= String.length s)%nat ->
     isInterStateTransaction js_lt (JStr s) (JStr u)
     = Ok (negb ((String.length u =? 2)%nat && prefix u s)))
    /\ ((String.length s < 2)%nat ->
        isInterStateTransaction js_lt (JStr s) (JStr u) = Ok (negb (u =? "33")%string))
    /\ (String.length u <> 2%nat ->
        isInterStateTransaction js_lt (JStr s) (JStr u) = Ok true)
    /\ isInterStateTransaction js_lt (JStr s) JUndefined
       = isInterStateTransaction js_lt (JStr s) (JStr "33").
Proof.
  intros js_lt s u.
  unfold isInterStateTransaction. rewrite getStateCodeFromGSTIN_string.
  cbn [res_bind js_strict_eq].
  assert (Hcode : (2 <= String.length s)%nat ->
                  (substring 0 2 s =? u)%string
                  = (String.length u =? 2)%nat && prefix u s).
  { intros Hs. destruct (String.eqb_spec (substring 0 2 s) u) as [E|N].
    - subst u. rewrite substring_0_length, substring_0_prefix.
      replace (Nat.min 2 (String.length s)) with 2%nat by lia. reflexivity.
    - destruct (Nat.eqb_spec (String.length u) 2) as [E2|N2]; [|reflexivity].
      destruct (prefix u s) eqn:Hp; [|reflexivity].
      exfalso. apply N. rewrite <- E2. apply prefix_substring, Hp. }
  split; [|split; [|split]].
  - intros Hs. destruct (Nat.ltb_spec (String.length s) 2); [lia|].
    rewrite Hcode by exact Hs. reflexivity.
  - intros Hs. destruct (Nat.ltb_spec (String.length s) 2); [|lia].
    rewrite String.eqb_sym. reflexivity.
  - intros Hu. destruct (Nat.ltb_spec (String.length s) 2) as [Hs|Hs].
    + destruct (String.eqb_spec "33" u) as [E|N]; [subst u; simpl in Hu; lia|].
      reflexivity.
    + rewrite Hcode by exact Hs.
      destruct (Nat.eqb_spec (String.length u) 2); [contradiction | reflexivity].
  - reflexivity.
Qed.

End StateCodes.

Lemma append_assoc (a b c : string) : (a ++ b) ++ c = a ++ b ++ c.
Proof. induction a as [|x a IH]; simpl; [reflexivity|]. rewrite IH. reflexivity. Qed.

Lemma append_nil_r (a : string) : a ++ "" = a.
Proof. induction a as [|x a IH]; simpl; [reflexivity|]. rewrite IH. reflexivity. Qed.

Lemma length_append (a b : string) :
  String.length (a ++ b) = (String.length a + String.length b)%nat.
Proof. induction a as [|x a IH]; simpl; [reflexivity|]. rewrite IH. reflexivity. Qed.

Lemma concat_snoc (sep : string) (l : list string) (p : string) :
  String.concat sep (l ++ [p])
  = match l with [] => p | _ => String.concat sep l ++ sep ++ p end.
Proof.
  induction l as [|a l IH]; [reflexivity|].
  destruct l as [|b l]; [reflexivity|].
  change (String.concat sep ((a :: b :: l) ++ [p]))
    with (a ++ sep ++ String.concat sep ((b :: l) ++ [p])).
  rewrite IH.
  change (String.concat sep (a :: b :: l)) with (a ++ sep ++ String.concat sep (b :: l)).
  rewrite !append_assoc. reflexivity.
Qed.

(** ** splitAddress *)

Section SplitAddress.
Import Invoice.

Lemma place_keeps (sep : string) (done : list string) (st : Placement) (part : string) :
  placed_so_far sep done st ->
  placed_so_far sep (done ++ [part]) (place sep st (length done, part)).
Proof.
  intros (Ha & Hb & Hc & Hd). unfold place, placed_so_far.
  destruct (line2Parts st) as [|q l2] eqn:E2.
  - (* nothing in line 2 yet *)
    rewrite app_nil_r in Ha. cbn [length Nat.eqb]. rewrite andb_true_r.
    assert (Hlen :
      (currentLength st
       + String.length (if (length done =? 0)%nat then part else sep ++ part))%nat
      = String.length (String.concat sep (line1Parts st ++ [part]))).
    { rewrite concat_snoc, Hb, Ha. destruct done as [|d done]; simpl.
      - reflexivity.
      - rewrite !length_append. reflexivity. }
    destruct (Nat.leb_spec
                (currentLength st
                 + String.length (if (length done =? 0)%nat then part else sep ++ part))
                140) as [Hfit|Hover];
      cbn [line1Parts line2Parts currentLength].
    + split; [rewrite app_nil_r, Ha; reflexivity|].
      split; [exact Hlen|]. split; [exact Hfit|].
      intros p rest F. discriminate F.
    + split; [rewrite Ha; reflexivity|].
      split; [exact Hb|]. split; [exact Hc|].
      intros p rest F. inversion F; subst p rest.
      rewrite <- Hlen. exact Hover.
  - cbn [length Nat.eqb]. rewrite andb_false_r.
    cbn [line1Parts line2Parts currentLength].
    split; [rewrite <- Ha, <- app_assoc; reflexivity|].
    split; [exact Hb|]. split; [exact Hc|].
    intros p rest F. inversion F; subst p rest.
    apply (Hd q l2). reflexivity.
Qed.

Lemma fold_place_keeps (sep : string) (todo : list string) :
  forall (done : list string) (st : Placement),
    placed_so_far sep done st ->
    placed_so_far sep (done ++ todo)
      (fold_left (place sep) (combine (seq (length done) (length todo)) todo) st).
Proof.
  induction todo as [|p todo IH]; intros done st H; simpl.
  - rewrite app_nil_r. exact H.
  - replace (done ++ p :: todo)%list with ((done ++ [p]) ++ todo)%list
      by (rewrite <- app_assoc; reflexivity).
    replace (S (length done)) with (length (done ++ [p]))
      by (rewrite length_app; simpl; lia).
    apply IH, place_keeps, H.
Qed.

Lemma placeAll_spec (sep : string) (parts : list string) :
  placed_so_far sep parts (placeAll sep parts).
Proof.
  unfold placeAll.
  apply (fold_place_keeps sep parts [] (mkPlacement [] [] 0)).
  repeat split; simpl; try lia. intros p rest F. discriminate F.
Qed.

Variable js_le : JsVal -> JsVal -> bool.

Lemma splitAddress_long (s : string) :
  (140 < String.length s)%nat ->
  splitAddress js_le (JStr s) = Ok (splitLongAddress s).
Proof.
  intros H. unfold splitAddress, le_num, js_length, truthy.
  destruct s as [|c s]; [simpl in H; lia|].
  cbn [String.eqb negb].
  replace ((String c s =? "")%string) with false by reflexivity. cbn [negb].
  replace (Z.of_nat (String.length (String c s)) <=? 140) with false; [reflexivity|].
  symmetry. apply Z.leb_gt. lia.
Qed.

Lemma splitAddress_short (s : string) :
  (String.length s <= 140)%nat ->
  splitAddress js_le (JStr s) = Ok (lines (JStr s) (JStr "")).
Proof.
  intros H. unfold splitAddress, le_num, js_length, truthy.
  destruct s as [|c s]; [reflexivity|].
  replace ((String c s =? "")%string) with false by reflexivity. cbn [negb].
  replace (Z.of_nat (String.length (String c s)) <=? 140) with true; [reflexivity|].
  symmetry. apply Z.leb_le. lia.
Qed.

End SplitAddress.

(** X8.  [splitAddress] keeps the first line within 140 characters: for
    every address string that is at most 140 characters long or holds no
    line feed, the call returns two strings and [line1] has at most 140
    characters.  (With a line feed in a longer address, [line1] is the
    first non-blank line, whatever its length.) *)
Theorem splitAddress_line1_fits :
  forall (js_le : JsVal -> JsVal -> bool) (address : string),
    ((140 < String.length address)%nat -> includes (String LF "") address = false) ->
    exists line1 line2,
      Invoice.splitAddress js_le (JStr address)
      = Ok (Invoice.lines (JStr line1) (JStr line2))
      /\ (String.length line1 <= 140)%nat.
Proof.
  intros js_le address Hlf.
  destruct (Nat.leb_spec (String.length address) 140) as [Hshort|Hlong].
  - rewrite (splitAddress_short js_le address Hshort).
    exists address, "". split; [reflexivity | exact Hshort].
  - rewrite (splitAddress_long js_le address Hlong).
    unfold Invoice.splitLongAddress. rewrite (Hlf Hlong).
    destruct (includes "," address).
    + destruct (placeAll_spec ","
                  (filter (fun p => negb (p =? "")%string)
                     (map trim (split "," address)))) as (_ & Hb & Hc & _).
      do 2 eexists. split; [reflexivity|]. rewrite <- Hb. exact Hc.
    + destruct (includes " " address).
      * destruct (placeAll_spec " " (filter Invoice.nonblank (split " " address)))
          as (_ & Hb & Hc & _).
        do 2 eexists. split; [reflexivity|]. rewrite <- Hb. exact Hc.
      * do 2 eexists. split; [reflexivity|]. rewrite substring_0_length. lia.
Qed.

Lemma splitAddress_line1_fits_witness :
  exists line1 line2,
    Invoice.splitAddress (fun _ _ => false) (JStr "12, Main Road, Chennai")
    = Ok (Invoice.lines (JStr line1) (JStr line2))
    /\ (String.length line1 <= 140)%nat.
Proof.
  apply (splitAddress_line1_fits (fun _ _ => false) "12, Main Road, Chennai").
  simpl. lia.
Defined.

(** X9.  On an address of more than 140 characters without a line feed,
    [splitAddress] cuts at the separators only and fills the first line
    greedily.  With a comma in the address the parts are the trimmed,
    non-empty pieces between commas; without a comma but with a space
    they are the non-blank pieces between spaces.  [line1] is the longest
    run of leading parts that, joined by the separator, fits in 140
    characters, and [line2] is all the other parts joined, in order:
    no part is dropped, repeated or cut, and the next part would not have
    fitted on the first line (so that a first part of more than 140
    characters leaves [line1] empty). *)
Theorem splitAddress_fills_line1_greedily :
  forall (js_le : JsVal -> JsVal -> bool) (address : string),
    (140 < String.length address)%nat ->
    includes (String LF "") address = false ->
    (includes "," address = true ->
     exists first rest,
       (first ++ rest)%list
       = filter (fun p => negb (p =? "")%string) (map trim (split "," address))
       /\ Invoice.splitAddress js_le (JStr address)
          = Ok (Invoice.lines (JStr (String.concat "," first))
                              (JStr (String.concat "," rest)))
       /\ (String.length (String.concat "," first) <= 140)%nat
       /\ (forall p others, rest = p :: others ->
             (140 < String.length (String.concat "," (first ++ [p])))%nat))
    /\ (includes "," address = false ->
        includes " " address = true ->
        exists first rest,
          (first ++ rest)%list = filter Invoice.nonblank (split " " address)
          /\ Invoice.splitAddress js_le (JStr address)
             = Ok (Invoice.lines (JStr (String.concat " " first))
                                 (JStr (String.concat " " rest)))
          /\ (String.length (String.concat " " first) <= 140)%nat
          /\ (forall p others, rest = p :: others ->
                (140 < String.length (String.concat " " (first ++ [p])))%nat)).
Proof.
  intros js_le address Hlong Hlf.
  rewrite (splitAddress_long js_le address Hlong).
  unfold Invoice.splitLongAddress. rewrite Hlf.
  split.
  - intros Hcomma. rewrite Hcomma.
    destruct (placeAll_spec ","
                (filter (fun p => negb (p =? "")%string) (map trim (split "," address))))
      as (Ha & Hb & Hc & Hd).
    do 2 eexists. split; [exact Ha|]. split; [reflexivity|].
    split; [rewrite <- Hb; exact Hc | exact Hd].
  - intros Hcomma Hspace. rewrite Hcomma, Hspace.
    destruct (placeAll_spec " " (filter Invoice.nonblank (split " " address)))
      as (Ha & Hb & Hc & Hd).
    do 2 eexists. split; [exact Ha|]. split; [reflexivity|].
    split; [rewrite <- Hb; exact Hc | exact Hd].
Qed.

(** X10.  An address of more than 140 characters with no line feed, no
    comma and no space is cut after its 140th character: [line1] has
    exactly 140 characters and [line1] followed by [line2] is the
    address. *)
Theorem splitAddress_cuts_undelimited_address :
  forall (js_le : JsVal -> JsVal -> bool) (address : string),
    (140 < String.length address)%nat ->
    includes (String LF "") address = false ->
    includes "," address = false ->
    includes " " address = false ->
    exists line1 line2,
      Invoice.splitAddress js_le (JStr address)
      = Ok (Invoice.lines (JStr line1) (JStr line2))
      /\ line1 ++ line2 = address
      /\ String.length line1 = 140%nat.
Proof.
  intros js_le address Hlong Hlf Hcomma Hspace.
  rewrite (splitAddress_long js_le address Hlong).
  unfold Invoice.splitLongAddress. rewrite Hlf, Hcomma, Hspace.
  do 2 eexists. split; [reflexivity|]. split.
  - apply substring_cut. lia.
  - rewrite substring_0_length. lia.
Qed.

Lemma splitAddress_fills_line1_greedily_witness :
  exists first rest,
    (first ++ rest)%list
    = filter (fun p => negb (p =? "")%string)
        (map trim (split "," sample_long_address))
    /\ Invoice.splitAddress (fun _ _ => false) (JStr sample_long_address)
       = Ok (Invoice.lines (JStr (String.concat "," first))
                           (JStr (String.concat "," rest)))
    /\ (String.length (String.concat "," first) <= 140)%nat
    /\ (forall p others, rest = p :: others ->
          (140 < String.length (String.concat "," (first ++ [p])))%nat).
Proof.
  assert (Hlong : (140 < String.length sample_long_address)%nat).
  { apply Nat.ltb_lt. vm_compute. reflexivity. }
  assert (Hlf : includes (String LF "") sample_long_address = false).
  { vm_compute. reflexivity. }
  destruct (splitAddress_fills_line1_greedily (fun _ _ => false)
              sample_long_address Hlong Hlf) as [Hcomma _].
  apply Hcomma. vm_compute. reflexivity.
Defined.

Lemma splitAddress_cuts_undelimited_address_witness :
  exists line1 line2,
    Invoice.splitAddress (fun _ _ => false) (JStr sample_undelimited_address)
    = Ok (Invoice.lines (JStr line1) (JStr line2))
    /\ line1 ++ line2 = sample_undelimited_address
    /\ String.length line1 = 140%nat.
Proof.
  apply (splitAddress_cuts_undelimited_address (fun _ _ => false)
           sample_undelimited_address).
  - apply Nat.ltb_lt. vm_compute. reflexivity.
  - vm_compute. reflexivity.
  - vm_compute. reflexivity.
  - vm_compute. reflexivity.
Defined.

(** ** trim *)

Lemma trimStart_tight (c : ascii) (s : string) :
  is_space c = false -> trimStart (String c s) = String c s.
Proof. intros H. simpl. rewrite H. reflexivity. Qed.

Lemma trimEnd_cons_kept (c : ascii) (s : string) :
  trimEnd s <> "" -> trimEnd (String c s) = String c (trimEnd s).
Proof. intros H. simpl. destruct (trimEnd s); [contradiction | reflexivity]. Qed.

Lemma trimEnd_cons_nonspace (c : ascii) (s : string) :
  is_space c = false -> trimEnd (String c s) = String c (trimEnd s).
Proof. intros H. simpl. rewrite H. destruct (trimEnd s); reflexivity. Qed.

(** What comes before a character that is not white space is kept. *)
Lemma trimEnd_app_nonspace (p : string) (c : ascii) (q : string) :
  is_space c = false ->
  trimEnd (p ++ String c q) = p ++ String c (trimEnd q).
Proof.
  intros H. induction p as [|a p IH]; simpl app.
  - apply trimEnd_cons_nonspace, H.
  - cbn [append]. rewrite trimEnd_cons_kept; rewrite IH.
    + reflexivity.
    + destruct p; discriminate.
Qed.

Lemma trimEnd_app_space (s : string) : trimEnd (s ++ " ") = trimEnd s.
Proof.
  induction s as [|c s IH]; [reflexivity|].
  cbn [append]. simpl. rewrite IH. reflexivity.
Qed.

Lemma tightb_tight (s : string) : tightb s = true -> tight s.
Proof.
  unfold tightb, tight. rewrite !andb_true_iff, negb_true_iff.
  intros [[H1 H2] H3]. apply String.eqb_neq in H1.
  apply String.eqb_eq in H2, H3. auto.
Qed.

Lemma tight_app_l (a x : string) : tight a -> trimStart (a ++ x) = a ++ x.
Proof.
  intros (Hn & Hs & _). destruct a as [|c a]; [contradiction|].
  simpl in *. destruct (is_space c); [|reflexivity].
  exfalso. assert (L : forall s, (String.length (trimStart s) <= String.length s)%nat).
  { induction s as [|d s IHs]; simpl; [lia|]. destruct (is_space d); simpl; lia. }
  specialize (L a). rewrite Hs in L. simpl in L. lia.
Qed.

Lemma tight_app_r (x b : string) : tight b -> trimEnd (x ++ b) = x ++ b.
Proof.
  intros (Hn & _ & He). induction x as [|c x IH]; simpl app; [exact He|].
  cbn [append]. rewrite trimEnd_cons_kept; rewrite IH; [reflexivity|].
  destruct x; [exact Hn | discriminate].
Qed.

Lemma tight_app (a x b : string) : tight a -> tight b -> tight (a ++ x ++ b).
Proof.
  intros Ha Hb. split; [|split].
  - destruct Ha as (Hn & _). destruct a; [contradiction | discriminate].
  - apply tight_app_l, Ha.
  - rewrite <- append_assoc. apply tight_app_r, Hb.
Qed.

Lemma tight_concat (sep : string) (ps : list string) :
  ps <> [] -> Forall tight ps -> tight (String.concat sep ps).
Proof.
  induction ps as [|p ps IH]; [contradiction|]. intros _ H.
  inversion H as [|? ? Hp Hps]; subst.
  destruct ps as [|q ps]; [exact Hp|].
  change (String.concat sep (p :: q :: ps)) with (p ++ sep ++ String.concat sep (q :: ps)).
  apply tight_app; [exact Hp|]. apply IH; [discriminate | exact Hps].
Qed.

Lemma trim_tight_space (s : string) : tight s -> trim (s ++ " ") = s.
Proof.
  intros H. unfold trim. rewrite (tight_app_l s " " H), trimEnd_app_space.
  apply H.
Qed.

(** [trim] keeps a tight text at the head of a string. *)
Lemma trimEnd_keeps_prefix (p x : string) :
  p <> "" -> trimEnd p = p -> prefix p (trimEnd (p ++ x)) = true.
Proof.
  induction p as [|a p IH]; [contradiction|]. intros _ He.
  destruct p as [|b p].
  - assert (Ha : is_space a = false).
    { simpl in He. destruct (is_space a); [discriminate | reflexivity]. }
    cbn [append]. rewrite (trimEnd_cons_nonspace a x Ha). simpl.
    destruct (ascii_dec a a); [destruct (trimEnd x); reflexivity | congruence].
  - assert (Hp : trimEnd (String b p) = String b p).
    { change (trimEnd (String a (String b p)))
        with (match trimEnd (String b p) with
              | "" => if is_space a then "" else String a ""
              | kept => String a kept
              end) in He.
      destruct (trimEnd (String b p)) as [|c k].
      - destruct (is_space a); discriminate.
      - inversion He. reflexivity. }
    specialize (IH ltac:(discriminate) Hp).
    change ((String a (String b p)) ++ x) with (String a (String b p ++ x)).
    rewrite trimEnd_cons_kept.
    + simpl. destruct (ascii_dec a a); [exact IH | congruence].
    + intros E. rewrite E in IH. discriminate IH.
Qed.

Lemma trim_keeps_prefix (p x : string) :
  tight p -> prefix p (trim (p ++ x)) = true.
Proof.
  intros H. unfold trim. rewrite (tight_app_l p x H).
  apply trimEnd_keeps_prefix; apply H.
Qed.

(** Pieces written one after the other, each followed by a space, then
    trimmed: the pieces joined by single spaces. *)
Lemma spaced_pieces (ps : list string) :
  ps <> [] ->
  String.concat "" (map (fun p => p ++ " ") ps) = String.concat " " ps ++ " ".
Proof.
  induction ps as [|p ps IH]; [contradiction|]. intros _.
  destruct ps as [|q ps]; [reflexivity|].
  change (String.concat "" (map (fun p0 => p0 ++ " ") (p :: q :: ps)))
    with ((p ++ " ") ++ "" ++ String.concat "" (map (fun p0 => p0 ++ " ") (q :: ps))).
  rewrite IH by discriminate.
  change (String.concat " " (p :: q :: ps)) with (p ++ " " ++ String.concat " " (q :: ps)).
  rewrite !append_assoc. reflexivity.
Qed.

Lemma trim_spaced_pieces (ps : list string) :
  ps <> [] -> Forall tight ps ->
  trim (String.concat "" (map (fun p => p ++ " ") ps)) = String.concat " " ps.
Proof.
  intros Hn Ht. rewrite spaced_pieces by exact Hn.
  apply trim_tight_space, tight_concat; assumption.
Qed.

(** ** numberToWords *)

Section NumberToWords.
Import Invoice.

(** Below 1000 the words are those of [convertHundreds], which ends them
    with one space. *)
Lemma convertHundreds_below_1000 (n : Z) :
  0 < n < 1000 ->
  convertHundreds n = numberToWords n ++ " " /\ tight (numberToWords n).
Proof.
  intros Hn.
  assert (Hall :
    forallb (fun k => (convertHundreds k =? numberToWords k ++ " ")%string
                      && tightb (numberToWords k))
      (map Z.of_nat (seq 1 999)) = true) by (vm_compute; reflexivity).
  rewrite forallb_forall in Hall.
  specialize (Hall n).
  assert (Hin : In n (map Z.of_nat (seq 1 999))).
  { apply in_map_iff. exists (Z.to_nat n). split; [lia|]. apply in_seq. lia. }
  apply Hall in Hin. rewrite andb_true_iff in Hin. destruct Hin as [H1 H2].
  split; [apply String.eqb_eq, H1 | apply tightb_tight, H2].
Qed.

(** X11.  [numberToWords] has no words for a negative number: on every
    negative integer (in the range where the arithmetic of doubles is
    exact) it returns the empty string, not a text with a sign. *)
Theorem numberToWords_negative_is_empty :
  forall num : Z,
    - 9007199254740991 <= num < 0 ->
    numberToWords num = "".
Proof.
  intros num [_ Hneg]. unfold numberToWords.
  destruct (Z.eqb_spec num 0); [lia|].
  assert (R : forall d, 0 < d -> - d < Z.rem num d <= 0).
  { intros d Hd. pose proof (Z.rem_bound_neg_pos num d) as B.
    assert (Hr : - d < Z.rem num d <= 0); [|exact Hr].
    rewrite <- (Z.opp_involutive num), Z.rem_opp_l by lia.
    pose proof (Z.rem_bound_pos (- num) d ltac:(lia) Hd). lia. }
  assert (Q : forall a d, a <= 0 -> 0 < d -> a / d <= 0).
  { intros a d Ha Hd. apply Z.div_le_upper_bound; lia. }
  pose proof (Q num 10000000 ltac:(lia) ltac:(lia)) as Hc.
  pose proof (Q (Z.rem num 10000000) 100000
                (proj2 (R 10000000 ltac:(lia))) ltac:(lia)) as Hl.
  pose proof (Q (Z.rem num 100000) 1000
                (proj2 (R 100000 ltac:(lia))) ltac:(lia)) as Ht.
  pose proof (proj2 (R 1000 ltac:(lia))) as Hh.
  cbv zeta.
  destruct (Z.gtb_spec (num / 10000000) 0); [lia|].
  destruct (Z.gtb_spec (Z.rem num 10000000 / 100000) 0); [lia|].
  destruct (Z.gtb_spec (Z.rem num 100000 / 1000) 0); [lia|].
  destruct (Z.gtb_spec (Z.rem num 1000) 0); [lia|].
  reflexivity.
Qed.

Lemma numberToWords_negative_is_empty_witness : numberToWords (-5) = "".
Proof. apply (numberToWords_negative_is_empty (-5)). lia. Defined.

(** X12.  The words of [numberToWords] end below 2000 crore: from
    20,000,000,000 on, the hundreds of the crore count are looked up
    beyond the end of [ones], and the text starts with "undefined
    Hundred". *)
Theorem numberToWords_undefined_from_2000_crore :
  forall num : Z,
    20000000000 <= num <= 9007199254740991 ->
    prefix "undefined Hundred" (numberToWords num) = true.
Proof.
  intros num [Hbig _].
  assert (Hc : 2000 <= num / 10000000).
  { apply Z.div_le_lower_bound; lia. }
  assert (Hp : tight "undefined Hundred") by (apply tightb_tight; reflexivity).
  remember "undefined Hundred" as p eqn:Ep.
  assert (Hch : exists tail, convertHundreds (num / 10000000) = p ++ tail).
  { unfold convertHundreds.
    destruct (Z.geb_spec (num / 10000000) 100); [|lia].
    assert (Hw : word_at ones (num / 10000000 / 100) = "undefined").
    { unfold word_at.
      assert (Hq : 20 <= num / 10000000 / 100) by (apply Z.div_le_lower_bound; lia).
      destruct (Z.ltb_spec (num / 10000000 / 100) 0); [lia|].
      apply nth_overflow. simpl. lia. }
    rewrite Hw, Ep.
    destruct (Z.rem (num / 10000000) 100 >=? 20);
      destruct (_ >? 0); eexists; simpl; reflexivity. }
  destruct Hch as [tail Hch].
  unfold numberToWords.
  destruct (Z.eqb_spec num 0); [lia|]. cbv zeta.
  destruct (Z.gtb_spec (num / 10000000) 0); [|lia].
  rewrite Hch.
  destruct (_ >? 0); destruct (_ >? 0); destruct (_ >? 0);
    cbn [append]; rewrite ?append_assoc; apply trim_keeps_prefix, Hp.
Qed.

Lemma numberToWords_undefined_from_2000_crore_witness :
  prefix "undefined Hundred" (numberToWords 20000000000) = true.
Proof. apply (numberToWords_undefined_from_2000_crore 20000000000). lia. Defined.

Lemma group_tight (v : Z) (unit : string) :
  0 <= v < 1000 -> (unit = "" \/ exists name, unit = " " ++ name /\ tight name) ->
  Forall tight (group_in_words v unit).
Proof.
  intros Hv Hu. unfold group_in_words.
  destruct (Z.gtb_spec v 0); [|constructor].
  constructor; [|constructor].
  destruct (convertHundreds_below_1000 v ltac:(lia)) as [_ Ht].
  destruct Hu as [Hu|(name & Hu & Hname)]; subst unit.
  - rewrite append_nil_r. exact Ht.
  - apply tight_app; assumption.
Qed.

(** The text before [trim], group by group. *)
Lemma groups_before_trim (c l t h : Z) :
  0 <= c < 1000 -> 0 <= l < 1000 -> 0 <= t < 1000 -> 0 <= h < 1000 ->
  (let result := "" in
   let result := if c >? 0 then result ++ convertHundreds c ++ "Crore " else result in
   let result := if l >? 0 then result ++ convertHundreds l ++ "Lakh " else result in
   let result :=
     if t >? 0 then result ++ convertHundreds t ++ "Thousand " else result in
   let result := if h >? 0 then result ++ convertHundreds h else result in
   result)
  = String.concat ""
      (map (fun p => p ++ " ")
         (group_in_words c " Crore" ++ group_in_words l " Lakh"
          ++ group_in_words t " Thousand" ++ group_in_words h "")).
Proof.
  intros Hc Hl Ht Hh. cbv zeta. unfold group_in_words.
  destruct (Z.gtb_spec c 0) as [Pc|Zc];
    [rewrite (proj1 (convertHundreds_below_1000 c ltac:(lia)))|];
  (destruct (Z.gtb_spec l 0) as [Pl|Zl];
    [rewrite (proj1 (convertHundreds_below_1000 l ltac:(lia)))|]);
  (destruct (Z.gtb_spec t 0) as [Pt|Zt];
    [rewrite (proj1 (convertHundreds_below_1000 t ltac:(lia)))|]);
  (destruct (Z.gtb_spec h 0) as [Ph|Zh];
    [rewrite (proj1 (convertHundreds_below_1000 h ltac:(lia)))|]);
  cbn [app map String.concat];
  rewrite ?append_assoc, ?append_nil_r; cbn [append];
  rewrite ?append_assoc, ?append_nil_r; reflexivity.
Qed.

(** X13.  [numberToWords] follows the Indian grouping of digits.  For a
    positive number made of [c] crore (up to 999), [l] lakh, [t]
    thousand (each up to 99) and a rest [h] below 1000, the text is the
    words of each group that is not zero, followed by the name of its
    unit, the groups joined by single spaces, where the words of a group
    are what [numberToWords] gives on the group's own value. *)
Theorem numberToWords_by_groups :
  forall c l t h : Z,
    0 <= c < 1000 -> 0 <= l < 100 -> 0 <= t < 100 -> 0 <= h < 1000 ->
    0 < c * 10000000 + l * 100000 + t * 1000 + h ->
    numberToWords (c * 10000000 + l * 100000 + t * 1000 + h)
    = String.concat " "
        (group_in_words c " Crore" ++ group_in_words l " Lakh"
         ++ group_in_words t " Thousand" ++ group_in_words h "").
Proof.
  intros c l t h Hc Hl Ht Hh Hpos.
  set (num := c * 10000000 + l * 100000 + t * 1000 + h).
  assert (Ec : num / 10000000 = c).
  { symmetry. apply (Z.div_unique_pos num 10000000 c (l * 100000 + t * 1000 + h));
      unfold num; lia. }
  assert (El : Z.rem num 10000000 / 100000 = l).
  { rewrite Z.rem_mod_nonneg by (unfold num; lia).
    replace (num mod 10000000) with (l * 100000 + t * 1000 + h).
    - symmetry. apply (Z.div_unique_pos _ 100000 l (t * 1000 + h)); lia.
    - apply (Z.mod_unique_pos num 10000000 c); unfold num; lia. }
  assert (Et : Z.rem num 100000 / 1000 = t).
  { rewrite Z.rem_mod_nonneg by (unfold num; lia).
    replace (num mod 100000) with (t * 1000 + h).
    - symmetry. apply (Z.div_unique_pos _ 1000 t h); lia.
    - apply (Z.mod_unique_pos num 100000 (c * 100 + l)); unfold num; lia. }
  assert (Eh : Z.rem num 1000 = h).
  { rewrite Z.rem_mod_nonneg by (unfold num; lia).
    symmetry. apply (Z.mod_unique_pos num 1000 (c * 10000 + l * 100 + t));
      unfold num; lia. }
  unfold numberToWords.
  destruct (Z.eqb_spec num 0); [unfold num in *; lia|].
  rewrite Ec, El, Et, Eh.
  pose proof (groups_before_trim c l t h ltac:(lia) ltac:(lia) ltac:(lia) ltac:(lia))
    as G.
  cbv zeta in G. cbv zeta. rewrite G.
  apply trim_spaced_pieces.
  - unfold group_in_words.
    destruct (Z.gtb_spec c 0); [discriminate|].
    destruct (Z.gtb_spec l 0); [discriminate|].
    destruct (Z.gtb_spec t 0); [discriminate|].
    destruct (Z.gtb_spec h 0); [discriminate|]. lia.
  - assert (Tu : forall name, tightb name = true ->
                 " " ++ name = "" \/ exists n0, " " ++ name = " " ++ n0 /\ tight n0).
    { intros name Hn. right. exists name. split; [reflexivity|].
      apply tightb_tight, Hn. }
    repeat (apply Forall_app; split); apply group_tight; try lia.
    + apply (Tu "Crore"). reflexivity.
    + apply (Tu "Lakh"). reflexivity.
    + apply (Tu "Thousand"). reflexivity.
    + left. reflexivity.
Qed.

Lemma numberToWords_by_groups_witness :
  numberToWords (12 * 10000000 + 34 * 100000 + 56 * 1000 + 789)
  = String.concat " "
      (group_in_words 12 " Crore" ++ group_in_words 34 " Lakh"
       ++ group_in_words 56 " Thousand" ++ group_in_words 789 "").
Proof. apply (numberToWords_by_groups 12 34 56 789); lia. Defined.

End NumberToWords.

(** ** convertInvoiceNumber and convertCreditNoteNumber *)

Section SequenceNumbers.
Import Invoice.

Lemma digits_then_run (ds : string) (c : ascii) (rest : string) :
  all_chars is_digit ds = true -> is_digit c = false ->
  digits_then (ds ++ String c rest) = (ds, String c rest).
Proof.
  intros Hd Hc. induction ds as [|d ds IH]; simpl.
  - rewrite Hc. reflexivity.
  - simpl in Hd. rewrite andb_true_iff in Hd. destruct Hd as [H1 H2].
    rewrite H1, (IH H2). reflexivity.
Qed.

Lemma match_sequence_no_slash (s : string) :
  all_chars not_slash s = true -> match_sequence s = None.
Proof.
  induction s as [|c s IH]; simpl; [reflexivity|].
  rewrite andb_true_iff. unfold not_slash at 1. rewrite negb_true_iff.
  intros [H1 H2]. rewrite H1. apply IH, H2.
Qed.

Lemma match_sequence_found (unit seq rest : string) :
  all_chars not_slash unit = true ->
  seq <> "" -> all_chars is_digit seq = true ->
  match_sequence (unit ++ "/" ++ seq ++ "/" ++ rest) = Some seq.
Proof.
  intros Hu Hn Hd. induction unit as [|c unit IH].
  - cbn [append]. simpl match_sequence.
    change (seq ++ String "/" rest) with (seq ++ String "/" rest).
    rewrite (digits_then_run seq "/" rest Hd eq_refl).
    destruct seq as [|d ds]; [contradiction|]. reflexivity.
  - simpl in Hu. rewrite andb_true_iff in Hu. destruct Hu as [H1 H2].
    unfold not_slash in H1. rewrite negb_true_iff in H1.
    cbn [append]. simpl match_sequence. rewrite H1. apply IH, H2.
Qed.

(** X14.  The number conversions keep the sequence number of a document
    number.  For an invoice number made of a unit part without a slash, a
    slash, a non-empty run of digits, a slash and anything after it (as
    in "U-15/0009/2025-26"), [convertInvoiceNumber] gives "INV-", the
    year, the month on at least two digits and that run of digits, and
    [convertCreditNoteNumber] the same after "CRN-"; a number without
    any slash gets the sequence number "0001". *)
Theorem number_conversions_keep_sequence_number :
  forall (unit seq rest : string) (date : JsDate),
    all_chars not_slash unit = true ->
    seq <> "" ->
    all_chars is_digit seq = true ->
    convertInvoiceNumber (JStr (unit ++ "/" ++ seq ++ "/" ++ rest)) date
    = Ok ("INV-" ++ number_text (getFullYear date) ++ "-"
          ++ padStart 2 "0" (number_text (succ_number (getMonth date)))
          ++ "-" ++ seq)
    /\ convertCreditNoteNumber (JStr (unit ++ "/" ++ seq ++ "/" ++ rest)) date
       = Ok ("CRN-" ++ number_text (getFullYear date) ++ "-"
             ++ padStart 2 "0" (number_text (succ_number (getMonth date)))
             ++ "-" ++ seq)
    /\ convertInvoiceNumber (JStr unit) date
       = Ok ("INV-" ++ number_text (getFullYear date) ++ "-"
             ++ padStart 2 "0" (number_text (succ_number (getMonth date)))
             ++ "-" ++ "0001")
    /\ (2 <= String.length
               (padStart 2 "0" (number_text (succ_number (getMonth date)))))%nat.
Proof.
  intros unit seq rest date Hu Hn Hd.
  unfold convertInvoiceNumber, convertCreditNoteNumber, sequenceNumber.
  rewrite (match_sequence_found unit seq rest Hu Hn Hd).
  rewrite (match_sequence_no_slash unit Hu).
  repeat split.
  unfold padStart. rewrite length_append.
  assert (L : forall k, String.length (string_of_list_ascii (repeat "0"%char k)) = k).
  { induction k as [|k IHk]; simpl; [reflexivity|]. rewrite IHk. reflexivity. }
  rewrite L. lia.
Qed.

Lemma number_conversions_keep_sequence_number_witness :
  convertInvoiceNumber (JStr ("U-15" ++ "/" ++ "0009" ++ "/" ++ "2025-26"))
    (mkJsDate (Some 2025) (Some 10) (Some 3))
  = Ok ("INV-" ++ "2025" ++ "-" ++ "11" ++ "-" ++ "0009").
Proof.
  destruct (number_conversions_keep_sequence_number "U-15" "0009" "2025-26"
              (mkJsDate (Some 2025) (Some 10) (Some 3)))
    as (H & _); [reflexivity | discriminate | reflexivity |].
  exact H.
Defined.

End SequenceNumbers.

(** ** The order of the remote calls *)

Lemma in_order_no_calls (urls : list string) : in_order urls [] = true.
Proof. destruct urls; reflexivity. Qed.

Lemma in_order_drop_call (urls : list string) : forall (e : Event) (calls : list Event),
  in_order urls (e :: calls) = true -> in_order urls calls = true.
Proof.
  induction urls as [|u us IH]; intros e calls H; [discriminate H|].
  destruct calls as [|e2 c2]; [reflexivity|].
  simpl in H. simpl.
  destruct (fetched u e).
  - destruct (fetched u e2); [apply (IH e2), H | exact H].
  - apply IH in H. destruct (fetched u e2); [apply (IH e2), H | exact H].
Qed.

Lemma in_order_more_urls (u : string) (urls : list string) (calls : list Event) :
  in_order urls calls = true -> in_order (u :: urls) calls = true.
Proof.
  intros H. destruct calls as [|e c]; [reflexivity|]. simpl.
  destruct (fetched u e); [apply (in_order_drop_call urls e c H) | exact H].
Qed.

Lemma in_order_prepend (before urls : list string) (calls : list Event) :
  in_order urls calls = true -> in_order (before ++ urls) calls = true.
Proof.
  intros H. induction before as [|u before IH]; [exact H|].
  simpl. apply in_order_more_urls, IH.
Qed.

Lemma in_order_app (urls1 : list string) : forall (urls2 : list string)
  (calls1 calls2 : list Event),
  in_order urls1 calls1 = true -> in_order urls2 calls2 = true ->
  in_order (urls1 ++ urls2) (calls1 ++ calls2) = true.
Proof.
  induction urls1 as [|u us IH]; intros urls2 calls1 calls2 H1 H2.
  - destruct calls1; [exact H2 | discriminate H1].
  - destruct calls1 as [|e c1].
    + simpl app. apply (in_order_prepend (u :: us)), H2.
    + simpl in H1. simpl. destruct (fetched u e).
      * apply IH; assumption.
      * apply (IH urls2 (e :: c1) calls2); assumption.
Qed.

Lemma Calls_bind {A B : Type} (urls1 urls2 : list string) (m : M A) (f : A -> M B) :
  Calls urls1 m -> (forall a, Calls urls2 (f a)) -> Calls (urls1 ++ urls2) (bind m f).
Proof.
  intros Hm Hf w. unfold bind. destruct (Hm w) as (evs & He & Ho).
  destruct (m w) as [[a|r|e] w']; simpl in *.
  - destruct (Hf a w') as (evs' & He' & Ho').
    exists (evs ++ evs')%list. split.
    + rewrite He', He, app_assoc. reflexivity.
    + rewrite remote_calls_app. apply in_order_app; assumption.
  - exists evs. split; [exact He|].
    rewrite <- (app_nil_r (remote_calls evs)).
    apply in_order_app; [exact Ho | apply in_order_no_calls].
  - exists evs. split; [exact He|].
    rewrite <- (app_nil_r (remote_calls evs)).
    apply in_order_app; [exact Ho | apply in_order_no_calls].
Qed.

Lemma Calls_stores {A : Type} (urls : list string) (m : M A) :
  Emits is_store m -> Calls urls m.
Proof.
  intros H w. destruct (H w) as (evs & He & Hs). exists evs. split; [exact He|].
  rewrite (remote_calls_stores evs Hs). apply in_order_no_calls.
Qed.

Lemma Calls_fetch (url : string) (headers : list (string * JsVal)) (body : JsVal)
  (answer : Res HttpResponse) :
  Calls [url] (fetch url headers body answer).
Proof.
  intros w. exists [EvFetch url headers body]. split.
  - unfold fetch, bind, emit, lift. destruct answer; reflexivity.
  - unfold remote_calls. simpl. rewrite String.eqb_refl. reflexivity.
Qed.

Lemma Emits_readCache {A : Type} (allowed : Event -> bool) (f : TokenCache.Cache -> A) :
  Emits allowed (readCache f).
Proof. apply Silent_Emits, Silent_readCache. Qed.

Section CallOrder.

Variable JSON_stringify : JsVal -> JsVal.
Variable Number : JsVal -> JsVal.
Variable newDate : JsVal -> JsVal.
Variable js_add : JsVal -> JsVal -> JsVal.
Variable js_ge : JsVal -> JsVal -> bool.
Variable buildInvoiceData :
  JsVal -> JsVal -> JsVal -> option DbResult -> JsVal -> JsVal -> Res JsVal.
Variable env : Env.

Lemma Emits_transportFailure {A : Type} (allowed : Event -> bool) (title : string)
  (keys : list string) (r : HttpResponse) :
  Emits allowed (@GenerateIrn.transportFailure env A title keys r).
Proof. apply Silent_Emits, Silent_transportFailure. Qed.

Lemma generate_ensureAccessToken_calls :
  Calls [AUTHENTICATE_URL] (GenerateIrn.ensureAccessToken env).
Proof.
  unfold GenerateIrn.ensureAccessToken.
  apply (Calls_bind [] [AUTHENTICATE_URL]).
  { apply Calls_stores, Emits_readCache. }
  intros cached. destruct (truthy cached).
  { apply Calls_stores, Silent_Emits, Silent_ret. }
  apply (Calls_bind [AUTHENTICATE_URL] []); [apply Calls_fetch|].
  intros authResponse. apply Calls_stores.
  emits_with reflexivity; apply Emits_transportFailure.
Qed.

Lemma generate_ensureAuthData_calls (accessToken : JsVal) :
  Calls [ENHANCED_AUTHENTICATION_URL] (GenerateIrn.ensureAuthData env accessToken).
Proof.
  unfold GenerateIrn.ensureAuthData.
  apply (Calls_bind [] [ENHANCED_AUTHENTICATION_URL]).
  { apply Calls_stores, Emits_readCache. }
  intros cached. destruct (truthy cached); [apply Calls_stores, Silent_Emits, Silent_ret|].
  apply (Calls_bind [] [ENHANCED_AUTHENTICATION_URL]).
  { apply Calls_stores, Emits_readCache. }
  intros forceRefresh.
  apply (Calls_bind [ENHANCED_AUTHENTICATION_URL] []); [apply Calls_fetch|].
  intros response. apply Calls_stores.
  emits_with reflexivity; apply Emits_transportFailure.
Qed.

Lemma generate_generateIrn_calls (accessToken authData document : JsVal) :
  Calls [GENERATE_IRN_URL]
    (GenerateIrn.generateIrn JSON_stringify env accessToken authData document).
Proof.
  unfold GenerateIrn.generateIrn.
  apply (Calls_bind [GENERATE_IRN_URL] []); [apply Calls_fetch|].
  intros response. apply Calls_stores.
  emits_with reflexivity; apply Emits_transportFailure.
Qed.

Lemma generate_handlerBody_calls :
  Calls [AUTHENTICATE_URL; ENHANCED_AUTHENTICATION_URL; GENERATE_IRN_URL]
    (GenerateIrn.handlerBody JSON_stringify Number newDate js_add js_ge
       buildInvoiceData env).
Proof.
  unfold GenerateIrn.handlerBody.
  apply (Calls_bind [] [AUTHENTICATE_URL; ENHANCED_AUTHENTICATION_URL; GENERATE_IRN_URL]).
  { apply Calls_stores, prepare_stores. }
  intros prepared.
  apply (Calls_bind [AUTHENTICATE_URL; ENHANCED_AUTHENTICATION_URL; GENERATE_IRN_URL] []).
  - unfold GenerateIrn.obtainIrn.
    destruct (negb _).
    + apply (Calls_bind [AUTHENTICATE_URL]
               [ENHANCED_AUTHENTICATION_URL; GENERATE_IRN_URL]).
      { apply generate_ensureAccessToken_calls. }
      intros accessToken.
      apply (Calls_bind [ENHANCED_AUTHENTICATION_URL] [GENERATE_IRN_URL]).
      { apply generate_ensureAuthData_calls. }
      intros authData. apply generate_generateIrn_calls.
    + apply Calls_stores, Silent_Emits, Silent_ret.
  - intros irnData. apply Calls_stores, persistAndAnswer_stores.
Qed.

Lemma cancel_handlerBody_calls :
  Calls [AUTHENTICATE_URL; ENHANCED_AUTHENTICATION_URL; CANCEL_IRN_URL]
    (CancelIrn.handlerBody env).
Proof.
  unfold CancelIrn.handlerBody. cbv zeta.
  apply (Calls_bind [] [AUTHENTICATE_URL; ENHANCED_AUTHENTICATION_URL; CANCEL_IRN_URL]).
  { apply Calls_stores, validate_stores. }
  intros _.
  apply (Calls_bind [AUTHENTICATE_URL] [ENHANCED_AUTHENTICATION_URL; CANCEL_IRN_URL]).
  { unfold CancelIrn.ensureAccessToken, CancelIrn.answer.
    apply (Calls_bind [] [AUTHENTICATE_URL]).
    { apply Calls_stores, Emits_readCache. }
    intros cached.
    destruct (truthy cached); [apply Calls_stores, Silent_Emits, Silent_ret|].
    apply (Calls_bind [AUTHENTICATE_URL] []); [apply Calls_fetch|].
    intros response. apply Calls_stores. emits_with reflexivity. }
  intros accessToken.
  apply (Calls_bind [ENHANCED_AUTHENTICATION_URL] [CANCEL_IRN_URL]).
  { unfold CancelIrn.ensureAuthData, CancelIrn.answer.
    apply (Calls_bind [] [ENHANCED_AUTHENTICATION_URL]).
    { apply Calls_stores, Emits_readCache. }
    intros cached.
    destruct (truthy cached); [apply Calls_stores, Silent_Emits, Silent_ret|].
    apply (Calls_bind [] [ENHANCED_AUTHENTICATION_URL]).
    { apply Calls_stores, Emits_readCache. }
    intros forceRefresh.
    apply (Calls_bind [ENHANCED_AUTHENTICATION_URL] []); [apply Calls_fetch|].
    intros response. apply Calls_stores. emits_with reflexivity. }
  intros authData.
  apply (Calls_bind [CANCEL_IRN_URL] []).
  { unfold CancelIrn.cancelIrn.
    apply (Calls_bind [CANCEL_IRN_URL] []); [apply Calls_fetch|].
    intros response. apply Calls_stores, Silent_Emits, Silent_lift. }
  intros cancelData. apply Calls_stores, recordCancellation_stores.
Qed.

End CallOrder.

Lemma handle_events (m : M Response) (onError : JsVal -> Response) (w : World) :
  snd (handle m onError w) = snd (m w).
Proof. unfold handle. destruct (m w) as [[r|r|e] w']; reflexivity. Qed.

(** X15.  In every request to the generate-IRN or the cancel-IRN
    handler, whatever the cache holds and whatever the data store and
    the e-invoice API answer, each endpoint is called at most once and
    the calls come in the order authenticate, enhanced authentication,
    then the operation itself (generate-irn or cancel-irn); no other URL
    is called. *)
Theorem remote_calls_in_order :
  forall (JSON_stringify Number newDate : JsVal -> JsVal)
         (js_add : JsVal -> JsVal -> JsVal) (js_ge : JsVal -> JsVal -> bool)
         (buildInvoiceData :
            JsVal -> JsVal -> JsVal -> option DbResult -> JsVal -> JsVal -> Res JsVal)
         (op : Operation) (env : Env) (c : TokenCache.Cache),
    in_order [AUTHENTICATE_URL; ENHANCED_AUTHENTICATION_URL; target_url op]
      (remote_calls
         (events (snd (invoke JSON_stringify Number newDate js_add js_ge
                         buildInvoiceData op env c)))) = true.
Proof.
  intros JSON_stringify Number newDate js_add js_ge buildInvoiceData op env c.
  destruct op; unfold invoke, generateHandler, GenerateIrn.handler, CancelIrn.handler;
    rewrite handle_events.
  - destruct (generate_handlerBody_calls JSON_stringify Number newDate js_add js_ge
                buildInvoiceData env (request c)) as (evs & He & Ho).
    rewrite He. exact Ho.
  - destruct (cancel_handlerBody_calls env (request c)) as (evs & He & Ho).
    rewrite He. exact Ho.
Qed.

(** ** The status codes of the answers *)

Lemma Answers_fetch (accepted : Response -> bool) (url : string)
  (headers : list (string * JsVal)) (body : JsVal) (answer : Res HttpResponse) :
  Answers accepted (fetch url headers body answer).
Proof.
  intros w r w' H. unfold fetch, bind, emit, lift in H.
  destruct answer; discriminate H.
Qed.

Lemma Answers_readCache {A : Type} (accepted : Response -> bool)
  (f : TokenCache.Cache -> A) :
  Answers accepted (readCache f).
Proof. intros w r w' H. discriminate H. Qed.

Lemma Answers_writeCache (accepted : Response -> bool)
  (f : TokenCache.Cache -> TokenCache.Cache) :
  Answers accepted (writeCache f).
Proof. intros w r w' H. discriminate H. Qed.

Lemma Finishes_ret (accepted : Response -> bool) (r : Response) :
  accepted r = true -> Finishes accepted (ret r).
Proof. intros Ha w r' w' [H|H]; inversion H; subst; exact Ha. Qed.

Lemma Finishes_respond (accepted : Response -> bool) (code : Z) (v : JsVal) :
  accepted (mkResponse code v) = true -> Finishes accepted (respond code v).
Proof. intros Ha w r' w' [H|H]; inversion H; subst; exact Ha. Qed.

Lemma Finishes_bind {A : Type} (accepted : Response -> bool) (m : M A)
  (f : A -> M Response) :
  Answers accepted m -> (forall a, Finishes accepted (f a)) ->
  Finishes accepted (bind m f).
Proof.
  intros Hm Hf w r w' H. unfold bind in H.
  destruct (m w) as [[a|r0|e] w0] eqn:E.
  - eapply Hf; exact H.
  - destruct H as [H|H]; inversion H; subst. eapply Hm; exact E.
  - destruct H as [H|H]; discriminate H.
Qed.

Lemma handle_accepts (accepted : Response -> bool) (m : M Response)
  (onError : JsVal -> Response) (w : World) :
  Finishes accepted m -> (forall e, accepted (onError e) = true) ->
  accepted (fst (handle m onError w)) = true.
Proof.
  intros Hm He. unfold handle. destruct (m w) as [[r|r|e] w'] eqn:E; simpl.
  - eapply Hm. left. exact E.
  - eapply Hm. right. exact E.
  - apply He.
Qed.

(** Early answers of a composite computation, calls to the outside and
    cache accesses included. *)
Ltac answers_all :=
  repeat first
    [ apply Answers_ret | apply Answers_lift | apply Answers_store
    | apply Answers_fetch | apply Answers_readCache | apply Answers_writeCache
    | apply Answers_respond; reflexivity
    | apply Answers_bind; [|intros ?]
    | split_computation ].

Ltac finishes :=
  repeat first
    [ apply Finishes_ret; reflexivity
    | apply Finishes_respond; reflexivity
    | apply Finishes_bind; [solve [answers_all]|intros ?]
    | split_computation ].

Section StatusCodes.

Variable JSON_stringify : JsVal -> JsVal.
Variable Number : JsVal -> JsVal.
Variable newDate : JsVal -> JsVal.
Variable js_add : JsVal -> JsVal -> JsVal.
Variable js_ge : JsVal -> JsVal -> bool.
Variable buildInvoiceData :
  JsVal -> JsVal -> JsVal -> option DbResult -> JsVal -> JsVal -> Res JsVal.
Variable env : Env.

Lemma Answers_transportFailure {A : Type} (accepted : Response -> bool)
  (title : string) (keys : list string) (r : HttpResponse) :
  (forall v, accepted (mkResponse 400 v) = true) ->
  Answers accepted (@GenerateIrn.transportFailure env A title keys r).
Proof.
  intros H. unfold GenerateIrn.transportFailure.
  apply Answers_bind.
  - answers_all.
  - intros errorMessage. apply Answers_respond, H.
Qed.

Lemma obtainIrn_answers (accepted : Response -> bool) (body document : JsVal) :
  (forall v, accepted (mkResponse 400 v) = true) ->
  Answers accepted (GenerateIrn.obtainIrn JSON_stringify env body document).
Proof.
  intros H.
  unfold GenerateIrn.obtainIrn, GenerateIrn.ensureAccessToken,
    GenerateIrn.ensureAuthData, GenerateIrn.generateIrn.
  repeat first
    [ apply Answers_ret | apply Answers_lift | apply Answers_store
    | apply Answers_fetch | apply Answers_readCache | apply Answers_writeCache
    | apply Answers_respond; apply H
    | apply Answers_transportFailure; exact H
    | apply Answers_bind; [|intros ?]
    | split_computation ].
Qed.

Lemma persistAndAnswer_finishes (accepted : Response -> bool)
  (body u c n d irnData : JsVal) :
  (forall v, accepted (mkResponse 200 v) = true) ->
  (forall v, accepted (mkResponse 500 v) = true) ->
  Finishes accepted
    (GenerateIrn.persistAndAnswer Number newDate js_add js_ge env body u c n d irnData).
Proof.
  intros H200 H500. unfold GenerateIrn.persistAndAnswer, GenerateIrn.syncOrder.
  repeat first
    [ apply Finishes_ret; apply H200
    | apply Finishes_respond; apply H500
    | apply Finishes_bind; [solve [answers_all]|intros ?]
    | split_computation ].
Qed.

Lemma cancel_after_validation_finishes (accepted : Response -> bool) :
  (forall v, accepted (mkResponse 200 v) = true) ->
  (forall v, accepted (mkResponse 500 v) = true) ->
  forall body : JsVal,
  Finishes accepted
    (bind (CancelIrn.ensureAccessToken env) (fun accessToken =>
     bind (CancelIrn.ensureAuthData env accessToken) (fun authData =>
     bind (CancelIrn.cancelIrn env accessToken authData (prop_opt body "irn")
             (prop_opt body "cancel_reason_code") (prop_opt body "cancel_reason"))
       (fun cancelData =>
          CancelIrn.recordCancellation env (prop_opt body "invoice_no")
            (prop_opt body "irn") (prop_opt body "cancel_reason_code")
            (prop_opt body "cancel_reason") cancelData)))).
Proof.
  intros H200 H500 body.
  unfold CancelIrn.ensureAccessToken, CancelIrn.ensureAuthData, CancelIrn.cancelIrn,
    CancelIrn.recordCancellation, CancelIrn.answer.
  apply Finishes_bind.
  { repeat first
      [ apply Answers_ret | apply Answers_lift | apply Answers_fetch
      | apply Answers_readCache | apply Answers_writeCache
      | apply Answers_respond; apply H200
      | apply Answers_bind; [|intros ?]
      | split_computation ]. }
  intros accessToken. apply Finishes_bind.
  { repeat first
      [ apply Answers_ret | apply Answers_lift | apply Answers_fetch
      | apply Answers_readCache | apply Answers_writeCache
      | apply Answers_respond; apply H200
      | apply Answers_bind; [|intros ?]
      | split_computation ]. }
  intros authData. apply Finishes_bind; [answers_all|].
  intros cancelData.
  repeat first
    [ apply Finishes_ret; apply H200
    | apply Finishes_respond; apply H500
    | apply Finishes_bind; [solve [answers_all]|intros ?]
    | split_computation ].
Qed.

End StatusCodes.

(** X16.  The generate-IRN and the cancel-IRN handler answer every
    request, whatever the cache, the data store and the e-invoice API
    do, with one of the status codes 200, 400, 404 and 500; and a 404
    (customer, invoice or unit not found) is answered before any call to
    the e-invoice API. *)
Theorem handlers_answer_with_four_status_codes :
  forall (JSON_stringify Number newDate : JsVal -> JsVal)
         (js_add : JsVal -> JsVal -> JsVal) (js_ge : JsVal -> JsVal -> bool)
         (buildInvoiceData :
            JsVal -> JsVal -> JsVal -> option DbResult -> JsVal -> JsVal -> Res JsVal)
         (op : Operation) (env : Env) (c : TokenCache.Cache),
    let result :=
      invoke JSON_stringify Number newDate js_add js_ge buildInvoiceData op env c in
    status_among [200; 400; 404; 500] (fst result) = true
    /\ (status_code (fst result) = 404 -> remote_calls (events (snd result)) = []).
Proof.
  intros JSON_stringify Number newDate js_add js_ge buildInvoiceData op env c result.
  subst result.
  destruct op; unfold invoke, generateHandler, GenerateIrn.handler, CancelIrn.handler.
  - (* generate *)
    unfold GenerateIrn.handlerBody.
    destruct (emits_world is_store (GenerateIrn.prepare Number buildInvoiceData env)
                (request c) (prepare_stores Number buildInvoiceData env)
                (prepare_keeps_cache Number buildInvoiceData env))
      as (s0 & evs0 & Hp & Hs0).
    simpl in Hp.
    assert (Hprep : Answers (status_among [200; 400; 404; 500])
                      (GenerateIrn.prepare Number buildInvoiceData env)).
    { unfold GenerateIrn.prepare. answers_all. }
    destruct s0 as [p|r|e].
    + assert (Hrest : forall accepted : Response -> bool,
                (forall v, accepted (mkResponse 200 v) = true) ->
                (forall v, accepted (mkResponse 400 v) = true) ->
                (forall v, accepted (mkResponse 500 v) = true) ->
                accepted (fst (handle
                   (bind (GenerateIrn.prepare Number buildInvoiceData env)
                      (fun prepared =>
                       bind (GenerateIrn.obtainIrn JSON_stringify env (req_body env)
                               (GenerateIrn.invoiceData prepared))
                         (fun irnData =>
                          GenerateIrn.persistAndAnswer Number newDate js_add js_ge env
                            (req_body env) (GenerateIrn.unitId prepared)
                            (GenerateIrn.customerId prepared)
                            (GenerateIrn.invoice_no prepared)
                            (GenerateIrn.invoiceData prepared) irnData)))
                   GenerateIrn.onError (request c))) = true).
      { intros accepted H200 H400 H500.
        unfold handle. rewrite (bind_next _ _ _ _ _ Hp).
        match goal with
        | |- accepted (fst (let (s, w') := ?m ?w in _)) = true =>
            assert (Hf : Finishes accepted m);
            [ apply Finishes_bind;
              [ apply obtainIrn_answers; exact H400
              | intros irnData; apply persistAndAnswer_finishes; assumption ]
            | destruct (m w) as [[r|r|e] w'] eqn:E; simpl;
              [ eapply Hf; left; exact E | eapply Hf; right; exact E | apply H500 ] ]
        end. }
      split.
      * apply (Hrest (status_among [200; 400; 404; 500])); intros v; reflexivity.
      * intros H404. exfalso.
        pose proof (Hrest (fun r => negb (status_code r =? 404))
                      (fun _ => eq_refl) (fun _ => eq_refl) (fun _ => eq_refl)) as Hn.
        simpl in Hn. rewrite H404 in Hn. discriminate Hn.
    + rewrite (handle_eq _ _ _ _ _ (bind_respond _ _ _ _ _ Hp)). simpl. split.
      * eapply Hprep. exact Hp.
      * intros _. apply remote_calls_stores, Hs0.
    + rewrite (handle_eq _ _ _ _ _ (bind_raise _ _ _ _ _ Hp)). simpl. split.
      * reflexivity.
      * intros H; discriminate H.
  - (* cancel *)
    unfold CancelIrn.handlerBody. cbv zeta.
    destruct (emits_world is_store (CancelIrn.validate env) (request c)
                (validate_stores env) (validate_keeps_cache env))
      as (s0 & evs0 & Hp & Hs0).
    simpl in Hp.
    assert (Hval : Answers (status_among [200; 400; 404; 500]) (CancelIrn.validate env)).
    { unfold CancelIrn.validate, CancelIrn.failure. answers_all. }
    destruct s0 as [[]|r|e].
    + assert (Hrest : forall accepted : Response -> bool,
                (forall v, accepted (mkResponse 200 v) = true) ->
                (forall v, accepted (mkResponse 500 v) = true) ->
                accepted (fst (handle
                   (bind (CancelIrn.validate env) (fun _ =>
                    bind (CancelIrn.ensureAccessToken env) (fun accessToken =>
                    bind (CancelIrn.ensureAuthData env accessToken) (fun authData =>
                    bind (CancelIrn.cancelIrn env accessToken authData
                            (prop_opt (req_body env) "irn")
                            (prop_opt (req_body env) "cancel_reason_code")
                            (prop_opt (req_body env) "cancel_reason"))
                      (fun cancelData =>
                         CancelIrn.recordCancellation env
                           (prop_opt (req_body env) "invoice_no")
                           (prop_opt (req_body env) "irn")
                           (prop_opt (req_body env) "cancel_reason_code")
                           (prop_opt (req_body env) "cancel_reason") cancelData)))))
                   CancelIrn.onError (request c))) = true).
      { intros accepted H200 H500.
        unfold handle. rewrite (bind_next _ _ _ _ _ Hp).
        pose proof (cancel_after_validation_finishes env accepted H200 H500
                      (req_body env)) as Hf.
        match goal with
        | |- accepted (fst (let (s, w') := ?m ?w in _)) = true =>
            destruct (m w) as [[r|r|e] w'] eqn:E; simpl;
              [ eapply Hf; left; exact E | eapply Hf; right; exact E | apply H500 ]
        end. }
      split.
      * apply (Hrest (status_among [200; 400; 404; 500])); intros v; reflexivity.
      * intros H404. exfalso.
        pose proof (Hrest (fun r => negb (status_code r =? 404))
                      (fun _ => eq_refl) (fun _ => eq_refl)) as Hn.
        simpl in Hn. rewrite H404 in Hn. discriminate Hn.
    + rewrite (handle_eq _ _ _ _ _ (bind_respond _ _ _ _ _ Hp)). simpl. split.
      * eapply Hval. exact Hp.
      * intros _. apply remote_calls_stores, Hs0.
    + rewrite (handle_eq _ _ _ _ _ (bind_raise _ _ _ _ _ Hp)). simpl. split.
      * reflexivity.
      * intros H; discriminate H.
Qed.

(** X17.  When one of the five required environment variables is unset
    or empty, the generate-IRN handler answers 500 "IRN Generation
    Failed - Configuration Error", naming exactly the variables that are
    missing, and does nothing else: no query to the data store, no call
    to the e-invoice API, no change of the cache. *)
Theorem missing_configuration_stops_request :
  forall (JSON_stringify Number newDate : JsVal -> JsVal)
         (js_add : JsVal -> JsVal -> JsVal) (js_ge : JsVal -> JsVal -> bool)
         (buildInvoiceData :
            JsVal -> JsVal -> JsVal -> option DbResult -> JsVal -> JsVal -> Res JsVal)
         (env : Env) (c : TokenCache.Cache),
    GenerateIrn.missingEnvVars env <> [] ->
    generateHandler JSON_stringify Number newDate js_add js_ge buildInvoiceData
      env (request c)
    = (mkResponse 500
         (JObj [ ("error", JStr "IRN Generation Failed - Configuration Error");
                 ("details",
                  JStr ("Missing environment variables: "
                        ++ String.concat ", " (GenerateIrn.missingEnvVars env))) ]),
       request c)
    /\ (forall name,
           In name (GenerateIrn.missingEnvVars env)
           <-> In name [ "EINVOICE_CLIENT_ID"; "EINVOICE_CLIENT_SECRET";
                         "EINVOICE_USERNAME"; "EINVOICE_PASSWORD"; "GSTIN" ]
               /\ truthy (process_env env name) = false).
Proof.
  intros JSON_stringify Number newDate js_add js_ge buildInvoiceData env c Hmissing.
  split.
  - unfold generateHandler, GenerateIrn.handler, handle, GenerateIrn.handlerBody,
      GenerateIrn.prepare.
    destruct (GenerateIrn.missingEnvVars env) as [|name names] eqn:E;
      [contradiction|].
    reflexivity.
  - intros name. unfold GenerateIrn.missingEnvVars, GenerateIrn.requiredEnvVars.
    rewrite filter_In, negb_true_iff. reflexivity.
Qed.

Lemma missing_configuration_stops_request_witness :
  snd (generateHandler sample_stringify sample_Number sample_newDate sample_add
         sample_ge sample_build
         (mkEnv billing_body (fun _ => JUndefined) JNull 0 0 0 0 0
            (found JNull) (found JNull) (found JNull) (found JNull) (found JNull)
            (found JNull) (found JNull) (found JNull) (found JNull) (found JNull)
            (found JNull) authenticated enhanced_authenticated irn_generated
            irn_cancelled)
         (request TokenCache.cache0))
  = request TokenCache.cache0.
Proof.
  destruct (missing_configuration_stops_request
              sample_stringify sample_Number sample_newDate sample_add sample_ge
              sample_build
              (mkEnv billing_body (fun _ => JUndefined) JNull 0 0 0 0 0
                 (found JNull) (found JNull) (found JNull) (found JNull) (found JNull)
                 (found JNull) (found JNull) (found JNull) (found JNull) (found JNull)
                 (found JNull) authenticated enhanced_authenticated irn_generated
                 irn_cancelled)
              TokenCache.cache0) as [H _].
  - discriminate.
  - rewrite H. reflexivity.
Defined.

(** ** What an inserted invoice row tells *)

Lemma bind_next_inv {A B : Type} (m : M A) (f : A -> M B) (w w' : World) (b : B) :
  bind m f w = (Next b, w') ->
  exists a w1, m w = (Next a, w1) /\ f a w1 = (Next b, w').
Proof.
  unfold bind. destruct (m w) as [[a|r|e] w1]; intros H; try discriminate H.
  exists a, w1. split; [reflexivity | exact H].
Qed.

Lemma truthy_prop_object (v : JsVal) (k : string) :
  truthy (prop_opt v k) = true -> exists fields, v = JObj fields.
Proof.
  unfold prop_opt. destruct v; simpl; intros H; try discriminate H.
  eexists; reflexivity.
Qed.

Section InsertedRow.

Variable JSON_stringify : JsVal -> JsVal.
Variable Number : JsVal -> JsVal.
Variable newDate : JsVal -> JsVal.
Variable js_add : JsVal -> JsVal -> JsVal.
Variable js_ge : JsVal -> JsVal -> bool.
Variable buildInvoiceData :
  JsVal -> JsVal -> JsVal -> option DbResult -> JsVal -> JsVal -> Res JsVal.
Variable env : Env.

Lemma transportFailure_not_next {A : Type} (title : string) (keys : list string)
  (r : HttpResponse) (w w' : World) (a : A) :
  @GenerateIrn.transportFailure env A title keys r w <> (Next a, w').
Proof.
  unfold GenerateIrn.transportFailure, bind, lift, ret, respond.
  destruct (match contentType r with
            | Some ct => includes "application/json" ct
            | None => false
            end).
  - destruct (json r) as [j|e]; [|discriminate].
    destruct (GenerateIrn.first_truthy j keys _); discriminate.
  - discriminate.
Qed.

(** Step 3 goes on only with a parsed answer whose [Irn] is truthy. *)
Lemma generateIrn_next (accessToken authData document irnData : JsVal) (w w' : World) :
  GenerateIrn.generateIrn JSON_stringify env accessToken authData document w
  = (Next irnData, w') ->
  exists r,
    fetch_generate_irn env = Ok r /\ ok r = true /\ json r = Ok irnData
    /\ truthy (prop_opt irnData "Irn") = true.
Proof.
  unfold GenerateIrn.generateIrn, fetch. intros H.
  apply bind_next_inv in H. destruct H as (r & w1 & Hf & H).
  apply bind_next_inv in Hf. destruct Hf as ([] & w0 & _ & Hf).
  unfold lift in Hf. destruct (fetch_generate_irn env) as [r0|e]; [|discriminate Hf].
  inversion Hf; subst r0 w1. exists r. split; [reflexivity|].
  destruct (ok r); cbn [negb] in H.
  2:{ exfalso. exact (transportFailure_not_next _ _ _ _ _ _ H). }
  split; [reflexivity|].
  apply bind_next_inv in H. destruct H as (j & w2 & Hj & H).
  unfold lift in Hj. destruct (json r) as [j0|e]; [|discriminate Hj].
  inversion Hj; subst j0 w2.
  apply bind_next_inv in H. destruct H as (irn & w3 & Hi & H).
  unfold lift in Hi. destruct (prop j "Irn") as [irn0|e] eqn:Ep; [|discriminate Hi].
  inversion Hi; subst irn0 w3.
  assert (Eo : prop_opt j "Irn" = irn) by (unfold prop_opt; rewrite Ep; reflexivity).
  destruct (truthy irn) eqn:Ht; cbn [negb] in H.
  - unfold ret in H. inversion H as [[Hj' Hw']]. rewrite <- Hj'.
    split; [reflexivity|]. rewrite Eo. exact Ht.
  - exfalso. apply bind_next_inv in H. destruct H as (x & w4 & _ & H).
    discriminate H.
Qed.

Lemma obtainIrn_next (document irnData : JsVal) (w w' : World) :
  js_strict_eq (prop_opt (req_body env) "invoice_type") (JStr "NON BILLING") = false ->
  GenerateIrn.obtainIrn JSON_stringify env (req_body env) document w
  = (Next irnData, w') ->
  exists r,
    fetch_generate_irn env = Ok r /\ ok r = true /\ json r = Ok irnData
    /\ truthy (prop_opt irnData "Irn") = true.
Proof.
  intros Hb. unfold GenerateIrn.obtainIrn. rewrite Hb. cbn [negb]. intros H.
  apply bind_next_inv in H. destruct H as (tok & w1 & _ & H).
  apply bind_next_inv in H. destruct H as (ad & w2 & _ & H).
  exact (generateIrn_next _ _ _ _ _ _ H).
Qed.

(** The IRN fields of the row, once IRN data is there. *)
Lemma insert_row_with_irn (body u n d irnData : JsVal) :
  truthy irnData = true ->
  exists fields,
    GenerateIrn.invoiceInsertData Number newDate body u n d irnData = JObj fields
    /\ assoc "irn" fields = Some (prop_opt irnData "Irn")
    /\ assoc "qrcode" fields = Some (prop_opt irnData "SignedQRCode")
    /\ assoc "ack_no" fields = Some (prop_opt irnData "AckNo")
    /\ assoc "einvoice_status" fields = Some (JStr "GENERATED").
Proof.
  intros Ht. unfold GenerateIrn.invoiceInsertData, GenerateIrn.irnFields.
  rewrite Ht. eexists. split; [reflexivity|].
  unfold obj_extend. cbn [app fold_left fst snd].
  repeat split; rewrite !assoc_obj_set; reflexivity.
Qed.

(** The one insert among the events of a request. *)
Lemma generate_inserted_row (c : TokenCache.Cache) (row : JsVal) :
  In (EvStore "invoices.insert" row)
     (events (snd (generateHandler JSON_stringify Number newDate js_add js_ge
                     buildInvoiceData env (request c)))) ->
  exists p irnData w1 w2,
    GenerateIrn.prepare Number buildInvoiceData env (request c) = (Next p, w1)
    /\ GenerateIrn.obtainIrn JSON_stringify env (req_body env)
         (GenerateIrn.invoiceData p) w1 = (Next irnData, w2)
    /\ row = GenerateIrn.invoiceInsertData Number newDate (req_body env)
               (GenerateIrn.unitId p) (GenerateIrn.invoice_no p)
               (GenerateIrn.invoiceData p) irnData.
Proof.
  intros Hin.
  unfold generateHandler, GenerateIrn.handler in Hin. rewrite handle_events in Hin.
  unfold GenerateIrn.handlerBody in Hin.
  destruct (emits_world other_store
              (GenerateIrn.prepare Number buildInvoiceData env) (request c)
              (prepare_other_stores Number buildInvoiceData env)
              (prepare_keeps_cache Number buildInvoiceData env))
    as (s0 & evs0 & Hp & Hs0).
  simpl in Hp. destruct (other_store_split _ Hs0) as [_ Hn0].
  assert (Hno : forall evs, forallb not_invoice_insert evs = true ->
                            ~ In (EvStore "invoices.insert" row) evs).
  { intros evs Hf Hi. apply (forallb_In _ _ _ Hf) in Hi. discriminate Hi. }
  destruct s0 as [p|r|e0].
  2:{ rewrite (bind_respond _ _ _ _ _ Hp) in Hin. simpl in Hin.
      exfalso. exact (Hno _ Hn0 Hin). }
  2:{ rewrite (bind_raise _ _ _ _ _ Hp) in Hin. simpl in Hin.
      exfalso. exact (Hno _ Hn0 Hin). }
  rewrite (bind_next _ _ _ _ _ Hp) in Hin.
  destruct (obtainIrn_no_insert JSON_stringify env (req_body env)
              (GenerateIrn.invoiceData p) (mkWorld c evs0)) as (evs1 & He1 & Hn1).
  destruct (GenerateIrn.obtainIrn JSON_stringify env (req_body env)
              (GenerateIrn.invoiceData p) (mkWorld c evs0))
    as [[irnData|r|e0] w2] eqn:Ho; simpl in He1.
  2:{ rewrite (bind_respond _ _ _ _ _ Ho) in Hin. simpl in Hin. rewrite He1 in Hin.
      exfalso. apply in_app_or in Hin. destruct Hin as [Hin|Hin];
        [exact (Hno _ Hn0 Hin) | exact (Hno _ Hn1 Hin)]. }
  2:{ rewrite (bind_raise _ _ _ _ _ Ho) in Hin. simpl in Hin. rewrite He1 in Hin.
      exfalso. apply in_app_or in Hin. destruct Hin as [Hin|Hin];
        [exact (Hno _ Hn0 Hin) | exact (Hno _ Hn1 Hin)]. }
  rewrite (bind_next _ _ _ _ _ Ho) in Hin.
  destruct (persistAndAnswer_shape Number newDate js_add js_ge env
              (req_body env) (GenerateIrn.unitId p) (GenerateIrn.customerId p)
              (GenerateIrn.invoice_no p) (GenerateIrn.invoiceData p) irnData w2)
    as (s & evs2 & Hq & _ & Hn2 & _ & _).
  rewrite Hq in Hin. simpl in Hin. rewrite He1 in Hin.
  exists p, irnData, (mkWorld c evs0), w2. split; [exact Hp|]. split; [exact Ho|].
  apply in_app_or in Hin. destruct Hin as [Hin|Hin];
    [|exfalso; exact (Hno _ Hn2 Hin)].
  apply in_app_or in Hin. destruct Hin as [Hin|Hin].
  - exfalso. apply in_app_or in Hin. destruct Hin as [Hin|Hin];
      [exact (Hno _ Hn0 Hin) | exact (Hno _ Hn1 Hin)].
  - destruct Hin as [Hin|[]]. inversion Hin. reflexivity.
Qed.

End InsertedRow.

(** X18.  No billing invoice is stored without its IRN.  In every
    generate-IRN request whose [invoice_type] is not "NON BILLING", an
    invoice row is inserted only if the generate-irn call was answered
    with a parsed body whose [Irn] is truthy, and the row then carries
    that [Irn], the QR code and the acknowledgement number of the answer
    and the status "GENERATED", whatever the request body has under
    these names. *)
Theorem billing_invoice_row_carries_the_irn :
  forall (JSON_stringify Number newDate : JsVal -> JsVal)
         (js_add : JsVal -> JsVal -> JsVal) (js_ge : JsVal -> JsVal -> bool)
         (buildInvoiceData :
            JsVal -> JsVal -> JsVal -> option DbResult -> JsVal -> JsVal -> Res JsVal)
         (env : Env) (c : TokenCache.Cache) (row : JsVal),
    In (EvStore "invoices.insert" row)
       (events (snd (generateHandler JSON_stringify Number newDate js_add js_ge
                       buildInvoiceData env (request c)))) ->
    js_strict_eq (prop_opt (req_body env) "invoice_type") (JStr "NON BILLING") = false ->
    exists r irnData fields,
      fetch_generate_irn env = Ok r /\ ok r = true /\ json r = Ok irnData
      /\ truthy (prop_opt irnData "Irn") = true
      /\ row = JObj fields
      /\ assoc "irn" fields = Some (prop_opt irnData "Irn")
      /\ assoc "qrcode" fields = Some (prop_opt irnData "SignedQRCode")
      /\ assoc "ack_no" fields = Some (prop_opt irnData "AckNo")
      /\ assoc "einvoice_status" fields = Some (JStr "GENERATED").
Proof.
  intros JSON_stringify Number newDate js_add js_ge buildInvoiceData env c row
         Hin Hbilling.
  destruct (generate_inserted_row JSON_stringify Number newDate js_add js_ge
              buildInvoiceData env c row Hin)
    as (p & irnData & w1 & w2 & Hp & Ho & Hrow).
  destruct (obtainIrn_next JSON_stringify env _ _ _ _ Hbilling Ho)
    as (r & Hf & Hok & Hj & Hirn).
  destruct (truthy_prop_object irnData "Irn" Hirn) as (irnFields & Eirn).
  destruct (insert_row_with_irn Number newDate (req_body env)
              (GenerateIrn.unitId p) (GenerateIrn.invoice_no p)
              (GenerateIrn.invoiceData p) irnData)
    as (fields & Hfields & H1 & H2 & H3 & H4).
  { subst irnData. reflexivity. }
  exists r, irnData, fields. subst row. repeat split; assumption.
Qed.

Lemma billing_invoice_row_carries_the_irn_witness :
  exists r irnData fields,
    fetch_generate_irn scenario_A = Ok r /\ ok r = true /\ json r = Ok irnData
    /\ truthy (prop_opt irnData "Irn") = true
    /\ GenerateIrn.invoiceInsertData sample_Number sample_newDate billing_body
         (JNum 1) (JStr "INV-001")
         (JObj [ ("Version", JStr "1.1"); ("DocDtls", JObj [ ("No", JStr "INV-001") ]) ])
         (JObj [ ("Irn", JStr "IRN123"); ("AckNo", JStr "A1");
                 ("SignedQRCode", JStr "qr") ])
       = JObj fields
    /\ assoc "irn" fields = Some (prop_opt irnData "Irn")
    /\ assoc "qrcode" fields = Some (prop_opt irnData "SignedQRCode")
    /\ assoc "ack_no" fields = Some (prop_opt irnData "AckNo")
    /\ assoc "einvoice_status" fields = Some (JStr "GENERATED").
Proof.
  apply (billing_invoice_row_carries_the_irn
           sample_stringify sample_Number sample_newDate sample_add sample_ge
           sample_build scenario_A TokenCache.cache0).
  - vm_compute. do 7 right. left. reflexivity.
  - reflexivity.
Defined.

(** ** The cancel-IRN handler, branch by branch *)

Section CancelBranches.

Variable env : Env.

(** The steps before the cancel call hand over the two credentials. *)
Lemma cancel_body_credentials (w : World) :
  CancelIrn.handlerBody env w
  = bind (bind (CancelIrn.validate env) (fun _ =>
          bind (CancelIrn.ensureAccessToken env) (fun accessToken =>
          bind (CancelIrn.ensureAuthData env accessToken) (fun authData =>
          ret (accessToken, authData)))))
      (fun credentials =>
         bind (CancelIrn.cancelIrn env (fst credentials) (snd credentials)
                 (prop_opt (req_body env) "irn")
                 (prop_opt (req_body env) "cancel_reason_code")
                 (prop_opt (req_body env) "cancel_reason"))
           (fun cancelData =>
              CancelIrn.recordCancellation env (prop_opt (req_body env) "invoice_no")
                (prop_opt (req_body env) "irn")
                (prop_opt (req_body env) "cancel_reason_code")
                (prop_opt (req_body env) "cancel_reason") cancelData)) w.
Proof.
  unfold CancelIrn.handlerBody. cbv zeta. unfold bind.
  destruct (CancelIrn.validate env w) as [[[]|r|e] w1]; try reflexivity.
  destruct (CancelIrn.ensureAccessToken env w1) as [[accessToken|r|e] w2];
    try reflexivity.
  destruct (CancelIrn.ensureAuthData env accessToken w2) as [[authData|r|e] w3];
    try reflexivity.
Qed.

Lemma cancel_credentials_not_cancel :
  Emits (not_to CANCEL_IRN_URL)
    (bind (CancelIrn.validate env) (fun _ =>
     bind (CancelIrn.ensureAccessToken env) (fun accessToken =>
     bind (CancelIrn.ensureAuthData env accessToken) (fun authData =>
     ret (accessToken, authData))))).
Proof.
  unfold CancelIrn.validate, CancelIrn.ensureAccessToken, CancelIrn.ensureAuthData,
    CancelIrn.failure, CancelIrn.answer.
  emits_with reflexivity.
Qed.

(** A request whose events hold the cancel call got its answer parsed,
    and ends with what the recording step does. *)
Lemma cancel_call_then_record (c : TokenCache.Cache)
  (headers : list (string * JsVal)) (body : JsVal) (r : HttpResponse)
  (cancelData : JsVal) :
  In (EvFetch CANCEL_IRN_URL headers body)
     (events (snd (CancelIrn.handler env (request c)))) ->
  fetch_cancel_irn env = Ok r ->
  json r = Ok cancelData ->
  exists c1 before,
    forallb (not_to CANCEL_IRN_URL) before = true
    /\ CancelIrn.handler env (request c)
       = handle
           (CancelIrn.recordCancellation env (prop_opt (req_body env) "invoice_no")
              (prop_opt (req_body env) "irn")
              (prop_opt (req_body env) "cancel_reason_code")
              (prop_opt (req_body env) "cancel_reason") cancelData)
           CancelIrn.onError
           (mkWorld c1 (before ++ [EvFetch CANCEL_IRN_URL headers body])).
Proof.
  intros Hin Hf Hj.
  unfold CancelIrn.handler in *.
  unfold handle in *. rewrite cancel_body_credentials in *.
  destruct (cancel_credentials_not_cancel (request c)) as (evs0 & He0 & Hn0).
  simpl in He0.
  match type of He0 with
  | events (snd (?m ?w)) = _ =>
      destruct (m w) as [[[accessToken authData]|r0|e0] w1] eqn:Hsteps; simpl in He0
  end.
  2:{ rewrite (bind_respond _ _ _ _ _ Hsteps) in Hin. simpl in Hin. rewrite He0 in Hin.
      apply (forallb_In _ _ _ Hn0) in Hin. unfold not_to in Hin. simpl in Hin.
      discriminate Hin. }
  2:{ rewrite (bind_raise _ _ _ _ _ Hsteps) in Hin. simpl in Hin. rewrite He0 in Hin.
      apply (forallb_In _ _ _ Hn0) in Hin. unfold not_to in Hin. simpl in Hin.
      discriminate Hin. }
  rewrite (bind_next _ _ _ _ _ Hsteps) in Hin. rewrite (bind_next _ _ _ _ _ Hsteps).
  cbn [fst snd] in *.
  assert (Hcall :
    exists h b,
      CancelIrn.cancelIrn env accessToken authData (prop_opt (req_body env) "irn")
        (prop_opt (req_body env) "cancel_reason_code")
        (prop_opt (req_body env) "cancel_reason") w1
      = (Next cancelData,
         mkWorld (cache w1) (events w1 ++ [EvFetch CANCEL_IRN_URL h b]))).
  { unfold CancelIrn.cancelIrn, fetch, bind, emit, lift. rewrite Hf, Hj.
    do 2 eexists. reflexivity. }
  destruct Hcall as (h & b & Hcall).
  rewrite (bind_next _ _ _ _ _ Hcall) in Hin. rewrite (bind_next _ _ _ _ _ Hcall).
  destruct (emits_world is_store _
              (mkWorld (cache w1) (events w1 ++ [EvFetch CANCEL_IRN_URL h b]))
              (recordCancellation_stores env (prop_opt (req_body env) "invoice_no")
                 (prop_opt (req_body env) "irn")
                 (prop_opt (req_body env) "cancel_reason_code")
                 (prop_opt (req_body env) "cancel_reason") cancelData)
              (recordCancellation_keeps_cache env (prop_opt (req_body env) "invoice_no")
                 (prop_opt (req_body env) "irn")
                 (prop_opt (req_body env) "cancel_reason_code")
                 (prop_opt (req_body env) "cancel_reason") cancelData))
    as (s1 & evs1 & Hq & Hs1).
  cbn [cache events] in Hq.
  assert (Hhb : h = headers /\ b = body).
  { rewrite Hq in Hin. rewrite He0 in Hin.
    assert (Hin' : In (EvFetch CANCEL_IRN_URL headers body)
                     ((evs0 ++ [EvFetch CANCEL_IRN_URL h b]) ++ evs1)).
    { destruct s1; exact Hin. }
    apply in_app_or in Hin'. destruct Hin' as [Hin'|Hin'].
    - apply in_app_or in Hin'. destruct Hin' as [Hin'|Hin'].
      + apply (forallb_In _ _ _ Hn0) in Hin'. discriminate Hin'.
      + destruct Hin' as [Hin'|[]]. inversion Hin'. split; reflexivity.
    - apply (forallb_In _ _ _ Hs1) in Hin'. discriminate Hin'. }
  destruct Hhb; subst h b.
  exists (cache w1), evs0. split; [exact Hn0|].
  rewrite He0. reflexivity.
Qed.

End CancelBranches.

(** X19.  The cancel-IRN handler records a cancellation unless the
    answer of the cancel call says [Irn: null].  In every request whose
    cancel call went out and was answered with a parsed body that is not
    [null]: if the [Irn] of the answer is strictly [null], nothing is
    written and the answer is passed on with status 200, the cancel call
    being the last event of the request; in every other case, also when
    the answer has no [Irn] field at all, the cancellation record is
    inserted with the four fields of the request body. *)
Theorem cancellation_recorded_unless_irn_is_null :
  forall (env : Env) (c : TokenCache.Cache)
         (headers : list (string * JsVal)) (body : JsVal) (r : HttpResponse)
         (cancelData : JsVal),
    In (EvFetch CANCEL_IRN_URL headers body)
       (events (snd (CancelIrn.handler env (request c)))) ->
    fetch_cancel_irn env = Ok r ->
    json r = Ok cancelData ->
    nullish cancelData = false ->
    (js_strict_eq (prop_opt cancelData "Irn") JNull = true ->
     fst (CancelIrn.handler env (request c)) = mkResponse 200 cancelData
     /\ exists before,
          events (snd (CancelIrn.handler env (request c)))
          = (before ++ [EvFetch CANCEL_IRN_URL headers body])%list)
    /\ (js_strict_eq (prop_opt cancelData "Irn") JNull = false ->
        In (EvStore "canceled_invoices.insert"
              (JObj [ ("invoice_no", prop_opt (req_body env) "invoice_no");
                      ("irn", prop_opt (req_body env) "irn");
                      ("cancel_reason_code", prop_opt (req_body env) "cancel_reason_code");
                      ("cancel_reason", prop_opt (req_body env) "cancel_reason") ]))
           (events (snd (CancelIrn.handler env (request c)))))
    /\ (assoc "Irn" (own_fields cancelData) = None ->
        js_strict_eq (prop_opt cancelData "Irn") JNull = false).
Proof.
  intros env c headers body r cancelData Hin Hf Hj Hnn.
  destruct (cancel_call_then_record env c headers body r cancelData Hin Hf Hj)
    as (c1 & before & Hbefore & Hres).
  rewrite Hres. clear Hres Hin.
  unfold handle, CancelIrn.recordCancellation.
  rewrite (prop_readable cancelData "Irn" Hnn).
  rewrite (bind_next _ _ _ _ _ (lift_ok _ _)).
  split; [|split].
  - intros Hnull. rewrite Hnull. cbn [negb]. simpl.
    split; [reflexivity|]. exists before. reflexivity.
  - intros Hnot. rewrite Hnot. cbn [negb].
    rewrite (bind_next _ _ _ _ _ (store_run _ _ _ _)). cbn [cache events].
    destruct (truthy (error (canceled_invoices_insert env))).
    + simpl. apply in_or_app. right. left. reflexivity.
    + rewrite (bind_next _ _ _ _ _ (store_run _ _ _ _)). cbn [cache events].
      destruct (truthy (error (invoices_update env))); simpl;
        apply in_or_app; left; apply in_or_app; right; left; reflexivity.
  - intros Hnone. unfold prop_opt, prop.
    destruct cancelData; try discriminate Hnn; try reflexivity.
    + simpl in Hnone. rewrite Hnone. reflexivity.
Qed.

Lemma cancellation_recorded_unless_irn_is_null_witness :
  In (EvStore "canceled_invoices.insert"
        (JObj [ ("invoice_no", JStr "INV-001"); ("irn", JStr "IRN123");
                ("cancel_reason_code", JStr "1"); ("cancel_reason", JStr "Duplicate") ]))
     (events (snd (CancelIrn.handler
                     (sample_env cancel_body authenticated enhanced_authenticated
                        irn_generated
                        (json_answer (JObj [ ("ErrorMessage", JStr "Invalid IRN") ]))
                        inserted_invoice (found JNull))
                     (request TokenCache.cache0)))).
Proof.
  destruct (cancellation_recorded_unless_irn_is_null
              (sample_env cancel_body authenticated enhanced_authenticated
                 irn_generated
                 (json_answer (JObj [ ("ErrorMessage", JStr "Invalid IRN") ]))
                 inserted_invoice (found JNull))
              TokenCache.cache0
              [ ("accept", JStr "application/json"); ("gstin", JStr "configured");
                ("user_name", JStr "u1"); ("AuthToken", JStr "at1");
                ("Authorization", JStr "Bearer tok1"); ("sek", JStr "s1");
                ("Content-Type", JStr "application/json") ]
              (JObj [ ("Irn", JStr "IRN123"); ("CnlRsn", JStr "1");
                      ("CnlRem", JStr "Duplicate") ])
              (mkHttpResponse true (JNum 200) "OK" (Some "application/json")
                 (Ok (JObj [ ("ErrorMessage", JStr "Invalid IRN") ])) "")
              (JObj [ ("ErrorMessage", JStr "Invalid IRN") ]))
    as (_ & Hrecorded & _).
  - vm_compute. do 4 right. left. reflexivity.
  - reflexivity.
  - reflexivity.
  - reflexivity.
  - apply Hrecorded. reflexivity.
Defined.

Section CancelRejections.

Variable env : Env.

Lemma cancel_after_token_not_authenticate (accessToken : JsVal) :
  Emits (not_to AUTHENTICATE_URL)
    (bind (CancelIrn.ensureAuthData env accessToken) (fun authData =>
     bind (CancelIrn.cancelIrn env accessToken authData
             (prop_opt (req_body env) "irn")
             (prop_opt (req_body env) "cancel_reason_code")
             (prop_opt (req_body env) "cancel_reason"))
       (fun cancelData =>
          CancelIrn.recordCancellation env (prop_opt (req_body env) "invoice_no")
            (prop_opt (req_body env) "irn")
            (prop_opt (req_body env) "cancel_reason_code")
            (prop_opt (req_body env) "cancel_reason") cancelData))).
Proof.
  unfold CancelIrn.ensureAuthData, CancelIrn.cancelIrn, CancelIrn.recordCancellation,
    CancelIrn.answer.
  emits_with reflexivity.
Qed.

(** Without a cached token the authenticate call goes out; an answer
    whose [status] is not 1 is logged with that status, and passed on as
    it is. *)
Lemma cancel_ensureAccessToken_rejected (w : World) (r : HttpResponse) (j st : JsVal) :
  truthy (TokenCache.getAccessToken (cache w) (now_getAccessToken env)) = false ->
  fetch_authenticate env = Ok r ->
  json r = Ok j ->
  prop j "status" = Ok st ->
  st <> JNum 1 ->
  CancelIrn.ensureAccessToken env w
  = ((if printable st then Respond (mkResponse 200 j) else Raise cannot_convert),
     mkWorld (cache w)
       (events w
        ++ [EvFetch AUTHENTICATE_URL
              [ ("accept", JStr "application/json");
                ("clientId", process_env env "EINVOICE_CLIENT_ID");
                ("clientSecret", process_env env "EINVOICE_CLIENT_SECRET") ]
              JUndefined])).
Proof.
  intros Hc Hf Hj Hs Hne.
  unfold CancelIrn.ensureAccessToken, CancelIrn.answer, fetch, bind, readCache, emit,
    lift, respond, interpolate.
  rewrite Hc, Hf, Hj, Hs. rewrite (js_strict_eq_num_false st 1 Hne).
  cbn [negb forallb]. rewrite andb_true_r.
  destruct (printable st); reflexivity.
Qed.

End CancelRejections.

(** Falsy values are primitive values. *)
Lemma falsy_printable (v : JsVal) : truthy v = false -> printable v = true.
Proof. destruct v; simpl; intros H; try reflexivity; discriminate H. Qed.

Lemma printable_or_text (v : JsVal) (s : string) :
  printable (js_or v (JStr s)) = printable v.
Proof.
  unfold js_or. destruct (truthy v) eqn:H; [reflexivity|].
  rewrite (falsy_printable v H). reflexivity.
Qed.

(** X20.  The cancel-IRN handler passes a rejected authentication on
    with status 200.  In every request in which the authenticate call is
    issued and answered with a parsed body whose [status] is not 1, the
    response is that body, unchanged, with status 200 (where the
    generate-IRN handler answers 400); the one exception is a [status]
    without string conversion, on which the log line before the answer
    throws and the response is 500 "Internal server error".  Either
    way no other remote call is issued and the credential cache is left
    as it was. *)
Theorem cancel_relays_rejected_authentication :
  forall (env : Env) (c : TokenCache.Cache)
         (headers : list (string * JsVal)) (body : JsVal)
         (r : HttpResponse) (j st : JsVal),
    In (EvFetch AUTHENTICATE_URL headers body)
       (events (snd (CancelIrn.handler env (request c)))) ->
    fetch_authenticate env = Ok r ->
    json r = Ok j ->
    prop j "status" = Ok st ->
    st <> JNum 1 ->
    fst (CancelIrn.handler env (request c))
    = (if printable st then mkResponse 200 j
       else mkResponse 500
              (JObj [ ("status", JNum 0);
                      ("errorMessage", JStr "Internal server error") ]))
    /\ remote_calls (events (snd (CancelIrn.handler env (request c))))
       = [EvFetch AUTHENTICATE_URL headers body]
    /\ cache (snd (CancelIrn.handler env (request c))) = c.
Proof.
  intros env c headers body r j st Hin Hf Hj Hs Hne.
  unfold CancelIrn.handler, handle, CancelIrn.handlerBody in *. cbv zeta in *.
  destruct (emits_world is_store (CancelIrn.validate env) (request c)
              (validate_stores env) (validate_keeps_cache env))
    as (s0 & evs0 & Hp & Hs0).
  simpl in Hp.
  destruct s0 as [[]|r0|e0].
  2:{ exfalso. rewrite (bind_respond _ _ _ _ _ Hp) in Hin. simpl in Hin.
      apply (forallb_In _ _ _ Hs0) in Hin. discriminate Hin. }
  2:{ exfalso. rewrite (bind_raise _ _ _ _ _ Hp) in Hin. simpl in Hin.
      apply (forallb_In _ _ _ Hs0) in Hin. discriminate Hin. }
  rewrite (bind_next _ _ _ _ _ Hp) in Hin. rewrite (bind_next _ _ _ _ _ Hp).
  destruct (truthy (TokenCache.getAccessToken c (now_getAccessToken env))) eqn:Hc.
  - exfalso.
    pose proof (cancel_ensureAccessToken_cached env (mkWorld c evs0) Hc) as Hat.
    rewrite (bind_next _ _ _ _ _ Hat) in Hin.
    destruct (cancel_after_token_not_authenticate env
                (TokenCache.getAccessToken c (now_getAccessToken env))
                (mkWorld c evs0)) as (evs1 & He1 & Hn1).
    cbn [cache] in Hin.
    match type of He1 with
    | events (snd (?m ?w)) = _ =>
        destruct (m w) as [[r1|r1|e1] w2]; simpl in He1, Hin; rewrite He1 in Hin
    end;
      (apply in_app_or in Hin; destruct Hin as [Hin|Hin];
       [ apply (forallb_In _ _ _ Hs0) in Hin | apply (forallb_In _ _ _ Hn1) in Hin ];
       discriminate Hin).
  - pose proof (cancel_ensureAccessToken_rejected env (mkWorld c evs0) r j st
                  Hc Hf Hj Hs Hne) as Hat.
    destruct (printable st).
    + rewrite (bind_respond _ _ _ _ _ Hat) in Hin.
      rewrite (bind_respond _ _ _ _ _ Hat).
      cbn [fst snd cache events] in *.
      apply in_app_or in Hin. destruct Hin as [Hin|Hin].
      { apply (forallb_In _ _ _ Hs0) in Hin. discriminate Hin. }
      destruct Hin as [Hin|[]]. inversion Hin; subst headers body.
      rewrite remote_calls_app, (remote_calls_stores _ Hs0).
      repeat split.
    + rewrite (bind_raise _ _ _ _ _ Hat) in Hin.
      rewrite (bind_raise _ _ _ _ _ Hat).
      cbn [fst snd cache events] in *.
      apply in_app_or in Hin. destruct Hin as [Hin|Hin].
      { apply (forallb_In _ _ _ Hs0) in Hin. discriminate Hin. }
      destruct Hin as [Hin|[]]. inversion Hin; subst headers body.
      rewrite remote_calls_app, (remote_calls_stores _ Hs0).
      repeat split.
Qed.

Lemma cancel_relays_rejected_authentication_witness :
  fst (CancelIrn.handler
         (sample_env cancel_body authenticate_rejected enhanced_authenticated
            irn_generated irn_cancelled inserted_invoice (found JNull))
         (request TokenCache.cache0))
  = mkResponse 200
      (JObj [ ("status", JNum 0); ("errorMessage", JStr "Invalid client") ]).
Proof.
  assert (Hne : JNum 0 <> JNum 1) by discriminate.
  destruct (cancel_relays_rejected_authentication
              (sample_env cancel_body authenticate_rejected enhanced_authenticated
                 irn_generated irn_cancelled inserted_invoice (found JNull))
              TokenCache.cache0
              [ ("accept", JStr "application/json");
                ("clientId", JStr "configured");
                ("clientSecret", JStr "configured") ]
              JUndefined
              (mkHttpResponse true (JNum 200) "OK" (Some "application/json")
                 (Ok (JObj [ ("status", JNum 0);
                             ("errorMessage", JStr "Invalid client") ])) "")
              (JObj [ ("status", JNum 0); ("errorMessage", JStr "Invalid client") ])
              (JNum 0)) as (H & _).
  - vm_compute. do 2 right. left. reflexivity.
  - reflexivity.
  - reflexivity.
  - reflexivity.
  - exact Hne.
  - exact H.
Defined.

(** X21.  The cancel-IRN handler checks before it calls.  A request body
    in which [invoice_no], [irn], [cancel_reason_code] or
    [cancel_reason] is missing or falsy is answered at once, with no
    query to the data store, no call to the e-invoice API and the cache
    untouched: with 400 when the four fields have string conversions,
    and with 500 "Internal server error" when one of them has none, the
    log lines before the check throwing then.  Whenever a request does
    call the e-invoice API, all four fields are truthy and have string
    conversions, and the data store has found the invoice and its
    unit. *)
Theorem cancel_checks_before_calling :
  forall (env : Env) (c : TokenCache.Cache),
    nullish (req_body env) = false ->
    (truthy (prop_opt (req_body env) "invoice_no")
     && truthy (prop_opt (req_body env) "irn")
     && truthy (prop_opt (req_body env) "cancel_reason_code")
     && truthy (prop_opt (req_body env) "cancel_reason") = false ->
     CancelIrn.handler env (request c)
     = ((if printable (prop_opt (req_body env) "invoice_no")
            && printable (prop_opt (req_body env) "irn")
            && printable (prop_opt (req_body env) "cancel_reason_code")
            && printable (prop_opt (req_body env) "cancel_reason")
         then mkResponse 400
                (JObj [ ("status", JNum 0);
                        ("errorMessage",
                         JStr "invoice_no, irn, cancel_reason_code, and cancel_reason are required") ])
         else mkResponse 500
                (JObj [ ("status", JNum 0);
                        ("errorMessage", JStr "Internal server error") ])),
        request c))
    /\ (remote_calls (events (snd (CancelIrn.handler env (request c)))) <> [] ->
        (truthy (prop_opt (req_body env) "invoice_no")
         && truthy (prop_opt (req_body env) "irn")
         && truthy (prop_opt (req_body env) "cancel_reason_code")
         && truthy (prop_opt (req_body env) "cancel_reason") = true)
        /\ (printable (prop_opt (req_body env) "invoice_no")
            && printable (prop_opt (req_body env) "irn")
            && printable (prop_opt (req_body env) "cancel_reason_code")
            && printable (prop_opt (req_body env) "cancel_reason") = true)
        /\ truthy (data (invoices_single env)) = true
        /\ truthy (data (units_single env)) = true).
Proof.
  intros env c Hbody.
  set (fields :=
         truthy (prop_opt (req_body env) "invoice_no")
         && truthy (prop_opt (req_body env) "irn")
         && truthy (prop_opt (req_body env) "cancel_reason_code")
         && truthy (prop_opt (req_body env) "cancel_reason")).
  set (texts :=
         printable (prop_opt (req_body env) "invoice_no")
         && printable (prop_opt (req_body env) "irn")
         && printable (prop_opt (req_body env) "cancel_reason_code")
         && printable (prop_opt (req_body env) "cancel_reason")).
  assert (Hval :
    CancelIrn.validate env (request c)
    = if negb texts then (Raise cannot_convert, request c)
      else if negb fields
      then (Respond
              (mkResponse 400
                 (JObj [ ("status", JNum 0);
                         ("errorMessage",
                          JStr "invoice_no, irn, cancel_reason_code, and cancel_reason are required") ])),
            request c)
      else
        if negb (truthy (data (invoices_single env)))
        then (Respond
                (mkResponse 404
                   (JObj [ ("status", JNum 0);
                           ("errorMessage", JStr "Invoice not found") ])),
              mkWorld c [EvStore "invoices.select" (prop_opt (req_body env) "invoice_no")])
        else
          if negb (printable (prop_opt (data (invoices_single env)) "unit_id"))
          then (Raise cannot_convert,
                mkWorld c
                  [EvStore "invoices.select" (prop_opt (req_body env) "invoice_no")])
          else
            if negb (truthy (data (units_single env)))
            then (Respond
                    (mkResponse 404
                       (JObj [ ("status", JNum 0);
                               ("errorMessage", JStr "Unit not found") ])),
                  mkWorld c
                    [ EvStore "invoices.select" (prop_opt (req_body env) "invoice_no");
                      EvStore "units.select"
                        (prop_opt (data (invoices_single env)) "unit_id") ])
            else (Next tt,
                  mkWorld c
                    [ EvStore "invoices.select" (prop_opt (req_body env) "invoice_no");
                      EvStore "units.select"
                        (prop_opt (data (invoices_single env)) "unit_id") ])).
  { unfold CancelIrn.validate. cbv zeta.
    rewrite (prop_readable (req_body env) "invoice_no" Hbody).
    rewrite (bind_next _ _ _ _ _ (lift_ok _ _)).
    unfold interpolate at 1. cbn [forallb].
    rewrite printable_or_text, andb_true_r, !andb_assoc. fold texts.
    destruct texts; cbn [negb].
    2:{ reflexivity. }
    rewrite (bind_next _ _ _ _ _ (lift_ok _ _)).
    assert (Hfields :
      negb (truthy (prop_opt (req_body env) "invoice_no"))
      || negb (truthy (prop_opt (req_body env) "irn"))
      || negb (truthy (prop_opt (req_body env) "cancel_reason_code"))
      || negb (truthy (prop_opt (req_body env) "cancel_reason"))
      = negb fields).
    { unfold fields. rewrite !negb_andb. reflexivity. }
    rewrite Hfields.
    destruct (negb fields); [reflexivity|].
    rewrite (bind_next _ _ _ _ _ (store_run _ _ _ _)).
    destruct (negb (truthy (data (invoices_single env)))); [reflexivity|].
    unfold interpolate. cbn [forallb]. rewrite andb_true_r.
    destruct (printable (prop_opt (data (invoices_single env)) "unit_id"));
      cbn [negb]; [|reflexivity].
    rewrite (bind_next _ _ _ _ _ (lift_ok _ _)).
    rewrite (bind_next _ _ _ _ _ (store_run _ _ _ _)).
    destruct (negb (truthy (data (units_single env)))); reflexivity. }
  unfold CancelIrn.handler, handle, CancelIrn.handlerBody. cbv zeta.
  split.
  - intros Hmissing. rewrite Hmissing in Hval. cbn [negb] in Hval.
    destruct texts; cbn [negb] in Hval.
    + rewrite (bind_respond _ _ _ _ _ Hval). reflexivity.
    + rewrite (bind_raise _ _ _ _ _ Hval). reflexivity.
  - destruct texts; cbn [negb] in Hval.
    2:{ rewrite (bind_raise _ _ _ _ _ Hval). simpl. intros H. contradiction. }
    destruct fields; cbn [negb] in Hval.
    2:{ rewrite (bind_respond _ _ _ _ _ Hval). simpl. intros H. contradiction. }
    destruct (truthy (data (invoices_single env))); cbn [negb] in Hval.
    2:{ rewrite (bind_respond _ _ _ _ _ Hval). simpl. intros H.
        exfalso. apply H. reflexivity. }
    destruct (printable (prop_opt (data (invoices_single env)) "unit_id"));
      cbn [negb] in Hval.
    2:{ rewrite (bind_raise _ _ _ _ _ Hval). simpl. intros H.
        exfalso. apply H. reflexivity. }
    destruct (truthy (data (units_single env))); cbn [negb] in Hval.
    2:{ rewrite (bind_respond _ _ _ _ _ Hval). simpl. intros H.
        exfalso. apply H. reflexivity. }
    intros _. repeat split.
Qed.

Lemma cancel_checks_before_calling_witness :
  CancelIrn.handler
    (sample_env (JObj [ ("invoice_no", JStr "INV-001"); ("irn", JStr "") ])
       authenticated enhanced_authenticated irn_generated irn_cancelled
       inserted_invoice (found JNull))
    (request TokenCache.cache0)
  = (mkResponse 400
       (JObj [ ("status", JNum 0);
               ("errorMessage",
                JStr "invoice_no, irn, cancel_reason_code, and cancel_reason are required") ]),
     request TokenCache.cache0).
Proof.
  destruct (cancel_checks_before_calling
              (sample_env (JObj [ ("invoice_no", JStr "INV-001"); ("irn", JStr "") ])
                 authenticated enhanced_authenticated irn_generated irn_cancelled
                 inserted_invoice (found JNull))
              TokenCache.cache0) as [H _].
  - reflexivity.
  - apply H. reflexivity.
Defined.

(** ** What is sent and what is cached *)

Lemma lift_next_inv {A : Type} (x : Res A) (w w' : World) (a : A) :
  lift x w = (Next a, w') -> x = Ok a /\ w' = w.
Proof.
  unfold lift. destruct x; intros H; inversion H. split; reflexivity.
Qed.

Lemma fetch_next_inv (url : string) (headers : list (string * JsVal)) (body : JsVal)
  (answer : Res HttpResponse) (w w' : World) (r : HttpResponse) :
  fetch url headers body answer w = (Next r, w') ->
  answer = Ok r
  /\ w' = mkWorld (cache w) (events w ++ [EvFetch url headers body]).
Proof.
  unfold fetch, bind, emit, lift. destruct answer; intros H; inversion H.
  split; reflexivity.
Qed.

Lemma getAccessToken_truthy (c : TokenCache.Cache) (now : Time) :
  truthy (TokenCache.getAccessToken c now) = true ->
  TokenCache.getAccessToken c now = TokenCache.accessToken c.
Proof.
  unfold TokenCache.getAccessToken. destruct (_ && _); [reflexivity | discriminate].
Qed.

Lemma getAuthData_truthy (c : TokenCache.Cache) (now : Time) :
  truthy (TokenCache.getAuthData c now) = true ->
  TokenCache.getAuthData c now
  = TokenCache.authDataObject (TokenCache.authToken c) (TokenCache.sek c)
      (TokenCache.userName c).
Proof.
  unfold TokenCache.getAuthData. destruct (_ && _); [reflexivity | discriminate].
Qed.

Lemma same_access_refl (c : TokenCache.Cache) : same_access c c.
Proof. split; reflexivity. Qed.

Lemma same_session_refl (c : TokenCache.Cache) : same_session c c.
Proof. repeat split. Qed.

(** Takes a hypothesis [H : bind m f w = (Next b, w')] apart. *)
Ltac next_step H a w1 Hm :=
  apply bind_next_inv in H; destruct H as (a & w1 & Hm & H).

Section SentAndCached.

Variable JSON_stringify : JsVal -> JsVal.
Variable env : Env.

Lemma generate_ensureAccessToken_next (w w' : World) (tok : JsVal) :
  GenerateIrn.ensureAccessToken env w = (Next tok, w') ->
  TokenCache.accessToken (cache w') = tok
  /\ same_session (cache w) (cache w')
  /\ (truthy (TokenCache.getAccessToken (cache w) (now_getAccessToken env)) = false ->
      cache w' = TokenCache.setAccessToken tok (now_setAccessToken env) (cache w)).
Proof.
  intros H. unfold GenerateIrn.ensureAccessToken in H.
  next_step H cached w0 Hc. unfold readCache in Hc. inversion Hc; subst cached w0.
  destruct (truthy (TokenCache.getAccessToken (cache w) (now_getAccessToken env)))
    eqn:Ht.
  - unfold ret in H. inversion H; subst. split; [|split].
    + symmetry. apply getAccessToken_truthy, Ht.
    + apply same_session_refl.
    + intros F; discriminate F.
  - next_step H response w1 Hf. apply fetch_next_inv in Hf. destruct Hf as [_ Hw1].
    destruct (ok response); cbn [negb] in H.
    2:{ exfalso. exact (transportFailure_not_next env _ _ _ _ _ _ H). }
    next_step H j w2 Hj. apply lift_next_inv in Hj. destruct Hj as [_ Hw2].
    next_step H st w3 Hs. apply lift_next_inv in Hs. destruct Hs as [_ Hw3].
    destruct (negb (js_strict_eq st (JNum 1))).
    { exfalso. next_step H d w4 Hd. discriminate H. }
    next_step H payloadData w4 Hd. apply lift_next_inv in Hd. destruct Hd as [_ Hw4].
    next_step H accessToken w5 Ha. apply lift_next_inv in Ha. destruct Ha as [_ Hw5].
    next_step H u w6 Hwr. unfold writeCache in Hwr. inversion Hwr; subst u w6.
    unfold ret in H. inversion H; subst. cbn [cache].
    split; [reflexivity|]. split; [repeat split|]. intros _. reflexivity.
Qed.

Lemma generate_ensureAuthData_next (accessToken : JsVal) (w w' : World) (ad : JsVal) :
  GenerateIrn.ensureAuthData env accessToken w = (Next ad, w') ->
  ad = TokenCache.authDataObject (TokenCache.authToken (cache w'))
         (TokenCache.sek (cache w')) (TokenCache.userName (cache w'))
  /\ same_access (cache w) (cache w').
Proof.
  intros H. unfold GenerateIrn.ensureAuthData in H.
  next_step H cached w0 Hc. unfold readCache in Hc. inversion Hc; subst cached w0.
  destruct (truthy (TokenCache.getAuthData (cache w) (now_getAuthData env))) eqn:Ht.
  - unfold ret in H. inversion H; subst. split.
    + apply getAuthData_truthy, Ht.
    + apply same_access_refl.
  - next_step H forceRefresh w1 Hr. unfold readCache in Hr.
    inversion Hr; subst forceRefresh w1.
    next_step H response w2 Hf. apply fetch_next_inv in Hf. destruct Hf as [_ Hw2].
    destruct (ok response); cbn [negb] in H.
    2:{ exfalso. exact (transportFailure_not_next env _ _ _ _ _ _ H). }
    next_step H j w3 Hj. apply lift_next_inv in Hj. destruct Hj as [_ Hw3].
    next_step H st w4 Hs. apply lift_next_inv in Hs. destruct Hs as [_ Hw4].
    destruct (negb (js_strict_eq st (JNum 1))).
    { exfalso. next_step H d w5 Hd. discriminate H. }
    next_step H sessionData w5 Hd. apply lift_next_inv in Hd. destruct Hd as [_ Hw5].
    next_step H sessionToken w6 Ha. apply lift_next_inv in Ha. destruct Ha as [_ Hw6].
    next_step H u w7 Hwr. unfold writeCache in Hwr. inversion Hwr; subst u w7.
    unfold ret in H. inversion H; subst. cbn [cache].
    split; [reflexivity | split; reflexivity].
Qed.

Lemma cancel_ensureAccessToken_next (w w' : World) (tok : JsVal) :
  CancelIrn.ensureAccessToken env w = (Next tok, w') ->
  TokenCache.accessToken (cache w') = tok
  /\ same_session (cache w) (cache w')
  /\ (truthy (TokenCache.getAccessToken (cache w) (now_getAccessToken env)) = false ->
      cache w' = TokenCache.setAccessToken tok (now_setAccessToken env) (cache w)).
Proof.
  intros H. unfold CancelIrn.ensureAccessToken in H.
  next_step H cached w0 Hc. unfold readCache in Hc. inversion Hc; subst cached w0.
  destruct (truthy (TokenCache.getAccessToken (cache w) (now_getAccessToken env)))
    eqn:Ht.
  - unfold ret in H. inversion H; subst. split; [|split].
    + symmetry. apply getAccessToken_truthy, Ht.
    + apply same_session_refl.
    + intros F; discriminate F.
  - next_step H response w1 Hf. apply fetch_next_inv in Hf. destruct Hf as [_ Hw1].
    next_step H j w2 Hj. apply lift_next_inv in Hj. destruct Hj as [_ Hw2].
    next_step H st w3 Hs. apply lift_next_inv in Hs. destruct Hs as [_ Hw3].
    destruct (negb (js_strict_eq st (JNum 1))).
    { exfalso. next_step H logged w9 Hlog. discriminate H. }
    next_step H payloadData w4 Hd. apply lift_next_inv in Hd. destruct Hd as [_ Hw4].
    next_step H accessToken w5 Ha. apply lift_next_inv in Ha. destruct Ha as [_ Hw5].
    next_step H u w6 Hwr. unfold writeCache in Hwr. inversion Hwr; subst u w6.
    unfold ret in H. inversion H; subst. cbn [cache].
    split; [reflexivity|]. split; [repeat split|]. intros _. reflexivity.
Qed.

Lemma cancel_ensureAuthData_next (accessToken : JsVal) (w w' : World) (ad : JsVal) :
  CancelIrn.ensureAuthData env accessToken w = (Next ad, w') ->
  ad = TokenCache.authDataObject (TokenCache.authToken (cache w'))
         (TokenCache.sek (cache w')) (TokenCache.userName (cache w'))
  /\ same_access (cache w) (cache w').
Proof.
  intros H. unfold CancelIrn.ensureAuthData in H.
  next_step H cached w0 Hc. unfold readCache in Hc. inversion Hc; subst cached w0.
  destruct (truthy (TokenCache.getAuthData (cache w) (now_getAuthData env))) eqn:Ht.
  - unfold ret in H. inversion H; subst. split.
    + apply getAuthData_truthy, Ht.
    + apply same_access_refl.
  - next_step H forceRefresh w1 Hr. unfold readCache in Hr.
    inversion Hr; subst forceRefresh w1.
    next_step H response w2 Hf. apply fetch_next_inv in Hf. destruct Hf as [_ Hw2].
    next_step H j w3 Hj. apply lift_next_inv in Hj. destruct Hj as [_ Hw3].
    next_step H st w4 Hs. apply lift_next_inv in Hs. destruct Hs as [_ Hw4].
    destruct (negb (js_strict_eq st (JNum 1))).
    { exfalso. next_step H logged w9 Hlog. discriminate H. }
    next_step H sessionData w5 Hd. apply lift_next_inv in Hd. destruct Hd as [_ Hw5].
    next_step H sessionToken w6 Ha. apply lift_next_inv in Ha. destruct Ha as [_ Hw6].
    next_step H u w7 Hwr. unfold writeCache in Hwr. inversion Hwr; subst u w7.
    unfold ret in H. inversion H; subst. cbn [cache].
    split; [reflexivity | split; reflexivity].
Qed.

(** The two credentials in hand after steps 1 and 2 are the cached
    ones. *)
Lemma credentials_carried (accessToken authData : JsVal) (c1 c2 : TokenCache.Cache)
  (headers : list (string * JsVal)) :
  TokenCache.accessToken c1 = accessToken ->
  same_access c1 c2 ->
  authData = TokenCache.authDataObject (TokenCache.authToken c2) (TokenCache.sek c2)
               (TokenCache.userName c2) ->
  assoc "Authorization" headers = Some (bearer accessToken) ->
  assoc "AuthToken" headers = Some (prop_opt authData "authToken") ->
  assoc "sek" headers = Some (prop_opt authData "sek") ->
  assoc "user_name" headers = Some (prop_opt authData "userName") ->
  carries_cached_credentials headers c2.
Proof.
  intros Ha [Hs _] Hd H1 H2 H3 H4. subst authData.
  unfold carries_cached_credentials. rewrite H1, H2, H3, H4, <- Hs, Ha.
  repeat split.
Qed.

End SentAndCached.
Lemma no_call_carries (url : string) (w : World) :
  no_call_to url w -> calls_carry_cache url w.
Proof. intros H headers body Hin. destruct (H headers body Hin). Qed.

Lemma no_call_after {A : Type} (url : string) (m : M A) (w : World) :
  Emits (not_to url) m -> no_call_to url w -> no_call_to url (snd (m w)).
Proof.
  intros He Hw headers body Hin. destruct (He w) as (evs & Hev & Hall).
  rewrite Hev in Hin. apply in_app_or in Hin. destruct Hin as [Hin|Hin].
  - exact (Hw headers body Hin).
  - apply (forallb_In _ _ _ Hall) in Hin. unfold not_to in Hin. simpl in Hin.
    rewrite String.eqb_refl in Hin. discriminate Hin.
Qed.

Lemma carries_after {A : Type} (url : string) (m : M A) (w : World) :
  Emits (not_to url) m -> KeepsCache m ->
  calls_carry_cache url w -> calls_carry_cache url (snd (m w)).
Proof.
  intros He Hk Hw headers body Hin. destruct (He w) as (evs & Hev & Hall).
  rewrite Hk. rewrite Hev in Hin. apply in_app_or in Hin. destruct Hin as [Hin|Hin].
  - exact (Hw headers body Hin).
  - apply (forallb_In _ _ _ Hall) in Hin. unfold not_to in Hin. simpl in Hin.
    rewrite String.eqb_refl in Hin. discriminate Hin.
Qed.

Lemma stores_not_to_url {A : Type} (url : string) (m : M A) :
  Emits is_store m -> Emits (not_to url) m.
Proof. apply Emits_weaken. intros e. apply is_store_not_to. Qed.

Lemma snd_bind_silent {A B : Type} (m : M A) (f : A -> M B) (w : World) :
  (forall a, Silent (f a)) -> snd (bind m f w) = snd (m w).
Proof.
  intros Hf. unfold bind. destruct (m w) as [[a|r|e] w1]; try reflexivity.
  apply Hf.
Qed.

Lemma fetch_world (url : string) (headers : list (string * JsVal)) (body : JsVal)
  (answer : Res HttpResponse) (w : World) :
  snd (fetch url headers body answer w)
  = mkWorld (cache w) (events w ++ [EvFetch url headers body]).
Proof. unfold fetch, bind, emit, lift. destruct answer; reflexivity. Qed.

(** The world after one call made with the credentials in hand. *)
Lemma call_carries (url : string) (headers : list (string * JsVal)) (body : JsVal)
  (accessToken authData : JsVal) (w : World) :
  no_call_to url w ->
  TokenCache.accessToken (cache w) = accessToken ->
  authData = TokenCache.authDataObject (TokenCache.authToken (cache w))
               (TokenCache.sek (cache w)) (TokenCache.userName (cache w)) ->
  assoc "Authorization" headers = Some (bearer accessToken) ->
  assoc "AuthToken" headers = Some (prop_opt authData "authToken") ->
  assoc "sek" headers = Some (prop_opt authData "sek") ->
  assoc "user_name" headers = Some (prop_opt authData "userName") ->
  calls_carry_cache url (mkWorld (cache w) (events w ++ [EvFetch url headers body])).
Proof.
  intros Hw Ha Hd H1 H2 H3 H4 h b Hin. cbn [cache events] in *.
  apply in_app_or in Hin. destruct Hin as [Hin|[Hin|[]]].
  - destruct (Hw h b Hin).
  - inversion Hin; subst h b.
    apply (credentials_carried accessToken authData (cache w) (cache w));
      auto using same_access_refl.
Qed.

Section CallsCarryCache.

Variable JSON_stringify : JsVal -> JsVal.
Variable Number : JsVal -> JsVal.
Variable newDate : JsVal -> JsVal.
Variable js_add : JsVal -> JsVal -> JsVal.
Variable js_ge : JsVal -> JsVal -> bool.
Variable buildInvoiceData :
  JsVal -> JsVal -> JsVal -> option DbResult -> JsVal -> JsVal -> Res JsVal.
Variable env : Env.

Lemma generate_steps_not_generate :
  Emits (not_to GENERATE_IRN_URL) (GenerateIrn.ensureAccessToken env)
  /\ forall accessToken,
       Emits (not_to GENERATE_IRN_URL) (GenerateIrn.ensureAuthData env accessToken).
Proof.
  split; [|intros accessToken];
    unfold GenerateIrn.ensureAccessToken, GenerateIrn.ensureAuthData;
    emits_with reflexivity; apply Silent_Emits, Silent_transportFailure.
Qed.

Lemma cancel_steps_not_cancel :
  Emits (not_to CANCEL_IRN_URL) (CancelIrn.ensureAccessToken env)
  /\ forall accessToken,
       Emits (not_to CANCEL_IRN_URL) (CancelIrn.ensureAuthData env accessToken).
Proof.
  split; [|intros accessToken];
    unfold CancelIrn.ensureAccessToken, CancelIrn.ensureAuthData, CancelIrn.answer;
    emits_with reflexivity.
Qed.

Lemma generateIrn_carries (accessToken authData document : JsVal) (w : World) :
  no_call_to GENERATE_IRN_URL w ->
  TokenCache.accessToken (cache w) = accessToken ->
  authData = TokenCache.authDataObject (TokenCache.authToken (cache w))
               (TokenCache.sek (cache w)) (TokenCache.userName (cache w)) ->
  calls_carry_cache GENERATE_IRN_URL
    (snd (GenerateIrn.generateIrn JSON_stringify env accessToken authData document w)).
Proof.
  intros Hw Ha Hd. unfold GenerateIrn.generateIrn.
  rewrite snd_bind_silent.
  2:{ intros r. silent; apply Silent_transportFailure. }
  rewrite fetch_world.
  apply (call_carries _ _ _ accessToken authData); auto.
Qed.

Lemma cancelIrn_carries (accessToken authData i code reason : JsVal) (w : World) :
  no_call_to CANCEL_IRN_URL w ->
  TokenCache.accessToken (cache w) = accessToken ->
  authData = TokenCache.authDataObject (TokenCache.authToken (cache w))
               (TokenCache.sek (cache w)) (TokenCache.userName (cache w)) ->
  calls_carry_cache CANCEL_IRN_URL
    (snd (CancelIrn.cancelIrn env accessToken authData i code reason w)).
Proof.
  intros Hw Ha Hd. unfold CancelIrn.cancelIrn.
  rewrite snd_bind_silent by (intros r; apply Silent_lift).
  rewrite fetch_world.
  apply (call_carries _ _ _ accessToken authData); auto.
Qed.

Lemma generate_calls_carry_cache (c : TokenCache.Cache) :
  calls_carry_cache GENERATE_IRN_URL
    (snd (GenerateIrn.handler JSON_stringify Number newDate js_add js_ge
            buildInvoiceData env (request c))).
Proof.
  unfold GenerateIrn.handler. rewrite handle_events.
  unfold GenerateIrn.handlerBody.
  assert (H0 : no_call_to GENERATE_IRN_URL (request c)) by (intros h b []).
  pose proof (no_call_after GENERATE_IRN_URL
                (GenerateIrn.prepare Number buildInvoiceData env) _
                (stores_not_to_url _ _ (prepare_stores Number buildInvoiceData env)) H0)
    as H1.
  unfold bind at 1.
  destruct (GenerateIrn.prepare Number buildInvoiceData env (request c))
    as [[p|r|e] w1]; cbn [snd] in H1;
    try (apply no_call_carries; exact H1).
  pose (after := fun irnData : JsVal =>
    GenerateIrn.persistAndAnswer Number newDate js_add js_ge env (req_body env)
      (GenerateIrn.unitId p) (GenerateIrn.customerId p) (GenerateIrn.invoice_no p)
      (GenerateIrn.invoiceData p) irnData).
  assert (Hafter : forall irnData w,
             calls_carry_cache GENERATE_IRN_URL w ->
             calls_carry_cache GENERATE_IRN_URL (snd (after irnData w))).
  { intros irnData w Hw. apply carries_after; [| |exact Hw].
    - apply stores_not_to_url, persistAndAnswer_stores.
    - apply persistAndAnswer_keeps_cache. }
  change (calls_carry_cache GENERATE_IRN_URL
            (snd (bind (GenerateIrn.obtainIrn JSON_stringify env (req_body env)
                          (GenerateIrn.invoiceData p)) after w1))).
  unfold GenerateIrn.obtainIrn.
  destruct (negb (js_strict_eq (prop_opt (req_body env) "invoice_type")
                    (JStr "NON BILLING"))).
  2:{ unfold bind, ret. apply Hafter, no_call_carries, H1. }
  destruct generate_steps_not_generate as [Ht Hd].
  pose proof (no_call_after _ _ _ Ht H1) as H2.
  unfold bind at 1. unfold bind at 1.
  destruct (GenerateIrn.ensureAccessToken env w1) as [[tok|r|e] w2] eqn:E1;
    cbn [snd] in H2; try (apply no_call_carries; exact H2).
  apply generate_ensureAccessToken_next in E1. destruct E1 as (Htok & _ & _).
  pose proof (no_call_after _ _ _ (Hd tok) H2) as H3.
  unfold bind at 1.
  destruct (GenerateIrn.ensureAuthData env tok w2) as [[ad|r|e] w3] eqn:E2;
    cbn [snd] in H3; try (apply no_call_carries; exact H3).
  apply generate_ensureAuthData_next in E2. destruct E2 as (Had & Hsame).
  assert (Htok3 : TokenCache.accessToken (cache w3) = tok).
  { destruct Hsame as [Hs _]. rewrite <- Hs. exact Htok. }
  pose proof (generateIrn_carries tok ad (GenerateIrn.invoiceData p) w3 H3 Htok3 Had)
    as H4.
  destruct (GenerateIrn.generateIrn JSON_stringify env tok ad
              (GenerateIrn.invoiceData p) w3) as [[irnData|r|e] w4];
    cbn [snd] in H4; try exact H4.
  apply Hafter, H4.
Qed.

Lemma cancel_calls_carry_cache (c : TokenCache.Cache) :
  calls_carry_cache CANCEL_IRN_URL (snd (CancelIrn.handler env (request c))).
Proof.
  unfold CancelIrn.handler. rewrite handle_events.
  unfold CancelIrn.handlerBody. cbv zeta.
  assert (H0 : no_call_to CANCEL_IRN_URL (request c)) by (intros h b []).
  pose proof (no_call_after CANCEL_IRN_URL (CancelIrn.validate env) _
                (stores_not_to_url _ _ (validate_stores env)) H0) as H1.
  unfold bind at 1.
  destruct (CancelIrn.validate env (request c)) as [[[]|r|e] w1]; cbn [snd] in H1;
    try (apply no_call_carries; exact H1).
  destruct cancel_steps_not_cancel as [Ht Hd].
  pose proof (no_call_after _ _ _ Ht H1) as H2.
  unfold bind at 1.
  destruct (CancelIrn.ensureAccessToken env w1) as [[tok|r|e] w2] eqn:E1;
    cbn [snd] in H2; try (apply no_call_carries; exact H2).
  apply cancel_ensureAccessToken_next in E1. destruct E1 as (Htok & _ & _).
  pose proof (no_call_after _ _ _ (Hd tok) H2) as H3.
  unfold bind at 1.
  destruct (CancelIrn.ensureAuthData env tok w2) as [[ad|r|e] w3] eqn:E2;
    cbn [snd] in H3; try (apply no_call_carries; exact H3).
  apply cancel_ensureAuthData_next in E2. destruct E2 as (Had & Hsame).
  assert (Htok3 : TokenCache.accessToken (cache w3) = tok).
  { destruct Hsame as [Hs _]. rewrite <- Hs. exact Htok. }
  pose proof (cancelIrn_carries tok ad (prop_opt (req_body env) "irn")
                (prop_opt (req_body env) "cancel_reason_code")
                (prop_opt (req_body env) "cancel_reason") w3 H3 Htok3 Had) as H4.
  unfold bind at 1.
  destruct (CancelIrn.cancelIrn env tok ad (prop_opt (req_body env) "irn")
              (prop_opt (req_body env) "cancel_reason_code")
              (prop_opt (req_body env) "cancel_reason") w3) as [[cancelData|r|e] w4];
    cbn [snd] in H4; try exact H4.
  apply carries_after; [| |exact H4].
  - apply stores_not_to_url, recordCancellation_stores.
  - apply recordCancellation_keeps_cache.
Qed.

End CallsCarryCache.

(** X22.  The generate-IRN call and the cancel-IRN call carry exactly
    the credentials the cache holds when the request is over: whenever a
    request issued the call, its [Authorization] header is the bearer
    string of the cached access token and its [AuthToken], [sek] and
    [user_name] headers are the cached session values, whether the
    credentials were found in the cache or fetched during the request
    and whatever happened after the call. *)
Theorem operation_call_carries_cached_credentials :
  forall (JSON_stringify Number newDate : JsVal -> JsVal)
         (js_add : JsVal -> JsVal -> JsVal) (js_ge : JsVal -> JsVal -> bool)
         (buildInvoiceData :
            JsVal -> JsVal -> JsVal -> option DbResult -> JsVal -> JsVal -> Res JsVal)
         (op : Operation) (env : Env) (c : TokenCache.Cache)
         (headers : list (string * JsVal)) (body : JsVal),
    In (EvFetch (target_url op) headers body)
       (events (snd (invoke JSON_stringify Number newDate js_add js_ge
                       buildInvoiceData op env c))) ->
    carries_cached_credentials headers
      (cache (snd (invoke JSON_stringify Number newDate js_add js_ge
                     buildInvoiceData op env c))).
Proof.
  intros JSON_stringify Number newDate js_add js_ge buildInvoiceData op env c
    headers body.
  destruct op; unfold invoke, generateHandler, target_url.
  - apply generate_calls_carry_cache.
  - apply cancel_calls_carry_cache.
Qed.

Lemma operation_call_carries_cached_credentials_witness :
  carries_cached_credentials
    [ ("accept", JStr "application/json"); ("gstin", JStr "configured");
      ("user_name", JStr "u1"); ("AuthToken", JStr "at1");
      ("Authorization", JStr "Bearer tok1"); ("sek", JStr "s1");
      ("Content-Type", JStr "application/json") ]
    (cache (snd (sample_invoke CancelOperation scenario_D TokenCache.cache0))).
Proof.
  apply (operation_call_carries_cached_credentials sample_stringify sample_Number
           sample_newDate sample_add sample_ge sample_build CancelOperation scenario_D
           TokenCache.cache0 _
           (JObj [ ("Irn", JStr "IRN123"); ("CnlRsn", JStr "1");
                   ("CnlRem", JStr "Duplicate") ])).
  vm_compute. do 4 right. left. reflexivity.
Defined.

(** ** The first cancel-IRN handler and the cached one *)

Lemma world_eta (w : World) : mkWorld (cache w) (events w) = w.
Proof. destruct w; reflexivity. Qed.

Lemma Oblivious_ret {A : Type} (a : A) : Oblivious (ret a).
Proof.
  exists (Next a), []. intros w. unfold ret. rewrite app_nil_r, world_eta. reflexivity.
Qed.

Lemma Oblivious_respond {A : Type} (code : Z) (v : JsVal) : Oblivious (@respond A code v).
Proof.
  exists (Respond (mkResponse code v)), []. intros w. unfold respond.
  rewrite app_nil_r, world_eta. reflexivity.
Qed.

Lemma Oblivious_lift {A : Type} (x : Res A) : Oblivious (lift x).
Proof.
  destruct x as [a|e]; [exists (Next a), [] | exists (Raise e), []]; intros w;
    unfold lift; rewrite app_nil_r, world_eta; reflexivity.
Qed.

Lemma Oblivious_store (operation : string) (argument : JsVal) (result : DbResult) :
  Oblivious (store operation argument result).
Proof. exists (Next result), [EvStore operation argument]. intros w. reflexivity. Qed.

Lemma Oblivious_bind {A B : Type} (m : M A) (f : A -> M B) :
  Oblivious m -> (forall a, Oblivious (f a)) -> Oblivious (bind m f).
Proof.
  intros (s & evs & Hm) Hf. destruct s as [a|r|e].
  - destruct (Hf a) as (s' & evs' & Hfa). exists s', (evs ++ evs')%list. intros w.
    unfold bind. rewrite Hm, Hfa. cbn [cache events]. rewrite app_assoc. reflexivity.
  - exists (Respond r), evs. intros w. unfold bind. rewrite Hm. reflexivity.
  - exists (Raise e), evs. intros w. unfold bind. rewrite Hm. reflexivity.
Qed.

Ltac oblivious :=
  repeat first
    [ apply Oblivious_ret | apply Oblivious_respond | apply Oblivious_lift
    | apply Oblivious_store
    | apply Oblivious_bind; [|intros ?]
    | split_computation ].

Lemma getAuthData_setAccessToken (token : JsVal) (t now : Time) (c : TokenCache.Cache) :
  TokenCache.getAuthData (TokenCache.setAccessToken token t c) now
  = TokenCache.getAuthData c now.
Proof. destruct c; reflexivity. Qed.

Section ColdCache.

Variable env : Env.

Lemma validate_oblivious : Oblivious (CancelIrn.validate env).
Proof. unfold CancelIrn.validate, CancelIrn.failure. cbv zeta. oblivious. Qed.

Lemma recordCancellation_oblivious (n i code reason cancelData : JsVal) :
  Oblivious (CancelIrn.recordCancellation env n i code reason cancelData).
Proof. unfold CancelIrn.recordCancellation. oblivious. Qed.

(** The two handlers after the validation, side by side. *)
Lemma cold_cache_steps (c : TokenCache.Cache) (evs0 : list Event) :
  truthy (TokenCache.getAccessToken c (now_getAccessToken env)) = false ->
  truthy (TokenCache.getAuthData c (now_getAuthData env)) = false ->
  CancelIrn.validate env (request c) = (Next tt, mkWorld c evs0) ->
  exists s c1 cached_events uncached_events,
    CancelIrn.handlerBody env (request c) = (s, mkWorld c1 cached_events)
    /\ CancelIrnUncached.handlerBody env (request c) = (s, mkWorld c uncached_events)
    /\ filter is_store cached_events = filter is_store uncached_events
    /\ List.length (filter is_fetch cached_events)
       = List.length (filter is_fetch uncached_events).
Proof.
  intros Hcold1 Hcold2 Hv.
  unfold CancelIrn.handlerBody, CancelIrnUncached.handlerBody. cbv zeta.
  rewrite !(bind_next _ _ _ _ _ Hv).
  cbv beta iota delta [bind readCache writeCache fetch emit lift ret respond
                         CancelIrn.ensureAccessToken CancelIrn.ensureAuthData
                         CancelIrn.cancelIrn CancelIrn.answer].
  cbn [cache events]. rewrite Hcold1.
  repeat first
    [ progress (cbv beta iota; cbn [cache events negb])
    | rewrite getAuthData_setAccessToken, Hcold2
    | match goal with
      | |- context [match ?x with Ok _ => _ | Throw _ => _ end] => destruct x
      | |- context [js_strict_eq ?a ?b] => destruct (js_strict_eq a b)
      end ].
  all: try match goal with
       | |- context [CancelIrn.recordCancellation env ?n ?i ?code ?reason ?d _] =>
           destruct (recordCancellation_oblivious n i code reason d) as (s & evs & Hrec);
           rewrite !Hrec
       end.
  all: do 4 eexists; split; [reflexivity|]; split; [reflexivity|];
    cbn [cache events]; rewrite ?filter_app; simpl; split;
    [reflexivity | rewrite ?length_app; reflexivity].
Qed.

Lemma Oblivious_fetch (url : string) (headers : list (string * JsVal)) (body : JsVal)
  (answer : Res HttpResponse) :
  Oblivious (fetch url headers body answer).
Proof.
  destruct answer as [r|e];
    [exists (Next r), [EvFetch url headers body]
    | exists (Raise e), [EvFetch url headers body]]; intros w; reflexivity.
Qed.

Lemma uncached_oblivious : Oblivious (CancelIrnUncached.handlerBody env).
Proof.
  unfold CancelIrnUncached.handlerBody, CancelIrn.answer. cbv zeta.
  apply Oblivious_bind; [apply validate_oblivious|]. intros _.
  apply Oblivious_bind; [apply Oblivious_fetch|]. intros response.
  apply Oblivious_bind; [apply Oblivious_lift|]. intros authenticated.
  apply Oblivious_bind; [apply Oblivious_lift|]. intros authStatus.
  destruct (js_strict_eq authStatus (JNum 1));
    [|apply Oblivious_bind; [apply Oblivious_lift | intros _; apply Oblivious_respond]].
  apply Oblivious_bind; [apply Oblivious_lift|]. intros payloadData.
  apply Oblivious_bind; [apply Oblivious_lift|]. intros accessToken.
  apply Oblivious_bind; [apply Oblivious_fetch|]. intros authResponse.
  apply Oblivious_bind; [apply Oblivious_lift|]. intros authData.
  apply Oblivious_bind; [apply Oblivious_lift|]. intros enhancedStatus.
  destruct (js_strict_eq enhancedStatus (JNum 1));
    [|apply Oblivious_bind; [apply Oblivious_lift | intros _; apply Oblivious_respond]].
  apply Oblivious_bind; [apply Oblivious_lift|]. intros sessionData.
  apply Oblivious_bind; [apply Oblivious_lift|]. intros sessionToken.
  apply Oblivious_bind; [apply Oblivious_fetch|]. intros cancelResponse.
  apply Oblivious_bind; [apply Oblivious_lift|]. intros cancelData.
  apply recordCancellation_oblivious.
Qed.

Lemma cold_cache_handlers (c : TokenCache.Cache) :
  truthy (TokenCache.getAccessToken c (now_getAccessToken env)) = false ->
  truthy (TokenCache.getAuthData c (now_getAuthData env)) = false ->
  fst (CancelIrn.handler env (request c)) = fst (CancelIrnUncached.handler env (request c))
  /\ store_events (snd (CancelIrn.handler env (request c)))
     = store_events (snd (CancelIrnUncached.handler env (request c)))
  /\ remote_call_count (snd (CancelIrn.handler env (request c)))
     = remote_call_count (snd (CancelIrnUncached.handler env (request c))).
Proof.
  intros Hcold1 Hcold2.
  unfold CancelIrn.handler, CancelIrnUncached.handler, store_events, remote_call_count.
  destruct validate_oblivious as (s0 & evs0 & Hv). specialize (Hv (request c)).
  cbn [request cache events app] in Hv.
  destruct s0 as [[]|r|e].
  - destruct (cold_cache_steps c evs0 Hcold1 Hcold2 Hv)
      as (s & c1 & ce & ue & Hc & Hu & Hst & Hn).
    unfold handle. rewrite Hc, Hu. cbn [snd events].
    destruct s; (split; [reflexivity | split; assumption]).
  - unfold handle, CancelIrn.handlerBody, CancelIrnUncached.handlerBody. cbv zeta.
    rewrite !(bind_respond _ _ _ _ _ Hv). repeat split.
  - unfold handle, CancelIrn.handlerBody, CancelIrnUncached.handlerBody. cbv zeta.
    rewrite !(bind_raise _ _ _ _ _ Hv). repeat split.
Qed.

End ColdCache.

(** X23.  The cancel-IRN handler that goes through the credential cache
    answers as the first handler of the file, which authenticates on
    every request, whenever the cache serves neither credential: for the
    same request and the same answers of the data store and of the
    e-invoice API, both give the same response, make the same data-store
    calls in the same order, and issue the same number of remote calls.
    The first handler does so whatever the cache holds, and leaves it
    alone. *)
Theorem cached_cancel_on_cold_cache_is_first_handler :
  forall (env : Env) (c c' : TokenCache.Cache),
    truthy (TokenCache.getAccessToken c (now_getAccessToken env)) = false ->
    truthy (TokenCache.getAuthData c (now_getAuthData env)) = false ->
    fst (CancelIrn.handler env (request c))
    = fst (CancelIrnUncached.handler env (request c'))
    /\ store_events (snd (CancelIrn.handler env (request c)))
       = store_events (snd (CancelIrnUncached.handler env (request c')))
    /\ remote_call_count (snd (CancelIrn.handler env (request c)))
       = remote_call_count (snd (CancelIrnUncached.handler env (request c')))
    /\ cache (snd (CancelIrnUncached.handler env (request c'))) = c'.
Proof.
  intros env c c' Hcold1 Hcold2.
  destruct (cold_cache_handlers env c Hcold1 Hcold2) as (Hr & Hs & Hn).
  rewrite Hr, Hs, Hn.
  destruct (uncached_oblivious env) as (s & evs & Hu).
  unfold CancelIrnUncached.handler, handle, store_events, remote_call_count.
  rewrite (Hu (request c)), (Hu (request c')).
  destruct s; repeat split.
Qed.

Lemma cached_cancel_on_cold_cache_is_first_handler_witness :
  fst (CancelIrn.handler scenario_D (request TokenCache.cache0))
  = fst (CancelIrnUncached.handler scenario_D (request warm_cache))
  /\ store_events (snd (CancelIrn.handler scenario_D (request TokenCache.cache0)))
     = store_events (snd (CancelIrnUncached.handler scenario_D (request warm_cache)))
  /\ remote_call_count (snd (CancelIrn.handler scenario_D (request TokenCache.cache0)))
     = remote_call_count (snd (CancelIrnUncached.handler scenario_D (request warm_cache)))
  /\ cache (snd (CancelIrnUncached.handler scenario_D (request warm_cache))) = warm_cache.
Proof.
  apply (cached_cancel_on_cold_cache_is_first_handler scenario_D TokenCache.cache0
           warm_cache); reflexivity.
Defined.

(** ** The repeated remote steps *)

Section RepeatedSteps.

Variable JSON_stringify : JsVal -> JsVal.
Variable env : Env.
Variable title : string.
Variable url : string.

Lemma steps_ensureAccessToken_fetches :
  Emits is_fetch (IrnSteps.ensureAccessToken env title url).
Proof.
  unfold IrnSteps.ensureAccessToken.
  emits_with reflexivity; apply Silent_Emits, Silent_transportFailure.
Qed.

Lemma steps_ensureAuthData_fetches (accessToken : JsVal) :
  Emits is_fetch (IrnSteps.ensureAuthData env title url accessToken).
Proof.
  unfold IrnSteps.ensureAuthData.
  emits_with reflexivity; apply Silent_Emits, Silent_transportFailure.
Qed.

Lemma steps_callGenerateIrn_fetches (accessToken authData document : JsVal) :
  Emits is_fetch (IrnSteps.callGenerateIrn env title url accessToken authData document).
Proof.
  unfold IrnSteps.callGenerateIrn.
  emits_with reflexivity; apply Silent_Emits, Silent_transportFailure.
Qed.

Lemma steps_generateIrn_fetches (accessToken authData document : JsVal) :
  Emits is_fetch
    (IrnSteps.generateIrn JSON_stringify env title url accessToken authData document).
Proof.
  unfold IrnSteps.generateIrn.
  apply Emits_bind; [apply steps_callGenerateIrn_fetches|]. intros irnData.
  emits_with reflexivity.
Qed.

(** The call of step 3 goes on only with the parsed body of an [ok]
    answer. *)
Lemma steps_callGenerateIrn_next (accessToken authData document irnData : JsVal)
  (w w' : World) :
  IrnSteps.callGenerateIrn env title url accessToken authData document w
  = (Next irnData, w') ->
  exists r, fetch_generate_irn env = Ok r /\ ok r = true /\ json r = Ok irnData.
Proof.
  unfold IrnSteps.callGenerateIrn. intros H.
  next_step H r w1 Hf. apply fetch_next_inv in Hf. destruct Hf as [Hf _].
  exists r. split; [exact Hf|].
  destruct (ok r); cbn [negb] in H.
  2:{ exfalso. exact (transportFailure_not_next env _ _ _ _ _ _ H). }
  split; [reflexivity|]. apply lift_next_inv in H. apply H.
Qed.

Lemma steps_generateIrn_next (accessToken authData document irnData : JsVal)
  (w w' : World) :
  IrnSteps.generateIrn JSON_stringify env title url accessToken authData document w
  = (Next irnData, w') ->
  exists r,
    fetch_generate_irn env = Ok r /\ ok r = true /\ json r = Ok irnData
    /\ truthy (prop_opt irnData "Irn") = true.
Proof.
  unfold IrnSteps.generateIrn. intros H.
  next_step H j w1 Hc. apply steps_callGenerateIrn_next in Hc.
  destruct Hc as (r & Hf & Hok & Hj).
  next_step H irn w2 Hi. apply lift_next_inv in Hi. destruct Hi as [Hi _].
  assert (Eo : prop_opt j "Irn" = irn) by (unfold prop_opt; rewrite Hi; reflexivity).
  destruct (truthy irn) eqn:Ht; cbn [negb] in H.
  - unfold ret in H. inversion H as [[Hj' Hw']]. subst j.
    exists r. repeat split; try assumption. rewrite Eo. exact Ht.
  - exfalso. next_step H x w3 Hx. discriminate H.
Qed.

End RepeatedSteps.
(** ** The regenerate handlers *)

Section RegenerateHandler.

Variable JSON_stringify : JsVal -> JsVal.
Variable newDate : JsVal -> JsVal.
Variable doc : Regenerate.Document.
Variable env : Env.
Variable document_single document_update : DbResult.

Lemma select_is_quiet (id : JsVal) :
  quiet doc (EvStore (Regenerate.table doc ++ ".select") id) = true.
Proof. destruct doc; reflexivity. Qed.

Lemma check_quiet : Emits (quiet doc) (Regenerate.check doc env document_single).
Proof.
  unfold Regenerate.check. emits_with ltac:(apply select_is_quiet).
Qed.

Lemma check_keeps_cache : KeepsCache (Regenerate.check doc env document_single).
Proof. unfold Regenerate.check. keeps_cache. Qed.

(** Destructuring reads the property, where there is an object to
    read it from. *)
Lemma destructure_ok (v : JsVal) (k source : string) (x : JsVal) :
  destructure v k source = Ok x -> prop v k = Ok x.
Proof. destruct v; simpl; intros H; try discriminate H; exact H. Qed.

Lemma destructure_readable (v : JsVal) (k source : string) :
  nullish v = false -> destructure v k source = Ok (prop_opt v k).
Proof.
  intros H. rewrite <- (prop_readable v k H).
  destruct v; try discriminate H; reflexivity.
Qed.

(** The checks let through a request that names a stored document
    without IRN and with its data. *)
Lemma check_next (w w' : World) (checked : JsVal * JsVal) :
  Regenerate.check doc env document_single w = (Next checked, w') ->
  GenerateIrn.missingEnvVars env = []
  /\ truthy (prop_opt (req_body env) (Regenerate.id_field doc)) = true
  /\ truthy (error document_single) = false
  /\ truthy (prop_opt (data document_single) "irn") = false
  /\ truthy (prop_opt (data document_single) (Regenerate.data_field doc)) = true
  /\ checked = (prop_opt (req_body env) (Regenerate.id_field doc),
                prop_opt (data document_single) (Regenerate.data_field doc))
  /\ w' = mkWorld (cache w)
            (events w ++ [EvStore (Regenerate.table doc ++ ".select")
                            (prop_opt (req_body env) (Regenerate.id_field doc))]).
Proof.
  unfold Regenerate.check. intros H.
  destruct (GenerateIrn.missingEnvVars env); [|discriminate H].
  next_step H docId w1 Hid. apply lift_next_inv in Hid. destruct Hid as [Hid Hw1].
  apply destructure_ok in Hid.
  assert (Eid : prop_opt (req_body env) (Regenerate.id_field doc) = docId)
    by (unfold prop_opt; rewrite Hid; reflexivity).
  rewrite Eid. subst w1.
  destruct (truthy docId); cbn [negb] in H; [|discriminate H].
  next_step H selected w2 Hs. rewrite store_run in Hs. inversion Hs; subst selected w2.
  destruct (truthy (error document_single)); cbn [orb] in H; [discriminate H|].
  destruct (truthy (data document_single)); cbn [negb] in H; [|discriminate H].
  destruct (truthy (prop_opt (data document_single) "irn")); [discriminate H|].
  destruct (truthy (prop_opt (data document_single) (Regenerate.data_field doc)));
    cbn [negb] in H; [|discriminate H].
  unfold ret in H. inversion H. repeat split.
Qed.

Lemma obtainIrn_fetches (document : JsVal) :
  Emits is_fetch (Regenerate.obtainIrn JSON_stringify doc env document).
Proof.
  unfold Regenerate.obtainIrn.
  apply Emits_bind; [apply steps_ensureAccessToken_fetches|]. intros accessToken.
  apply Emits_bind; [apply steps_ensureAuthData_fetches|]. intros authData.
  apply steps_generateIrn_fetches.
Qed.

Lemma regenerate_obtainIrn_next (document irnData : JsVal) (w w' : World) :
  Regenerate.obtainIrn JSON_stringify doc env document w = (Next irnData, w') ->
  exists r,
    fetch_generate_irn env = Ok r /\ ok r = true /\ json r = Ok irnData
    /\ truthy (prop_opt irnData "Irn") = true.
Proof.
  unfold Regenerate.obtainIrn. intros H.
  next_step H tok w1 H1. next_step H ad w2 H2.
  exact (steps_generateIrn_next _ _ _ _ _ _ _ _ _ _ H).
Qed.

(** A request that called the API or wrote the document got through the
    checks. *)
Lemma regenerate_active_request (c : TokenCache.Cache) (e : Event) :
  In e (events (snd (Regenerate.handler JSON_stringify newDate doc env document_single
                       document_update (request c)))) ->
  is_fetch e || is_update doc e = true ->
  exists checked w1,
    Regenerate.check doc env document_single (request c) = (Next checked, w1).
Proof.
  intros Hin He. unfold Regenerate.handler in Hin. rewrite handle_events in Hin.
  unfold Regenerate.handlerBody in Hin.
  destruct (check_quiet (request c)) as (evs & Hev & Hq).
  destruct (Regenerate.check doc env document_single (request c))
    as [[checked|r|x] w1] eqn:Hc.
  - exists checked, w1. reflexivity.
  - rewrite (bind_respond _ _ _ _ _ Hc) in Hin. cbn [snd] in Hin, Hev.
    rewrite Hev in Hin. apply (forallb_In _ _ _ Hq) in Hin. unfold quiet in Hin.
    rewrite He in Hin. discriminate Hin.
  - rewrite (bind_raise _ _ _ _ _ Hc) in Hin. cbn [snd] in Hin, Hev.
    rewrite Hev in Hin. apply (forallb_In _ _ _ Hq) in Hin. unfold quiet in Hin.
    rewrite He in Hin. discriminate Hin.
Qed.

(** A request that wrote the document had an IRN issued, wrote it, and
    answers as the outcome of the write says. *)
Lemma regenerate_written_row (c : TokenCache.Cache) (row : JsVal) :
  In (EvStore (Regenerate.table doc ++ ".update") row)
     (events (snd (Regenerate.handler JSON_stringify newDate doc env document_single
                     document_update (request c)))) ->
  exists irnData r c1 before,
    fetch_generate_irn env = Ok r /\ ok r = true /\ json r = Ok irnData
    /\ truthy (prop_opt irnData "Irn") = true
    /\ row = Regenerate.updateRow newDate
               (prop_opt (req_body env) (Regenerate.id_field doc)) irnData
    /\ Regenerate.handler JSON_stringify newDate doc env document_single
         document_update (request c)
       = handle
           (Regenerate.persistAndAnswer newDate doc document_update
              (prop_opt (req_body env) (Regenerate.id_field doc)) irnData)
           GenerateIrn.onError (mkWorld c1 before).
Proof.
  intros Hin.
  assert (Hupd : is_fetch (EvStore (Regenerate.table doc ++ ".update") row)
                 || is_update doc (EvStore (Regenerate.table doc ++ ".update") row)
                 = true).
  { simpl. apply String.eqb_refl. }
  destruct (regenerate_active_request c _ Hin Hupd) as (checked & w1 & Hc).
  destruct (check_next _ _ _ Hc) as (_ & _ & _ & _ & _ & Hchecked & Hw1).
  unfold Regenerate.handler in *. unfold handle in Hin.
  unfold Regenerate.handlerBody in *.
  unfold handle at 1. rewrite (bind_next _ _ _ _ _ Hc) in *.
  subst checked. cbn [fst snd] in *. cbn [request cache events app] in Hw1.
  destruct (obtainIrn_fetches
              (prop_opt (data document_single) (Regenerate.data_field doc)) w1)
    as (evs & Hev & Hf).
  destruct (Regenerate.obtainIrn JSON_stringify doc env
              (prop_opt (data document_single) (Regenerate.data_field doc)) w1)
    as [[irnData|r|x] w2] eqn:Ho; cbn [snd] in Hev.
  - destruct (regenerate_obtainIrn_next _ _ _ _ Ho) as (r & Hr & Hok & Hj & Hirn).
    rewrite (bind_next _ _ _ _ _ Ho) in *.
    exists irnData, r, (cache w2), (events w2).
    split; [exact Hr|]. split; [exact Hok|]. split; [exact Hj|].
    split; [exact Hirn|]. split.
    + unfold Regenerate.persistAndAnswer in Hin.
      rewrite (bind_next _ _ _ _ _ (store_run _ _ _ _)) in Hin.
      assert (Hin' :
        In (EvStore (Regenerate.table doc ++ ".update") row)
           (events w2 ++ [EvStore (Regenerate.table doc ++ ".update")
                            (Regenerate.updateRow newDate
                               (prop_opt (req_body env) (Regenerate.id_field doc))
                               irnData)])).
      { destruct (truthy (error document_update)).
        - unfold bind, lift, respond in Hin.
          destruct (prop (error document_update) "message"); exact Hin.
        - unfold bind, lift, ret in Hin.
          destruct (prop (data document_update) "irn"); exact Hin. }
      apply in_app_or in Hin'. destruct Hin' as [Hin'|[Hin'|[]]].
      * rewrite Hev, Hw1 in Hin'. cbn [events] in Hin'.
        destruct Hin' as [Hin'|Hin'].
        -- exfalso. inversion Hin' as [[Hop Harg]]. destruct doc; discriminate Hop.
        -- apply (forallb_In _ _ _ Hf) in Hin'. discriminate Hin'.
      * inversion Hin'. reflexivity.
    + rewrite world_eta. reflexivity.
  - exfalso. rewrite (bind_respond _ _ _ _ _ Ho) in Hin. cbn [snd] in Hin.
    rewrite Hev, Hw1 in Hin. cbn [events] in Hin. destruct Hin as [Hin|Hin].
    + inversion Hin as [[Hop Harg]]. destruct doc; discriminate Hop.
    + apply (forallb_In _ _ _ Hf) in Hin. discriminate Hin.
  - exfalso. rewrite (bind_raise _ _ _ _ _ Ho) in Hin. cbn [snd] in Hin.
    rewrite Hev, Hw1 in Hin. cbn [events] in Hin. destruct Hin as [Hin|Hin].
    + inversion Hin as [[Hop Harg]]. destruct doc; discriminate Hop.
    + apply (forallb_In _ _ _ Hf) in Hin. discriminate Hin.
Qed.

End RegenerateHandler.
(** X24.  The regenerate handlers (credit notes and invoices) check
    before they act.  A request that calls the e-invoice API or writes
    the document has the five environment variables set, names its
    document, found it without error, and the stored document has no
    IRN and has its data.  A stored document that already has an IRN is
    answered 400 "IRN Already Exists" with that IRN, after the one query
    that read it, with the cache untouched: an IRN on record is never
    overwritten. *)
Theorem regenerate_checks_before_acting :
  forall (JSON_stringify newDate : JsVal -> JsVal) (doc : Regenerate.Document)
         (env : Env) (document_single document_update : DbResult)
         (c : TokenCache.Cache),
    (forall e,
        In e (events (snd (Regenerate.handler JSON_stringify newDate doc env
                             document_single document_update (request c)))) ->
        is_fetch e || is_update doc e = true ->
        GenerateIrn.missingEnvVars env = []
        /\ truthy (prop_opt (req_body env) (Regenerate.id_field doc)) = true
        /\ truthy (error document_single) = false
        /\ truthy (prop_opt (data document_single) "irn") = false
        /\ truthy (prop_opt (data document_single) (Regenerate.data_field doc)) = true)
    /\ (GenerateIrn.missingEnvVars env = [] ->
        truthy (prop_opt (req_body env) (Regenerate.id_field doc)) = true ->
        truthy (error document_single) = false ->
        truthy (prop_opt (data document_single) "irn") = true ->
        Regenerate.handler JSON_stringify newDate doc env document_single
          document_update (request c)
        = (mkResponse 400
             (JObj [ ("error", JStr "IRN Already Exists");
                     ("details", JStr (Regenerate.already_registered doc));
                     ("existingIrn", prop_opt (data document_single) "irn") ]),
           mkWorld c [ EvStore (Regenerate.table doc ++ ".select")
                         (prop_opt (req_body env) (Regenerate.id_field doc)) ])).
Proof.
  intros JSON_stringify newDate doc env document_single document_update c. split.
  - intros e Hin He.
    destruct (regenerate_active_request JSON_stringify newDate doc env document_single
                document_update c e Hin He) as (checked & w1 & Hc).
    destruct (check_next _ _ _ _ _ _ Hc) as (H1 & H2 & H3 & H4 & H5 & _).
    repeat split; assumption.
  - intros Hconf Hid Herr Hirn.
    destruct (truthy_prop_object _ _ Hid) as (fields & Hbody).
    destruct (truthy_prop_object _ _ Hirn) as (row & Hrow).
    assert (Hc :
      Regenerate.check doc env document_single (request c)
      = (Respond
           (mkResponse 400
              (JObj [ ("error", JStr "IRN Already Exists");
                      ("details", JStr (Regenerate.already_registered doc));
                      ("existingIrn", prop_opt (data document_single) "irn") ])),
         mkWorld c [ EvStore (Regenerate.table doc ++ ".select")
                       (prop_opt (req_body env) (Regenerate.id_field doc)) ])).
    { unfold Regenerate.check. rewrite Hconf.
      rewrite (destructure_readable (req_body env) (Regenerate.id_field doc))
        by (rewrite Hbody; reflexivity).
      rewrite (bind_next _ _ _ _ _ (lift_ok _ _)). cbv beta.
      rewrite Hid. cbn [negb].
      rewrite (bind_next _ _ _ _ _ (store_run _ _ _ _)). cbv beta.
      assert (Hd : truthy (data document_single) = true)
        by (rewrite Hrow; reflexivity).
      rewrite Herr, Hirn, Hd. reflexivity. }
    unfold Regenerate.handler, handle, Regenerate.handlerBody.
    rewrite (bind_respond _ _ _ _ _ Hc). reflexivity.
Qed.

Lemma regenerate_checks_before_acting_witness :
  sample_regenerate registered_credit_note (found JNull)
  = (mkResponse 400
       (JObj [ ("error", JStr "IRN Already Exists");
               ("details",
                JStr "This credit note already has an IRN. Use cancel IRN first if you need to regenerate.");
               ("existingIrn", JStr "IRN-OLD") ]),
     mkWorld TokenCache.cache0 [ EvStore "credit_notes.select" (JNum 5) ]).
Proof.
  destruct (regenerate_checks_before_acting sample_stringify sample_newDate
              Regenerate.CreditNote
              (sample_env regenerate_body authenticated enhanced_authenticated
                 irn_generated irn_cancelled inserted_invoice (found JNull))
              registered_credit_note (found JNull) TokenCache.cache0) as [_ H].
  apply H; reflexivity.
Defined.

(** X25.  A regenerate handler that cannot save an issued IRN still
    reports it.  In every request that reaches the write of the
    document, the e-invoice API has answered the generate-irn call with
    a truthy [Irn], and that IRN is the [irn] of the row written; when
    the write fails the answer is 500 "Database Update Failed" with the
    message of the failure and the issued IRN under [irnGenerated]. *)
Theorem regenerate_reports_unsaved_irn :
  forall (JSON_stringify newDate : JsVal -> JsVal) (doc : Regenerate.Document)
         (env : Env) (document_single document_update : DbResult)
         (c : TokenCache.Cache) (row : JsVal),
    In (EvStore (Regenerate.table doc ++ ".update") row)
       (events (snd (Regenerate.handler JSON_stringify newDate doc env
                       document_single document_update (request c)))) ->
    exists irnData r,
      fetch_generate_irn env = Ok r /\ json r = Ok irnData
      /\ truthy (prop_opt irnData "Irn") = true
      /\ assoc "irn" (own_fields row) = Some (prop_opt irnData "Irn")
      /\ (truthy (error document_update) = true ->
          fst (Regenerate.handler JSON_stringify newDate doc env document_single
                 document_update (request c))
          = mkResponse 500
              (JObj [ ("error", JStr "Database Update Failed");
                      ("details", prop_opt (error document_update) "message");
                      ("irnGenerated", prop_opt irnData "Irn");
                      ("warning",
                       JStr "IRN was generated but failed to save to database") ])).
Proof.
  intros JSON_stringify newDate doc env document_single document_update c row Hin.
  destruct (regenerate_written_row JSON_stringify newDate doc env document_single
              document_update c row Hin)
    as (irnData & r & c1 & before & Hr & _ & Hj & Hirn & Hrow & Hres).
  exists irnData, r. split; [exact Hr|]. split; [exact Hj|]. split; [exact Hirn|].
  split; [rewrite Hrow; reflexivity|].
  intros Herr. rewrite Hres. unfold handle, Regenerate.persistAndAnswer.
  rewrite (bind_next _ _ _ _ _ (store_run _ _ _ _)). rewrite Herr.
  rewrite (truthy_prop_total _ "message" Herr).
  rewrite (bind_next _ _ _ _ _ (lift_ok _ _)). reflexivity.
Qed.

Lemma regenerate_reports_unsaved_irn_witness :
  fst (sample_regenerate stored_credit_note (store_failure "update failed"))
  = mkResponse 500
      (JObj [ ("error", JStr "Database Update Failed");
              ("details", JStr "update failed");
              ("irnGenerated", JStr "IRN123");
              ("warning", JStr "IRN was generated but failed to save to database") ]).
Proof.
  destruct (regenerate_reports_unsaved_irn sample_stringify sample_newDate
              Regenerate.CreditNote
              (sample_env regenerate_body authenticated enhanced_authenticated
                 irn_generated irn_cancelled inserted_invoice (found JNull))
              stored_credit_note (store_failure "update failed") TokenCache.cache0
              (JObj [ ("irn", JStr "IRN123"); ("qrcode", JStr "qr");
                      ("ack_no", JStr "A1"); ("ack_dt", JNull);
                      ("signed_invoice", JUndefined);
                      ("einvoice_status", JStr "GENERATED"); ("id", JNum 5) ]))
    as (irnData & r & Hr & Hj & _ & _ & Hfail).
  - vm_compute. do 4 right. left. reflexivity.
  - vm_compute in Hr. inversion Hr; subst r. vm_compute in Hj. inversion Hj; subst irnData.
    apply Hfail. reflexivity.
Defined.

(** ** The state codes of the generate-IRN handler *)

Section StateCodes.

Variable js_lt : JsVal -> JsVal -> bool.
Variable Number : JsVal -> JsVal.
Variable newDate : JsVal -> JsVal.
Variable productDescription : string -> JsVal.
Variable generateInvoiceJSONB : JsVal -> Res JsVal.

(** On a GSTIN that is a string both codes are read off it. *)
Lemma stateCodes_string (customer : JsVal) (s : string) :
  prop_opt customer "gstin" = JStr s ->
  InvoiceDocument.stateCodes js_lt customer
  = Ok (JStr (if (String.length s <? 2)%nat then "33" else substring 0 2 s),
        JStr (substring 0 2 s),
        (String.length s <? 2)%nat).
Proof.
  intros Hg. unfold InvoiceDocument.stateCodes. rewrite Hg.
  assert (Hor : Invoice.getStateCodeFromGSTIN js_lt (js_or (JStr s) (JStr ""))
                = Ok (JStr (if (String.length s <? 2)%nat then "33"
                            else substring 0 2 s))).
  { unfold js_or. destruct (truthy (JStr s)) eqn:Ht.
    - apply getStateCodeFromGSTIN_string.
    - destruct s; [reflexivity | discriminate Ht]. }
  rewrite Hor. cbn [res_bind InvoiceDocument.firstTwo js_strict_eq].
  destruct (Nat.ltb_spec (String.length s) 2) as [Hs|Hs].
  - destruct s as [|a [|b r]]; try reflexivity.
    + destruct (String.eqb_spec "33" (substring 0 2 (String a ""))) as [E|N];
        [simpl in E; inversion E | reflexivity].
    + simpl in Hs. lia.
  - rewrite String.eqb_refl. reflexivity.
Qed.

(** Without a GSTIN the document cannot be built: the product
    description is worked out first, then the state codes throw. *)
Lemma buildInvoiceData_without_gstin (body invoice_no customer : JsVal)
  (delivery : option DbResult) (unit gradeData : JsVal) :
  nullish (prop_opt customer "gstin") = true ->
  InvoiceDocument.buildInvoiceData js_lt Number newDate productDescription
    generateInvoiceJSONB body invoice_no customer delivery unit gradeData
  = Throw (if truthy (prop_opt gradeData "product_description")
              || printable (prop_opt body "grade")
           then cannot_read (to_string (prop_opt customer "gstin")) "substring"
           else cannot_convert).
Proof.
  intros Hn.
  unfold InvoiceDocument.buildInvoiceData, InvoiceDocument.productDesc,
    InvoiceDocument.stateCodes, ToString.
  cbv zeta.
  destruct (truthy (prop_opt gradeData "product_description")); cbn [orb res_bind].
  - destruct (prop_opt customer "gstin"); try discriminate Hn; reflexivity.
  - destruct (printable (prop_opt body "grade")); cbn [res_bind]; [|reflexivity].
    destruct (prop_opt customer "gstin"); try discriminate Hn; reflexivity.
Qed.

End StateCodes.
Section Lookups.

Variable Number : JsVal -> JsVal.
Variable buildInvoiceData :
  JsVal -> JsVal -> JsVal -> option DbResult -> JsVal -> JsVal -> Res JsVal.
Variable env : Env.

(** The lookups of the generate-IRN handler end before the grade is
    queried, or hand the rows to the builder of the document. *)
Lemma prepare_outcomes (c : TokenCache.Cache) (s : Step GenerateIrn.Prepared)
  (w1 : World) :
  GenerateIrn.prepare Number buildInvoiceData env (request c) = (s, w1) ->
  cache w1 = c
  /\ forallb is_lookup (events w1) = true
  /\ (((forall grade, ~ In (EvStore "grades.select" grade) (events w1))
       /\ forall p, s <> Next p)
      \/ exists invoice_no delivery,
           forall e,
             buildInvoiceData (req_body env) invoice_no (data (customers_single env))
               delivery (data (units_single env)) (data (grades_maybeSingle env))
             = Throw e ->
             s = Raise e).
Proof.
  unfold GenerateIrn.prepare.
  destruct (GenerateIrn.missingEnvVars env).
  2:{ intros H. inversion H; subst. repeat split. left. split.
      - intros grade [].
      - intros p Hp. discriminate Hp. }
  cbv zeta.
  destruct (prop (req_body env) "unit_id") as [unit_id|x].
  2:{ intros H. inversion H; subst. repeat split. left. split.
      - intros grade [].
      - intros p Hp. discriminate Hp. }
  rewrite (bind_next _ _ _ _ _ (lift_ok _ _)). cbv beta.
  destruct (ToPrimitive unit_id) as [[]|x].
  2:{ intros H. inversion H; subst. repeat split. left. split.
      - intros grade [].
      - intros p Hp. discriminate Hp. }
  rewrite (bind_next _ _ _ _ _ (lift_ok _ _)). cbv beta.
  destruct (ToPrimitive (prop_opt (req_body env) "customer_id")) as [[]|x].
  2:{ intros H. inversion H; subst. repeat split. left. split.
      - intros grade [].
      - intros p Hp. discriminate Hp. }
  rewrite (bind_next _ _ _ _ _ (lift_ok _ _)). cbv beta.
  destruct (if truthy (prop_opt (req_body env) "delivery_address_id")
            then ToPrimitive (prop_opt (req_body env) "delivery_address_id")
            else Ok tt) as [[]|x].
  2:{ intros H. inversion H; subst. repeat split. left. split.
      - intros grade [].
      - intros p Hp. discriminate Hp. }
  rewrite (bind_next _ _ _ _ _ (lift_ok _ _)). cbv beta.
  rewrite (bind_next _ _ _ _ _ (store_run _ _ _ _)). cbv beta.
  cbn [request cache events app].
  destruct (truthy (error (rpc_generate_invoice_number env))).
  { unfold bind, lift, respond.
    destruct (prop (error (rpc_generate_invoice_number env)) "message");
      intros H; inversion H; subst; (split; [reflexivity|]); (split; [reflexivity|]);
      left; (split; [intros grade [Hg|[]]; discriminate Hg | intros p Hp; discriminate Hp]). }
  rewrite (bind_next _ _ _ _ _ (store_run _ _ _ _)). cbv beta. cbn [cache events app].
  destruct (truthy (error (customers_single env))
            || negb (truthy (data (customers_single env)))).
  { intros H. inversion H; subst. split; [reflexivity|]. split; [reflexivity|].
    left. split.
    - intros grade [Hg|[Hg|[]]]; discriminate Hg.
    - intros p Hp. discriminate Hp. }
  destruct (truthy (if truthy (prop_opt (req_body env) "delivery_address_id")
                    then Number (prop_opt (req_body env) "delivery_address_id")
                    else JNull)).
  - rewrite (bind_next _ _ _ _ _
               (bind_next _ _ _ _ _ (store_run _ _ _ _))). cbv beta.
    unfold ret at 1. cbn [cache events app].
    rewrite (bind_next _ _ _ _ _ (store_run _ _ _ _)). cbv beta. cbn [cache events app].
    destruct (truthy (error (units_single env))
              || negb (truthy (data (units_single env)))).
    { intros H. inversion H; subst. split; [reflexivity|]. split; [reflexivity|].
      left. split.
      - intros grade [Hg|[Hg|[Hg|[Hg|[]]]]]; discriminate Hg.
      - intros p Hp. discriminate Hp. }
    rewrite (bind_next _ _ _ _ _ (store_run _ _ _ _)). cbv beta. cbn [cache events app].
    intros H. unfold bind, lift, ret in H.
    split; [|split].
    + destruct (buildInvoiceData _ _ _ _ _ _); inversion H; reflexivity.
    + destruct (buildInvoiceData _ _ _ _ _ _); inversion H; reflexivity.
    + right. exists (data (rpc_generate_invoice_number env)),
               (Some (delivery_addresses_single env)).
      intros e He. rewrite He in H. inversion H. reflexivity.
  - rewrite (bind_next _ _ _ _ _ (eq_refl : ret None _ = (Next None, _))). cbv beta.
    rewrite (bind_next _ _ _ _ _ (store_run _ _ _ _)). cbv beta. cbn [cache events app].
    destruct (truthy (error (units_single env))
              || negb (truthy (data (units_single env)))).
    { intros H. inversion H; subst. split; [reflexivity|]. split; [reflexivity|].
      left. split.
      - intros grade [Hg|[Hg|[Hg|[]]]]; discriminate Hg.
      - intros p Hp. discriminate Hp. }
    rewrite (bind_next _ _ _ _ _ (store_run _ _ _ _)). cbv beta. cbn [cache events app].
    intros H. unfold bind, lift, ret in H.
    split; [|split].
    + destruct (buildInvoiceData _ _ _ _ _ _); inversion H; reflexivity.
    + destruct (buildInvoiceData _ _ _ _ _ _); inversion H; reflexivity.
    + right. exists (data (rpc_generate_invoice_number env)), None.
      intros e He. rewrite He in H. inversion H. reflexivity.
Qed.

End Lookups.
(** X26.  The generate-IRN handler reads the state code of the unit off
    the customer's GSTIN.  For a GSTIN that is a string the two codes
    and the inter-state flag handed to the document builder depend on
    the GSTIN alone: the unit code is its first two characters, and the
    flag is set exactly when it has fewer than two.  For a customer row
    whose GSTIN is [null] or missing, the request that has looked up
    its grade is answered 500 with the message of a TypeError, after
    the lookups only: no call to the e-invoice API, no invoice row, the
    cache untouched.  The message is that of the read of [substring],
    unless the grade row has no product description and the grade of
    the request has no string conversion: the template string of the
    description is evaluated first and throws then. *)
Theorem customer_without_gstin_cannot_be_invoiced :
  forall (js_lt : JsVal -> JsVal -> bool)
         (JSON_stringify Number newDate : JsVal -> JsVal)
         (js_add : JsVal -> JsVal -> JsVal) (js_ge : JsVal -> JsVal -> bool)
         (productDescription : string -> JsVal)
         (generateInvoiceJSONB : JsVal -> Res JsVal)
         (env : Env) (c : TokenCache.Cache),
    (forall customer s,
        prop_opt customer "gstin" = JStr s ->
        InvoiceDocument.stateCodes js_lt customer
        = Ok (JStr (if (String.length s <? 2)%nat then "33" else substring 0 2 s),
              JStr (substring 0 2 s),
              (String.length s <? 2)%nat))
    /\ (forall grade,
           In (EvStore "grades.select" grade)
              (events (snd (GenerateIrn.handler JSON_stringify Number newDate js_add
                              js_ge
                              (InvoiceDocument.buildInvoiceData js_lt Number newDate
                                 productDescription generateInvoiceJSONB)
                              env (request c)))) ->
           nullish (prop_opt (data (customers_single env)) "gstin") = true ->
           fst (GenerateIrn.handler JSON_stringify Number newDate js_add js_ge
                  (InvoiceDocument.buildInvoiceData js_lt Number newDate
                     productDescription generateInvoiceJSONB)
                  env (request c))
           = mkResponse 500
               (JObj [ ("error",
                        if truthy (prop_opt (data (grades_maybeSingle env))
                                     "product_description")
                           || printable (prop_opt (req_body env) "grade")
                        then cannot_read
                               (to_string
                                  (prop_opt (data (customers_single env)) "gstin"))
                               "substring"
                        else cannot_convert) ])
           /\ forallb is_lookup
                (events (snd (GenerateIrn.handler JSON_stringify Number newDate js_add
                                js_ge
                                (InvoiceDocument.buildInvoiceData js_lt Number newDate
                                   productDescription generateInvoiceJSONB)
                                env (request c)))) = true
           /\ cache (snd (GenerateIrn.handler JSON_stringify Number newDate js_add
                            js_ge
                            (InvoiceDocument.buildInvoiceData js_lt Number newDate
                               productDescription generateInvoiceJSONB)
                            env (request c))) = c).
Proof.
  intros js_lt JSON_stringify Number newDate js_add js_ge productDescription
    generateInvoiceJSONB env c.
  split; [intros customer s; apply stateCodes_string|].
  intros grade Hin Hnull.
  unfold GenerateIrn.handler, handle, GenerateIrn.handlerBody in *.
  destruct (GenerateIrn.prepare Number
              (InvoiceDocument.buildInvoiceData js_lt Number newDate productDescription
                 generateInvoiceJSONB) env (request c)) as [s w1] eqn:Hp.
  destruct (prepare_outcomes _ _ _ _ _ _ Hp) as (Hc & Hl & [[Hno Hnext]|(n & d & Hb)]).
  - exfalso. destruct s as [p|r|e].
    + exact (Hnext p eq_refl).
    + rewrite (bind_respond _ _ _ _ _ Hp) in Hin. exact (Hno grade Hin).
    + rewrite (bind_raise _ _ _ _ _ Hp) in Hin. exact (Hno grade Hin).
  - specialize (Hb _ (buildInvoiceData_without_gstin js_lt Number newDate
                        productDescription generateInvoiceJSONB _ _ _ _ _ _ Hnull)).
    subst s. rewrite (bind_raise _ _ _ _ _ Hp). cbn [fst snd].
    split; [|split; assumption].
    unfold GenerateIrn.onError, cannot_read, cannot_convert.
    destruct (truthy (prop_opt (data (grades_maybeSingle env)) "product_description")
              || printable (prop_opt (req_body env) "grade")); reflexivity.
Qed.

Lemma customer_without_gstin_cannot_be_invoiced_witness :
  fst (GenerateIrn.handler sample_stringify sample_Number sample_newDate sample_add
         sample_ge
         (InvoiceDocument.buildInvoiceData sample_lt sample_Number sample_newDate
            JStr sample_document)
         customer_without_gstin (request TokenCache.cache0))
  = mkResponse 500
      (JObj [ ("error", JStr "Cannot read properties of null (reading 'substring')") ]).
Proof.
  destruct (customer_without_gstin_cannot_be_invoiced sample_lt sample_stringify
              sample_Number sample_newDate sample_add sample_ge JStr
              sample_document customer_without_gstin TokenCache.cache0) as [_ H].
  destruct (H (JStr "M20")) as [Hresponse _].
  - vm_compute. do 3 right. left. reflexivity.
  - reflexivity.
  - exact Hresponse.
Defined.

(** ** The credit-note handler *)

Section CreditNoteHandler.

Variable JSON_stringify : JsVal -> JsVal.
Variable Number : JsVal -> JsVal.
Variable newDate : JsVal -> JsVal.
Variable buildCreditNoteData :
  JsVal -> JsVal -> JsVal -> JsVal -> JsVal -> JsVal -> Res JsVal.
Variable env : Env.
Variable rpc_generate_credit_note_number : DbResult.
Variable credit_notes_insert : DbResult.


Lemma credit_note_prepare_keeps_cache :
  KeepsCache
    (GenerateCreditNote.prepare Number buildCreditNoteData env
       rpc_generate_credit_note_number).
Proof. unfold GenerateCreditNote.prepare. keeps_cache. Qed.



End CreditNoteHandler.


(** ** The cancel handler for credit notes *)

Lemma all_after {A : Type} (allowed : Event -> bool) (m : M A) (w : World) :
  Emits allowed m ->
  forallb allowed (events w) = true ->
  forallb allowed (events (snd (m w))) = true.
Proof.
  intros He Hw. destruct (He w) as (evs & Hev & Hall).
  rewrite Hev, forallb_app, Hw, Hall. reflexivity.
Qed.

Section CancelCreditNote.

Variable env : Env.
Variable credit_notes_single : DbResult.
Variable canceled_credit_notes_insert : DbResult.
Variable credit_notes_update : DbResult.

Lemma credit_note_steps_no_mark :
  Emits no_mark (CancelCreditNoteIrn.validate env credit_notes_single)
  /\ Emits no_mark (CancelCreditNoteIrn.ensureAccessToken env)
  /\ forall accessToken,
       Emits no_mark (CancelCreditNoteIrn.ensureAuthData env accessToken).
Proof.
  split; [|split; [|intros accessToken]];
    unfold CancelCreditNoteIrn.validate, CancelCreditNoteIrn.ensureAccessToken,
      CancelCreditNoteIrn.ensureAuthData, CancelIrn.failure, CancelIrn.answer;
    cbv zeta; emits_with reflexivity.
Qed.

(** A request that marked the credit note went through every step. *)
Lemma credit_note_mark_steps (c : TokenCache.Cache) (arg : JsVal) :
  In (EvStore "credit_notes.update" arg)
     (events (snd (CancelCreditNoteIrn.handler env credit_notes_single
                     canceled_credit_notes_insert credit_notes_update (request c)))) ->
  exists c1 before headers call_body r cancelData,
    forallb no_mark before = true
    /\ fetch_cancel_irn env = Ok r
    /\ json r = Ok cancelData
    /\ CancelCreditNoteIrn.handler env credit_notes_single canceled_credit_notes_insert
         credit_notes_update (request c)
       = handle
           (CancelCreditNoteIrn.recordCancellation canceled_credit_notes_insert
              credit_notes_update (prop_opt (req_body env) "credit_note_no")
              (prop_opt (req_body env) "irn")
              (prop_opt (req_body env) "cancel_reason_code")
              (prop_opt (req_body env) "cancel_reason") cancelData)
           CancelIrn.onError
           (mkWorld c1
              (before ++ [EvFetch PRODUCTION_CANCEL_IRN_URL headers call_body])).
Proof.
  intros Hin.
  assert (Hmark : no_mark (EvStore "credit_notes.update" arg) = false) by reflexivity.
  unfold CancelCreditNoteIrn.handler in *. rewrite handle_events in Hin.
  unfold handle at 1. unfold CancelCreditNoteIrn.handlerBody in *. cbv zeta in *.
  destruct credit_note_steps_no_mark as (Hv & Ht & Hd).
  assert (H0 : forallb no_mark (events (request c)) = true) by reflexivity.
  pose proof (all_after _ _ _ Hv H0) as H1.
  destruct (CancelCreditNoteIrn.validate env credit_notes_single (request c))
    as [[[]|x|x] w1] eqn:E0; cbn [snd] in H1.
  2:{ rewrite (bind_respond _ _ _ _ _ E0) in Hin.
      apply (forallb_In _ _ _ H1) in Hin. rewrite Hmark in Hin. discriminate Hin. }
  2:{ rewrite (bind_raise _ _ _ _ _ E0) in Hin.
      apply (forallb_In _ _ _ H1) in Hin. rewrite Hmark in Hin. discriminate Hin. }
  rewrite (bind_next _ _ _ _ _ E0) in *.
  pose proof (all_after _ _ _ Ht H1) as H2.
  destruct (CancelCreditNoteIrn.ensureAccessToken env w1) as [[tok|x|x] w2] eqn:E1;
    cbn [snd] in H2.
  2:{ rewrite (bind_respond _ _ _ _ _ E1) in Hin.
      apply (forallb_In _ _ _ H2) in Hin. rewrite Hmark in Hin. discriminate Hin. }
  2:{ rewrite (bind_raise _ _ _ _ _ E1) in Hin.
      apply (forallb_In _ _ _ H2) in Hin. rewrite Hmark in Hin. discriminate Hin. }
  rewrite (bind_next _ _ _ _ _ E1) in *.
  pose proof (all_after _ _ _ (Hd tok) H2) as H3.
  destruct (CancelCreditNoteIrn.ensureAuthData env tok w2) as [[ad|x|x] w3] eqn:E2;
    cbn [snd] in H3.
  2:{ rewrite (bind_respond _ _ _ _ _ E2) in Hin.
      apply (forallb_In _ _ _ H3) in Hin. rewrite Hmark in Hin. discriminate Hin. }
  2:{ rewrite (bind_raise _ _ _ _ _ E2) in Hin.
      apply (forallb_In _ _ _ H3) in Hin. rewrite Hmark in Hin. discriminate Hin. }
  rewrite (bind_next _ _ _ _ _ E2) in *.
  unfold CancelCreditNoteIrn.cancelIrn in *.
  unfold fetch, emit, lift in *. unfold bind at 1 2 3 in Hin. unfold bind at 1 2 3.
  cbn [cache events] in *.
  destruct (fetch_cancel_irn env) as [r|x] eqn:Hf.
  2:{ exfalso. cbn [snd events] in Hin. apply in_app_or in Hin.
      destruct Hin as [Hin|[Hin|[]]]; [|discriminate Hin].
      apply (forallb_In _ _ _ H3) in Hin. rewrite Hmark in Hin. discriminate Hin. }
  destruct (json r) as [cancelData|x] eqn:Hj.
  2:{ exfalso. cbn [snd events] in Hin. apply in_app_or in Hin.
      destruct Hin as [Hin|[Hin|[]]]; [|discriminate Hin].
      apply (forallb_In _ _ _ H3) in Hin. rewrite Hmark in Hin. discriminate Hin. }
  exists (cache w3), (events w3). do 2 eexists. exists r, cancelData.
  split; [exact H3|]. split; [reflexivity|]. split; [exact Hj|]. reflexivity.
Qed.

End CancelCreditNote.
(** X28.  The cancel handler for credit notes marks a credit note as
    cancelled only after the cancellation is on record.  In every
    request that writes [is_cancelled], that write is the last event of
    the request and follows directly the insert of the cancellation
    record (the four fields of the request body), which follows directly
    the cancel-irn call; the insert reported no error, the call was
    answered with a parsed body whose [Irn] is not [null], and the mark
    names the credit note of the request.  The answer is then that body
    with status 200, or 500 when the mark itself fails. *)
Theorem credit_note_marked_only_after_record :
  forall (env : Env)
         (credit_notes_single canceled_credit_notes_insert credit_notes_update : DbResult)
         (c : TokenCache.Cache) (arg : JsVal),
    In (EvStore "credit_notes.update" arg)
       (events (snd (CancelCreditNoteIrn.handler env credit_notes_single
                       canceled_credit_notes_insert credit_notes_update (request c)))) ->
    exists before headers call_body r cancelData,
      events (snd (CancelCreditNoteIrn.handler env credit_notes_single
                     canceled_credit_notes_insert credit_notes_update (request c)))
      = (before
         ++ [ EvFetch PRODUCTION_CANCEL_IRN_URL headers call_body;
              EvStore "canceled_credit_notes.insert"
                (CancelCreditNoteIrn.cancellationRecord
                   (prop_opt (req_body env) "credit_note_no")
                   (prop_opt (req_body env) "irn")
                   (prop_opt (req_body env) "cancel_reason_code")
                   (prop_opt (req_body env) "cancel_reason"));
              EvStore "credit_notes.update" arg ])%list
      /\ forallb no_mark before = true
      /\ arg = CancelCreditNoteIrn.cancelledMark (prop_opt (req_body env) "credit_note_no")
      /\ truthy (error canceled_credit_notes_insert) = false
      /\ fetch_cancel_irn env = Ok r
      /\ json r = Ok cancelData
      /\ js_strict_eq (prop_opt cancelData "Irn") JNull = false
      /\ fst (CancelCreditNoteIrn.handler env credit_notes_single
                canceled_credit_notes_insert credit_notes_update (request c))
         = (if truthy (error credit_notes_update)
            then mkResponse 500
                   (JObj [ ("status", JNum 0);
                           ("errorMessage", JStr "Failed to update credit note status");
                           ("details", error credit_notes_update) ])
            else mkResponse 200 cancelData).
Proof.
  intros env credit_notes_single canceled_credit_notes_insert credit_notes_update c arg
    Hin.
  destruct (credit_note_mark_steps env credit_notes_single canceled_credit_notes_insert
              credit_notes_update c arg Hin)
    as (c1 & before & headers & call_body & r & cancelData & Hb & Hf & Hj & Hres).
  exists before, headers, call_body, r, cancelData.
  rewrite Hres in *. clear Hres.
  assert (Hmark : no_mark (EvStore "credit_notes.update" arg) = false) by reflexivity.
  assert (Hrun :
    exists irn,
      prop cancelData "Irn" = Ok irn
      /\ js_strict_eq irn JNull = false
      /\ truthy (error canceled_credit_notes_insert) = false).
  { unfold handle, CancelCreditNoteIrn.recordCancellation in Hin.
    unfold bind at 1 in Hin. unfold lift in Hin.
    destruct (prop cancelData "Irn") as [irn|x] eqn:Hirn.
    2:{ exfalso. cbn [snd events] in Hin. apply in_app_or in Hin.
        destruct Hin as [Hin|[Hin|[]]]; [|discriminate Hin].
        apply (forallb_In _ _ _ Hb) in Hin. rewrite Hmark in Hin. discriminate Hin. }
    exists irn. split; [reflexivity|].
    destruct (js_strict_eq irn JNull); cbn [negb] in Hin.
    { exfalso. cbn [snd events] in Hin. apply in_app_or in Hin.
      destruct Hin as [Hin|[Hin|[]]]; [|discriminate Hin].
      apply (forallb_In _ _ _ Hb) in Hin. rewrite Hmark in Hin. discriminate Hin. }
    split; [reflexivity|].
    rewrite (bind_next _ _ _ _ _ (store_run _ _ _ _)) in Hin. cbv beta in Hin.
    cbn [cache events] in Hin.
    destruct (truthy (error canceled_credit_notes_insert)); [|reflexivity].
    exfalso. cbn [snd events] in Hin. apply in_app_or in Hin.
    destruct Hin as [Hin|[Hin|[]]]; [|discriminate Hin].
    apply in_app_or in Hin.
    destruct Hin as [Hin|[Hin|[]]]; [|discriminate Hin].
    apply (forallb_In _ _ _ Hb) in Hin. rewrite Hmark in Hin. discriminate Hin. }
  destruct Hrun as (irn & Hirn & Hnull & Hins).
  assert (Eo : prop_opt cancelData "Irn" = irn)
    by (unfold prop_opt; rewrite Hirn; reflexivity).
  assert (Hrec : forall w,
    CancelCreditNoteIrn.recordCancellation canceled_credit_notes_insert
      credit_notes_update (prop_opt (req_body env) "credit_note_no")
      (prop_opt (req_body env) "irn") (prop_opt (req_body env) "cancel_reason_code")
      (prop_opt (req_body env) "cancel_reason") cancelData w
    = ((if truthy (error credit_notes_update)
        then Respond
               (mkResponse 500
                  (JObj [ ("status", JNum 0);
                          ("errorMessage", JStr "Failed to update credit note status");
                          ("details", error credit_notes_update) ]))
        else Next (mkResponse 200 cancelData)),
       mkWorld (cache w)
         ((events w
           ++ [ EvStore "canceled_credit_notes.insert"
                  (CancelCreditNoteIrn.cancellationRecord
                     (prop_opt (req_body env) "credit_note_no")
                     (prop_opt (req_body env) "irn")
                     (prop_opt (req_body env) "cancel_reason_code")
                     (prop_opt (req_body env) "cancel_reason")) ])
          ++ [ EvStore "credit_notes.update"
                 (CancelCreditNoteIrn.cancelledMark
                    (prop_opt (req_body env) "credit_note_no")) ]))).
  { intros w. unfold CancelCreditNoteIrn.recordCancellation.
    rewrite Hirn. rewrite (bind_next _ _ _ _ _ (lift_ok _ _)). cbv beta.
    rewrite Hnull. cbn [negb].
    rewrite (bind_next _ _ _ _ _ (store_run _ _ _ _)). cbv beta. rewrite Hins.
    rewrite (bind_next _ _ _ _ _ (store_run _ _ _ _)). cbv beta.
    destruct (truthy (error credit_notes_update)); reflexivity. }
  unfold handle in *. rewrite Hrec in *. cbn [cache events] in *.
  assert (Hev : forall s : Step Response,
    events (snd (match s with
                 | Next r0 | Respond r0 => (r0, mkWorld c1
                     (((before ++ [EvFetch PRODUCTION_CANCEL_IRN_URL headers call_body])
                       ++ [ EvStore "canceled_credit_notes.insert"
                              (CancelCreditNoteIrn.cancellationRecord
                                 (prop_opt (req_body env) "credit_note_no")
                                 (prop_opt (req_body env) "irn")
                                 (prop_opt (req_body env) "cancel_reason_code")
                                 (prop_opt (req_body env) "cancel_reason")) ])
                      ++ [ EvStore "credit_notes.update"
                             (CancelCreditNoteIrn.cancelledMark
                                (prop_opt (req_body env) "credit_note_no")) ]))
                 | Raise e => (CancelIrn.onError e, mkWorld c1
                     (((before ++ [EvFetch PRODUCTION_CANCEL_IRN_URL headers call_body])
                       ++ [ EvStore "canceled_credit_notes.insert"
                              (CancelCreditNoteIrn.cancellationRecord
                                 (prop_opt (req_body env) "credit_note_no")
                                 (prop_opt (req_body env) "irn")
                                 (prop_opt (req_body env) "cancel_reason_code")
                                 (prop_opt (req_body env) "cancel_reason")) ])
                      ++ [ EvStore "credit_notes.update"
                             (CancelCreditNoteIrn.cancelledMark
                                (prop_opt (req_body env) "credit_note_no")) ]))
                 end))
    = (before
       ++ [ EvFetch PRODUCTION_CANCEL_IRN_URL headers call_body;
            EvStore "canceled_credit_notes.insert"
              (CancelCreditNoteIrn.cancellationRecord
                 (prop_opt (req_body env) "credit_note_no")
                 (prop_opt (req_body env) "irn")
                 (prop_opt (req_body env) "cancel_reason_code")
                 (prop_opt (req_body env) "cancel_reason"));
            EvStore "credit_notes.update"
              (CancelCreditNoteIrn.cancelledMark
                 (prop_opt (req_body env) "credit_note_no")) ])%list).
  { intros s. destruct s; cbn [snd events]; rewrite <- !app_assoc; reflexivity. }
  rewrite Hev in *.
  assert (Harg : arg = CancelCreditNoteIrn.cancelledMark
                         (prop_opt (req_body env) "credit_note_no")).
  { apply in_app_or in Hin. destruct Hin as [Hin|Hin].
    - apply (forallb_In _ _ _ Hb) in Hin. rewrite Hmark in Hin. discriminate Hin.
    - destruct Hin as [Hin|[Hin|[Hin|[]]]]; try discriminate Hin.
      inversion Hin. reflexivity. }
  subst arg.
  split; [reflexivity|].
  split; [exact Hb|]. split; [reflexivity|]. split; [exact Hins|].
  split; [exact Hf|]. split; [exact Hj|]. split; [rewrite Eo; exact Hnull|].
  destruct (truthy (error credit_notes_update)); reflexivity.
Qed.

Lemma credit_note_marked_only_after_record_witness :
  fst sample_cancel_credit_note
  = mkResponse 200
      (JObj [ ("Irn", JStr "IRN123"); ("CancelDate", JStr "2024-01-01") ]).
Proof.
  destruct (credit_note_marked_only_after_record
              (sample_env cancel_credit_note_body authenticated enhanced_authenticated
                 irn_generated irn_cancelled inserted_invoice (found JNull))
              (found (JObj [ ("id", JNum 3); ("unit_id", JNum 1) ])) (found JNull)
              (found JNull) TokenCache.cache0
              (JObj [ ("is_cancelled", JBool true); ("credit_note_no", JStr "CN-1") ]))
    as (before & headers & call_body & r & cancelData & _ & _ & _ & _ & Hf & Hj & _ & Hres).
  - vm_compute. do 6 right. left. reflexivity.
  - vm_compute in Hf. inversion Hf; subst r. vm_compute in Hj. inversion Hj; subst cancelData.
    exact Hres.
Defined.

(** ** The order bookkeeping of the generate-IRN handler *)

Section OrderBookkeeping.

Variable JSON_stringify : JsVal -> JsVal.
Variable Number : JsVal -> JsVal.
Variable newDate : JsVal -> JsVal.
Variable js_add : JsVal -> JsVal -> JsVal.
Variable js_ge : JsVal -> JsVal -> bool.
Variable buildInvoiceData :
  JsVal -> JsVal -> JsVal -> option DbResult -> JsVal -> JsVal -> Res JsVal.
Variable env : Env.
Variable single update : DbResult.

Lemma prepare_with_orders (w : World) :
  GenerateIrn.prepare Number buildInvoiceData (with_orders single update env) w
  = GenerateIrn.prepare Number buildInvoiceData env w.
Proof. reflexivity. Qed.

Lemma obtainIrn_with_orders (body document : JsVal) (w : World) :
  GenerateIrn.obtainIrn JSON_stringify (with_orders single update env) body document w
  = GenerateIrn.obtainIrn JSON_stringify env body document w.
Proof. reflexivity. Qed.

(** The bookkeeping leaves only events of the [orders] table, and goes
    on whatever that table answers as long as the quantities of the row
    have primitive values. *)
Lemma syncOrder_orders (e : Env) (body customer : JsVal) (w : World) :
  order_quantities_primitive (orders_single e) = true ->
  exists evs,
    GenerateIrn.syncOrder Number js_add js_ge e body customer w
    = ((if truthy (prop_opt body "po_number") && negb (printable (prop_opt body "quantity"))
        then Raise cannot_convert else Next tt),
       mkWorld (cache w) (events w ++ evs))
    /\ beside_orders evs = [].
Proof.
  unfold order_quantities_primitive, GenerateIrn.syncOrder, ToPrimitive. intros Hrow.
  destruct (truthy (prop_opt body "po_number")); cbn [andb].
  - destruct (printable (prop_opt body "quantity")); cbn [negb].
    2:{ exists []. rewrite app_nil_r. destruct w. split; reflexivity. }
    rewrite (bind_next _ _ _ _ _ (lift_ok _ _)).
    rewrite (bind_next _ _ _ _ _ (store_run _ _ _ _)).
    destruct (negb (truthy (error (orders_single e)))
              && truthy (data (orders_single e))).
    + cbv zeta. apply andb_true_iff in Hrow. destruct Hrow as [Hd Ho].
      rewrite Hd, Ho.
      rewrite !(bind_next _ _ _ _ _ (lift_ok _ _)).
      rewrite (bind_next _ _ _ _ _ (store_run _ _ _ _)).
      unfold ret. cbn [cache events]. rewrite <- app_assoc.
      eexists. split; reflexivity.
    + unfold ret. cbn [cache events]. eexists. split; reflexivity.
  - unfold ret. exists []. rewrite app_nil_r. destruct w; split; reflexivity.
Qed.

(** What the data store answers to the update of the order is never
    looked at. *)
Lemma syncOrder_ignores_update (other : DbResult) (body customer : JsVal) (w : World) :
  GenerateIrn.syncOrder Number js_add js_ge (with_orders single update env) body
    customer w
  = GenerateIrn.syncOrder Number js_add js_ge (with_orders single other env) body
      customer w.
Proof.
  unfold GenerateIrn.syncOrder.
  destruct (truthy (prop_opt body "po_number")); [|reflexivity].
  unfold bind. destruct (lift _ w) as [[[]|r|e] w0]; [|reflexivity|reflexivity].
  rewrite !store_run. cbn [orders_single with_orders].
  destruct (negb (truthy (error single)) && truthy (data single)); [|reflexivity].
  cbv zeta.
  destruct (lift _ _) as [[[]|r|e] w1]; [|reflexivity|reflexivity].
  destruct (lift _ _) as [[[]|r|e] w2]; [|reflexivity|reflexivity].
  rewrite !store_run. reflexivity.
Qed.

Lemma persistAndAnswer_ignores_update (other : DbResult) (body u c n d irnData : JsVal)
  (w : World) :
  GenerateIrn.persistAndAnswer Number newDate js_add js_ge
    (with_orders single update env) body u c n d irnData w
  = GenerateIrn.persistAndAnswer Number newDate js_add js_ge
      (with_orders single other env) body u c n d irnData w.
Proof.
  unfold GenerateIrn.persistAndAnswer.
  rewrite !(bind_next _ _ _ _ _ (store_run _ _ _ _)). cbv beta.
  change (invoices_insert (with_orders single update env)) with (invoices_insert env).
  change (invoices_insert (with_orders single other env)) with (invoices_insert env).
  destruct (truthy (error (invoices_insert env))); [reflexivity|].
  unfold bind at 1 3. rewrite (syncOrder_ignores_update other). reflexivity.
Qed.

Lemma persistAndAnswer_with_orders (body u c n d irnData : JsVal) (w : World) :
  order_quantities_primitive (orders_single env) = true ->
  order_quantities_primitive single = true ->
  exists s evs evs',
    GenerateIrn.persistAndAnswer Number newDate js_add js_ge
      (with_orders single update env) body u c n d irnData w
    = (s, mkWorld (cache w) (events w ++ evs'))
    /\ GenerateIrn.persistAndAnswer Number newDate js_add js_ge env body u c n d
         irnData w
       = (s, mkWorld (cache w) (events w ++ evs))
    /\ beside_orders evs' = beside_orders evs.
Proof.
  intros Hrow Hrow'.
  unfold GenerateIrn.persistAndAnswer.
  rewrite !(bind_next _ _ _ _ _ (store_run _ _ _ _)). cbv beta.
  change (invoices_insert (with_orders single update env)) with (invoices_insert env).
  destruct (truthy (error (invoices_insert env))).
  - unfold bind, lift, respond.
    destruct (prop (error (invoices_insert env)) "message"); cbn [cache events];
      do 3 eexists; (split; [reflexivity|]); (split; [reflexivity|]); reflexivity.
  - destruct (syncOrder_orders (with_orders single update env) body c
                (mkWorld (cache w)
                   (events w
                    ++ [EvStore "invoices.insert"
                          (GenerateIrn.invoiceInsertData Number newDate body u n d
                             irnData)])) Hrow') as (evs' & Hs' & Hb').
    destruct (syncOrder_orders env body c
                (mkWorld (cache w)
                   (events w
                    ++ [EvStore "invoices.insert"
                          (GenerateIrn.invoiceInsertData Number newDate body u n d
                             irnData)])) Hrow) as (evs & Hs & Hb).
    destruct (truthy (prop_opt body "po_number")
              && negb (printable (prop_opt body "quantity"))).
    + rewrite (bind_raise _ _ _ _ _ Hs'), (bind_raise _ _ _ _ _ Hs).
      cbn [cache events]. rewrite <- !app_assoc. do 3 eexists.
      (split; [reflexivity|]); (split; [reflexivity|]).
      unfold beside_orders in *; rewrite !filter_app, Hb, Hb'; reflexivity.
    + rewrite (bind_next _ _ _ _ _ Hs'), (bind_next _ _ _ _ _ Hs). cbv beta.
      cbn [cache events]. unfold bind, lift, ret.
      destruct (GenerateIrn.successPayload (data (invoices_insert env)) irnData);
        rewrite <- !app_assoc; do 3 eexists;
        (split; [reflexivity|]); (split; [reflexivity|]);
        unfold beside_orders in *; rewrite !filter_app, Hb, Hb'; reflexivity.
Qed.

End OrderBookkeeping.
(** X29.  The order bookkeeping of the generate-IRN handler does not
    show in the answer.  What the data store answers to the update of
    the order is never looked at: with another answer the request runs
    to the same response, cache and events, so that a failed update is
    not reported.  Nor does the answer to the lookup of the order
    matter, be it an error, no row, or a row whose delivered and ordered
    quantities have primitive values (on a quantity without one the
    addition or the comparison throws): the request gets the same
    response and leaves the same cache, and all its events outside the
    [orders] table (the lookups, the remote calls, the insert of the
    invoice) are the same. *)
Theorem order_bookkeeping_never_changes_the_answer :
  forall (JSON_stringify Number newDate : JsVal -> JsVal)
         (js_add : JsVal -> JsVal -> JsVal) (js_ge : JsVal -> JsVal -> bool)
         (buildInvoiceData :
            JsVal -> JsVal -> JsVal -> option DbResult -> JsVal -> JsVal -> Res JsVal)
         (env : Env) (single update : DbResult) (c : TokenCache.Cache),
    (forall other : DbResult,
        GenerateIrn.handler JSON_stringify Number newDate js_add js_ge buildInvoiceData
          (with_orders single update env) (request c)
        = GenerateIrn.handler JSON_stringify Number newDate js_add js_ge
            buildInvoiceData (with_orders single other env) (request c))
    /\ (order_quantities_primitive (orders_single env) = true ->
        order_quantities_primitive single = true ->
        fst (GenerateIrn.handler JSON_stringify Number newDate js_add js_ge
               buildInvoiceData (with_orders single update env) (request c))
        = fst (GenerateIrn.handler JSON_stringify Number newDate js_add js_ge
                 buildInvoiceData env (request c))
        /\ cache (snd (GenerateIrn.handler JSON_stringify Number newDate js_add js_ge
                         buildInvoiceData (with_orders single update env) (request c)))
           = cache (snd (GenerateIrn.handler JSON_stringify Number newDate js_add js_ge
                           buildInvoiceData env (request c)))
        /\ beside_orders
             (events (snd (GenerateIrn.handler JSON_stringify Number newDate js_add
                             js_ge buildInvoiceData (with_orders single update env)
                             (request c))))
           = beside_orders
               (events (snd (GenerateIrn.handler JSON_stringify Number newDate js_add
                               js_ge buildInvoiceData env (request c))))).
Proof.
  intros JSON_stringify Number newDate js_add js_ge buildInvoiceData env single update c.
  split.
  { intros other.
    unfold GenerateIrn.handler, handle, GenerateIrn.handlerBody.
    change (req_body (with_orders single update env)) with (req_body env).
    change (req_body (with_orders single other env)) with (req_body env).
    unfold bind at 1 3.
    rewrite !prepare_with_orders.
    destruct (GenerateIrn.prepare Number buildInvoiceData env (request c))
      as [[p|r|e] w1]; [|reflexivity|reflexivity].
    unfold bind. rewrite !obtainIrn_with_orders.
    destruct (GenerateIrn.obtainIrn JSON_stringify env (req_body env)
                (GenerateIrn.invoiceData p) w1) as [[irnData|r|e] w2];
      [|reflexivity|reflexivity].
    rewrite (persistAndAnswer_ignores_update Number newDate js_add js_ge env single
               update other).
    reflexivity. }
  intros Hrow Hrow'.
  unfold GenerateIrn.handler, handle, GenerateIrn.handlerBody.
  change (req_body (with_orders single update env)) with (req_body env).
  destruct (GenerateIrn.prepare Number buildInvoiceData env (request c))
    as [[p|r|e] w1] eqn:Hp.
  2:{ rewrite (bind_respond _ _ _ _ _
                 (eq_trans (prepare_with_orders _ _ _ _ _ _) Hp)).
      rewrite (bind_respond _ _ _ _ _ Hp). repeat split. }
  2:{ rewrite (bind_raise _ _ _ _ _
                 (eq_trans (prepare_with_orders _ _ _ _ _ _) Hp)).
      rewrite (bind_raise _ _ _ _ _ Hp). repeat split. }
  rewrite (bind_next _ _ _ _ _ (eq_trans (prepare_with_orders _ _ _ _ _ _) Hp)).
  rewrite (bind_next _ _ _ _ _ Hp).
  destruct (GenerateIrn.obtainIrn JSON_stringify env (req_body env)
              (GenerateIrn.invoiceData p) w1) as [[irnData|r|e] w2] eqn:Ho.
  2:{ rewrite (bind_respond _ _ _ _ _
                 (eq_trans (obtainIrn_with_orders _ _ _ _ _ _ _) Ho)).
      rewrite (bind_respond _ _ _ _ _ Ho). repeat split. }
  2:{ rewrite (bind_raise _ _ _ _ _
                 (eq_trans (obtainIrn_with_orders _ _ _ _ _ _ _) Ho)).
      rewrite (bind_raise _ _ _ _ _ Ho). repeat split. }
  rewrite (bind_next _ _ _ _ _ (eq_trans (obtainIrn_with_orders _ _ _ _ _ _ _) Ho)).
  rewrite (bind_next _ _ _ _ _ Ho).
  destruct (persistAndAnswer_with_orders Number newDate js_add js_ge env single update
              (req_body env) (GenerateIrn.unitId p) (GenerateIrn.customerId p)
              (GenerateIrn.invoice_no p) (GenerateIrn.invoiceData p) irnData w2
              Hrow Hrow')
    as (s & evs & evs' & H' & H & Hb).
  rewrite H', H. unfold beside_orders in *.
  destruct s; cbn [fst snd cache events]; rewrite !filter_app, Hb; repeat split.
Qed.

Lemma order_bookkeeping_never_changes_the_answer_witness :
  fst (generateHandler sample_stringify sample_Number sample_newDate number_add
         number_ge sample_build
         (with_orders order_on_record (store_failure "update failed") scenario_ordered)
         (request TokenCache.cache0))
  = fst (generateHandler sample_stringify sample_Number sample_newDate number_add
           number_ge sample_build scenario_ordered (request TokenCache.cache0)).
Proof.
  destruct (order_bookkeeping_never_changes_the_answer
              sample_stringify sample_Number sample_newDate number_add number_ge
              sample_build scenario_ordered order_on_record
              (store_failure "update failed") TokenCache.cache0) as [_ H].
  destruct H as [Hresponse _]; [reflexivity | reflexivity | exact Hresponse].
Defined.

(** ** The first generate-IRN handler *)

(** Runs the handler on the answers at hand, one case of an answer at a
    time. *)
Ltac run_handler :=
  repeat first
    [ progress (cbv beta iota; cbn [cache events negb fst snd forallb andb])
    | match goal with
      | |- context [printable ?a] => destruct (printable a) eqn:?
      | |- context [match ?x with Ok _ => _ | Throw _ => _ end] => destruct x eqn:?
      | |- context [js_strict_eq ?a ?b] => destruct (js_strict_eq a b) eqn:?
      | |- context [if truthy ?a then _ else _] => destruct (truthy a) eqn:?
      | |- context [if negb (truthy ?a) then _ else _] => destruct (truthy a) eqn:?
      end ].

(** An event found in a list written out. *)
Ltac find_event Hin :=
  simpl in Hin;
  repeat match type of Hin with
         | _ \/ _ => destruct Hin as [Hin|Hin]
         end;
  first [ discriminate Hin | contradiction | idtac ].

(** X30.  The first generate-IRN handler relays what the e-invoice API
    said and writes to the invoice only an IRN the API issued.  Every
    answer with status 200 is the parsed body of one of the three remote
    calls of the request, whether the API accepted or rejected it.  A
    request that updates the invoice had its generate-irn call answered
    with a truthy [Irn] and writes that IRN with the QR code and the
    acknowledgement number of the same answer to the invoice of the
    request; it is answered 500 "Failed to update invoice with IRN data"
    when the update fails, with the body of the generate-irn answer
    when the update succeeds and the [Irn] has a string conversion, and
    500 "Internal server error" when it has none, the log line after
    the update throwing then.  The cache is never touched. *)
Theorem first_generate_handler_relays_and_saves :
  forall (env : Env) (c : TokenCache.Cache),
    (forall row,
        In (EvStore "invoices.update" row)
           (events (snd (GenerateIrnUncached.handler env (request c)))) ->
        exists r irnData,
          fetch_generate_irn env = Ok r
          /\ json r = Ok irnData
          /\ truthy (prop_opt irnData "Irn") = true
          /\ row = GenerateIrnUncached.issuedIrn irnData
                     (prop_opt (req_body env) "invoice_no")
          /\ fst (GenerateIrnUncached.handler env (request c))
             = (if truthy (error (invoices_update env))
                then mkResponse 500
                       (JObj [ ("status", JNum 0);
                               ("errorMessage",
                                JStr "Failed to update invoice with IRN data");
                               ("details", error (invoices_update env)) ])
                else if printable (prop_opt irnData "Irn")
                then mkResponse 200 irnData
                else mkResponse 500
                       (JObj [ ("status", JNum 0);
                               ("errorMessage", JStr "Internal server error") ])))
    /\ (status_code (fst (GenerateIrnUncached.handler env (request c))) = 200 ->
        relayed env (payload (fst (GenerateIrnUncached.handler env (request c)))))
    /\ cache (snd (GenerateIrnUncached.handler env (request c))) = c.
Proof.
  intros env c.
  destruct (GenerateIrnUncached.handler env (request c)) as [resp w] eqn:Hrun.
  revert Hrun.
  cbv beta iota zeta delta
    [GenerateIrnUncached.handler GenerateIrnUncached.handlerBody
       GenerateIrnUncached.saveIrn handle bind fetch emit lift ret respond store
       interpolate CancelIrn.answer CancelIrn.failure CancelIrn.onError request].
  run_handler.
  all: intros Hrun; injection Hrun as <- <-; cbn [fst snd cache events status_code payload].
  all: split; [|split; [|reflexivity]].
  all: try (intros row Hin; find_event Hin; [idtac]; injection Hin as <-;
            do 2 eexists; split; [reflexivity|]; split; [eassumption|];
            split; [eassumption|]; split; [reflexivity|];
            repeat match goal with
                   | H : printable _ = _ |- _ => rewrite H
                   end;
            reflexivity).
  all: try (intros row Hin; solve [find_event Hin]).
  all: intros Hstatus; try discriminate Hstatus.
  all: unfold relayed; eexists; (split; [|eassumption]); auto.
Qed.

Lemma first_generate_handler_relays_and_saves_witness :
  relayed
    (sample_env first_generate_body authenticate_rejected enhanced_authenticated
       irn_generated irn_cancelled inserted_invoice (found JNull))
    (JObj [ ("status", JNum 0); ("errorMessage", JStr "Invalid client") ]).
Proof.
  destruct (first_generate_handler_relays_and_saves
              (sample_env first_generate_body authenticate_rejected
                 enhanced_authenticated irn_generated irn_cancelled inserted_invoice
                 (found JNull)) warm_cache) as (_ & Hrelay & _).
  exact (Hrelay eq_refl).
Defined.

(** ** A write that fails after the upstream operation *)

(** C5.  The generate-IRN and the cancel-IRN handler do not report a
    partial success.  In the first request an IRN is issued and the
    insert of the invoice row fails; in the second the IRN is cancelled
    and the insert of the cancellation record fails.  Both answers carry
    the data-store failure and nothing of what the e-invoice API
    returned: the IRN occurs nowhere in them.  The regenerate handler,
    whose write fails after the same upstream success, answers with the
    failure and with the IRN under [irnGenerated]. *)
Theorem persistence_failure_drops_irn :
  (calls_to GENERATE_IRN_URL
     (events (snd (sample_invoke GenerateOperation scenario_insert_fails
                     TokenCache.cache0))) = 1%nat
   /\ fst (sample_invoke GenerateOperation scenario_insert_fails TokenCache.cache0)
      = mkResponse 500
          (JObj [ ("error", JStr "Invoice creation failed");
                  ("details", JStr "insert failed") ])
   /\ occurs_in (JStr "IRN123")
        (payload (fst (sample_invoke GenerateOperation scenario_insert_fails
                         TokenCache.cache0))) = false)
  /\ (calls_to CANCEL_IRN_URL
        (events (snd (sample_invoke CancelOperation scenario_D TokenCache.cache0)))
      = 1%nat
      /\ fst (sample_invoke CancelOperation scenario_D TokenCache.cache0)
         = mkResponse 500
             (JObj [ ("status", JNum 0);
                     ("errorMessage", JStr "Failed to record cancellation");
                     ("details", JObj [ ("message", JStr "insert failed") ]) ])
      /\ occurs_in (JStr "IRN123")
           (payload (fst (sample_invoke CancelOperation scenario_D TokenCache.cache0)))
         = false)
  /\ (calls_to PRODUCTION_GENERATE_IRN_URL
        (events (snd (sample_regenerate stored_credit_note
                        (store_failure "update failed")))) = 1%nat
      /\ fst (sample_regenerate stored_credit_note (store_failure "update failed"))
         = mkResponse 500
             (JObj [ ("error", JStr "Database Update Failed");
                     ("details", JStr "update failed");
                     ("irnGenerated", JStr "IRN123");
                     ("warning",
                      JStr "IRN was generated but failed to save to database") ])).
Proof. vm_compute. repeat split; reflexivity. Qed.

